(* ===== verification/_CoqProject ===== *)
-Q . S2P
Prelude.v
JsString.v
JsValue.v
Dom.v
DomTrees.v
Closures.v
Runtime.v
Safe.v
AddTime.v
CartPage.v
CartDrawer.v
Dispatch.v
AddTimeSpec.v
AddTimeModel.v
EditorSpec.v
PageSafe.v
PageSpec.v
