(* ===== verification/Prelude.v ===== *)
(** * Gift-wrap storefront scripts: a verification development

    The repository holds two browser scripts of a storefront theme:

    - [src/assets/gift-wrap.js], the add-time controller: a checkbox on
      the product form expands a recipient/sender/message field group, and
      a checked box turns the form's submission into one [fetch] of
      [/cart/add.js] that adds the product and the gift-wrap line together;
    - [src/assets/cart-gift-wrap-inline.js], the post-add editor: delegated
      click and change listeners on the cart page and on the cart drawer
      that update a gift-wrap line's properties or remove the line through
      [/cart/change.js].

    Both scripts are event handlers over the live document.  What they
    compute is small; what makes them right or wrong is the order of their
    writes to the document, what they send, and what they leave behind on
    each early return and on each failure.  The development therefore
    models the handlers statement by statement over an explicit model of
    the part of the browser they touch, and proves what each handler does
    on each of its paths.

    ** Files, in the order of their dependencies

    - [Prelude] (this file): the state-and-exception monad in which every
      handler is written ([prog], with [try_catch] and [try_finally] for
      the source's [try]/[catch]/[finally]), its notations (scope
      [prog_scope]), its laws, the reasoning rules [frames] (a
      computation leaves a projection of the state alone), [maintains]
      (it preserves an invariant) and [total] (it does not throw) with
      their hint databases, and the list lemmas the other files share.
    - [JsString]: strings as lists of UTF-16 code units, the ECMAScript
      white-space set, [trim], truthiness of strings, [parseInt] with
      radix 10, and the algebra of [trim].
    - [JsValue]: the values the scripts build and inspect ([jsval]),
      [||], thrown values ([js_error]), requests, responses.
    - [Dom]: elements, the node tree, the document; [querySelector],
      [querySelectorAll], [closest], [matches], [getElementById] over a
      syntax tree of selectors (an attribute selector compares the values
      of [type] and of the other attributes the HTML standard lists ASCII
      case-insensitively, [attr_value_eq]); [textContent], attributes, classes,
      styles, [createElement], [appendChild], [focus].  Its second half
      is the theory the handlers' proofs rest on: [agree sel d1 d2] (two
      documents no query with [sel] can tell apart) with every query
      invariant under it, the writes that are [invisible] to a selector,
      [leaf] elements (on which [textContent = s] keeps the element
      structure), [live] references, and the rewriting system [dom].
    - [DomTrees]: the tree surgery of [Dom] on any document, with no
      assumption on the markup: the identifiers of a document under
      [textContent = s], [createElement] and [appendChild]; [doc_wf] and
      [live] are preserved by each; an insertion of a new element under
      an element of the page is defined; what a query returns is an
      element of the document; an element and its ancestors are all
      different.
    - [Closures]: what outlives the call that creates it: the captured
      variables of [initializeGiftWrap] ([gw_instance]), listeners and
      timer callbacks ([callback]), the rest of an [async] function at
      its [await] ([continuation]).
    - [Runtime]: the page as a state ([world]: document, captured
      mutable variables, listeners, timers, requests in flight, the trace
      of effects, the default-prevented flag of the event being handled,
      the theme code around), the primitives over it ([js]), and the
      relations [runs] and [raises] with one lemma per primitive, by
      which a handler is executed symbolically.
    - [Safe]: a logic for handlers that cannot fail.  [good] is what
      holds of every page the scripts have run on (the document is well
      formed, every element captured by a listener, a timer callback or
      a pending continuation is in it, delegated listeners are on
      elements, nothing was reported as unhandled); [ext] says no element
      was lost; [safe t c w] says that [c], run on [w], keeps the page
      good, returns valid values and, for [t = true], does not throw.
      One rule per construct and per primitive, and the tactic [safe_go]
      that follows the text of a handler.
    - [AddTime], [Module GiftWrap]: [gift-wrap.js], one definition per
      function ([setExpanded], [showError], [hideError],
      [addProductsToCart], the change and submit listeners,
      [initializeGiftWrap]); then, per function, the document or world
      it produces as a pure function ([shown], [hidden], [expanded],
      [read_form], [request_of], [validate], [submit_spec], [settle],
      [resume_spec]) and the lemma that the function [runs] to it.
    - [CartPage], [Module Editor]: the cart-page methods of
      [cart-gift-wrap-inline.js] ([getGiftWrapFields], [setLoadingState],
      [showSuccess], [showError], [showFieldError], [clearErrors],
      [refreshCartUI], [updateGiftWrap], [removeGiftWrap],
      [cancelGiftWrap], the two section listeners, [bindEvents], [init])
      with their callbacks, and the same two layers of lemmas.
    - [CartDrawer], [Module Drawer]: the drawer methods
      ([toggleCartDrawerEditor], [showCartDrawerEditor],
      [hideCartDrawerEditor], [updateCartDrawerGiftWrap],
      [updateCartDrawerDisplay], [showCartDrawerError],
      [clearCartDrawerErrors], the two drawer listeners).
    - [Dispatch]: the browser that runs what the scripts registered.
      [run_callback] and [run_continuation] give each closure of
      [Closures] the body the source gives it; [boot] is the top level
      of the two scripts; [dispatch] sends an event along the path from
      its target to the document; at each target ([invoke_at]) the
      listeners registered for its type run in order, the [once]
      listeners are removed, and what a listener throws is reported;
      [page_next] is one task of the page (a click, a change, an input, a
      submit, a section event, a settled request, a timer), [page_step]
      and [page_run] the same as relations.  A click on a disabled form
      control is dropped ([is_disabled]); the path of an event starts at
      its target and visits no target twice.
    - [AddTimeSpec]: the theorems about the add-time controller, on a
      sample product page: each path of a submission, the request's
      payload, the settled response, collapsing and expanding; then the
      controller over time, as a step relation [step] (the shopper
      types, clicks, submits; the pending request settles) with its
      executable form [next], and what holds of every run: at most one
      request in flight, no request after a success, every request
      validated, no listener throws, and the page shows the state of the
      controller ([consistent]: [aria-expanded] and the display of the
      fields follow the checkbox, the error container is displayed
      exactly when it holds a message), from [initializeGiftWrap] on.
    - [AddTimeModel]: the contract of the add-time controller as a
      machine of three phases (idle, waiting for the shop, added) with
      labelled transitions ([astep]); the code refines it ([phase_of]
      maps a page to its phase, [label] an event to the transition it
      takes), so that what holds of the machine holds of the code: the
      number of requests is bounded by the number of failures, a failed
      add can be retried.
    - [EditorSpec]: the theorems about the inline editor, on a sample
      cart: what an update and a removal send, what the shopper sees when
      they fail or succeed, and that an update from the drawer always
      fails.
    - [PageSafe]: every function of the two scripts is [safe], on any
      good page; every listener, timer callback and continuation
      returns; so each task of the page keeps it good, and from a fresh
      page with both scripts loaded no sequence of events, responses and
      timers makes it report an uncaught exception or an unhandled
      rejection.
    - [PageSpec]: the two accounts of a page, related.  On a page
      [wired] as [initializeGiftWrap] leaves it, the task the browser
      runs for an event of the add-time controller is the step
      [AddTimeSpec.next] takes for it, and a run of the page is a run
      of the controller, so what [AddTimeSpec] and [AddTimeModel] prove
      of every run holds of the page as the browser runs it.  On the
      cart page, a click on an update button sends one change request
      per registration of the click listener on its path; [bindEvents]
      registers it again at every [shopify:section:load].  With one
      registration, [update_round_trip] follows an update over its
      three tasks: the click sends the request and sets the button
      disabled (a second click is then dropped when the button is a form
      control, and sends the request again when it is not), the accepted
      response enables it and starts the timer of two seconds, and the
      timer puts the label back; no input value changes on the way.
      [update_failure_trip] follows the update that fails: the message
      of the row is shown, the button is enabled again, and the timer of
      five seconds hides the message.
      In the drawer, [drawer_click_toggles] follows two clicks on the
      toggle or on a label inside it: each flips [aria-expanded] and
      shows or hides the editor, and the page is ready for the next.
      On the product page, [section_load_doubles_request] follows a
      [shopify:section:load] and the submission after it: the load runs
      [initializeGiftWrap] again (gift-wrap.js, line 152), the form gets
      a second submit listener whose guard is a new [isAddingGiftWrap],
      and one submission sends the add request twice.

    ** Conventions

    A source function [f] is a definition [f] in the [Module] of its
    script; local [const]s keep their names.  An [async] function is
    split at its [await fetch(...)]: the part before it is a [js]
    computation returning [Pending] after it has put its continuation in
    [inflight], the part after it is the [_resume] definition, which
    takes the settled outcome ([fetch_outcome]: rejection, or a status
    with a body that is JSON or not).  The [await] of [response.json()]
    that follows is folded into the same step: nothing of the page is
    read or written between the two.  A [finally] around an [await] runs
    when the function returns ([finally_settled]); an [async] call that
    is not awaited cannot throw into its caller ([spawn]).

    Strings are lists of code units, so [trim] and [parseInt] are the
    standard's on every input.  A request body is the value handed to
    [JSON.stringify], properties in insertion order.

    ** Bounds and assumptions

    - Numbers are [NaN] or an exact integer.  [parseInt] agrees with the
      engine on every numeral of magnitude below 2^53 (variant ids and
      quantities are far below); beyond, the engine rounds.
    - A selector is its syntax tree.  The selectors built from an item
      key (template literals in the source) are the tree the browser
      parses when the key holds no quote and no backslash; with such a
      character the browser's [querySelector] throws a SyntaxError.
    - The [value] of an element that is not a form control is the empty
      string in the model ([undefined] in the browser): the elements the
      scripts read [value] from are inputs and text areas.
    - [focus] records the element last given focus; whether the browser
      grants it (hidden or disabled elements) is not modelled.
    - [disabled] stops the clicks on form controls only ([button],
      [input], [select], [textarea]); on any other element it is a
      property nothing reads.  A [fieldset] that disables the controls
      inside it is not modelled.
    - [window.location.reload()] and the assignment of
      [window.location.href] are recorded as effects ([FxReload],
      [FxNavigate]); the page of the model goes on after them, so what
      is proved of later tasks is proved of a page that was not left.
    - [boot] runs the top level of the two scripts on the document as it
      is when they are evaluated.  [new GiftWrapInlineEditor()] (line 443)
      binds its delegated listeners to the cart markup it finds at that
      moment, and nothing when there is none yet; no input of the model
      adds markup afterwards, so the theorems that start from [boot] are
      about scripts evaluated once the markup is parsed (deferred, or at
      the end of the body), as the sample pages are.
    - No definition uses fuel: every recursion is structural, on a list
      or on the tree.
    - The path of an event is fixed when its dispatch starts, and the
      listeners of each target are those registered when the event
      reaches it, as in the DOM standard.  The removal of a listener
      during a dispatch, capture-phase listeners and [stopPropagation]
      are not used by the scripts and not modelled.
    - A user event targets an element of the page ([input_ok]); nothing
      else is assumed of the markup by the theorems of [PageSafe].
    - [wired], [inv], [update_ready], [toggle_ready], [consistent] and
      [good] are predicates on pages, not translations of code: they
      state what a theorem needs of the page, and each is decided on a
      sample page.  [wired] holds of a page with one controller and no
      listener of the theme on the paths of its events; a second
      [initializeGiftWrap] is outside it, and
      [section_load_doubles_request] says what it does.
    - The functional theorems about a handler assume what the markup
      provides and say so in their hypotheses: the elements the handler holds are
      [live], the elements whose text it replaces are [leaf]s, the row
      or container has its error element.  Each theorem is instantiated
      on the sample page of its file, where these are decided by
      evaluation.

    ** Not modelled

    Rendering and CSS; the parsing of selector text and the output of
    [JSON.stringify]; the server behind [/cart/*.js] (its answers are
    inputs); the theme's cart-rendering code (its presence and whether
    it throws are parameters); the native submission of the form and
    the navigation it causes (the model records whether the default
    action was prevented and the scripts' own navigation); the order in
    which the browser interleaves tasks (every order is a [page_run]).
    The functional theorems of [EditorSpec] cover [showError] and
    [showCartDrawerError] where the row or container has its error
    element; the branch that creates one is covered by [PageSafe]. *)

From stdpp Require Export prelude.

Declare Scope prog_scope.
Delimit Scope prog_scope with prog.

(** ** Completions

    A JavaScript statement list either runs to its end with a value or
    stops with a thrown value.  Writes made before the [throw] stay. *)

Inductive completion (E A : Type) : Type :=
| Normal (a : A)
| Thrown (e : E).
Arguments Normal {E A} a.
Arguments Thrown {E A} e.

#[export] Instance completion_eq_dec {E A} `{EqDecision E, EqDecision A} :
  EqDecision (completion E A).
Proof. solve_decision. Defined.

Definition is_normal {E A} (c : completion E A) : bool :=
  match c with Normal _ => true | Thrown _ => false end.

(** ** The monad of handlers *)

Section Prog.
Context {S E : Type}.

Definition prog (A : Type) : Type := S → completion E A * S.

#[export] Instance prog_ret : MRet prog := λ A a s, (Normal a, s).

#[export] Instance prog_bind : MBind prog := λ A B f c s,
  match c s with
  | (Normal a, s') => f a s'
  | (Thrown e, s') => (Thrown e, s')
  end.

#[export] Instance prog_fmap : FMap prog := λ A B f c s,
  match c s with
  | (Normal a, s') => (Normal (f a), s')
  | (Thrown e, s') => (Thrown e, s')
  end.

Definition get_state : prog S := λ s, (Normal s, s).
Definition gets {A} (f : S → A) : prog A := λ s, (Normal (f s), s).
Definition modify (f : S → S) : prog unit := λ s, (Normal (), f s).
Definition throw {A} (e : E) : prog A := λ s, (Thrown e, s).

(** [try { c } catch (e) { h e }] *)
Definition try_catch {A} (c : prog A) (h : E → prog A) : prog A := λ s,
  match c s with
  | (Normal a, s') => (Normal a, s')
  | (Thrown e, s') => h e s'
  end.

(** [try { c } finally { f }]: [f] runs on both completions of [c], and a
    throw of [f] replaces the completion of [c]. *)
Definition try_finally {A} (c : prog A) (f : prog unit) : prog A := λ s,
  match c s with
  | (r, s') =>
      match f s' with
      | (Normal _, s'') => (r, s'')
      | (Thrown e, s'') => (Thrown e, s'')
      end
  end.

(** [if (b) { c }] *)
Definition when (b : bool) (c : prog unit) : prog unit :=
  if b then c else mret ().

(** [l.forEach(f)] *)
Fixpoint for_each {A} (f : A → prog unit) (l : list A) : prog unit :=
  match l with
  | [] => mret ()
  | x :: l' => mbind (λ _, for_each f l') (f x)
  end.

(** Run for the final state only, or for the completion only. *)
Definition exec {A} (c : prog A) (s : S) : S := (c s).2.
Definition eval {A} (c : prog A) (s : S) : completion E A := (c s).1.

(** ** Pointwise equality of programs *)

#[export] Instance prog_equiv {A} : Equiv (prog A) := λ c1 c2, ∀ s, c1 s = c2 s.

(** ** Frames and invariants *)

(** [c] never changes the part of the state that [π] reads. *)
Definition frames {A X} (π : S → X) (c : prog A) : Prop :=
  ∀ s, π (c s).2 = π s.

(** [c] keeps [I], whichever way it completes. *)
Definition maintains {A} (I : S → Prop) (c : prog A) : Prop :=
  ∀ s, I s → I (c s).2.

(** [c] cannot throw. *)
Definition total {A} (c : prog A) : Prop :=
  ∀ s, is_normal (c s).1 = true.

End Prog.

Arguments prog : clear implicits.

Notation "'try:' c 'catch:' h" := (try_catch c h)
  (at level 10, c at level 200, h at level 200, only parsing) : prog_scope.
Notation "'try:' c 'finally:' f" := (try_finally c f)
  (at level 10, c at level 200, f at level 200, only parsing) : prog_scope.
Notation "'try:' c 'catch:' h 'finally:' f" := (try_finally (try_catch c h) f)
  (at level 10, c at level 200, h at level 200, f at level 200, only parsing)
  : prog_scope.

(** ** Hint databases

    [frame]: rules deriving [frames π c] from the shape of [c];
    [inv]: rules deriving [maintains I c];
    [total]: rules deriving [total c]. *)

Create HintDb frame discriminated.
Create HintDb inv discriminated.
Create HintDb total discriminated.

(** ** Tactics *)

(** Case analysis on the scrutinee of the first [match] or [if] of the goal,
    keeping the equation. *)
Ltac case_head :=
  match goal with
  | |- context [match ?x with _ => _ end] =>
      lazymatch x with
      | context [match _ with _ => _ end] => fail
      | _ => destruct x eqn:?
      end
  end.

(** Unfold the monad's operations and reduce. *)
Ltac prog_unfold :=
  unfold mbind, mret, fmap, prog_bind, prog_ret, prog_fmap, get_state, gets,
    modify, throw, try_catch, try_finally, when, exec, eval in *.

Ltac prog_simpl := prog_unfold; simpl in *.

(** Two programs are pointwise equal: introduce the state and compute. *)
Ltac prog_ext := let s := fresh "s" in intros s; prog_simpl.

Section ProgLaws.
Context {S E : Type}.
Implicit Types s : S.

#[export] Instance prog_equiv_equivalence {A} :
  Equivalence (≡@{prog S E A}).
Proof.
  split.
  - by intros c s.
  - intros c1 c2 H s. by rewrite H.
  - intros c1 c2 c3 H1 H2 s. by rewrite H1, H2.
Qed.

(** *** Monad laws *)

Lemma bind_ret_l {A B} (a : A) (f : A → prog S E B) :
  (mret a ≫= f) ≡ f a.
Proof. by prog_ext. Qed.

Lemma bind_ret_r {A} (c : prog S E A) : (c ≫= mret) ≡ c.
Proof. prog_ext. by destruct (c s) as [[a|e] s']. Qed.

Lemma bind_assoc {A B C} (c : prog S E A) (f : A → prog S E B)
    (g : B → prog S E C) :
  ((c ≫= f) ≫= g) ≡ (c ≫= λ a, f a ≫= g).
Proof. prog_ext. by destruct (c s) as [[a|e] s']. Qed.

Lemma bind_throw {A B} (e : E) (f : A → prog S E B) :
  (throw e ≫= f) ≡ throw e.
Proof. by prog_ext. Qed.

#[export] Instance bind_proper {A B} :
  Proper (pointwise_relation A (≡) ==> (≡) ==> (≡))
    (mbind (M := prog S E) (A := A) (B := B)).
Proof.
  intros f g Hfg c1 c2 Hc s. prog_simpl. rewrite Hc.
  destruct (c2 s) as [[a|e] s']; [apply Hfg | done].
Qed.

#[export] Instance try_catch_proper {A} :
  Proper ((≡) ==> pointwise_relation E (≡) ==> (≡)) (try_catch (S := S) (A := A)).
Proof.
  intros c1 c2 Hc h1 h2 Hh s. prog_simpl. rewrite Hc.
  destruct (c2 s) as [[a|e] s']; [done | apply Hh].
Qed.

#[export] Instance try_finally_proper {A} :
  Proper ((≡) ==> (≡) ==> (≡)) (try_finally (S := S) (E := E) (A := A)).
Proof.
  intros c1 c2 Hc f1 f2 Hf s. prog_simpl. rewrite Hc.
  destruct (c2 s) as [r s']. by rewrite Hf.
Qed.

(** *** Exceptions *)

Lemma try_catch_ret {A} (a : A) (h : E → prog S E A) :
  try_catch (mret a) h ≡ mret a.
Proof. by prog_ext. Qed.

Lemma try_catch_throw {A} (e : E) (h : E → prog S E A) :
  try_catch (throw e) h ≡ h e.
Proof. by prog_ext. Qed.

(** A handler that cannot throw makes the whole [try] unable to throw. *)
Lemma total_try_catch {A} (c : prog S E A) (h : E → prog S E A) :
  (∀ e, total (h e)) → total (try_catch c h).
Proof.
  intros Hh s. prog_simpl. destruct (c s) as [[a|e] s']; [done | apply Hh].
Qed.

(** The finaliser always runs: the final state is one the finaliser
    produced from the state in which the body stopped. *)
Lemma try_finally_runs {A} (c : prog S E A) (f : prog S E unit) s :
  (try_finally c f s).2 = (f (c s).2).2.
Proof. prog_simpl. destruct (c s) as [r s']. simpl. by destruct (f s') as [[[]|e] s'']. Qed.

Lemma try_finally_completion {A} (c : prog S E A) (f : prog S E unit) s :
  is_normal (f (c s).2).1 = true →
  (try_finally c f s).1 = (c s).1.
Proof.
  prog_simpl. destruct (c s) as [r s']. simpl.
  by destruct (f s') as [[[]|e] s''].
Qed.

(** *** Frame rules *)

Section Frames.
Context {X : Type} (π : S → X).

Lemma frames_ret {A} (a : A) : frames π (mret a : prog S E A).
Proof. done. Qed.

Lemma frames_throw {A} (e : E) : frames π (throw e : prog S E A).
Proof. done. Qed.

Lemma frames_gets {A} (f : S → A) : frames π (gets f : prog S E A).
Proof. done. Qed.

Lemma frames_get_state : frames π (get_state : prog S E S).
Proof. done. Qed.

Lemma frames_modify (f : S → S) :
  (∀ s, π (f s) = π s) → frames π (modify f : prog S E unit).
Proof. intros H s. apply H. Qed.

Lemma frames_bind {A B} (c : prog S E A) (f : A → prog S E B) :
  frames π c → (∀ a, frames π (f a)) → frames π (c ≫= f).
Proof.
  intros Hc Hf s. specialize (Hc s). prog_simpl.
  destruct (c s) as [[a|e] s']; simpl in *; [|done].
  by rewrite <- Hc, <- (Hf a s').
Qed.

Lemma frames_fmap {A B} (g : A → B) (c : prog S E A) :
  frames π c → frames π (g <$> c).
Proof.
  intros Hc s. specialize (Hc s). prog_simpl.
  by destruct (c s) as [[a|e] s'].
Qed.

Lemma frames_try_catch {A} (c : prog S E A) (h : E → prog S E A) :
  frames π c → (∀ e, frames π (h e)) → frames π (try_catch c h).
Proof.
  intros Hc Hh s. specialize (Hc s). prog_simpl.
  destruct (c s) as [[a|e] s']; simpl in *; [done|].
  by rewrite <- Hc, <- (Hh e s').
Qed.

Lemma frames_try_finally {A} (c : prog S E A) (f : prog S E unit) :
  frames π c → frames π f → frames π (try_finally c f).
Proof.
  intros Hc Hf s. rewrite try_finally_runs. by rewrite Hf, Hc.
Qed.

Lemma frames_when (b : bool) (c : prog S E unit) :
  frames π c → frames π (when b c).
Proof. destruct b; [done | intros _; apply frames_ret]. Qed.

Lemma frames_for_each {A} (f : A → prog S E unit) (l : list A) :
  (∀ a, frames π (f a)) → frames π (for_each f l).
Proof.
  intros Hf. induction l as [|a l IH]; simpl.
  - apply frames_ret.
  - apply frames_bind; auto.
Qed.

Lemma frames_if {A} (b : bool) (c1 c2 : prog S E A) :
  frames π c1 → frames π c2 → frames π (if b then c1 else c2).
Proof. by destruct b. Qed.

Lemma frames_option {A B} (o : option B) (c1 : B → prog S E A) (c2 : prog S E A) :
  (∀ b, frames π (c1 b)) → frames π c2 →
  frames π (match o with Some b => c1 b | None => c2 end).
Proof. destruct o; auto. Qed.

End Frames.

(** *** Invariant rules *)

Section Maintains.
Context (I : S → Prop).

Lemma maintains_ret {A} (a : A) : maintains I (mret a : prog S E A).
Proof. by intros s. Qed.

Lemma maintains_throw {A} (e : E) : maintains I (throw e : prog S E A).
Proof. by intros s. Qed.

Lemma maintains_gets {A} (f : S → A) : maintains I (gets f : prog S E A).
Proof. by intros s. Qed.

Lemma maintains_modify (f : S → S) :
  (∀ s, I s → I (f s)) → maintains I (modify f : prog S E unit).
Proof. intros H s. apply H. Qed.

Lemma maintains_bind {A B} (c : prog S E A) (f : A → prog S E B) :
  maintains I c → (∀ a, maintains I (f a)) → maintains I (c ≫= f).
Proof.
  intros Hc Hf s Hs. specialize (Hc s Hs). prog_simpl.
  destruct (c s) as [[a|e] s']; simpl in *; [|done].
  by apply Hf.
Qed.

Lemma maintains_fmap {A B} (g : A → B) (c : prog S E A) :
  maintains I c → maintains I (g <$> c).
Proof.
  intros Hc s Hs. specialize (Hc s Hs). prog_simpl.
  by destruct (c s) as [[a|e] s'].
Qed.

Lemma maintains_try_catch {A} (c : prog S E A) (h : E → prog S E A) :
  maintains I c → (∀ e, maintains I (h e)) → maintains I (try_catch c h).
Proof.
  intros Hc Hh s Hs. specialize (Hc s Hs). prog_simpl.
  destruct (c s) as [[a|e] s']; simpl in *; [done|].
  by apply Hh.
Qed.

Lemma maintains_try_finally {A} (c : prog S E A) (f : prog S E unit) :
  maintains I c → maintains I f → maintains I (try_finally c f).
Proof.
  intros Hc Hf s Hs. rewrite try_finally_runs. by apply Hf, Hc.
Qed.

Lemma maintains_when (b : bool) (c : prog S E unit) :
  maintains I c → maintains I (when b c).
Proof. destruct b; [done | intros _; apply maintains_ret]. Qed.

Lemma maintains_for_each {A} (f : A → prog S E unit) (l : list A) :
  (∀ a, maintains I (f a)) → maintains I (for_each f l).
Proof.
  intros Hf. induction l as [|a l IH]; simpl.
  - apply maintains_ret.
  - apply maintains_bind; auto.
Qed.

Lemma maintains_if {A} (b : bool) (c1 c2 : prog S E A) :
  maintains I c1 → maintains I c2 → maintains I (if b then c1 else c2).
Proof. by destruct b. Qed.

Lemma maintains_option {A B} (o : option B) (c1 : B → prog S E A) (c2 : prog S E A) :
  (∀ b, maintains I (c1 b)) → maintains I c2 →
  maintains I (match o with Some b => c1 b | None => c2 end).
Proof. destruct o; auto. Qed.

End Maintains.

(** *** Totality rules *)

Lemma total_ret {A} (a : A) : total (mret a : prog S E A).
Proof. done. Qed.

Lemma total_gets {A} (f : S → A) : total (gets f : prog S E A).
Proof. done. Qed.

Lemma total_modify (f : S → S) : total (modify f : prog S E unit).
Proof. done. Qed.

Lemma total_bind {A B} (c : prog S E A) (f : A → prog S E B) :
  total c → (∀ a, total (f a)) → total (c ≫= f).
Proof.
  intros Hc Hf s. specialize (Hc s). prog_simpl.
  destruct (c s) as [[a|e] s']; simpl in *; [apply Hf | done].
Qed.

Lemma total_fmap {A B} (g : A → B) (c : prog S E A) :
  total c → total (g <$> c).
Proof.
  intros Hc s. specialize (Hc s). prog_simpl.
  by destruct (c s) as [[a|e] s'].
Qed.

Lemma total_try_finally {A} (c : prog S E A) (f : prog S E unit) :
  total c → total f → total (try_finally c f).
Proof.
  intros Hc Hf s. rewrite try_finally_completion; [apply Hc | apply Hf].
Qed.

Lemma total_when (b : bool) (c : prog S E unit) : total c → total (when b c).
Proof. destruct b; [done | intros _; apply total_ret]. Qed.

Lemma total_for_each {A} (f : A → prog S E unit) (l : list A) :
  (∀ a, total (f a)) → total (for_each f l).
Proof.
  intros Hf. induction l as [|a l IH]; simpl.
  - apply total_ret.
  - apply total_bind; auto.
Qed.

Lemma total_if {A} (b : bool) (c1 c2 : prog S E A) :
  total c1 → total c2 → total (if b then c1 else c2).
Proof. by destruct b. Qed.

Lemma total_option {A B} (o : option B) (c1 : B → prog S E A) (c2 : prog S E A) :
  (∀ b, total (c1 b)) → total c2 →
  total (match o with Some b => c1 b | None => c2 end).
Proof. destruct o; auto. Qed.

(** A total program's completion carries a value. *)
Lemma total_normal {A} (c : prog S E A) s :
  total c → ∃ a, (c s).1 = Normal a.
Proof. intros H. specialize (H s). destruct (c s).1; [eauto | done]. Qed.

End ProgLaws.

#[export] Hint Resolve frames_ret frames_throw frames_gets frames_get_state
  frames_bind frames_fmap frames_try_catch frames_try_finally frames_when
  frames_for_each frames_if frames_option : frame.
#[export] Hint Resolve maintains_ret maintains_throw maintains_gets
  maintains_bind maintains_fmap maintains_try_catch maintains_try_finally
  maintains_when maintains_for_each maintains_if maintains_option : inv.
#[export] Hint Resolve total_ret total_gets total_modify total_bind total_fmap
  total_try_catch total_try_finally total_when total_for_each total_if
  total_option : total.

(** Solve a [frames], [maintains] or [total] goal by the rules, splitting the
    [match]es and [let]-bound pairs the rules do not see through. *)
Ltac solve_by_rules close :=
  repeat first
    [ progress (intros)
    | solve [close]
    | match goal with
      | |- _ (match ?x with _ => _ end) => destruct x
      | |- _ _ (match ?x with _ => _ end) => destruct x
      | |- _ (let '(_, _) := ?x in _) => destruct x
      | |- _ _ (let '(_, _) := ?x in _) => destruct x
      end
    | apply frames_bind | apply maintains_bind | apply total_bind
    | apply frames_try_finally | apply maintains_try_finally
    | apply total_try_finally
    | apply frames_try_catch | apply maintains_try_catch
    | apply total_try_catch
    | apply frames_for_each | apply maintains_for_each | apply total_for_each
    | apply frames_when | apply maintains_when | apply total_when
    | apply frames_fmap | apply maintains_fmap | apply total_fmap ].

Ltac solve_frame := solve_by_rules ltac:(eauto 2 with frame).
Ltac solve_inv := solve_by_rules ltac:(eauto 2 with inv).
Ltac solve_total := solve_by_rules ltac:(eauto 2 with total).

(** ** Lists *)

Section Lists.
Context {A : Type}.
Implicit Types (P : A → bool) (l : list A).

(** The longest suffix whose head fails [P]. *)
Fixpoint drop_while (P : A → bool) (l : list A) : list A :=
  match l with
  | [] => []
  | x :: l' => if P x then drop_while P l' else l
  end.

(** The longest prefix all of whose elements pass [P]. *)
Fixpoint take_while (P : A → bool) (l : list A) : list A :=
  match l with
  | [] => []
  | x :: l' => if P x then x :: take_while P l' else []
  end.

Lemma take_drop_while P l : take_while P l ++ drop_while P l = l.
Proof. induction l as [|x l IH]; simpl; [done|]. destruct (P x); simpl; by f_equal. Qed.

Lemma take_while_all P l : forallb P (take_while P l) = true.
Proof. induction l as [|x l IH]; simpl; [done|]. destruct (P x) eqn:?; simpl; [|done]. by rewrite IH, andb_true_r. Qed.

Lemma drop_while_head P l x l' : drop_while P l = x :: l' → P x = false.
Proof.
  induction l as [|y l IH]; simpl; [done|].
  destruct (P y) eqn:Hy; [done|]. by intros [= -> ->].
Qed.

Lemma drop_while_idemp P l : drop_while P (drop_while P l) = drop_while P l.
Proof.
  destruct (drop_while P l) as [|x l'] eqn:H; [done|].
  simpl. by rewrite (drop_while_head _ _ _ _ H).
Qed.

Lemma drop_while_all P l : forallb P l = true → drop_while P l = [].
Proof.
  induction l as [|x l IH]; simpl; [done|].
  destruct (P x); simpl; [done | discriminate].
Qed.

Lemma drop_while_nil_inv P l : drop_while P l = [] → forallb P l = true.
Proof.
  induction l as [|x l IH]; simpl; [done|].
  destruct (P x); simpl; [done | discriminate].
Qed.

Lemma drop_while_none P x l : P x = false → drop_while P (x :: l) = x :: l.
Proof. simpl. by intros ->. Qed.

Lemma drop_while_app_keep P l x l' :
  P x = false → drop_while P (l ++ x :: l') = drop_while P (l ++ [x]) ++ l'.
Proof.
  intros Hx. induction l as [|y l IH]; simpl.
  - by rewrite Hx.
  - destruct (P y); [done|]. simpl. f_equal. by rewrite <- app_assoc.
Qed.

Lemma forallb_app_true P l1 l2 :
  forallb P (l1 ++ l2) = true ↔ forallb P l1 = true ∧ forallb P l2 = true.
Proof. rewrite forallb_app. apply andb_true_iff. Qed.

Lemma forallb_reverse P l : forallb P (reverse l) = forallb P l.
Proof.
  induction l as [|x l IH]; simpl; [done|].
  rewrite reverse_cons, forallb_app, IH. simpl.
  rewrite andb_true_r. apply andb_comm.
Qed.

(** *** [filter], [fmap], [head] *)

Lemma filter_fmap_comm {B} (f : A → B) (P : B → Prop) (Q : A → Prop)
    `{∀ b, Decision (P b), ∀ a, Decision (Q a)} (l : list A) :
  (∀ a, P (f a) ↔ Q a) →
  filter P (f <$> l) = f <$> filter Q l.
Proof.
  intros HPQ. induction l as [|a l IH]; [done|]. csimpl.
  rewrite !filter_cons, IH.
  destruct (decide (P (f a))) as [HP|HP], (decide (Q a)) as [HQ|HQ];
    try done; by apply HPQ in HP || apply HPQ in HQ.
Qed.

Lemma filter_ext_in (P Q : A → Prop) `{∀ a, Decision (P a), ∀ a, Decision (Q a)} l :
  (∀ a, a ∈ l → (P a ↔ Q a)) → filter P l = filter Q l.
Proof.
  induction l as [|a l IH]; intros HPQ; [done|].
  rewrite !filter_cons, IH by (intros; apply HPQ; by right).
  destruct (decide (P a)) as [HP|HP], (decide (Q a)) as [HQ|HQ]; try done;
    exfalso; apply (HPQ a (list_elem_of_here _ _)) in HP || apply (HPQ a (list_elem_of_here _ _)) in HQ; done.
Qed.

Lemma filter_nil_iff (P : A → Prop) `{∀ a, Decision (P a)} l :
  filter P l = [] ↔ ∀ a, a ∈ l → ¬ P a.
Proof.
  induction l as [|a l IH]; [by split; [intros _ ? ?%elem_of_nil|]|].
  rewrite filter_cons. destruct (decide (P a)) as [HP|HP].
  - split; [done|]. intros Hall. by destruct (Hall a (list_elem_of_here _ _)).
  - rewrite IH. split.
    + intros Hl b [->|Hb]%elem_of_cons; auto.
    + intros Hall b Hb. apply Hall. by right.
Qed.

Lemma head_fmap {B} (f : A → B) l : head (f <$> l) = f <$> head l.
Proof. by destruct l. Qed.

Lemma head_filter_elem (P : A → Prop) `{∀ a, Decision (P a)} l a :
  head (filter P l) = Some a → a ∈ l ∧ P a.
Proof.
  intros Hh. apply head_Some in Hh as [l' Hl'].
  assert (a ∈ filter P l) as Ha by (rewrite Hl'; left).
  apply list_elem_of_filter in Ha. tauto.
Qed.

Lemma bind_ext_Forall {B} (f g : A → list B) l :
  Forall (λ a, f a = g a) l → l ≫= f = l ≫= g.
Proof. induction 1 as [|a l Ha _ IH]; [done|]. csimpl. by rewrite Ha, IH. Qed.

Lemma fmap_ext_Forall {B} (f g : A → B) l :
  Forall (λ a, f a = g a) l → f <$> l = g <$> l.
Proof. induction 1 as [|a l Ha _ IH]; [done|]. csimpl. by rewrite Ha, IH. Qed.

Lemma fmap_bind_list {B C} (f : B → C) (g : A → list B) l :
  f <$> (l ≫= g) = l ≫= (fmap f ∘ g).
Proof. induction l as [|a l IH]; [done|]. csimpl. by rewrite fmap_app, IH. Qed.

Lemma bind_nil_iff {B} (f : A → list B) l :
  l ≫= f = [] ↔ ∀ a, a ∈ l → f a = [].
Proof.
  induction l as [|a l IH]; csimpl; [by split; [intros _ ? ?%elem_of_nil|]|].
  rewrite app_nil, IH. split.
  - intros [Ha Hl] b [->|Hb]%elem_of_cons; auto.
  - intros Hall. split; [apply Hall; left | intros b Hb; apply Hall; by right].
Qed.

End Lists.
