(* ===== verification/JsString.v ===== *)
(** * JsString: the strings and numbers the scripts compute with

    A JavaScript string is a sequence of UTF-16 code units; the model is
    [list N], a code unit being a number below 65536.  The scripts use
    four operations of the language on them: [String.prototype.trim]
    (every field value is trimmed before it is validated or sent),
    truthiness ([!to], [value || 1]), [parseInt(s, 10)] (the variant ids
    and the quantity) and template interpolation (the item key inside a
    selector).  They are defined here from ECMA-262, with the properties
    of [trim] the validation theorems rest on. *)

From Stdlib Require Import Ascii String.
From S2P Require Import Prelude.

Abbreviation code_unit := N (only parsing).
Abbreviation jsstring := (list N) (only parsing).

(** A source literal, read as its sequence of code units (the literals of
    the scripts are ASCII). *)
Definition lit (s : string) : jsstring :=
  N_of_ascii <$> list_ascii_of_string s.

(** ** White space

    [trim] removes the code points of the productions WhiteSpace and
    LineTerminator (ECMA-262, 12.2 and 12.3): TAB, VT, FF, SP, NBSP,
    ZWNBSP and the category Zs; LF, CR, LS and PS.  All of them are in the
    basic plane, so the test is on one code unit. *)
Definition is_white_space (c : N) : bool :=
  ((9 <=? c) && (c <=? 13) || (c =? 32) || (c =? 160) || (c =? 5760)
   || (8192 <=? c) && (c <=? 8202) || (c =? 8232) || (c =? 8233)
   || (c =? 8239) || (c =? 8287) || (c =? 12288) || (c =? 65279))%N.

Definition all_white_space (s : jsstring) : bool := forallb is_white_space s.

(** ** [String.prototype.trimStart], [trimEnd], [trim] *)

Definition trimStart (s : jsstring) : jsstring := drop_while is_white_space s.

Definition trimEnd (s : jsstring) : jsstring :=
  reverse (drop_while is_white_space (reverse s)).

Definition trim (s : jsstring) : jsstring := trimEnd (trimStart s).

(** ** Truthiness of a string: every string but the empty one *)

Definition truthy_string (s : jsstring) : bool :=
  match s with [] => false | _ :: _ => true end.

(** ** Numbers

    The numbers the scripts handle are the results of [parseInt] and the
    literals [0], [1] and [303]: [NaN] or an integer.  An integer is kept
    as a [Z]; the Number it stands for is exact up to 2^53 in magnitude
    ([safe_integer]), and variant ids and quantities are far below. *)

Inductive jsnum : Type :=
| NaN
| Num (z : Z).

#[export] Instance jsnum_eq_dec : EqDecision jsnum.
Proof. solve_decision. Defined.

Definition safe_integer (z : Z) : bool :=
  ((- (2 ^ 53 - 1) <=? z) && (z <=? 2 ^ 53 - 1))%Z.

(** ** [parseInt(s, 10)] (ECMA-262, 19.2.5)

    Leading white space is skipped, one sign is read, then the longest
    run of decimal digits; no digit gives [NaN]; what follows the digits
    is ignored. *)

Definition is_digit (c : N) : bool := ((48 <=? c) && (c <=? 57))%N.

Definition digit_value (c : N) : Z := Z.of_N (c - 48).

(** The value of a run of digits, most significant first. *)
Definition digits_value (ds : jsstring) : Z :=
  foldl (λ acc c, 10 * acc + digit_value c)%Z 0%Z ds.

Definition parseInt10 (s : jsstring) : jsnum :=
  let s1 := trimStart s in
  let '(sign, s2) :=
    match s1 with
    | 45%N :: r => ((-1)%Z, r)
    | 43%N :: r => (1%Z, r)
    | _ => (1%Z, s1)
    end in
  match take_while is_digit s2 with
  | [] => NaN
  | ds => Num (sign * digits_value ds)
  end.

(** ** Properties of [trim] *)

Section Trim.
Implicit Types s : jsstring.

Lemma trimStart_head s c s' : trimStart s = c :: s' → is_white_space c = false.
Proof. apply drop_while_head. Qed.

Lemma trimEnd_last s c : last (trimEnd s) = Some c → is_white_space c = false.
Proof.
  unfold trimEnd. rewrite last_reverse.
  destruct (drop_while _ (reverse s)) as [|d r] eqn:H; simpl; [done|].
  intros [= ->]. by eapply drop_while_head.
Qed.

Lemma trimStart_idemp s : trimStart (trimStart s) = trimStart s.
Proof. apply drop_while_idemp. Qed.

Lemma trimEnd_idemp s : trimEnd (trimEnd s) = trimEnd s.
Proof. unfold trimEnd. by rewrite reverse_involutive, drop_while_idemp. Qed.

Lemma trimStart_all s : all_white_space s = true → trimStart s = [].
Proof. apply drop_while_all. Qed.

Lemma trimEnd_all s : all_white_space s = true → trimEnd s = [].
Proof.
  intros H. unfold trimEnd. rewrite drop_while_all; [done|].
  by rewrite forallb_reverse.
Qed.

Lemma trimEnd_nil_inv s : trimEnd s = [] → all_white_space s = true.
Proof.
  unfold trimEnd. intros H. apply (f_equal reverse) in H.
  rewrite reverse_involutive in H. simpl in H.
  apply drop_while_nil_inv in H. by rewrite forallb_reverse in H.
Qed.

(** What [trimStart] keeps starts with the same code unit after [trimEnd]. *)
Lemma trimEnd_cons_keep c s :
  is_white_space c = false → ∃ s', trimEnd (c :: s) = c :: s'.
Proof.
  intros Hc. unfold trimEnd. rewrite reverse_cons.
  induction (reverse s) as [|d r IH]; simpl.
  - rewrite Hc. by exists [].
  - destruct (is_white_space d).
    + apply IH.
    + rewrite reverse_cons, reverse_app. simpl. eauto.
Qed.

(** [trimEnd] leaves the front of the string alone, so a string without
    leading white space has none after [trimEnd] either. *)
Lemma trimStart_trimEnd s :
  trimStart s = s → trimStart (trimEnd s) = trimEnd s.
Proof.
  destruct s as [|c s]; [done|]. intros H.
  assert (is_white_space c = false) as Hc by by eapply trimStart_head.
  destruct (trimEnd_cons_keep c s Hc) as [s' ->].
  by apply drop_while_none.
Qed.

Lemma trim_trimStart s : trimStart (trim s) = trim s.
Proof. apply trimStart_trimEnd, trimStart_idemp. Qed.

Lemma trim_trimEnd s : trimEnd (trim s) = trim s.
Proof. apply trimEnd_idemp. Qed.

Lemma trim_idemp s : trim (trim s) = trim s.
Proof. unfold trim at 1. by rewrite trim_trimStart, trim_trimEnd. Qed.

Lemma trim_head s c s' : trim s = c :: s' → is_white_space c = false.
Proof. intros H. eapply trimStart_head. by rewrite trim_trimStart. Qed.

Lemma trim_last s c : last (trim s) = Some c → is_white_space c = false.
Proof. apply trimEnd_last. Qed.

Lemma trim_all_white_space s : all_white_space s = true → trim s = [].
Proof. intros H. unfold trim. by rewrite trimStart_all. Qed.

Lemma trimStart_decompose s :
  ∃ l, s = l ++ trimStart s ∧ all_white_space l = true.
Proof.
  exists (take_while is_white_space s). split.
  - symmetry. apply take_drop_while.
  - apply take_while_all.
Qed.

Lemma trimEnd_decompose s :
  ∃ r, s = trimEnd s ++ r ∧ all_white_space r = true.
Proof.
  destruct (trimStart_decompose (reverse s)) as (l & Hs & Hl).
  exists (reverse l). split.
  - apply (f_equal reverse) in Hs.
    by rewrite reverse_involutive, reverse_app in Hs.
  - unfold all_white_space. by rewrite forallb_reverse.
Qed.

(** The string is its trimmed middle between two runs of white space. *)
Lemma trim_decompose s :
  ∃ l r, s = l ++ trim s ++ r ∧
         all_white_space l = true ∧ all_white_space r = true.
Proof.
  destruct (trimStart_decompose s) as (l & Hs & Hl).
  destruct (trimEnd_decompose (trimStart s)) as (r & Hs' & Hr).
  exists l, r. split_and!; [|done..].
  unfold trim. by rewrite <- Hs'.
Qed.

Lemma trim_nil_inv s : trim s = [] → all_white_space s = true.
Proof.
  intros H. destruct (trim_decompose s) as (l & r & Hs & Hl & Hr).
  rewrite H in Hs. simpl in Hs. subst s.
  unfold all_white_space in *. by apply forallb_app_true.
Qed.

(** The recipient test [!to.trim()] fails exactly on a string of white
    space. *)
Lemma truthy_trim s : truthy_string (trim s) = negb (all_white_space s).
Proof.
  destruct (trim s) as [|c s'] eqn:H; simpl.
  - by rewrite (trim_nil_inv _ H).
  - destruct (all_white_space s) eqn:Hs; [|done].
    by rewrite (trim_all_white_space _ Hs) in H.
Qed.

(** A string with no white space at either end is its own trim. *)
Lemma trim_fixed s : trimStart s = s → trimEnd s = s → trim s = s.
Proof. intros H1 H2. unfold trim. by rewrite H1. Qed.

End Trim.

Create Rewrite HintDb jsstring.
#[export] Hint Rewrite trim_idemp trim_trimStart trim_trimEnd : jsstring.

(** ** Properties of [parseInt10] *)

Lemma parseInt10_trimStart s : parseInt10 (trimStart s) = parseInt10 s.
Proof. unfold parseInt10. by rewrite trimStart_idemp. Qed.
