(* ===== verification/JsValue.v ===== *)
(** * JsValue: values, thrown values, requests and responses

    The values the scripts build and inspect: the object literals handed
    to [JSON.stringify] as request bodies, and the parsed JSON of a
    response, of which the scripts read one property ([status] or
    [message]).  An object keeps its properties in insertion order, as
    [JSON.stringify] writes them.  Also here: what a handler can throw,
    what a [fetch] call sends and how it settles. *)

From stdpp Require Import strings.
From S2P Require Import Prelude JsString.

#[local] Set Warnings "-register-all".

(** ** Values *)

Inductive jsval : Type :=
| VUndefined
| VNull
| VBool (b : bool)
| VNum (n : jsnum)
| VStr (s : list N)
| VArr (items : list jsval)
| VObj (props : list (string * jsval)).

(** Truthiness (ECMA-262, 7.1.2 ToBoolean). *)
Definition truthy (v : jsval) : bool :=
  match v with
  | VUndefined | VNull => false
  | VBool b => b
  | VNum NaN => false
  | VNum (Num z) => negb (z =? 0)%Z
  | VStr s => truthy_string s
  | VArr _ | VObj _ => true
  end.

(** [a || b] *)
Definition js_or (a b : jsval) : jsval := if truthy a then a else b.

(** An optional string as a value: [undefined] when absent. *)
Definition of_option (o : option (list N)) : jsval :=
  match o with Some s => VStr s | None => VUndefined end.

(** [s || d] for an optional string [s] and a string [d]. *)
Definition str_or (o : option (list N)) (d : list N) : list N :=
  match o with
  | Some s => if truthy_string s then s else d
  | None => d
  end.

(** [v === n] for an integer literal [n]. *)
Definition strict_eq_int (v : jsval) (n : Z) : bool :=
  match v with VNum (Num z) => (z =? n)%Z | _ => false end.

(** Template interpolation of an optional string: [`${k}`]. *)
Definition interpolate (o : option (list N)) : list N :=
  match o with Some s => s | None => lit "undefined" end.

(** [parseInt(v, 10)]: of the string [ToString(v)].  A number below
    10^21 in magnitude is written as its decimal numeral, an array as its
    items separated by commas, and no other value starts with a digit. *)
Fixpoint parseInt (v : jsval) : jsnum :=
  match v with
  | VStr s => parseInt10 s
  | VNum n => n
  | VArr (x :: _) => parseInt x
  | _ => NaN
  end.

Fixpoint assoc (k : string) (l : list (string * jsval)) : option jsval :=
  match l with
  | [] => None
  | (k', v) :: l' => if bool_decide (k' = k) then Some v else assoc k l'
  end.

(** ** Thrown values *)

Inductive js_error : Type :=
| TypeError (what : string)        (* a property of null or undefined; a failed fetch *)
| ReferenceError (name : string)   (* a binding read before its initialisation *)
| SyntaxError                      (* a response body that is not JSON *)
| ErrorOf (message : jsval)        (* new Error(message) *)
| ExternalError                    (* thrown by code outside the scripts *)
| Dangling (id : nat).             (* a reference to no element: excluded by [doc_wf] *)

(** ** Property access on a parsed value

    [v.k] for a property name [k] that no built-in prototype defines
    ([status], [message]): the own property of an object, [undefined] on
    another value, a TypeError on [null] and [undefined]. *)
Definition get_prop (v : jsval) (k : string) : completion js_error jsval :=
  match v with
  | VUndefined | VNull => Thrown (TypeError k)
  | VObj props => Normal (default VUndefined (assoc k props))
  | _ => Normal VUndefined
  end.

(** ** Requests *)

Record request : Type := Request {
  req_url : string;
  req_method : string;
  req_headers : list (string * string);
  req_body : jsval;                 (* the argument of JSON.stringify *)
}.

Definition json_headers : list (string * string) :=
  [("Content-Type", "application/json"); ("Accept", "application/json")].

(** [fetch(url, { method: 'POST', headers: {...}, body: JSON.stringify(v) })] *)
Definition post_json (url : string) (v : jsval) : request :=
  Request url "POST" json_headers v.

(** ** Responses *)

(** The body of a response, as [response.json()] finds it. *)
Inductive body : Type :=
| BodyJson (v : jsval)
| BodyInvalid.

(** How a [fetch] settles: rejected (no response at all), or fulfilled
    with a response of some status.  The awaits on [fetch] and on
    [response.json()] are one step of the model: between them a handler
    only tests [response.ok]. *)
Inductive fetch_outcome : Type :=
| FetchRejected
| FetchResponse (status : Z) (b : body).

(** [response.ok] *)
Definition response_ok (status : Z) : bool :=
  ((200 <=? status) && (status <=? 299))%Z.

(** [await response.json()] *)
Definition response_json (b : body) : completion js_error jsval :=
  match b with
  | BodyJson v => Normal v
  | BodyInvalid => Thrown SyntaxError
  end.

(** ** Facts *)

Lemma truthy_js_or a b : truthy (js_or a b) = truthy a || truthy b.
Proof. unfold js_or. by destruct (truthy a) eqn:H; rewrite ?H. Qed.

Lemma js_or_truthy a b : truthy a = true → js_or a b = a.
Proof. unfold js_or. by intros ->. Qed.

Lemma js_or_falsy a b : truthy a = false → js_or a b = b.
Proof. unfold js_or. by intros ->. Qed.

Lemma str_or_js_or o d : VStr (str_or o d) = js_or (of_option o) (VStr d).
Proof. destruct o as [[|c s]|]; done. Qed.

Lemma str_or_Some s d : s ≠ [] → str_or (Some s) d = s.
Proof. by destruct s. Qed.

Lemma strict_eq_int_spec v n : strict_eq_int v n = true ↔ v = VNum (Num n).
Proof.
  destruct v as [| | |[|z]| | |]; simpl; try (split; [done | discriminate]).
  rewrite Z.eqb_eq. split; [by intros -> | by intros [= ->]].
Qed.

Lemma response_ok_spec status : response_ok status = true ↔ (200 ≤ status ≤ 299)%Z.
Proof. unfold response_ok. rewrite andb_true_iff, !Z.leb_le. done. Qed.
