(* ===== verification/Dom.v ===== *)
(** * Dom: the part of the document the scripts read and write

    An element is its tag, its content attributes, its class list and the
    four pieces of state the scripts touch ([value], [checked], [disabled],
    inline [style]).  The document is a tree of element identifiers and
    text nodes, with the elements' data in a finite map beside it: a script
    holds an element by its identifier, so two variables that name the same
    element see each other's writes, and an element that was created and
    never inserted ([detached]) can still be written to.

    Selectors are the fragment the scripts use: type, class, attribute
    presence and attribute equality (the values of [type] and of the
    other attributes the HTML standard lists are compared without regard
    to ASCII case), compounds of those, the descendant combinator and
    selector lists.  [querySelector], [querySelectorAll],
    [closest], [matches] and [getElementById] are defined on one view of
    the tree, [nodes]: every element in document order with its ancestors.

    The second half proves what the handlers' proofs need: which queries
    survive which writes, that text replacement on a leaf element leaves
    the element structure alone, and that the writes to elements, text
    replacement on a leaf and [createElement] preserve the
    well-formedness [doc_wf] of the document. *)

From stdpp Require Import gmap strings.
From S2P Require Import Prelude JsString.

#[local] Set Warnings "-register-all".

(** ** Elements *)

Record element : Type := Element {
  el_tag : string;                    (* local name, lower case *)
  el_attrs : gmap string (list N);    (* content attributes but class *)
  el_classes : gset string;           (* classList *)
  el_value : list N;                  (* the value of a form control *)
  el_checked : bool;                  (* checkedness of a checkbox *)
  el_disabled : bool;
  el_style : gmap string (list N);    (* inline style declarations *)
}.

#[export] Instance element_eq_dec : EqDecision element.
Proof. solve_decision. Defined.

Definition new_element (tag : string) : element :=
  Element tag ∅ ∅ [] false false ∅.

Definition with_attrs (f : gmap string (list N) → gmap string (list N))
    (e : element) : element :=
  Element (el_tag e) (f (el_attrs e)) (el_classes e) (el_value e)
    (el_checked e) (el_disabled e) (el_style e).

Definition with_classes (f : gset string → gset string) (e : element) : element :=
  Element (el_tag e) (el_attrs e) (f (el_classes e)) (el_value e)
    (el_checked e) (el_disabled e) (el_style e).

Definition with_value (v : list N) (e : element) : element :=
  Element (el_tag e) (el_attrs e) (el_classes e) v
    (el_checked e) (el_disabled e) (el_style e).

Definition with_checked (b : bool) (e : element) : element :=
  Element (el_tag e) (el_attrs e) (el_classes e) (el_value e)
    b (el_disabled e) (el_style e).

Definition with_disabled (b : bool) (e : element) : element :=
  Element (el_tag e) (el_attrs e) (el_classes e) (el_value e)
    (el_checked e) b (el_style e).

Definition with_style (f : gmap string (list N) → gmap string (list N))
    (e : element) : element :=
  Element (el_tag e) (el_attrs e) (el_classes e) (el_value e)
    (el_checked e) (el_disabled e) (f (el_style e)).

(** An element as markup gives it: its tag, attributes, classes, and for
    a control its value and checkedness. *)
Definition mk_element (tag : string) (attrs : list (string * string))
    (classes : list string) (value : string) (checked : bool) : element :=
  Element tag (list_to_map (prod_map id lit <$> attrs)) (list_to_set classes)
    (lit value) checked false ∅.

(** [el.style.p]: the empty string when the declaration is absent. *)
Definition style_of (p : string) (e : element) : list N :=
  default [] (el_style e !! p).

(** ** The tree *)

Inductive tree : Type :=
| Text (s : list N)
| Node (id : nat) (kids : list tree).

Definition root_id (t : tree) : option nat :=
  match t with Text _ => None | Node i _ => Some i end.

Definition is_root (id : nat) (t : tree) : bool :=
  match t with Text _ => false | Node i _ => bool_decide (i = id) end.

Definition is_node (t : tree) : bool :=
  match t with Text _ => false | Node _ _ => true end.

(** Every element of the tree in document order, with its ancestors,
    nearest first. *)
Fixpoint collect (anc : list nat) (t : tree) : list (nat * list nat) :=
  match t with
  | Text _ => []
  | Node i kids => (i, anc) :: (kids ≫= collect (i :: anc))
  end.

(** Every element subtree, in document order. *)
Fixpoint subtrees (t : tree) : list tree :=
  match t with
  | Text _ => []
  | Node _ kids => t :: (kids ≫= subtrees)
  end.

(** The text of the tree: its text nodes, concatenated in document order. *)
Fixpoint text_of (t : tree) : list N :=
  match t with
  | Text s => s
  | Node _ kids => kids ≫= text_of
  end.

Definition ids (t : tree) : list nat := (collect [] t).*1.

Definition subtree (id : nat) (t : tree) : option tree :=
  head (filter (is_root id) (subtrees t)).

(** Replace the children of the element [id]. *)
Fixpoint set_kids (id : nat) (ks : list tree) (t : tree) : tree :=
  match t with
  | Text s => Text s
  | Node i kids =>
      if bool_decide (i = id) then Node i ks
      else Node i (set_kids id ks <$> kids)
  end.

(** Take the subtree of [id] out of its parent. *)
Fixpoint prune (id : nat) (t : tree) : tree :=
  match t with
  | Text s => Text s
  | Node i kids =>
      Node i (filter (λ k, ¬ is_root id k) (prune id <$> kids))
  end.

(** ** The document *)

Record document : Type := Document {
  page : tree;              (* the tree under the document *)
  detached : list tree;     (* elements held by the script only *)
  elems : gmap nat element;
  next_id : nat;            (* the identifier of the next created element *)
  focused : option nat;     (* the element last given focus *)
}.

Definition with_page (f : tree → tree) (d : document) : document :=
  Document (f (page d)) (detached d) (elems d) (next_id d) (focused d).

Definition with_detached (f : list tree → list tree) (d : document) : document :=
  Document (page d) (f (detached d)) (elems d) (next_id d) (focused d).

Definition with_elems (f : gmap nat element → gmap nat element)
    (d : document) : document :=
  Document (page d) (detached d) (f (elems d)) (next_id d) (focused d).

Definition with_focused (o : option nat) (d : document) : document :=
  Document (page d) (detached d) (elems d) (next_id d) o.

(** The elements of the document, in document order with their ancestors. *)
Definition nodes (d : document) : list (nat * list nat) := collect [] (page d).

Definition all_trees (d : document) : list tree := page d :: detached d.

(** Each tree of the document as the list of its elements. *)
Definition skeleton (d : document) : list (list (nat * list nat)) :=
  collect [] <$> all_trees d.

Definition all_nodes (d : document) : list (nat * list nat) := mjoin (skeleton d).

Definition all_ids (d : document) : list nat := (all_nodes d).*1.

Definition find_tree (id : nat) (d : document) : option tree :=
  head (omap (subtree id) (all_trees d)).

Definition ancestors (id : nat) (d : document) : option (list nat) :=
  snd <$> head (filter (λ n, n.1 = id) (all_nodes d)).

(** ** Reading and writing an element *)

Definition get_elem (id : nat) (d : document) : option element := elems d !! id.

Definition update_elem (id : nat) (f : element → element) (d : document) : document :=
  with_elems (alter f id) d.

Definition setAttribute (a : string) (v : list N) : element → element :=
  with_attrs <[a := v]>.

Definition getAttribute (a : string) (e : element) : option (list N) :=
  el_attrs e !! a.

Definition classList_add (c : string) : element → element :=
  with_classes (λ cs, cs ∪ {[c]}).

Definition classList_remove (c : string) : element → element :=
  with_classes (λ cs, cs ∖ {[c]}).

Definition classList_contains (c : string) (e : element) : bool :=
  bool_decide (c ∈ el_classes e).

Definition set_style (p : string) (v : list N) : element → element :=
  with_style <[p := v]>.

(** [el.style.p = '']: the declaration is removed. *)
Definition clear_style (p : string) : element → element :=
  with_style (delete p).

(** [el.className = c] for one class name [c]. *)
Definition set_className (c : string) : element → element :=
  with_classes (λ _, {[c]}).

(** ** Text content *)

(** [el.textContent]: the text of the element's subtree. *)
Definition textContent (id : nat) (d : document) : option (list N) :=
  text_of <$> find_tree id d.

Definition element_kids (t : tree) : list tree :=
  match t with Text _ => [] | Node _ kids => filter is_node kids end.

Definition text_kids (s : list N) : list tree :=
  match s with [] => [] | _ => [Text s] end.

(** [el.textContent = s]: the children are replaced by one text node, or
    by nothing when [s] is empty.  The element children that were there
    are out of the tree afterwards, and still exist. *)
Definition set_textContent (id : nat) (s : list N) (d : document) : document :=
  match find_tree id d with
  | None => d
  | Some t =>
      Document (set_kids id (text_kids s) (page d))
        ((set_kids id (text_kids s) <$> detached d) ++ element_kids t)
        (elems d) (next_id d) (focused d)
  end.

(** ** Creating and inserting *)

(** [document.createElement(tag)] *)
Definition createElement (tag : string) (d : document) : nat * document :=
  (next_id d,
   Document (page d) (detached d ++ [Node (next_id d) []])
     (<[next_id d := new_element tag]> (elems d)) (S (next_id d)) (focused d)).

Definition append_kid (parent : nat) (k : tree) (t : tree) : tree :=
  match subtree parent t with
  | Some (Node _ kids) => set_kids parent (kids ++ [k]) t
  | _ => t
  end.

(** [parent.appendChild(child)]: the child leaves the place it was in and
    becomes the last child of [parent].  [None] when the insertion would
    make a cycle (the DOM throws HierarchyRequestError) or when one of the
    two is no element of the document. *)
Definition appendChild (parent child : nat) (d : document) : option document :=
  t ← find_tree child d;
  _ ← find_tree parent d;
  if bool_decide (parent ∈ ids t) then None
  else
    let clean (u : tree) := prune child u in
    let roots := filter (λ u, ¬ is_root child u) (clean <$> detached d) in
    Some (Document (append_kid parent t (clean (page d)))
            (append_kid parent t <$> roots)
            (elems d) (next_id d) (focused d)).

(** [el.focus()] *)
Definition focus (id : nat) (d : document) : document := with_focused (Some id) d.

(** ** Selectors *)

Inductive simple_selector : Type :=
| SelTag (t : string)                 (* form *)
| SelClass (c : string)               (* .error *)
| SelAttr (a : string)                (* [data-gift-wrap] *)
| SelAttrEq (a : string) (v : list N). (* [name="id"] *)

#[export] Instance simple_selector_eq_dec : EqDecision simple_selector.
Proof. solve_decision. Defined.

(** A compound selector: all of its simple selectors hold of one element. *)
Abbreviation compound := (list simple_selector) (only parsing).

(** A complex selector: the compound of the subject, and the compounds
    that descendant combinators put on its ancestors, nearest first:
    [A B C] is [{| subject := C; above := [B; A] |}]. *)
Record complex : Type := Complex {
  above : list (list simple_selector);
  subject : list simple_selector;
}.

(** A selector list: [A, B]. *)
Abbreviation selector := (list complex) (only parsing).

(** The attributes whose values a selector compares without regard to
    ASCII case on an HTML element (HTML, case-sensitivity of selectors):
    [input[type="text"]] holds of [<input type="TEXT">]. *)
Definition folds_case (a : string) : bool :=
  bool_decide (a ∈ ["accept"; "accept-charset"; "align"; "alink"; "axis";
    "bgcolor"; "charset"; "checked"; "clear"; "codetype"; "color"; "compact";
    "declare"; "defer"; "dir"; "direction"; "disabled"; "enctype"; "face";
    "frame"; "hreflang"; "http-equiv"; "lang"; "language"; "link"; "media";
    "method"; "multiple"; "nohref"; "noresize"; "noshade"; "nowrap";
    "readonly"; "rel"; "rev"; "rules"; "scope"; "scrolling"; "selected";
    "shape"; "target"; "text"; "type"; "valign"; "valuetype"; "vlink"]).

(** A code unit with [A] to [Z] mapped to [a] to [z]. *)
Definition ascii_lower (c : N) : N :=
  if ((65 <=? c) && (c <=? 90))%N then (c + 32)%N else c.

(** The value [u] of the attribute [a] is the value [v] the selector
    names. *)
Definition attr_value_eq (a : string) (u v : list N) : bool :=
  if folds_case a then bool_decide (ascii_lower <$> u = ascii_lower <$> v)
  else bool_decide (u = v).

Definition matches_simple (e : element) (s : simple_selector) : bool :=
  match s with
  | SelTag t => bool_decide (el_tag e = t)
  | SelClass c => bool_decide (c ∈ el_classes e)
  | SelAttr a => bool_decide (is_Some (el_attrs e !! a))
  | SelAttrEq a v =>
      match el_attrs e !! a with
      | Some u => attr_value_eq a u v
      | None => false
      end
  end.

Definition matches_compound (e : element) (c : compound) : bool :=
  forallb (matches_simple e) c.

(** The compounds [cs], nearest first, hold of some ancestors in [anc],
    nearest first, in the same order. *)
Fixpoint matches_above (cs : list compound) (anc : list element) : bool :=
  match cs with
  | [] => true
  | c :: cs' =>
      (fix go (anc : list element) : bool :=
         match anc with
         | [] => false
         | a :: anc' =>
             if matches_compound a c then matches_above cs' anc' else go anc'
         end) anc
  end.

Definition matches_complex (e : element) (anc : list element) (x : complex) : bool :=
  matches_compound e (subject x) && matches_above (above x) anc.

Definition matches_selector (e : element) (anc : list element) (sel : selector) : bool :=
  existsb (matches_complex e anc) sel.

(** The selector holds of the element [n.1] whose ancestors are [n.2]. *)
Definition matches_node (d : document) (sel : selector) (n : nat * list nat) : bool :=
  match elems d !! n.1 with
  | Some e => matches_selector e (omap (λ a, elems d !! a) n.2) sel
  | None => false
  end.

(** Shorthands for the selectors of the scripts. *)
Definition sel1 (s : simple_selector) : selector := [Complex [] [s]].
Definition sel_tag (t : string) : selector := sel1 (SelTag t).
Definition sel_class (c : string) : selector := sel1 (SelClass c).
Definition sel_attr (a : string) : selector := sel1 (SelAttr a).
Definition sel_attr_eq (a : string) (v : list N) : selector := sel1 (SelAttrEq a v).
Definition sel_tag_attr_eq (t a : string) (v : list N) : selector :=
  [Complex [] [SelTag t; SelAttrEq a v]].

(** ** Queries *)

(** [document.querySelectorAll(sel)] *)
Definition querySelectorAll (sel : selector) (d : document) : list nat :=
  (filter (matches_node d sel) (nodes d)).*1.

(** [document.querySelector(sel)] *)
Definition querySelector (sel : selector) (d : document) : option nat :=
  head (querySelectorAll sel d).

(** The descendants of [scope] in its tree, with their ancestors up to the
    root of that tree. *)
Definition descendants (scope : nat) (d : document) : list (nat * list nat) :=
  filter (λ n, scope ∈ n.2) (all_nodes d).

(** [scope.querySelectorAll(sel)]: the descendants of [scope] the selector
    holds of; the ancestors a combinator looks at may be above [scope]. *)
Definition querySelectorAll_in (scope : nat) (sel : selector) (d : document) : list nat :=
  (filter (matches_node d sel) (descendants scope d)).*1.

(** [scope.querySelector(sel)] *)
Definition querySelector_in (scope : nat) (sel : selector) (d : document) : option nat :=
  head (querySelectorAll_in scope sel d).

(** [el.matches(sel)] *)
Definition matches (id : nat) (sel : selector) (d : document) : bool :=
  match ancestors id d with
  | Some anc => matches_node d sel (id, anc)
  | None => false
  end.

(** [el.closest(sel)]: the element itself or its nearest ancestor the
    selector holds of. *)
Definition closest (id : nat) (sel : selector) (d : document) : option nat :=
  anc ← ancestors id d;
  head (filter (λ a, matches a sel d) (id :: anc)).

(** [document.getElementById(v)] *)
Definition getElementById (v : list N) (d : document) : option nat :=
  querySelector (sel_attr_eq "id" v) d.

(** ** Well-formed documents *)

(** An element without element children: a message container, a button
    with its label. *)
Definition leaf_in (id : nat) (t : tree) : Prop :=
  ∀ u, u ∈ subtrees t → is_root id u → element_kids u = [].

Definition leaf (id : nat) (d : document) : Prop :=
  Forall (leaf_in id) (all_trees d).

(** The element is in one of the trees of the document. *)
Definition attached (id : nat) (d : document) : Prop := is_Some (find_tree id d).

(** The element has its data. *)
Definition has_elem (id : nat) (d : document) : Prop := is_Some (elems d !! id).

(** No element is in two places, every element of a tree has its data,
    and the counter is above every identifier in use. *)
Record doc_wf (d : document) : Prop := {
  wf_nodup : NoDup (all_ids d);
  wf_data : ∀ id, id ∈ all_ids d → is_Some (elems d !! id);
  wf_fresh : ∀ id, is_Some (elems d !! id) → id < next_id d;
}.


(** * Properties *)

Create HintDb dom discriminated.

(** ** Elements: what a write leaves alone *)

(** The part of an element a selector can see. *)
Definition sel_view (e : element) : string * gmap string (list N) * gset string :=
  (el_tag e, el_attrs e, el_classes e).

(** A write that no selector can see: to [value], [checked], [disabled]
    or [style]. *)
Definition unseen (f : element → element) : Prop :=
  ∀ e, sel_view (f e) = sel_view e.

Lemma unseen_with_value v : unseen (with_value v).
Proof. done. Qed.
Lemma unseen_with_checked b : unseen (with_checked b).
Proof. done. Qed.
Lemma unseen_with_disabled b : unseen (with_disabled b).
Proof. done. Qed.
Lemma unseen_with_style f : unseen (with_style f).
Proof. done. Qed.
Lemma unseen_set_style p v : unseen (set_style p v).
Proof. done. Qed.
Lemma unseen_clear_style p : unseen (clear_style p).
Proof. done. Qed.

#[export] Hint Resolve unseen_with_value unseen_with_checked
  unseen_with_disabled unseen_with_style unseen_set_style
  unseen_clear_style : dom.

(** ** Induction on trees *)

Lemma tree_ind' (P : tree → Prop) :
  (∀ s, P (Text s)) →
  (∀ i kids, Forall P kids → P (Node i kids)) →
  ∀ t, P t.
Proof.
  intros Htext Hnode. fix IH 1. intros [s|i kids]; [apply Htext|].
  apply Hnode. induction kids as [|k kids IHk]; constructor; [apply IH | apply IHk].
Qed.

(** ** Trees without element children *)

Lemma is_node_set_kids id ks t : is_node (set_kids id ks t) = is_node t.
Proof. destruct t; simpl; [done|]. by case_bool_decide. Qed.

Lemma is_root_set_kids j id ks t : is_root j (set_kids id ks t) = is_root j t.
Proof. destruct t; simpl; [done|]. by case_bool_decide. Qed.

Lemma no_node_subtrees kids : filter is_node kids = [] → kids ≫= subtrees = [].
Proof.
  rewrite filter_nil_iff, bind_nil_iff. intros H [s|i ks] Hk; [done|].
  by destruct (H _ Hk).
Qed.

Lemma no_node_collect anc kids : filter is_node kids = [] → kids ≫= collect anc = [].
Proof.
  rewrite filter_nil_iff, bind_nil_iff. intros H [s|i ks] Hk; [done|].
  by destruct (H _ Hk).
Qed.

Lemma no_node_set_kids id ks kids :
  filter is_node kids = [] → set_kids id ks <$> kids = kids.
Proof.
  rewrite filter_nil_iff. intros H.
  rewrite <- (list_fmap_id kids) at 2. apply fmap_ext_Forall, Forall_forall.
  intros [s|i ks'] Hk; [done|]. by destruct (H _ Hk).
Qed.

Lemma text_kids_no_node s : filter is_node (text_kids s) = [].
Proof. by destruct s. Qed.

Lemma text_of_text_kids s : text_kids s ≫= text_of = s.
Proof. destruct s as [|c s]; [done|]. csimpl. by rewrite app_nil_r. Qed.

Lemma leaf_in_kid id i kids k : leaf_in id (Node i kids) → k ∈ kids → leaf_in id k.
Proof.
  intros H Hk u Hu. apply H. simpl. right.
  apply list_elem_of_bind. eauto.
Qed.

(** ** [set_kids] on a leaf *)

Section SetKidsLeaf.
Context (id : nat) (ks : list tree) (Hks : filter is_node ks = []).

Lemma collect_set_kids_leaf anc t :
  leaf_in id t → collect anc (set_kids id ks t) = collect anc t.
Proof.
  revert anc. induction t as [s|i kids IH] using tree_ind'; intros anc Hleaf; simpl; [done|].
  case_bool_decide as Hi; simpl.
  - subst i. f_equal. rewrite (no_node_collect _ _ Hks).
    symmetry. apply no_node_collect, (Hleaf (Node id kids)); [by left|].
    simpl. by case_bool_decide.
  - f_equal. rewrite list_fmap_bind. apply bind_ext_Forall.
    rewrite Forall_forall in IH |- *. intros k Hk. simpl. apply IH; [done|].
    by eapply leaf_in_kid.
Qed.

Lemma subtrees_set_kids_leaf t :
  leaf_in id t → subtrees (set_kids id ks t) = set_kids id ks <$> subtrees t.
Proof.
  induction t as [s|i kids IH] using tree_ind'; intros Hleaf; [done|].
  assert (Node i kids ∈ subtrees (Node i kids)) as Hself by by left.
  simpl. case_bool_decide as Hi; csimpl; rewrite ?bool_decide_true by done;
    rewrite ?bool_decide_false by done; f_equal.
  - subst i. rewrite (no_node_subtrees _ Hks).
    rewrite no_node_subtrees; [done|]. apply (Hleaf _ Hself). simpl. by case_bool_decide.
  - rewrite list_fmap_bind, fmap_bind_list. apply bind_ext_Forall.
    rewrite Forall_forall in IH |- *. intros k Hk. simpl. apply IH; [done|].
    by eapply leaf_in_kid.
Qed.

Lemma subtree_set_kids_leaf j t :
  leaf_in id t → subtree j (set_kids id ks t) = set_kids id ks <$> subtree j t.
Proof.
  intros Hleaf. unfold subtree. rewrite subtrees_set_kids_leaf by done.
  rewrite <- head_fmap. f_equal. apply filter_fmap_comm.
  intros u. by rewrite is_root_set_kids.
Qed.

Lemma leaf_in_set_kids j t :
  leaf_in id t → leaf_in j t → leaf_in j (set_kids id ks t).
Proof.
  intros Hid Hj u. rewrite subtrees_set_kids_leaf by done.
  intros (u' & -> & Hu')%list_elem_of_fmap. rewrite is_root_set_kids. intros Hr.
  specialize (Hj u' Hu' Hr). destruct u' as [s|i kids]; [done|]. simpl in *.
  destruct (bool_decide (i = id)); simpl; [exact Hks|].
  rewrite (filter_fmap_comm _ _ is_node); [by rewrite Hj|].
  intros k. by rewrite is_node_set_kids.
Qed.

End SetKidsLeaf.

(** A leaf other than [id] is left as it is. *)
Lemma set_kids_leaf_other id ks j kids :
  id ≠ j → filter is_node kids = [] →
  set_kids id ks (Node j kids) = Node j kids.
Proof.
  intros Hne Hkids. simpl. rewrite bool_decide_false by done.
  by rewrite no_node_set_kids.
Qed.

Lemma subtree_root id t u : subtree id t = Some u → u ∈ subtrees t ∧ is_root id u.
Proof. apply (head_filter_elem (λ u, is_root id u)). Qed.

Lemma omap_fmap_ext {A B} (f g : A → option B) (l : list A) :
  Forall (λ a, f a = g a) l → omap f l = omap g l.
Proof. induction 1 as [|a l Ha _ IH]; [done|]. csimpl. by rewrite Ha, IH. Qed.

Lemma omap_option_fmap {A B C} (f : B → C) (g : A → option B) (l : list A) :
  omap (λ a, f <$> g a) l = f <$> omap g l.
Proof.
  induction l as [|a l IH]; [done|]. csimpl. rewrite IH.
  by destruct (g a).
Qed.

Lemma omap_fmap_list {A B C} (f : A → B) (g : B → option C) (l : list A) :
  omap g (f <$> l) = omap (g ∘ f) l.
Proof. induction l as [|a l IH]; [done|]. csimpl. by rewrite IH. Qed.

(** ** Documents: writes to an element's data *)

Section UpdateElem.
Context (id : nat) (f : element → element) (d : document).

Lemma all_trees_update_elem : all_trees (update_elem id f d) = all_trees d.
Proof. done. Qed.

Lemma skeleton_update_elem : skeleton (update_elem id f d) = skeleton d.
Proof. done. Qed.

Lemma find_tree_update_elem j : find_tree j (update_elem id f d) = find_tree j d.
Proof. done. Qed.

Lemma textContent_update_elem j : textContent j (update_elem id f d) = textContent j d.
Proof. done. Qed.

Lemma focused_update_elem : focused (update_elem id f d) = focused d.
Proof. done. Qed.

Lemma elems_update_elem j :
  elems (update_elem id f d) !! j =
  if decide (id = j) then f <$> elems d !! j else elems d !! j.
Proof. simpl. rewrite lookup_alter. by destruct (decide (id = j)) as [->|]. Qed.

Lemma elems_update_elem_eq : elems (update_elem id f d) !! id = f <$> elems d !! id.
Proof. by rewrite elems_update_elem, decide_True. Qed.

Lemma elems_update_elem_ne j : id ≠ j → elems (update_elem id f d) !! j = elems d !! j.
Proof. intros. by rewrite elems_update_elem, decide_False. Qed.

(** Reading through a write a projection the write leaves alone, whether
    or not the two variables name the same element. *)
Lemma elems_update_elem_proj {A} (π : element → A) j :
  (∀ e, π (f e) = π e) →
  π <$> elems (update_elem id f d) !! j = π <$> elems d !! j.
Proof.
  intros Hπ. rewrite elems_update_elem. destruct (decide (id = j)); [|done].
  destruct (elems d !! j); simpl; [|done]. by rewrite Hπ.
Qed.

Lemma has_elem_update_elem j : has_elem j (update_elem id f d) ↔ has_elem j d.
Proof.
  unfold has_elem. rewrite elems_update_elem.
  destruct (decide (id = j)); [|done]. apply fmap_is_Some.
Qed.

Lemma attached_update_elem j : attached j (update_elem id f d) ↔ attached j d.
Proof. done. Qed.

Lemma leaf_update_elem j : leaf j (update_elem id f d) ↔ leaf j d.
Proof. done. Qed.

End UpdateElem.

(** ** Documents: focus *)

Lemma skeleton_focus id d : skeleton (focus id d) = skeleton d.
Proof. done. Qed.
Lemma elems_focus id d : elems (focus id d) = elems d.
Proof. done. Qed.
Lemma find_tree_focus id d j : find_tree j (focus id d) = find_tree j d.
Proof. done. Qed.
Lemma focused_focus id d : focused (focus id d) = Some id.
Proof. done. Qed.

(** ** Documents: text replacement *)

Lemma find_tree_elem j d u :
  find_tree j d = Some u → ∃ t, t ∈ all_trees d ∧ u ∈ subtrees t ∧ is_root j u.
Proof.
  unfold find_tree. intros Hh. apply head_Some_elem_of in Hh.
  apply list_elem_of_omap in Hh as (t & Ht & Hu).
  apply subtree_root in Hu as [Hu Hr]. eauto.
Qed.

Lemma elems_set_textContent id s d : elems (set_textContent id s d) = elems d.
Proof. unfold set_textContent. by destruct (find_tree id d). Qed.

Lemma focused_set_textContent id s d : focused (set_textContent id s d) = focused d.
Proof. unfold set_textContent. by destruct (find_tree id d). Qed.

Lemma next_id_set_textContent id s d : next_id (set_textContent id s d) = next_id d.
Proof. unfold set_textContent. by destruct (find_tree id d). Qed.

Lemma has_elem_set_textContent id s d j :
  has_elem j (set_textContent id s d) ↔ has_elem j d.
Proof. unfold has_elem. by rewrite elems_set_textContent. Qed.

Section SetTextLeaf.
Context (id : nat) (s : list N) (d : document) (Hleaf : leaf id d).

Lemma leaf_find_tree u : find_tree id d = Some u → element_kids u = [].
Proof.
  intros (t & Ht & Hu & Hr)%find_tree_elem.
  unfold leaf in Hleaf. rewrite Forall_forall in Hleaf. by eapply Hleaf.
Qed.

Lemma all_trees_set_textContent :
  attached id d →
  all_trees (set_textContent id s d) = set_kids id (text_kids s) <$> all_trees d.
Proof.
  intros [u Hu]. unfold set_textContent. rewrite Hu.
  unfold all_trees. simpl. by rewrite (leaf_find_tree u Hu), app_nil_r.
Qed.

Lemma skeleton_set_textContent : skeleton (set_textContent id s d) = skeleton d.
Proof.
  destruct (find_tree id d) as [u|] eqn:Hu; [|unfold set_textContent; by rewrite Hu].
  unfold skeleton. rewrite all_trees_set_textContent by by exists u.
  rewrite <- list_fmap_compose. apply fmap_ext_Forall.
  unfold leaf in Hleaf. rewrite Forall_forall in Hleaf |- *. intros t Ht. simpl.
  apply collect_set_kids_leaf; [apply text_kids_no_node | by apply Hleaf].
Qed.

Context (Hatt : attached id d).

Lemma find_tree_set_textContent j :
  find_tree j (set_textContent id s d) = set_kids id (text_kids s) <$> find_tree j d.
Proof.
  unfold find_tree at 1. rewrite all_trees_set_textContent by done.
  rewrite omap_fmap_list. unfold find_tree. rewrite <- head_fmap. f_equal.
  rewrite <- omap_option_fmap. apply omap_fmap_ext.
  unfold leaf in Hleaf. rewrite Forall_forall in Hleaf |- *. intros t Ht. simpl.
  apply subtree_set_kids_leaf; [apply text_kids_no_node | by apply Hleaf].
Qed.

Lemma attached_set_textContent j :
  attached j (set_textContent id s d) ↔ attached j d.
Proof. unfold attached. rewrite find_tree_set_textContent. apply fmap_is_Some. Qed.

Lemma leaf_set_textContent j : leaf j d → leaf j (set_textContent id s d).
Proof.
  unfold leaf. rewrite all_trees_set_textContent by done.
  rewrite Forall_fmap. unfold leaf in Hleaf.
  rewrite !Forall_forall in *. intros Hj t Ht. simpl.
  apply leaf_in_set_kids; [apply text_kids_no_node | by apply Hleaf | by apply Hj].
Qed.

(** After [el.textContent = s], [el.textContent] is [s]. *)
Lemma textContent_set_textContent :
  textContent id (set_textContent id s d) = Some s.
Proof.
  unfold textContent. rewrite find_tree_set_textContent.
  destruct Hatt as [u Hu]. rewrite Hu. simpl. f_equal.
  apply find_tree_elem in Hu as (t & _ & _ & Hr).
  destruct u as [|i kids]; [done|]. simpl in *.
  rewrite bool_decide_true by by apply bool_decide_unpack in Hr.
  apply text_of_text_kids.
Qed.

(** The text of another leaf is what it was. *)
Lemma textContent_set_textContent_ne j :
  id ≠ j → leaf j d → textContent j (set_textContent id s d) = textContent j d.
Proof.
  intros Hne Hj. unfold textContent. rewrite find_tree_set_textContent.
  destruct (find_tree j d) as [u|] eqn:Hu; [|done]. simpl. do 2 f_equal.
  pose proof Hu as (t & Ht & Hin & Hr)%find_tree_elem.
  unfold leaf in Hj. rewrite Forall_forall in Hj.
  specialize (Hj t Ht u Hin Hr). destruct u as [|i kids]; [done|].
  simpl in Hr. apply bool_decide_unpack in Hr as ->.
  by apply set_kids_leaf_other.
Qed.

End SetTextLeaf.

(** ** Selectors: what a match depends on *)

(** The simple selectors a selector is made of. *)
Definition simples_of (x : complex) : list simple_selector :=
  subject x ++ mjoin (above x).

Definition simples (sel : selector) : list simple_selector := sel ≫= simples_of.

(** Two elements that no simple selector of [S] tells apart. *)
Definition same_on (S : list simple_selector) (e e' : element) : Prop :=
  ∀ s, s ∈ S → matches_simple e s = matches_simple e' s.

#[export] Instance same_on_equivalence S : Equivalence (same_on S).
Proof.
  split.
  - by intros e s.
  - intros e e' H s Hs. by rewrite H.
  - intros e1 e2 e3 H1 H2 s Hs. by rewrite H1, H2.
Qed.

(** The value of [type] is compared without regard to case, the value of
    [name] exactly. *)
Lemma matches_type_folds_case e :
  el_attrs e !! "type" = Some (lit "TEXT") →
  matches_simple e (SelAttrEq "type" (lit "text")) = true.
Proof. simpl. by intros ->. Qed.

Lemma matches_name_exact e :
  el_attrs e !! "name" = Some (lit "ID") →
  matches_simple e (SelAttrEq "name" (lit "id")) = false.
Proof. simpl. by intros ->. Qed.

Lemma same_on_mono S S' e e' : S' ⊆ S → same_on S e e' → same_on S' e e'.
Proof. intros Hsub H s Hs. apply H, Hsub, Hs. Qed.

Lemma same_on_view S e e' : sel_view e = sel_view e' → same_on S e e'.
Proof.
  intros [= Ht Ha Hc] s _. destruct s; simpl; by rewrite ?Ht, ?Ha, ?Hc.
Qed.

Lemma same_on_unseen S f e : unseen f → same_on S (f e) e.
Proof. intros Hf. apply same_on_view, Hf. Qed.

(** The attribute [a] is named by no selector of [S]. *)
Definition attr_free (a : string) (S : list simple_selector) : bool :=
  forallb (λ s, match s with
                | SelAttr a' | SelAttrEq a' _ => negb (bool_decide (a' = a))
                | _ => true
                end) S.

(** The class [c] is named by no selector of [S]. *)
Definition class_free (c : string) (S : list simple_selector) : bool :=
  forallb (λ s, match s with
                | SelClass c' => negb (bool_decide (c' = c))
                | _ => true
                end) S.

Lemma same_on_setAttribute S a v e :
  attr_free a S = true → same_on S (setAttribute a v e) e.
Proof.
  unfold attr_free. rewrite forallb_forall. intros Hfree s Hs%list_elem_of_In.
  specialize (Hfree s Hs). destruct s as [| |a'|a' v']; simpl in *; try done;
    apply negb_true_iff, bool_decide_eq_false in Hfree;
    by rewrite lookup_insert_ne.
Qed.

Lemma same_on_classes S c (g : gset string → gset string) e :
  class_free c S = true →
  (∀ cs c', c' ≠ c → c' ∈ g cs ↔ c' ∈ cs) →
  same_on S (with_classes g e) e.
Proof.
  unfold class_free. rewrite forallb_forall. intros Hfree Hg s Hs%list_elem_of_In.
  specialize (Hfree s Hs). destruct s as [|c'| |]; simpl in *; try done.
  apply negb_true_iff, bool_decide_eq_false in Hfree.
  apply bool_decide_ext, Hg, Hfree.
Qed.

Lemma same_on_classList_add S c e :
  class_free c S = true → same_on S (classList_add c e) e.
Proof.
  intros H. eapply same_on_classes; [done|]. intros cs c' Hne.
  rewrite elem_of_union, elem_of_singleton. tauto.
Qed.

Lemma same_on_classList_remove S c e :
  class_free c S = true → same_on S (classList_remove c e) e.
Proof.
  intros H. eapply same_on_classes; [done|]. intros cs c' Hne.
  rewrite elem_of_difference, elem_of_singleton. tauto.
Qed.

Lemma matches_compound_same_on c e e' :
  same_on c e e' → matches_compound e c = matches_compound e' c.
Proof.
  unfold matches_compound. induction c as [|s c IH]; intros H; simpl; [done|].
  rewrite (H s) by left. f_equal. apply IH. intros s' Hs'. apply H. by right.
Qed.

Lemma matches_above_same_on cs anc anc' :
  Forall2 (same_on (mjoin cs)) anc anc' →
  matches_above cs anc = matches_above cs anc'.
Proof.
  revert anc anc'. induction cs as [|c cs IH]; intros anc anc' H; [done|].
  induction H as [|a a' anc anc' Ha H IHanc]; [done|]. simpl in *.
  rewrite (matches_compound_same_on c a a')
    by (eapply same_on_mono; [|done]; set_solver).
  destruct (matches_compound a' c); [|done].
  apply IH. eapply Forall2_impl; [done|]. intros ???.
  eapply same_on_mono; [|done]. set_solver.
Qed.

Lemma matches_selector_same_on sel e e' anc anc' :
  same_on (simples sel) e e' →
  Forall2 (same_on (simples sel)) anc anc' →
  matches_selector e anc sel = matches_selector e' anc' sel.
Proof.
  unfold matches_selector. induction sel as [|x sel IH]; intros He Hanc; [done|].
  simpl. f_equal.
  - unfold matches_complex. f_equal.
    + apply matches_compound_same_on. eapply same_on_mono; [|done].
      unfold simples, simples_of. set_solver.
    + apply matches_above_same_on. eapply Forall2_impl; [done|]. intros ???.
      eapply same_on_mono; [|done]. unfold simples, simples_of. set_solver.
  - apply IH.
    + eapply same_on_mono; [|done]. unfold simples. set_solver.
    + eapply Forall2_impl; [done|]. intros ???.
      eapply same_on_mono; [|done]. unfold simples. set_solver.
Qed.

(** ** Agreement of two documents on a selector

    The two documents have the same elements in the same places, and the
    data of each element matches the same simple selectors of [sel]. *)

Record agree (sel : selector) (d1 d2 : document) : Prop := {
  agree_skeleton : skeleton d1 = skeleton d2;
  agree_elems : ∀ id,
    option_Forall2 (same_on (simples sel)) (elems d1 !! id) (elems d2 !! id);
}.

#[export] Instance agree_equivalence sel : Equivalence (agree sel).
Proof.
  split.
  - intros d. split; [done|]. intros id. by destruct (elems d !! id); constructor.
  - intros d1 d2 [Hs He]. split; [done|]. intros id.
    destruct (He id); constructor. by symmetry.
  - intros d1 d2 d3 [Hs1 He1] [Hs2 He2]. split; [congruence|]. intros id.
    specialize (He1 id). specialize (He2 id).
    destruct He1 as [e1 e2 H12|]; inversion He2 as [? e3 H23|]; subst;
      constructor. by etrans.
Qed.

Section Agree.
Context (sel : selector) (d1 d2 : document) (H : agree sel d1 d2).

Lemma agree_nodes : nodes d1 = nodes d2.
Proof.
  destruct H as [Hs _]. unfold skeleton, all_trees in Hs. csimpl in Hs.
  by injection Hs.
Qed.

Lemma agree_all_nodes : all_nodes d1 = all_nodes d2.
Proof. destruct H as [Hs _]. unfold all_nodes. by rewrite Hs. Qed.

Lemma agree_ancestors id : ancestors id d1 = ancestors id d2.
Proof. unfold ancestors. by rewrite agree_all_nodes. Qed.

Lemma agree_descendants scope : descendants scope d1 = descendants scope d2.
Proof. unfold descendants. by rewrite agree_all_nodes. Qed.

Lemma agree_anc_elems (anc : list nat) :
  Forall2 (same_on (simples sel))
    (omap (λ a, elems d1 !! a) anc) (omap (λ a, elems d2 !! a) anc).
Proof.
  induction anc as [|a anc IH]; [constructor|]. csimpl.
  destruct (agree_elems _ _ _ H a); [by constructor | done].
Qed.

Lemma agree_matches_node n : matches_node d1 sel n = matches_node d2 sel n.
Proof.
  unfold matches_node. destruct (agree_elems _ _ _ H n.1) as [e1 e2 He|]; [|done].
  apply matches_selector_same_on; [done | apply agree_anc_elems].
Qed.

Lemma agree_querySelectorAll : querySelectorAll sel d1 = querySelectorAll sel d2.
Proof.
  unfold querySelectorAll. rewrite agree_nodes. f_equal.
  apply filter_ext_in. intros n _. by rewrite agree_matches_node.
Qed.

Lemma agree_querySelector : querySelector sel d1 = querySelector sel d2.
Proof. unfold querySelector. by rewrite agree_querySelectorAll. Qed.

Lemma agree_querySelectorAll_in scope :
  querySelectorAll_in scope sel d1 = querySelectorAll_in scope sel d2.
Proof.
  unfold querySelectorAll_in. rewrite agree_descendants. f_equal.
  apply filter_ext_in. intros n _. by rewrite agree_matches_node.
Qed.

Lemma agree_querySelector_in scope :
  querySelector_in scope sel d1 = querySelector_in scope sel d2.
Proof. unfold querySelector_in. by rewrite agree_querySelectorAll_in. Qed.

Lemma agree_matches id : matches id sel d1 = matches id sel d2.
Proof.
  unfold matches. rewrite agree_ancestors.
  destruct (ancestors id d2); [apply agree_matches_node | done].
Qed.

Lemma agree_closest id : closest id sel d1 = closest id sel d2.
Proof.
  unfold closest. rewrite agree_ancestors.
  destruct (ancestors id d2) as [anc|]; [|done]. simpl. f_equal.
  apply filter_ext_in. intros a _. unfold matches. rewrite agree_ancestors.
  destruct (ancestors a d2); [by rewrite agree_matches_node | done].
Qed.

End Agree.

Lemma agree_getElementById v d1 d2 :
  agree (sel_attr_eq "id" v) d1 d2 → getElementById v d1 = getElementById v d2.
Proof. apply agree_querySelector. Qed.

(** *** Writes under which two documents agree *)

Lemma agree_update_elem sel id f d :
  (∀ e, same_on (simples sel) (f e) e) → agree sel (update_elem id f d) d.
Proof.
  intros Hf. split; [done|]. intros j. rewrite elems_update_elem.
  destruct (decide (id = j)), (elems d !! j); by constructor.
Qed.

Lemma agree_update_unseen sel id f d : unseen f → agree sel (update_elem id f d) d.
Proof. intros Hf. apply agree_update_elem. intros e. by apply same_on_unseen. Qed.

Lemma agree_setAttribute sel id a v d :
  attr_free a (simples sel) = true → agree sel (update_elem id (setAttribute a v) d) d.
Proof. intros Hf. apply agree_update_elem. intros e. by apply same_on_setAttribute. Qed.

Lemma agree_classList_add sel id c d :
  class_free c (simples sel) = true → agree sel (update_elem id (classList_add c) d) d.
Proof. intros Hf. apply agree_update_elem. intros e. by apply same_on_classList_add. Qed.

Lemma agree_classList_remove sel id c d :
  class_free c (simples sel) = true →
  agree sel (update_elem id (classList_remove c) d) d.
Proof. intros Hf. apply agree_update_elem. intros e. by apply same_on_classList_remove. Qed.

Lemma agree_set_textContent sel id s d :
  leaf id d → agree sel (set_textContent id s d) d.
Proof.
  intros Hleaf. split; [by apply skeleton_set_textContent|].
  intros j. rewrite elems_set_textContent. by destruct (elems d !! j); constructor.
Qed.

Lemma agree_focus sel id d : agree sel (focus id d) d.
Proof. split; [done|]. intros j. simpl. by destruct (elems d !! j); constructor. Qed.

#[export] Hint Resolve agree_update_unseen agree_setAttribute agree_classList_add
  agree_classList_remove agree_set_textContent agree_focus : dom.

(** ** References the scripts hold

    A variable of a script names an element that exists: it is in the
    page or in a detached tree, and it has its data. *)

Definition live (id : nat) (d : document) : Prop := attached id d ∧ has_elem id d.

Lemma live_attached id d : live id d → attached id d.
Proof. by intros []. Qed.
Lemma live_has_elem id d : live id d → has_elem id d.
Proof. by intros []. Qed.

Lemma live_update_elem id f d j : live j d → live j (update_elem id f d).
Proof. intros [??]. split; [done | by apply has_elem_update_elem]. Qed.

Lemma live_focus id d j : live j d → live j (focus id d).
Proof. done. Qed.

Lemma live_set_textContent id s d j :
  leaf id d → attached id d → live j d → live j (set_textContent id s d).
Proof.
  intros Hleaf Hatt [??]. split.
  - by apply attached_set_textContent.
  - by apply has_elem_set_textContent.
Qed.

Lemma leaf_focus id d j : leaf j d → leaf j (focus id d).
Proof. done. Qed.

Lemma leaf_update_elem_2 id f d j : leaf j d → leaf j (update_elem id f d).
Proof. done. Qed.

#[export] Hint Resolve live_attached live_has_elem live_update_elem live_focus
  live_set_textContent leaf_focus leaf_update_elem_2 leaf_set_textContent : dom.


(** ** Queries across writes

    A write to an element's data is [invisible] to a selector when it
    changes the match of none of the selector's simple selectors.  A
    query with that selector then gives the same answer after the write;
    so it does after a text replacement on a leaf, and after a focus. *)

Definition invisible (sel : selector) (f : element → element) : Prop :=
  ∀ e, same_on (simples sel) (f e) e.

Lemma invisible_unseen sel f : unseen f → invisible sel f.
Proof. intros Hf e. by apply same_on_unseen. Qed.

Lemma invisible_setAttribute sel a v :
  attr_free a (simples sel) = true → invisible sel (setAttribute a v).
Proof. intros Hf e. by apply same_on_setAttribute. Qed.

Lemma invisible_classList_add sel c :
  class_free c (simples sel) = true → invisible sel (classList_add c).
Proof. intros Hf e. by apply same_on_classList_add. Qed.

Lemma invisible_classList_remove sel c :
  class_free c (simples sel) = true → invisible sel (classList_remove c).
Proof. intros Hf e. by apply same_on_classList_remove. Qed.

#[export] Hint Resolve invisible_unseen invisible_setAttribute
  invisible_classList_add invisible_classList_remove : dom.
#[export] Hint Extern 1 (attr_free _ _ = true) => reflexivity : dom.
#[export] Hint Extern 1 (class_free _ _ = true) => reflexivity : dom.

Section QueriesAcrossWrites.
Context (sel : selector) (d : document).

Section Update.
Context (id : nat) (f : element → element) (Hf : invisible sel f).

Let Hagree : agree sel (update_elem id f d) d.
Proof. by apply agree_update_elem. Qed.

Lemma querySelectorAll_update :
  querySelectorAll sel (update_elem id f d) = querySelectorAll sel d.
Proof. by apply agree_querySelectorAll. Qed.
Lemma querySelector_update :
  querySelector sel (update_elem id f d) = querySelector sel d.
Proof. by apply agree_querySelector. Qed.
Lemma querySelectorAll_in_update scope :
  querySelectorAll_in scope sel (update_elem id f d) = querySelectorAll_in scope sel d.
Proof. by apply agree_querySelectorAll_in. Qed.
Lemma querySelector_in_update scope :
  querySelector_in scope sel (update_elem id f d) = querySelector_in scope sel d.
Proof. by apply agree_querySelector_in. Qed.
Lemma matches_update j : matches j sel (update_elem id f d) = matches j sel d.
Proof. by apply agree_matches. Qed.
Lemma closest_update j : closest j sel (update_elem id f d) = closest j sel d.
Proof. by apply agree_closest. Qed.

End Update.

Section SetText.
Context (id : nat) (s : list N) (Hleaf : leaf id d).

Let Hagree : agree sel (set_textContent id s d) d.
Proof. by apply agree_set_textContent. Qed.

Lemma querySelectorAll_set_text :
  querySelectorAll sel (set_textContent id s d) = querySelectorAll sel d.
Proof. by apply agree_querySelectorAll. Qed.
Lemma querySelector_set_text :
  querySelector sel (set_textContent id s d) = querySelector sel d.
Proof. by apply agree_querySelector. Qed.
Lemma querySelectorAll_in_set_text scope :
  querySelectorAll_in scope sel (set_textContent id s d) = querySelectorAll_in scope sel d.
Proof. by apply agree_querySelectorAll_in. Qed.
Lemma querySelector_in_set_text scope :
  querySelector_in scope sel (set_textContent id s d) = querySelector_in scope sel d.
Proof. by apply agree_querySelector_in. Qed.
Lemma matches_set_text j : matches j sel (set_textContent id s d) = matches j sel d.
Proof. by apply agree_matches. Qed.
Lemma closest_set_text j : closest j sel (set_textContent id s d) = closest j sel d.
Proof. by apply agree_closest. Qed.

End SetText.

Section Focus.
Context (id : nat).

Let Hagree : agree sel (focus id d) d.
Proof. by apply agree_focus. Qed.

Lemma querySelectorAll_focus : querySelectorAll sel (focus id d) = querySelectorAll sel d.
Proof. by apply agree_querySelectorAll. Qed.
Lemma querySelector_focus : querySelector sel (focus id d) = querySelector sel d.
Proof. by apply agree_querySelector. Qed.
Lemma querySelectorAll_in_focus scope :
  querySelectorAll_in scope sel (focus id d) = querySelectorAll_in scope sel d.
Proof. by apply agree_querySelectorAll_in. Qed.
Lemma querySelector_in_focus scope :
  querySelector_in scope sel (focus id d) = querySelector_in scope sel d.
Proof. by apply agree_querySelector_in. Qed.
Lemma matches_focus j : matches j sel (focus id d) = matches j sel d.
Proof. by apply agree_matches. Qed.
Lemma closest_focus j : closest j sel (focus id d) = closest j sel d.
Proof. by apply agree_closest. Qed.

End Focus.

End QueriesAcrossWrites.

Lemma getElementById_update v id f d :
  invisible (sel_attr_eq "id" v) f →
  getElementById v (update_elem id f d) = getElementById v d.
Proof. apply querySelector_update. Qed.

Lemma getElementById_set_text v id s d :
  leaf id d → getElementById v (set_textContent id s d) = getElementById v d.
Proof. apply querySelector_set_text. Qed.

Lemma getElementById_focus v id d : getElementById v (focus id d) = getElementById v d.
Proof. apply querySelector_focus. Qed.

(** The rewriting system of the handlers' proofs: a read after writes is
    the read before them. *)
Create Rewrite HintDb dom.
#[export] Hint Rewrite elems_set_textContent elems_focus focused_focus
  focused_set_textContent focused_update_elem textContent_update_elem
  find_tree_update_elem find_tree_focus : dom.
#[export] Hint Rewrite @elems_update_elem_proj using (solve [intros; reflexivity]) : dom.
#[export] Hint Rewrite querySelectorAll_update querySelector_update
  querySelectorAll_in_update querySelector_in_update matches_update
  closest_update getElementById_update using (solve [eauto 6 with dom]) : dom.
#[export] Hint Rewrite querySelectorAll_set_text querySelector_set_text
  querySelectorAll_in_set_text querySelector_in_set_text matches_set_text
  closest_set_text getElementById_set_text using (solve [eauto 6 with dom]) : dom.
#[export] Hint Rewrite querySelectorAll_focus querySelector_focus
  querySelectorAll_in_focus querySelector_in_focus matches_focus closest_focus
  getElementById_focus : dom.
#[export] Hint Rewrite textContent_set_textContent
  using (solve [eauto 6 with dom]) : dom.
#[export] Hint Rewrite textContent_set_textContent_ne
  using (solve [eauto 6 with dom]) : dom.

(** ** What a query returns has its data *)

Lemma matches_node_has_elem d sel n : matches_node d sel n → has_elem n.1 d.
Proof. unfold matches_node, has_elem. by destruct (elems d !! n.1). Qed.

Lemma querySelectorAll_has_elem sel d el :
  el ∈ querySelectorAll sel d → has_elem el d.
Proof.
  unfold querySelectorAll. intros (n & -> & Hn)%list_elem_of_fmap.
  apply list_elem_of_filter in Hn as [Hn _]. by eapply matches_node_has_elem.
Qed.

Lemma querySelector_has_elem sel d el : querySelector sel d = Some el → has_elem el d.
Proof. intros H%head_Some_elem_of. by eapply querySelectorAll_has_elem. Qed.

Lemma querySelectorAll_in_has_elem scope sel d el :
  el ∈ querySelectorAll_in scope sel d → has_elem el d.
Proof.
  unfold querySelectorAll_in. intros (n & -> & Hn)%list_elem_of_fmap.
  apply list_elem_of_filter in Hn as [Hn _]. by eapply matches_node_has_elem.
Qed.

Lemma querySelector_in_has_elem scope sel d el :
  querySelector_in scope sel d = Some el → has_elem el d.
Proof. intros H%head_Some_elem_of. by eapply querySelectorAll_in_has_elem. Qed.

Lemma closest_has_elem id sel d el : closest id sel d = Some el → has_elem el d.
Proof.
  unfold closest. destruct (ancestors id d) as [anc|]; [|done]. simpl.
  intros [_ Hm]%(head_filter_elem (λ a, matches a sel d)).
  unfold matches in Hm. destruct (ancestors el d); [|done].
  by apply matches_node_has_elem in Hm.
Qed.

Lemma getElementById_has_elem v d el : getElementById v d = Some el → has_elem el d.
Proof. apply querySelector_has_elem. Qed.

#[export] Hint Resolve querySelector_has_elem querySelector_in_has_elem
  closest_has_elem getElementById_has_elem : dom.

(** The descendants of an element are elements of its tree below it, so
    what a scoped query returns is attached. *)
Lemma all_nodes_attached d n : n ∈ all_nodes d → attached n.1 d.
Proof.
  unfold all_nodes, skeleton, attached, find_tree.
  intros (l & Hn & (t & -> & Ht)%list_elem_of_fmap)%list_elem_of_join.
  assert (∀ anc u, n ∈ collect anc u → is_Some (subtree n.1 u)) as Hsub.
  { clear. intros anc u. revert anc.
    induction u as [s|i kids IH] using tree_ind'; intros anc; simpl.
    - by intros ?%elem_of_nil.
    - unfold subtree. simpl. rewrite filter_cons. simpl.
      intros [->|Hn]%elem_of_cons; simpl.
      + rewrite decide_True by by apply bool_decide_pack. by eexists.
      + destruct (decide _); [by eexists|].
        apply list_elem_of_bind in Hn as (k & Hn & Hk).
        rewrite Forall_forall in IH. destruct (IH k Hk _ Hn) as [v Hv].
        apply subtree_root in Hv as [Hv Hr].
        assert (v ∈ filter (λ u, is_root n.1 u) (kids ≫= subtrees)) as Hin.
        { apply list_elem_of_filter. split; [done|].
          apply list_elem_of_bind. eauto. }
        destruct (filter _ _) as [|v' l']; [by apply elem_of_nil in Hin|].
        by eexists. }
  destruct (Hsub _ _ Hn) as [v Hv].
  assert (v ∈ omap (subtree n.1) (all_trees d)) as Hin
    by (apply list_elem_of_omap; eauto).
  destruct (omap _ _) as [|v' l']; [by apply elem_of_nil in Hin | by eexists].
Qed.

Lemma querySelector_in_live scope sel d el :
  querySelector_in scope sel d = Some el → live el d.
Proof.
  intros H. split; [|by eapply querySelector_in_has_elem].
  apply head_Some_elem_of in H. unfold querySelectorAll_in in H.
  apply list_elem_of_fmap in H as (n & -> & Hn).
  apply list_elem_of_filter in Hn as [_ Hn].
  apply list_elem_of_filter in Hn as [_ Hn]. by apply all_nodes_attached.
Qed.

#[export] Hint Resolve querySelector_in_live : dom.

Lemma querySelector_live sel d el : querySelector sel d = Some el → live el d.
Proof.
  intros H. split; [|by eapply querySelector_has_elem].
  apply head_Some_elem_of in H. unfold querySelectorAll in H.
  apply list_elem_of_fmap in H as (n & -> & Hn).
  apply list_elem_of_filter in Hn as [_ Hn]. apply all_nodes_attached.
  unfold all_nodes, skeleton, all_trees. simpl. apply elem_of_app. by left.
Qed.

#[export] Hint Resolve querySelector_live querySelector_in_live : dom.

(** An element that matches [[a]] has the attribute [a]. *)
Lemma matches_sel_attr_inv id a d :
  matches id (sel_attr a) d = true →
  ∃ e v, elems d !! id = Some e ∧ getAttribute a e = Some v.
Proof.
  unfold matches, matches_node. destruct (ancestors id d) as [anc|]; [|done].
  simpl. destruct (elems d !! id) as [e|]; [|done]. simpl.
  unfold matches_complex, matches_compound. simpl.
  rewrite !andb_true_r, orb_false_r. intros [v Hv]%bool_decide_eq_true.
  by exists e, v.
Qed.

Lemma matches_has_elem id sel d : matches id sel d = true → has_elem id d.
Proof.
  unfold matches. destruct (ancestors id d); [|done].
  intros H. by apply (matches_node_has_elem d sel (id, l)), Is_true_true.
Qed.

(** ** Deciding the side conditions

    On a concrete document the conditions of the handlers' theorems are
    settled by evaluation. *)

#[export] Instance attached_dec id d : Decision (attached id d).
Proof. unfold attached. apply _. Defined.

#[export] Instance has_elem_dec id d : Decision (has_elem id d).
Proof. unfold has_elem. apply _. Defined.

#[export] Instance live_dec id d : Decision (live id d).
Proof. unfold live. apply _. Defined.

Lemma leaf_in_Forall id t :
  leaf_in id t ↔ Forall (λ u, is_root id u → element_kids u = []) (subtrees t).
Proof. unfold leaf_in. by rewrite Forall_forall. Qed.

#[export] Instance leaf_in_dec id t : Decision (leaf_in id t).
Proof.
  refine (cast_if (decide (Forall (λ u, is_root id u → element_kids u = [])
                             (subtrees t))));
    by rewrite leaf_in_Forall.
Defined.

#[export] Instance leaf_dec id d : Decision (leaf id d).
Proof. unfold leaf. apply _. Defined.

Lemma doc_wf_alt d :
  doc_wf d ↔
  NoDup (all_ids d) ∧ Forall (λ id, is_Some (elems d !! id)) (all_ids d) ∧
  map_Forall (λ id _, id < next_id d) (elems d).
Proof.
  rewrite Forall_forall. split.
  - intros [H1 H2 H3]. split_and!; [done..|]. intros id e He. apply H3. by exists e.
  - intros (H1 & H2 & H3). split; [done..|]. intros id [e He]. by apply (H3 id e).
Qed.

#[export] Instance doc_wf_dec d : Decision (doc_wf d).
Proof.
  refine (cast_if (decide (NoDup (all_ids d) ∧
                           Forall (λ id, is_Some (elems d !! id)) (all_ids d) ∧
                           map_Forall (λ id _, id < next_id d) (elems d))));
    by rewrite doc_wf_alt.
Defined.

(** ** Writing to several elements *)

(** [ids.forEach(id => f(id))] for a write [f] to the element's data. *)
Definition update_all (f : element → element) (l : list nat) (d : document) : document :=
  foldl (λ d id, update_elem id f d) d l.

Section UpdateAll.
Context (f : element → element).

Lemma update_all_cons id l d :
  update_all f (id :: l) d = update_all f l (update_elem id f d).
Proof. done. Qed.

Lemma elems_update_all l d j :
  elems (update_all f l d) !! j
  = Nat.iter (length (filter (λ i, i = j) l)) (fmap f) (elems d !! j).
Proof.
  revert d. induction l as [|i l IH]; intros d; [done|].
  rewrite update_all_cons, IH, elems_update_elem, filter_cons.
  destruct (decide (i = j)) as [->|]; [|done].
  cbn [length]. by rewrite Nat.iter_succ_r.
Qed.

Lemma elems_update_all_ne l d j : j ∉ l → elems (update_all f l d) !! j = elems d !! j.
Proof.
  intros Hj. rewrite elems_update_all.
  assert (filter (λ i, i = j) l = []) as ->; [|done].
  apply filter_nil_iff. intros i Hi ->. done.
Qed.

Lemma has_elem_update_all l d j : has_elem j (update_all f l d) ↔ has_elem j d.
Proof.
  unfold has_elem. rewrite elems_update_all.
  induction (length _) as [|n IH]; [done|]. simpl. by rewrite fmap_is_Some.
Qed.

Lemma skeleton_update_all l d : skeleton (update_all f l d) = skeleton d.
Proof. revert d. induction l as [|i l IH]; intros d; [done|]. by rewrite update_all_cons, IH. Qed.

Lemma all_trees_update_all l d : all_trees (update_all f l d) = all_trees d.
Proof. revert d. induction l as [|i l IH]; intros d; [done|]. by rewrite update_all_cons, IH. Qed.

Lemma textContent_update_all l d j : textContent j (update_all f l d) = textContent j d.
Proof.
  revert d. induction l as [|i l IH]; intros d; [done|].
  by rewrite update_all_cons, IH, textContent_update_elem.
Qed.

Lemma elems_update_all_proj {A} (π : element → A) l d j :
  (∀ e, π (f e) = π e) →
  π <$> elems (update_all f l d) !! j = π <$> elems d !! j.
Proof.
  intros Hπ. revert d. induction l as [|i l IH]; intros d; [done|].
  by rewrite update_all_cons, IH, elems_update_elem_proj.
Qed.

Lemma live_update_all l d j : live j d → live j (update_all f l d).
Proof.
  revert d. induction l as [|i l IH]; intros d Hj; [done|].
  rewrite update_all_cons. by apply IH, live_update_elem.
Qed.

Lemma leaf_update_all l d j : leaf j d → leaf j (update_all f l d).
Proof. unfold leaf. by rewrite all_trees_update_all. Qed.

Lemma agree_update_all sel l d : invisible sel f → agree sel (update_all f l d) d.
Proof.
  intros Hf. revert d. induction l as [|i l IH]; intros d; [done|].
  rewrite update_all_cons. etrans; [apply IH|]. by apply agree_update_elem.
Qed.

(** A write that settles a field ([f] after [f] is [f]) has written it
    on every element of the list. *)
Lemma elems_update_all_elem l d j :
  (∀ e, f (f e) = f e) → j ∈ l →
  elems (update_all f l d) !! j = f <$> elems d !! j.
Proof.
  intros Hf Hj. rewrite elems_update_all.
  assert (j ∈ filter (λ i, i = j) l) as Hin by (by apply list_elem_of_filter).
  destruct (filter _ l) as [|x l']; [by apply elem_of_nil in Hin|]. simpl.
  induction (length l') as [|n IH]; [done|]. simpl. rewrite IH.
  rewrite <- option_fmap_compose. apply option_fmap_ext. intros e. apply Hf.
Qed.

End UpdateAll.

#[export] Hint Resolve live_update_all leaf_update_all : dom.

(** ** Well-formedness is kept *)

Lemma all_ids_skeleton d d' : skeleton d' = skeleton d → all_ids d' = all_ids d.
Proof. unfold all_ids, all_nodes. by intros ->. Qed.

Lemma doc_wf_same_nodes d d' :
  skeleton d' = skeleton d →
  (∀ id, is_Some (elems d' !! id) ↔ is_Some (elems d !! id)) →
  next_id d' = next_id d →
  doc_wf d → doc_wf d'.
Proof.
  intros Hsk Hel Hn [H1 H2 H3]. split.
  - by rewrite (all_ids_skeleton _ _ Hsk).
  - intros id Hid. rewrite (all_ids_skeleton _ _ Hsk) in Hid. apply Hel. by apply H2.
  - intros id Hid. rewrite Hn. apply H3. by apply Hel.
Qed.

Lemma doc_wf_update_elem id f d : doc_wf d → doc_wf (update_elem id f d).
Proof.
  apply doc_wf_same_nodes; [done | | done].
  intros j. apply (has_elem_update_elem id f d j).
Qed.

Lemma doc_wf_focus id d : doc_wf d → doc_wf (focus id d).
Proof. by apply doc_wf_same_nodes. Qed.

Lemma doc_wf_update_all f l d : doc_wf d → doc_wf (update_all f l d).
Proof.
  apply doc_wf_same_nodes; [apply skeleton_update_all | | ].
  - intros j. apply (has_elem_update_all f l d j).
  - revert d. induction l as [|i l IH]; intros d; [done|].
    by rewrite update_all_cons, IH.
Qed.

Lemma doc_wf_set_textContent id s d :
  leaf id d → doc_wf d → doc_wf (set_textContent id s d).
Proof.
  intros Hleaf. apply doc_wf_same_nodes.
  - by apply skeleton_set_textContent.
  - intros j. by rewrite elems_set_textContent.
  - apply next_id_set_textContent.
Qed.

(** A created element is new: its identifier is in no tree. *)
Lemma doc_wf_fresh_id d : doc_wf d → next_id d ∉ all_ids d.
Proof.
  intros [_ H2 H3] Hin. specialize (H3 _ (H2 _ Hin)). lia.
Qed.

Lemma all_ids_createElement tag d :
  all_ids (createElement tag d).2 = all_ids d ++ [next_id d].
Proof.
  unfold all_ids, all_nodes, skeleton, all_trees. simpl.
  rewrite (fmap_app (collect [])), join_app, app_assoc, fmap_app. simpl. done.
Qed.

Lemma doc_wf_createElement tag d : doc_wf d → doc_wf (createElement tag d).2.
Proof.
  intros Hwf. pose proof (doc_wf_fresh_id _ Hwf) as Hfresh.
  destruct Hwf as [H1 H2 H3]. split.
  - rewrite all_ids_createElement. apply NoDup_app. split_and!; [done| |].
    + intros j Hj ->%list_elem_of_singleton. done.
    + apply NoDup_singleton.
  - intros j. rewrite all_ids_createElement. simpl.
    intros [Hj | ->%list_elem_of_singleton]%elem_of_app.
    + destruct (decide (next_id d = j)) as [<-|]; [by rewrite lookup_insert_eq|].
      rewrite lookup_insert_ne by done. by apply H2.
    + by rewrite lookup_insert_eq.
  - intros j. simpl. destruct (decide (next_id d = j)) as [<-|]; [lia|].
    rewrite lookup_insert_ne by done. intros Hj%H3. lia.
Qed.

#[export] Hint Resolve doc_wf_update_elem doc_wf_focus doc_wf_update_all
  doc_wf_set_textContent : dom.

(** Definitions the proofs use through their lemmas only. *)
Arguments set_textContent : simpl never.
Arguments update_elem : simpl never.
Arguments focus : simpl never.
Arguments querySelector : simpl never.
Arguments querySelectorAll : simpl never.
Arguments querySelector_in : simpl never.
Arguments querySelectorAll_in : simpl never.
Arguments closest : simpl never.
Arguments matches : simpl never.
Arguments getElementById : simpl never.
Arguments textContent : simpl never.
