(* ===== verification/DomTrees.v ===== *)
(** * DomTrees: the node tree under the writes that change its shape

    [Dom] proves what the scripts' writes do when they hit an element
    without element children, which is what the markup gives them.  This
    file is about the general case: [textContent = s] on an element that
    has element children (they leave the tree and stay alive),
    [createElement] and [appendChild] (an element moves).  It proves that
    a well-formed document stays well formed under each of them, and that
    no element is ever lost: an element that is in some tree of the
    document is in some tree afterwards.

    The proofs count identifiers: each write permutes the identifiers of
    the document, or adds one.  The last section shows that an element
    and its ancestors are all different, which is what makes the path of
    an event visit each target once. *)

From stdpp Require Import gmap strings.
From S2P Require Import Prelude JsString Dom.

(** ** Identifiers of a tree *)

Lemma collect_ids anc t : (collect anc t).*1 = ids t.
Proof.
  unfold ids. revert anc. induction t as [s|i kids IH] using tree_ind'; intros anc; [done|].
  simpl. f_equal. rewrite !fmap_bind_list. apply bind_ext_Forall.
  rewrite Forall_forall in IH |- *. intros k Hk. simpl.
  by rewrite (IH k Hk (i :: anc)), (IH k Hk [i]).
Qed.

Lemma ids_Node i kids : ids (Node i kids) = i :: (kids ≫= ids).
Proof.
  unfold ids at 1. simpl. f_equal. rewrite fmap_bind_list.
  apply bind_ext_Forall, Forall_forall. intros k _. apply collect_ids.
Qed.

Lemma ids_Text s : ids (Text s) = [].
Proof. done. Qed.

Lemma all_ids_trees d : all_ids d = all_trees d ≫= ids.
Proof.
  unfold all_ids, all_nodes, skeleton.
  induction (all_trees d) as [|t l IH]; [done|].
  csimpl. by rewrite fmap_app, IH.
Qed.

(** Text nodes carry no identifier. *)
Lemma ids_element_kids kids : filter is_node kids ≫= ids = kids ≫= ids.
Proof.
  induction kids as [|[s|i ks] kids IH]; [done| |].
  - rewrite filter_cons_False by (simpl; tauto). by csimpl.
  - rewrite filter_cons_True by done. csimpl. by rewrite IH.
Qed.

Lemma ids_no_node kids : filter is_node kids = [] → kids ≫= ids = [].
Proof. intros H. by rewrite <- ids_element_kids, H. Qed.

(** ** Finding an element *)

Lemma subtrees_roots t u : u ∈ subtrees t → ∃ i kids, u = Node i kids ∧ i ∈ ids t.
Proof.
  induction t as [s|i kids IH] using tree_ind'; simpl; [by intros ?%elem_of_nil|].
  rewrite ids_Node. intros [->|Hu]%elem_of_cons.
  - exists i, kids. split; [done | by left].
  - apply list_elem_of_bind in Hu as (k & Hu & Hk).
    rewrite Forall_forall in IH. destruct (IH k Hk Hu) as (j & ks & -> & Hj).
    exists j, ks. split; [done|]. right. apply list_elem_of_bind. eauto.
Qed.

Lemma subtree_Some_ids id t u : subtree id t = Some u → id ∈ ids t.
Proof.
  intros [Hu Hr]%subtree_root.
  destruct (subtrees_roots _ _ Hu) as (i & kids & -> & Hi).
  simpl in Hr. by apply bool_decide_unpack in Hr as ->.
Qed.

Lemma ids_subtree id t : id ∈ ids t → is_Some (subtree id t).
Proof.
  induction t as [s|i kids IH] using tree_ind'; [by intros ?%elem_of_nil|].
  rewrite ids_Node. unfold subtree. simpl. rewrite filter_cons. simpl.
  intros [->|Hid]%elem_of_cons.
  - rewrite decide_True by by apply bool_decide_pack. by eexists.
  - destruct (decide _); [by eexists|].
    apply list_elem_of_bind in Hid as (k & Hid & Hk).
    rewrite Forall_forall in IH. destruct (IH k Hk Hid) as [v Hv].
    apply subtree_root in Hv as [Hv Hr].
    assert (v ∈ filter (λ u, is_root id u) (kids ≫= subtrees)) as Hin.
    { apply list_elem_of_filter. split; [done|]. apply list_elem_of_bind. eauto. }
    destruct (filter _ _) as [|v' l']; [by apply elem_of_nil in Hin | by eexists].
Qed.

Lemma subtree_None id t : subtree id t = None ↔ id ∉ ids t.
Proof.
  split.
  - intros Hn Hin. destruct (ids_subtree _ _ Hin) as [u Hu]. congruence.
  - intros Hn. destruct (subtree id t) as [u|] eqn:Hu; [|done].
    by apply subtree_Some_ids in Hu.
Qed.

(** An element is attached exactly when its identifier is in a tree. *)
Lemma attached_all_ids id d : attached id d ↔ id ∈ all_ids d.
Proof.
  rewrite all_ids_trees. unfold attached, find_tree. split.
  - intros [u Hu]. apply head_Some_elem_of, list_elem_of_omap in Hu as (t & Ht & Hu).
    apply list_elem_of_bind. exists t. split; [|done]. by eapply subtree_Some_ids.
  - intros (t & Hid & Ht)%list_elem_of_bind.
    destruct (ids_subtree _ _ Hid) as [u Hu].
    assert (u ∈ omap (subtree id) (all_trees d)) as Hin
      by (apply list_elem_of_omap; eauto).
    destruct (omap _ _) as [|v l]; [by apply elem_of_nil in Hin | by eexists].
Qed.

(** ** Replacing the children of an element *)

Lemma set_kids_notin id ks t : id ∉ ids t → set_kids id ks t = t.
Proof.
  induction t as [s|i kids IH] using tree_ind'; [done|].
  rewrite ids_Node. intros Hn. simpl.
  rewrite bool_decide_false by (intros ->; apply Hn; by left).
  f_equal. rewrite <- (list_fmap_id kids) at 2.
  apply fmap_ext_Forall. rewrite Forall_forall in IH |- *.
  intros k Hk. apply IH; [done|]. intros Hin. apply Hn. right.
  apply list_elem_of_bind. eauto.
Qed.

Lemma set_kids_notin_forest id ks (l : list tree) :
  id ∉ l ≫= ids → set_kids id ks <$> l = l.
Proof.
  intros Hn. rewrite <- (list_fmap_id l) at 2.
  apply fmap_ext_Forall, Forall_forall. intros k Hk. apply set_kids_notin.
  intros Hin. apply Hn, list_elem_of_bind. eauto.
Qed.

(** The first element with a property among the elements of the parts is
    in the first part that has one. *)
Lemma head_filter_bind {A B} (P : B → Prop) `{∀ x, Decision (P x)}
    (f : A → list B) (l : list A) :
  head (filter P (l ≫= f)) = head (omap (λ a, head (filter P (f a))) l).
Proof.
  induction l as [|a l IH]; [done|]. csimpl. rewrite filter_app.
  destruct (filter P (f a)) as [|b l']; [exact IH | done].
Qed.

Lemma subtree_Node id i kids :
  subtree id (Node i kids)
  = if bool_decide (i = id) then Some (Node i kids)
    else head (omap (subtree id) kids).
Proof.
  unfold subtree at 1. simpl. rewrite filter_cons.
  destruct (decide (is_root id (Node i kids))) as [Hr|Hr]; simpl in Hr.
  - apply bool_decide_unpack in Hr. by case_bool_decide.
  - case_bool_decide as Hi; [by destruct Hr|].
    apply head_filter_bind.
Qed.

(** The children of an element. *)
Definition kids_of (t : tree) : list tree :=
  match t with Node _ kids => kids | Text _ => [] end.

Lemma ids_kids_of u : element_kids u ≫= ids = kids_of u ≫= ids.
Proof. destruct u; [done|]. apply ids_element_kids. Qed.

(** In a forest where no identifier occurs twice, replacing the children
    of [id] takes the identifiers of the old children out and puts those
    of the new children in, and nothing else. *)
Lemma ids_set_kids_forest id ks (l : list tree) u :
  Forall (λ t, ∀ u, NoDup (ids t) → subtree id t = Some u →
               ids (set_kids id ks t) ++ (kids_of u ≫= ids)
               ≡ₚ ids t ++ (ks ≫= ids)) l →
  NoDup (l ≫= ids) → head (omap (subtree id) l) = Some u →
  ((set_kids id ks <$> l) ≫= ids) ++ (kids_of u ≫= ids)
  ≡ₚ (l ≫= ids) ++ (ks ≫= ids).
Proof.
  induction 1 as [|t l Ht _ IH]; [done|]. csimpl.
  intros [Hnd1 [Hdis Hnd2]]%NoDup_app.
  destruct (subtree id t) as [v|] eqn:Hv; simpl.
  - intros [= ->]. rewrite set_kids_notin_forest
      by (apply Hdis; by eapply subtree_Some_ids).
    rewrite <- (app_assoc _ (l ≫= ids)), (Permutation_app_comm (l ≫= ids)),
      app_assoc, (Ht u Hnd1 eq_refl), <- !app_assoc.
    f_equiv. apply Permutation_app_comm.
  - intros Hu. apply subtree_None in Hv. rewrite (set_kids_notin _ _ _ Hv).
    rewrite <- !app_assoc. f_equiv. by apply IH.
Qed.

Lemma ids_set_kids id ks t u :
  NoDup (ids t) → subtree id t = Some u →
  ids (set_kids id ks t) ++ (kids_of u ≫= ids) ≡ₚ ids t ++ (ks ≫= ids).
Proof.
  revert u. induction t as [s|i kids IH] using tree_ind'; intros u; [done|].
  rewrite subtree_Node. cbn [set_kids]. case_bool_decide as Hi.
  - intros _ [= <-]. cbn [kids_of]. rewrite !ids_Node. cbn [app]. f_equiv.
    apply Permutation_app_comm.
  - rewrite !ids_Node. intros [_ Hnd]%NoDup_cons Hu. cbn [app]. f_equiv.
    by apply ids_set_kids_forest.
Qed.

Lemma all_ids_set_kids id ks (l : list tree) u :
  NoDup (l ≫= ids) → head (omap (subtree id) l) = Some u →
  ((set_kids id ks <$> l) ≫= ids) ++ (kids_of u ≫= ids)
  ≡ₚ (l ≫= ids) ++ (ks ≫= ids).
Proof.
  apply ids_set_kids_forest, Forall_forall. intros t _ v. apply ids_set_kids.
Qed.

(** [el.textContent = s] permutes the identifiers of the document. *)
Lemma all_ids_set_textContent id s d :
  NoDup (all_ids d) → all_ids (set_textContent id s d) ≡ₚ all_ids d.
Proof.
  unfold set_textContent, find_tree. intros Hnd.
  destruct (head _) as [u|] eqn:Hu; [|done].
  rewrite !all_ids_trees in *.
  replace (all_trees (Document _ _ _ _ _))
    with ((set_kids id (text_kids s) <$> all_trees d) ++ element_kids u) by done.
  rewrite bind_app, ids_kids_of, (all_ids_set_kids _ _ _ _ Hnd Hu).
  by rewrite (ids_no_node _ (text_kids_no_node s)), app_nil_r.
Qed.

(** A well-formed document stays well formed, whatever the element had
    below it, and every element stays in a tree. *)
Lemma doc_wf_set_textContent_any id s d :
  doc_wf d → doc_wf (set_textContent id s d).
Proof.
  intros [H1 H2 H3]. pose proof (all_ids_set_textContent id s d H1) as Hp. split.
  - by rewrite Hp.
  - intros j. rewrite Hp, elems_set_textContent. apply H2.
  - intros j. rewrite elems_set_textContent, next_id_set_textContent. apply H3.
Qed.

Lemma attached_set_textContent_any id s d j :
  doc_wf d → attached j (set_textContent id s d) ↔ attached j d.
Proof.
  intros [H1 _ _]. by rewrite !attached_all_ids, (all_ids_set_textContent id s d H1).
Qed.

Lemma live_set_textContent_any id s d j :
  doc_wf d → live j d → live j (set_textContent id s d).
Proof.
  intros Hwf [Ha He]. split; [by apply attached_set_textContent_any|].
  by apply has_elem_set_textContent.
Qed.

(** ** Moving an element *)

Lemma is_root_ids c t : is_root c t → c ∈ ids t.
Proof.
  destruct t as [s|i kids]; simpl; [done|].
  intros ->%bool_decide_unpack. rewrite ids_Node. by left.
Qed.

Lemma is_root_prune j c t : is_root j (prune c t) = is_root j t.
Proof. by destruct t. Qed.

Lemma filter_Forall_id {A} (P : A → Prop) `{∀ x, Decision (P x)} (l : list A) :
  Forall P l → filter P l = l.
Proof.
  induction 1 as [|a l Ha _ IH]; [done|]. by rewrite filter_cons_True, IH.
Qed.

Lemma not_root_forest c (l : list tree) :
  c ∉ l ≫= ids → Forall (λ k, ¬ is_root c k) l.
Proof.
  intros Hn. apply Forall_forall. intros k Hk Hr.
  apply Hn, list_elem_of_bind. eauto using is_root_ids.
Qed.

Lemma prune_notin c t : c ∉ ids t → prune c t = t.
Proof.
  induction t as [s|i kids IH] using tree_ind'; [done|].
  rewrite ids_Node. intros Hn%not_elem_of_cons. destruct Hn as [_ Hn].
  simpl. f_equal.
  assert (prune c <$> kids = kids) as ->.
  { rewrite <- (list_fmap_id kids) at 2. apply fmap_ext_Forall.
    rewrite Forall_forall in IH |- *. intros k Hk. apply IH; [done|].
    intros Hin. apply Hn, list_elem_of_bind. eauto. }
  by apply filter_Forall_id, not_root_forest.
Qed.

Lemma prune_notin_forest c (l : list tree) :
  c ∉ l ≫= ids → filter (λ k, ¬ is_root c k) (prune c <$> l) = l.
Proof.
  intros Hn. assert (prune c <$> l = l) as ->.
  { rewrite <- (list_fmap_id l) at 2. apply fmap_ext_Forall, Forall_forall.
    intros k Hk. apply prune_notin. intros Hin. apply Hn, list_elem_of_bind. eauto. }
  by apply filter_Forall_id, not_root_forest.
Qed.

(** Taking [c] out of a forest takes out the identifiers of its subtree. *)
Lemma ids_prune_forest c (l : list tree) u :
  Forall (λ t, ∀ u, NoDup (ids t) → ¬ is_root c t → subtree c t = Some u →
               ids (prune c t) ++ ids u ≡ₚ ids t) l →
  NoDup (l ≫= ids) → head (omap (subtree c) l) = Some u →
  (filter (λ k, ¬ is_root c k) (prune c <$> l) ≫= ids) ++ ids u ≡ₚ l ≫= ids.
Proof.
  induction 1 as [|t l Ht _ IH]; [done|]. csimpl.
  intros [Hnd1 [Hdis Hnd2]]%NoDup_app.
  destruct (subtree c t) as [v|] eqn:Hv; simpl.
  - intros [= ->]. pose proof (subtree_Some_ids _ _ _ Hv) as Hc.
    destruct (decide (is_root c t)) as [Hr|Hr].
    + rewrite filter_cons_False by (rewrite is_root_prune; tauto).
      rewrite prune_notin_forest by auto.
      destruct t as [s|i kids]; [done|]. simpl in Hr.
      apply bool_decide_unpack in Hr as ->. rewrite subtree_Node in Hv.
      case_bool_decide; [|done]. injection Hv as <-.
      apply Permutation_app_comm.
    + rewrite filter_cons_True by by rewrite is_root_prune.
      rewrite prune_notin_forest by auto. csimpl.
      rewrite <- (Ht u Hnd1 Hr eq_refl), <- !app_assoc. f_equiv.
      apply Permutation_app_comm.
  - intros Hu. apply subtree_None in Hv.
    rewrite filter_cons_True
      by (rewrite is_root_prune; eauto using is_root_ids).
    csimpl. rewrite (prune_notin _ _ Hv), <- app_assoc. f_equiv. by apply IH.
Qed.

Lemma ids_prune c t u :
  NoDup (ids t) → ¬ is_root c t → subtree c t = Some u →
  ids (prune c t) ++ ids u ≡ₚ ids t.
Proof.
  revert u. induction t as [s|i kids IH] using tree_ind'; intros u; [done|].
  rewrite subtree_Node. cbn [prune].
  case_bool_decide as Hi; [intros _ []; simpl; by apply bool_decide_pack|].
  intros Hnd _ Hu. rewrite !ids_Node in *. apply NoDup_cons in Hnd as [_ Hnd].
  cbn [app]. f_equiv. by apply ids_prune_forest.
Qed.

(** Appending [k] under [p] adds the identifiers of [k]. *)
Lemma ids_append_kid_forest p k (l : list tree) :
  NoDup (l ≫= ids) → p ∈ l ≫= ids →
  (append_kid p k <$> l) ≫= ids ≡ₚ (l ≫= ids) ++ ids k.
Proof.
  induction l as [|t l IH]; csimpl; [by intros _ ?%elem_of_nil|].
  intros [Hnd1 [Hdis Hnd2]]%NoDup_app Hp. unfold append_kid at 1.
  destruct (subtree p t) as [v|] eqn:Hv.
  - pose proof (subtree_Some_ids _ _ _ Hv) as Hin.
    assert (append_kid p k <$> l = l) as ->.
    { rewrite <- (list_fmap_id l) at 2. apply fmap_ext_Forall, Forall_forall.
      intros u Hu. unfold append_kid.
      replace (subtree p u) with (@None tree); [done|]. symmetry.
      apply subtree_None. intros Hpu. apply (Hdis _ Hin), list_elem_of_bind. eauto. }
    destruct (subtree_root _ _ _ Hv) as [Hsub Hr].
    destruct (subtrees_roots _ _ Hsub) as (j & kids & -> & _).
    pose proof (ids_set_kids p (kids ++ [k]) t _ Hnd1 Hv) as Hperm.
    cbn [kids_of] in Hperm. rewrite bind_app in Hperm. csimpl in Hperm.
    rewrite app_nil_r, (Permutation_app_comm (kids ≫= ids)), app_assoc in Hperm.
    apply Permutation_app_inv_r in Hperm. rewrite Hperm, <- !app_assoc.
    f_equiv. apply Permutation_app_comm.
  - apply subtree_None in Hv. apply elem_of_app in Hp as [?|Hp]; [done|].
    rewrite <- app_assoc. f_equiv. by apply IH.
Qed.

(** What a successful insertion is. *)
Lemma appendChild_inv p c d d' :
  appendChild p c d = Some d' →
  ∃ t, find_tree c d = Some t ∧ attached p d ∧ (p ∉ ids t) ∧
       d' = Document (append_kid p t (prune c (page d)))
              (append_kid p t
                 <$> filter (λ u, ¬ is_root c u) (prune c <$> detached d))
              (elems d) (next_id d) (focused d).
Proof.
  unfold appendChild. destruct (find_tree c d) as [t|]; [|done]. simpl.
  destruct (find_tree p d) as [u|] eqn:Hu; [|done]. simpl.
  case_bool_decide as Hcycle; [done|]. intros [= <-].
  exists t. split_and!; [done | by eexists | done..].
Qed.

(** [parent.appendChild(child)] permutes the identifiers of the document. *)
Lemma all_ids_appendChild p c d d' :
  NoDup (all_ids d) → ¬ is_root c (page d) → appendChild p c d = Some d' →
  all_ids d' ≡ₚ all_ids d.
Proof.
  rewrite !all_ids_trees.
  intros Hnd Hroot (t & Ht & Hp & Hcycle & ->)%appendChild_inv.
  set (P := filter (λ k, ¬ is_root c k) (prune c <$> all_trees d)).
  assert ((P ≫= ids) ++ ids t ≡ₚ all_trees d ≫= ids) as HP.
  { apply ids_prune_forest; [|done..]. apply Forall_forall.
    intros v _ w. apply ids_prune. }
  assert (all_trees (Document (append_kid p t (prune c (page d)))
            (append_kid p t
               <$> filter (λ u, ¬ is_root c u) (prune c <$> detached d))
            (elems d) (next_id d) (focused d))
          = append_kid p t <$> P) as ->.
  { unfold P, all_trees. csimpl.
    by rewrite filter_cons_True by by rewrite is_root_prune. }
  rewrite <- HP. apply ids_append_kid_forest.
  - rewrite <- HP in Hnd. by apply NoDup_app in Hnd as [? _].
  - apply attached_all_ids in Hp. rewrite all_ids_trees, <- HP in Hp.
    by apply elem_of_app in Hp as [?|?].
Qed.

Lemma elems_appendChild p c d d' : appendChild p c d = Some d' → elems d' = elems d.
Proof. by intros (t & _ & _ & _ & ->)%appendChild_inv. Qed.

Lemma next_id_appendChild p c d d' :
  appendChild p c d = Some d' → next_id d' = next_id d.
Proof. by intros (t & _ & _ & _ & ->)%appendChild_inv. Qed.

Lemma doc_wf_appendChild p c d d' :
  doc_wf d → ¬ is_root c (page d) → appendChild p c d = Some d' → doc_wf d'.
Proof.
  intros [H1 H2 H3] Hr Ha. pose proof (all_ids_appendChild _ _ _ _ H1 Hr Ha) as Hp.
  split.
  - by rewrite Hp.
  - intros j. rewrite Hp, (elems_appendChild _ _ _ _ Ha). apply H2.
  - intros j. rewrite (elems_appendChild _ _ _ _ Ha), (next_id_appendChild _ _ _ _ Ha).
    apply H3.
Qed.

Lemma live_appendChild p c d d' j :
  doc_wf d → ¬ is_root c (page d) → appendChild p c d = Some d' →
  live j d → live j d'.
Proof.
  intros [H1 _ _] Hr Ha [Hat He]. split.
  - apply attached_all_ids. rewrite (all_ids_appendChild _ _ _ _ H1 Hr Ha).
    by apply attached_all_ids.
  - unfold has_elem. by rewrite (elems_appendChild _ _ _ _ Ha).
Qed.

(** The insertion goes through when both are elements of the document
    and the parent is not inside the child. *)
Lemma appendChild_Some p c d t :
  find_tree c d = Some t → attached p d → p ∉ ids t →
  is_Some (appendChild p c d).
Proof.
  intros Ht [u Hu] Hp. unfold appendChild. rewrite Ht, Hu. simpl.
  rewrite bool_decide_false by done. by eexists.
Qed.

(** ** A created element *)

Lemma all_nodes_createElement tag d :
  all_nodes (createElement tag d).2 = all_nodes d ++ [(next_id d, [])].
Proof.
  unfold all_nodes, skeleton, all_trees. simpl.
  by rewrite (fmap_app (collect [])), join_app, app_assoc.
Qed.

Lemma live_createElement tag d j : live j d → live j (createElement tag d).2.
Proof.
  intros [Ha [e He]]. split.
  - apply attached_all_ids. rewrite all_ids_createElement.
    apply elem_of_app. left. by apply attached_all_ids.
  - unfold has_elem. simpl. destruct (decide (next_id d = j)) as [<-|].
    + by rewrite lookup_insert_eq.
    + rewrite lookup_insert_ne by done. by eexists.
Qed.

Lemma live_created tag d : live (next_id d) (createElement tag d).2.
Proof.
  split.
  - apply attached_all_ids. rewrite all_ids_createElement.
    apply elem_of_app. right. by left.
  - unfold has_elem. simpl. by rewrite lookup_insert_eq.
Qed.

Lemma omap_subtree_notin c (l : list tree) : c ∉ l ≫= ids → omap (subtree c) l = [].
Proof.
  induction l as [|t l IH]; [done|]. csimpl. intros Hn.
  rewrite (proj2 (subtree_None c t)) by (intros ?; apply Hn, elem_of_app; auto).
  apply IH. intros ?. apply Hn, elem_of_app. auto.
Qed.

(** The created element is a tree of its own, with nothing below it. *)
Lemma find_tree_created tag d :
  doc_wf d → find_tree (next_id d) (createElement tag d).2 = Some (Node (next_id d) []).
Proof.
  intros Hwf. pose proof (doc_wf_fresh_id _ Hwf) as Hfresh.
  rewrite all_ids_trees in Hfresh. unfold find_tree.
  change (all_trees (createElement tag d).2)
    with (all_trees d ++ [Node (next_id d) []]).
  rewrite omap_app, omap_subtree_notin by done.
  change (head (omap (subtree (next_id d)) [Node (next_id d) []]) = Some (Node (next_id d) [])).
  cbn [omap list_omap]. rewrite subtree_Node. by case_bool_decide.
Qed.

(** ** What a query returns is an element of the document *)

Lemma matches_live id sel d : matches id sel d = true → live id d.
Proof.
  intros Hm. split; [|by eapply matches_has_elem].
  unfold matches, ancestors in Hm.
  destruct (head _) as [n|] eqn:Hn; [|done].
  apply head_filter_elem in Hn as [Hn <-]. by apply all_nodes_attached.
Qed.

Lemma closest_live id sel d el : closest id sel d = Some el → live el d.
Proof.
  unfold closest. destruct (ancestors id d) as [anc|]; [|done]. simpl.
  intros [_ Hm]%head_filter_elem. apply (matches_live _ sel). by destruct (matches _ _ _).
Qed.

Lemma querySelectorAll_in_live scope sel d el :
  el ∈ querySelectorAll_in scope sel d → live el d.
Proof.
  intros Hel. split; [|by eapply querySelectorAll_in_has_elem].
  unfold querySelectorAll_in in Hel.
  apply list_elem_of_fmap in Hel as (n & -> & Hn).
  apply list_elem_of_filter in Hn as [_ Hn].
  apply list_elem_of_filter in Hn as [_ Hn]. by apply all_nodes_attached.
Qed.

(** A query of the page, or below an element, does not return an element
    created since and not inserted. *)
Lemma querySelector_old sel tag f d p :
  querySelector sel (update_elem (next_id d) f (createElement tag d).2) = Some p →
  p ∈ all_ids d.
Proof.
  intros Hq. apply head_Some_elem_of in Hq. unfold querySelectorAll in Hq.
  apply list_elem_of_fmap in Hq as (n & -> & Hn).
  apply list_elem_of_filter in Hn as [_ Hn].
  unfold all_ids, all_nodes, skeleton, all_trees. simpl.
  rewrite fmap_app. apply elem_of_app. left. by apply list_elem_of_fmap_2.
Qed.

Lemma querySelector_in_old scope sel tag f d p :
  querySelector_in scope sel (update_elem (next_id d) f (createElement tag d).2)
  = Some p →
  p ∈ all_ids d.
Proof.
  intros Hq. apply head_Some_elem_of in Hq. unfold querySelectorAll_in in Hq.
  apply list_elem_of_fmap in Hq as (n & -> & Hn).
  apply list_elem_of_filter in Hn as [_ Hn].
  apply list_elem_of_filter in Hn as [Hanc Hn].
  change (all_nodes (update_elem ?i ?g ?x)) with (all_nodes x) in Hn.
  rewrite all_nodes_createElement in Hn.
  apply elem_of_app in Hn as [Hn|Hn%list_elem_of_singleton].
  - by apply list_elem_of_fmap_2.
  - subst n. by apply elem_of_nil in Hanc.
Qed.

(** ** An element is not its own ancestor *)

Lemma NoDup_bind_elem {A B} (f : A → list B) (l : list A) a :
  NoDup (l ≫= f) → a ∈ l → NoDup (f a).
Proof.
  induction l as [|b l IH]; [by intros _ ?%elem_of_nil|]. csimpl.
  intros [Hb [_ Hl]]%NoDup_app [->|Ha]%elem_of_cons; [done | by apply IH].
Qed.

(** In a tree where no identifier occurs twice, an element and its
    ancestors are all different. *)
Lemma collect_path_nodup anc t n :
  NoDup anc → (∀ x, x ∈ anc → x ∉ ids t) → NoDup (ids t) →
  n ∈ collect anc t → NoDup (n.1 :: n.2).
Proof.
  revert anc. induction t as [s|i kids IH] using tree_ind'; intros anc Hanc Hout Hnd;
    simpl; [by intros ?%elem_of_nil|].
  rewrite ids_Node in Hnd, Hout. apply NoDup_cons in Hnd as [Hi Hkids].
  assert (NoDup (i :: anc)) as Hia.
  { apply NoDup_cons. split; [|done]. intros Hin. apply (Hout i Hin). by left. }
  intros [->|Hn]%elem_of_cons; [done|].
  apply list_elem_of_bind in Hn as (k & Hn & Hk).
  rewrite Forall_forall in IH.
  apply (IH k Hk (i :: anc)); [done | | by eapply NoDup_bind_elem | done].
  intros x [->|Hx]%elem_of_cons Hxk.
  - apply Hi, list_elem_of_bind. eauto.
  - apply (Hout x Hx). right. apply list_elem_of_bind. eauto.
Qed.

Lemma all_nodes_path_nodup d n :
  NoDup (all_ids d) → n ∈ all_nodes d → NoDup (n.1 :: n.2).
Proof.
  rewrite all_ids_trees. unfold all_nodes, skeleton. intros Hnd Hn.
  apply list_elem_of_join in Hn as (l & Hn & Hl).
  apply list_elem_of_fmap in Hl as (t & -> & Ht).
  eapply collect_path_nodup; [constructor | by intros x ?%elem_of_nil | | done].
  by eapply NoDup_bind_elem.
Qed.

Lemma nodes_all_nodes d n : n ∈ nodes d → n ∈ all_nodes d.
Proof.
  intros Hn. unfold all_nodes, skeleton, all_trees. csimpl. apply elem_of_app. by left.
Qed.
