(* ===== verification/Closures.v ===== *)
(** * Closures: the functions of the scripts that outlive their creation

    A listener, a timer callback and the rest of an [async] function after
    its [await] are run later, by the browser, with the variables they
    captured.  Each is a constructor here, carrying those variables; the
    component files define what running it does.

    - [gw_instance]: the constants one call of [initializeGiftWrap]
      captures (gift-wrap.js, lines 3 to 14), shared by the two listeners
      and the continuation of that call.  [isAddingGiftWrap] is assigned
      after capture, so the instance holds the cell it lives in.
    - [callback]: listeners and timer callbacks.
    - [continuation]: what remains of an [async] function at its
      [await fetch(...)]. *)

From stdpp Require Import strings.
From S2P Require Import Prelude JsString JsValue.

Record gw_instance : Type := GwInstance {
  gw_checkbox : nat;          (* giftWrap.querySelector('[data-gift-wrap-toggle]') *)
  gw_fields : nat;            (* #gift-wrap-fields *)
  gw_error : nat;             (* #gift-wrap-error *)
  gw_variantIdInput : nat;    (* [data-gift-wrap-variant-id] *)
  gw_form : nat;              (* checkbox.closest('form') *)
  gw_isAdding : nat;          (* the cell of [let isAddingGiftWrap] *)
}.

#[export] Instance gw_instance_eq_dec : EqDecision gw_instance.
Proof. solve_decision. Defined.

(** The three field values of an editor, as [getGiftWrapFields] returns
    them and as [updateCartDrawerGiftWrap] builds them. *)
Record gift_fields : Type := GiftFields {
  gf_to : list N;
  gf_from : list N;
  gf_message : list N;
}.

#[export] Instance gift_fields_eq_dec : EqDecision gift_fields.
Proof. solve_decision. Defined.

Inductive callback : Type :=
(* gift-wrap.js *)
| CbInitializeGiftWrap                      (* lines 151, 152 *)
| CbCheckboxChange (c : gw_instance)        (* lines 121 to 123 *)
| CbFormSubmit (c : gw_instance)            (* lines 126 to 145 *)
(* cart-gift-wrap-inline.js *)
| CbSectionLoad                             (* lines 12 to 14 *)
| CbSectionUnload                           (* lines 15 to 17 *)
| CbDrawerClick                             (* line 24 *)
| CbDrawerChange                            (* line 25 *)
| CbSectionClick                            (* line 29 *)
| CbSectionChange                           (* line 30 *)
| CbFieldInput (field : nat)                (* lines 238 to 240 *)
| CbSuccessRevert (button : nat) (originalText : list N)  (* lines 204 to 207 *)
| CbErrorHide (errorEl : nat)               (* lines 226 to 228 *)
| CbDrawerErrorHide (errorEl : nat).        (* lines 429 to 431 *)

#[export] Instance callback_eq_dec : EqDecision callback.
Proof. solve_decision. Defined.

Inductive continuation : Type :=
| KAddProducts (c : gw_instance)
    (* gift-wrap.js line 87, inside the submit listener's await of line 136 *)
| KUpdate (itemKey : option (list N)) (updateButton : nat)
    (* cart-gift-wrap-inline.js line 108 *)
| KRemove (itemKey : option (list N))
    (* cart-gift-wrap-inline.js line 143 *)
| KDrawerUpdate (container updateButton : nat) (fields : gift_fields).
    (* cart-gift-wrap-inline.js line 353 *)

#[export] Instance continuation_eq_dec : EqDecision continuation.
Proof. solve_decision. Defined.
