(* ===== verification/Runtime.v ===== *)
(** * Runtime: the world a handler runs in

    [world] is everything a handler of the scripts can read or change:
    the document, the cells of captured variables, the registered
    listeners, the pending timers, the [fetch] calls that have not
    settled, the flag of the event being dispatched, and the trace of what
    the handler did to the outside ([effect]: requests sent, events
    dispatched, navigation, console output, calls into the theme's cart
    code).  [js A] is a handler returning an [A]: a [prog] over [world]
    that may throw a [js_error].

    The primitives below are the browser calls the scripts make, one
    definition each.  The rest of the file is what the component files
    use to reason about them: the footprint of each primitive and the
    agreement of queries across writes. *)

From stdpp Require Import gmap strings.
From S2P Require Import Prelude JsString JsValue Dom Closures.

(** ** Listeners, console, effects *)

Inductive target : Type :=
| OnDocument
| OnElement (id : nat).

#[export] Instance target_eq_dec : EqDecision target.
Proof. solve_decision. Defined.

Record listener : Type := Listener {
  on_target : target;
  on_type : string;
  on_callback : callback;
  on_once : bool;
}.

Inductive console_arg : Type :=
| CStr (s : string)
| CVal (v : jsval)
| CErr (e : js_error).

Inductive console_level : Type := LevelLog | LevelError.

Inductive effect : Type :=
| FxFetch (r : request)                  (* fetch(url, init) *)
| FxDispatch (name : string)             (* document.dispatchEvent(new CustomEvent(name)) *)
| FxNavigate (url : string)              (* window.location.href = url *)
| FxReload                               (* window.location.reload() *)
| FxGetCart                              (* window.CartAPI.getCart() *)
| FxRenderContents                       (* cartDrawer.renderContents() *)
| FxConsole (l : console_level) (args : list console_arg)
| FxUnhandled (e : js_error).            (* the rejection of a promise nobody awaits *)

(** Code of the page outside the scripts: absent, or present and, when
    called, returning or throwing. *)
Inductive external : Type :=
| Absent
| Present (throws : bool).

Record window_env : Type := WindowEnv {
  env_getCart : external;           (* window.CartAPI.getCart *)
  env_renderContents : external;    (* the cart drawer's renderContents *)
}.

(** ** The world *)

Record world : Type := World {
  doc : document;
  cells : gmap nat jsval;
  next_cell : nat;
  listeners : list listener;
  timers : list (Z * callback);
  inflight : list (request * continuation);
  trace : list effect;
  prevented : bool;
  env : window_env;
}.

Definition with_doc (f : document → document) (w : world) : world :=
  World (f (doc w)) (cells w) (next_cell w) (listeners w) (timers w)
    (inflight w) (trace w) (prevented w) (env w).

Definition with_cells (f : gmap nat jsval → gmap nat jsval) (w : world) : world :=
  World (doc w) (f (cells w)) (next_cell w) (listeners w) (timers w)
    (inflight w) (trace w) (prevented w) (env w).

Definition with_next_cell (n : nat) (w : world) : world :=
  World (doc w) (cells w) n (listeners w) (timers w)
    (inflight w) (trace w) (prevented w) (env w).

Definition with_listeners (f : list listener → list listener) (w : world) : world :=
  World (doc w) (cells w) (next_cell w) (f (listeners w)) (timers w)
    (inflight w) (trace w) (prevented w) (env w).

Definition with_timers (f : list (Z * callback) → list (Z * callback))
    (w : world) : world :=
  World (doc w) (cells w) (next_cell w) (listeners w) (f (timers w))
    (inflight w) (trace w) (prevented w) (env w).

Definition with_inflight
    (f : list (request * continuation) → list (request * continuation))
    (w : world) : world :=
  World (doc w) (cells w) (next_cell w) (listeners w) (timers w)
    (f (inflight w)) (trace w) (prevented w) (env w).

Definition with_trace (f : list effect → list effect) (w : world) : world :=
  World (doc w) (cells w) (next_cell w) (listeners w) (timers w)
    (inflight w) (f (trace w)) (prevented w) (env w).

Definition with_prevented (b : bool) (w : world) : world :=
  World (doc w) (cells w) (next_cell w) (listeners w) (timers w)
    (inflight w) (trace w) b (env w).

Abbreviation js := (prog world js_error).

(** The requests sent so far, oldest first. *)
Definition sent (w : world) : list request :=
  omap (λ fx, match fx with FxFetch r => Some r | _ => None end) (trace w).

(** What the page and the shop see of a run: everything but the console. *)
Definition observable (fx : effect) : bool :=
  match fx with FxConsole _ _ => false | _ => true end.

Definition actions (w : world) : list effect := filter observable (trace w).

(** ** Primitives: the document *)

(** The data of the element a variable holds. *)
Definition elem (id : nat) : js element := λ w,
  match elems (doc w) !! id with
  | Some e => (Normal e, w)
  | None => (Thrown (Dangling id), w)
  end.

(** Read a property of an element: [el.value], [el.checked]. *)
Definition prop {A} (id : nat) (f : element → A) : js A := f <$> elem id.

(** Write to an element: [el.value = v], [el.setAttribute(a, v)]. *)
Definition update (id : nat) (f : element → element) : js unit :=
  elem id ;; modify (with_doc (update_elem id f)).

Definition query (sel : selector) : js (option nat) :=
  gets (λ w, querySelector sel (doc w)).

Definition query_in (scope : nat) (sel : selector) : js (option nat) :=
  gets (λ w, querySelector_in scope sel (doc w)).

Definition query_all_in (scope : nat) (sel : selector) : js (list nat) :=
  gets (λ w, querySelectorAll_in scope sel (doc w)).

Definition closest_of (id : nat) (sel : selector) : js (option nat) :=
  gets (λ w, closest id sel (doc w)).

Definition matches_of (id : nat) (sel : selector) : js bool :=
  gets (λ w, matches id sel (doc w)).

Definition by_id (v : list N) : js (option nat) :=
  gets (λ w, getElementById v (doc w)).

(** [el.textContent] *)
Definition get_text (id : nat) : js (list N) := λ w,
  match textContent id (doc w) with
  | Some s => (Normal s, w)
  | None => (Thrown (Dangling id), w)
  end.

(** [el.textContent = s] *)
Definition set_text (id : nat) (s : list N) : js unit :=
  get_text id ;; modify (with_doc (set_textContent id s)).

(** [document.createElement(tag)] *)
Definition create (tag : string) : js nat := λ w,
  let '(id, d) := createElement tag (doc w) in (Normal id, with_doc (λ _, d) w).

(** [parent.appendChild(child)] *)
Definition append (parent child : nat) : js unit := λ w,
  match appendChild parent child (doc w) with
  | Some d => (Normal (), with_doc (λ _, d) w)
  | None => (Thrown (TypeError "appendChild"), w)
  end.

(** [el.focus()] *)
Definition focus_on (id : nat) : js unit :=
  elem id ;; modify (with_doc (focus id)).

(** ** Primitives: captured variables *)

Definition new_cell (v : jsval) : js nat := λ w,
  (Normal (next_cell w),
   with_next_cell (S (next_cell w)) (with_cells <[next_cell w := v]> w)).

Definition read_cell (a : nat) : js jsval :=
  gets (λ w, default VUndefined (cells w !! a)).

Definition write_cell (a : nat) (v : jsval) : js unit :=
  modify (with_cells <[a := v]>).

(** ** Primitives: events, timers, the network, the outside *)

Definition emit (fx : effect) : js unit := modify (with_trace (λ t, t ++ [fx])).

(** [e.preventDefault()] *)
Definition preventDefault : js unit := modify (with_prevented true).

(** [target.addEventListener(type, cb)], [{ once: true }] when [once]. *)
Definition addEventListener (t : target) (type : string) (cb : callback)
    (once : bool) : js unit :=
  modify (with_listeners (λ l, l ++ [Listener t type cb once])).

(** [setTimeout(cb, ms)] *)
Definition setTimeout (cb : callback) (ms : Z) : js unit :=
  modify (with_timers (λ l, l ++ [(ms, cb)])).

(** [await fetch(...)]: the request leaves, and the rest of the function
    waits as [k]. *)
Definition fetch (r : request) (k : continuation) : js unit :=
  emit (FxFetch r) ;; modify (with_inflight (λ l, l ++ [(r, k)])).

Definition console_log (args : list console_arg) : js unit :=
  emit (FxConsole LevelLog args).

Definition console_error (args : list console_arg) : js unit :=
  emit (FxConsole LevelError args).

(** The completion of a pure step, as a step of a handler. *)
Definition lift {A} (c : completion js_error A) : js A := λ w, (c, w).

(** [await response.json()] after the test of [response.ok]. *)
Definition response_of (o : fetch_outcome) : js (Z * body) :=
  match o with
  | FetchRejected => throw (TypeError "Failed to fetch")
  | FetchResponse status b => mret (status, b)
  end.

(** Call code of the page that is there: it is recorded, then it returns
    or throws. *)
Definition call_external (throws : bool) (fx : effect) : js unit :=
  emit fx ;; if throws then throw ExternalError else mret ().

(** ** The result of an [async] function's first run

    Either it returned before any [await] ([Settled]), or it is waiting on
    a [fetch] and its continuation is in [inflight] ([Pending]). *)
Inductive suspended (A : Type) : Type :=
| Settled (a : A)
| Pending.
Arguments Settled {A} a.
Arguments Pending {A}.

(** [try { c } finally { f }] around an [await]: while [c] waits for its
    response, [f] waits with it. *)
Definition finally_settled {A} (c : js (suspended A)) (f : js unit)
    : js (suspended A) := λ w,
  match c w with
  | (Normal Pending, w') => (Normal Pending, w')
  | (r, w') =>
      match f w' with
      | (Normal _, w'') => (r, w'')
      | (Thrown e, w'') => (Thrown e, w'')
      end
  end.

(** A call of an [async] function nobody awaits: what it throws rejects
    its promise and never reaches the caller. *)
Definition spawn {A} (c : js A) : js unit := λ w,
  match c w with
  | (Normal _, w') => (Normal (), w')
  | (Thrown e, w') => (Normal (), with_trace (λ t, t ++ [FxUnhandled e]) w')
  end.

(** * Properties *)

Arguments with_doc : simpl never.

(** ** Projections of a changed world *)

Section Projections.
Context (w : world).

Lemma doc_with_doc f : doc (with_doc f w) = f (doc w).
Proof. done. Qed.
Lemma cells_with_doc f : cells (with_doc f w) = cells w.
Proof. done. Qed.
Lemma trace_with_doc f : trace (with_doc f w) = trace w.
Proof. done. Qed.
Lemma inflight_with_doc f : inflight (with_doc f w) = inflight w.
Proof. done. Qed.
Lemma timers_with_doc f : timers (with_doc f w) = timers w.
Proof. done. Qed.
Lemma listeners_with_doc f : listeners (with_doc f w) = listeners w.
Proof. done. Qed.
Lemma prevented_with_doc f : prevented (with_doc f w) = prevented w.
Proof. done. Qed.
Lemma env_with_doc f : env (with_doc f w) = env w.
Proof. done. Qed.
Lemma next_cell_with_doc f : next_cell (with_doc f w) = next_cell w.
Proof. done. Qed.
Lemma with_doc_with_doc f g : with_doc f (with_doc g w) = with_doc (f ∘ g) w.
Proof. done. Qed.
Lemma sent_with_doc f : sent (with_doc f w) = sent w.
Proof. done. Qed.

End Projections.

Create Rewrite HintDb world.
#[export] Hint Rewrite doc_with_doc cells_with_doc trace_with_doc
  inflight_with_doc timers_with_doc listeners_with_doc prevented_with_doc
  env_with_doc next_cell_with_doc sent_with_doc : world.

Lemma actions_app w fx :
  actions (with_trace (λ t, t ++ [fx]) w) =
  actions w ++ (if observable fx then [fx] else []).
Proof. unfold actions. simpl. rewrite filter_app. by destruct fx. Qed.

Lemma sent_app w fx :
  sent (with_trace (λ t, t ++ [fx]) w) =
  sent w ++ match fx with FxFetch r => [r] | _ => [] end.
Proof. unfold sent. simpl. rewrite omap_app. by destruct fx. Qed.

(** ** Running a step

    [runs c w a w']: from [w], [c] returns [a] and leaves [w'].
    [raises c w e w']: from [w], [c] throws [e] and leaves [w']. *)

Definition runs {A} (c : js A) (w : world) (a : A) (w' : world) : Prop :=
  c w = (Normal a, w').

Definition raises {A} (c : js A) (w : world) (e : js_error) (w' : world) : Prop :=
  c w = (Thrown e, w').

Create HintDb run discriminated.

Section Run.
Context {A B : Type}.
Implicit Types (w : world) (c : js A) (f : A → js B).

Lemma runs_ret (a : A) w : runs (mret a) w a w.
Proof. done. Qed.

Lemma runs_bind c f w a w1 b w2 :
  runs c w a w1 → runs (f a) w1 b w2 → runs (c ≫= f) w b w2.
Proof. unfold runs. intros Hc Hf. prog_simpl. by rewrite Hc. Qed.

Lemma raises_bind_l c f w e w1 : raises c w e w1 → raises (c ≫= f) w e w1.
Proof. unfold raises. intros Hc. prog_simpl. by rewrite Hc. Qed.

Lemma raises_bind_r c f w a w1 e w2 :
  runs c w a w1 → raises (f a) w1 e w2 → raises (c ≫= f) w e w2.
Proof. unfold runs, raises. intros Hc Hf. prog_simpl. by rewrite Hc. Qed.

Lemma runs_fmap (g : A → B) c w a w1 : runs c w a w1 → runs (g <$> c) w (g a) w1.
Proof. unfold runs. intros Hc. prog_simpl. by rewrite Hc. Qed.

Lemma runs_try_catch c (h : js_error → js A) w a w1 :
  runs c w a w1 → runs (try_catch c h) w a w1.
Proof. unfold runs. intros Hc. prog_simpl. by rewrite Hc. Qed.

Lemma runs_try_catch_handler c (h : js_error → js A) w e w1 a w2 :
  raises c w e w1 → runs (h e) w1 a w2 → runs (try_catch c h) w a w2.
Proof. unfold runs, raises. intros Hc Hh. prog_simpl. by rewrite Hc. Qed.

Lemma runs_try_finally c (f : js unit) w a w1 w2 :
  runs c w a w1 → runs f w1 () w2 → runs (try_finally c f) w a w2.
Proof. unfold runs. intros Hc Hf. prog_simpl. by rewrite Hc, Hf. Qed.

Lemma raises_try_finally c (f : js unit) w e w1 w2 :
  raises c w e w1 → runs f w1 () w2 → raises (try_finally c f) w e w2.
Proof. unfold runs, raises. intros Hc Hf. prog_simpl. by rewrite Hc, Hf. Qed.

Lemma runs_gets (g : world → A) w : runs (gets g) w (g w) w.
Proof. done. Qed.

Lemma runs_lift (a : A) w : runs (lift (Normal a)) w a w.
Proof. done. Qed.

Lemma raises_lift (e : js_error) w : raises (lift (Thrown e : completion js_error A)) w e w.
Proof. done. Qed.

Lemma raises_throw (e : js_error) w : raises (throw e : js A) w e w.
Proof. done. Qed.

End Run.

Lemma runs_modify (g : world → world) w : runs (modify g) w () (g w).
Proof. done. Qed.

Lemma runs_when_true (c : js unit) w w1 : runs c w () w1 → runs (when true c) w () w1.
Proof. done. Qed.

Lemma runs_when_false (c : js unit) w : runs (when false c) w () w.
Proof. done. Qed.

(** *** The primitives *)

Section RunPrimitives.
Implicit Types (w : world) (id : nat).

Lemma runs_elem id w e : elems (doc w) !! id = Some e → runs (elem id) w e w.
Proof. unfold runs, elem. by intros ->. Qed.

Lemma runs_prop {A} id (f : element → A) w e :
  elems (doc w) !! id = Some e → runs (prop id f) w (f e) w.
Proof. intros H. by apply runs_fmap, runs_elem. Qed.

Lemma runs_update id f w :
  has_elem id (doc w) → runs (update id f) w () (with_doc (update_elem id f) w).
Proof. intros [e He]. eapply runs_bind; [by apply runs_elem | done]. Qed.

Lemma runs_get_text id w s : textContent id (doc w) = Some s → runs (get_text id) w s w.
Proof. unfold runs, get_text. by intros ->. Qed.

Lemma runs_set_text id s w :
  attached id (doc w) → runs (set_text id s) w () (with_doc (set_textContent id s) w).
Proof.
  intros [t Ht]. eapply runs_bind; [|done].
  apply runs_get_text. unfold textContent. by rewrite Ht.
Qed.

Lemma runs_focus_on id w :
  has_elem id (doc w) → runs (focus_on id) w () (with_doc (focus id) w).
Proof. intros [e He]. eapply runs_bind; [by apply runs_elem | done]. Qed.

Lemma runs_query sel w : runs (query sel) w (querySelector sel (doc w)) w.
Proof. done. Qed.

Lemma runs_query_in scope sel w :
  runs (query_in scope sel) w (querySelector_in scope sel (doc w)) w.
Proof. done. Qed.

Lemma runs_query_all_in scope sel w :
  runs (query_all_in scope sel) w (querySelectorAll_in scope sel (doc w)) w.
Proof. done. Qed.

Lemma runs_closest_of id sel w : runs (closest_of id sel) w (closest id sel (doc w)) w.
Proof. done. Qed.

Lemma runs_matches_of id sel w : runs (matches_of id sel) w (matches id sel (doc w)) w.
Proof. done. Qed.

Lemma runs_by_id v w : runs (by_id v) w (getElementById v (doc w)) w.
Proof. done. Qed.

Lemma runs_read_cell a w : runs (read_cell a) w (default VUndefined (cells w !! a)) w.
Proof. done. Qed.

Lemma runs_write_cell a v w : runs (write_cell a v) w () (with_cells <[a := v]> w).
Proof. done. Qed.

Lemma runs_emit fx w : runs (emit fx) w () (with_trace (λ t, t ++ [fx]) w).
Proof. done. Qed.

Lemma runs_preventDefault w : runs preventDefault w () (with_prevented true w).
Proof. done. Qed.

Lemma runs_console_error args w :
  runs (console_error args) w () (with_trace (λ t, t ++ [FxConsole LevelError args]) w).
Proof. done. Qed.

Lemma runs_console_log args w :
  runs (console_log args) w () (with_trace (λ t, t ++ [FxConsole LevelLog args]) w).
Proof. done. Qed.

Lemma runs_fetch r k w :
  runs (fetch r k) w ()
    (with_inflight (λ l, l ++ [(r, k)]) (with_trace (λ t, t ++ [FxFetch r]) w)).
Proof. done. Qed.

Lemma runs_setTimeout cb ms w :
  runs (setTimeout cb ms) w () (with_timers (λ l, l ++ [(ms, cb)]) w).
Proof. done. Qed.

Lemma runs_addEventListener t type cb once w :
  runs (addEventListener t type cb once) w ()
    (with_listeners (λ l, l ++ [Listener t type cb once]) w).
Proof. done. Qed.

End RunPrimitives.

#[export] Hint Resolve runs_ret runs_gets runs_lift runs_modify runs_query
  runs_query_in runs_query_all_in runs_closest_of runs_matches_of runs_by_id
  runs_read_cell runs_write_cell runs_emit runs_preventDefault
  runs_console_error runs_console_log runs_fetch runs_setTimeout
  runs_addEventListener runs_when_false : run.
#[export] Hint Resolve raises_lift raises_throw : run.

(** Reading a property through earlier writes: the side condition is on
    the projection of the lookup, which the [dom] rewriting system
    reduces to the lookup in the first document. *)
Lemma runs_prop_proj {A} id (f : element → A) w x :
  f <$> elems (doc w) !! id = Some x → runs (prop id f) w x w.
Proof.
  intros H. destruct (elems (doc w) !! id) as [e|] eqn:He; [|done].
  injection H as <-. by apply runs_prop.
Qed.

(** ** Stepping through a handler

    [js_step] runs the first statement of the handler in the goal;
    [js_run] runs the handler to its end.  Side conditions on the
    document are reduced by the [dom] and [world] rewriting systems and
    closed by the hypotheses. *)

Ltac js_side :=
  autorewrite with world dom;
  repeat match goal with
    | H : elems _ !! _ = Some _ |- _ => rewrite H
    end;
  try solve [ done | eauto 8 with dom ].

Ltac js_prim :=
  first
    [ solve [eauto with run]
    | eapply runs_prop_proj; solve [js_side]
    | eapply runs_update; solve [js_side]
    | eapply runs_set_text; solve [js_side]
    | eapply runs_focus_on; solve [js_side]
    | eapply runs_fmap; js_prim ].

Ltac js_step :=
  lazymatch goal with
  | |- runs (mret _) _ _ _ => apply runs_ret
  | |- runs (_ ≫= _) _ _ _ => eapply runs_bind; [js_prim|]; cbv beta
  | |- runs (_ <$> _) _ _ _ => eapply runs_fmap
  | |- runs (when true _) _ _ _ => apply runs_when_true
  | |- runs (when false _) _ _ _ => apply runs_when_false
  | |- runs _ _ _ _ => js_prim
  end.

Ltac js_run := repeat js_step.

(** ** Loops over elements *)

Lemma with_doc_id w : with_doc (λ d, d) w = w.
Proof. by destruct w. Qed.

(** [ids.forEach(id => { ... })] for a write to the element's data. *)
Lemma runs_for_each_update f l w :
  Forall (λ id, has_elem id (doc w)) l →
  runs (for_each (λ id, update id f) l) w () (with_doc (update_all f l) w).
Proof.
  revert w. induction l as [|id l IH]; intros w Hl.
  - unfold runs. simpl. by destruct w.
  - apply Forall_cons in Hl as [Hid Hl].
    eapply runs_bind; [by apply runs_update|].
    apply (IH (with_doc (update_elem id f) w)).
    eapply Forall_impl; [exact Hl|]. intros j Hj. by apply has_elem_update_elem.
Qed.

(** ** A handler has one outcome *)

Lemma runs_det {A} (c : js A) w a1 w1 a2 w2 :
  runs c w a1 w1 → runs c w a2 w2 → a1 = a2 ∧ w1 = w2.
Proof. unfold runs. intros H1 H2. rewrite H1 in H2. by simplify_eq. Qed.

Lemma runs_world {A} (c : js A) w a w1 w2 :
  runs c w a w1 → runs c w a w2 → w2 = w1.
Proof. intros H1 H2. by destruct (runs_det _ _ _ _ _ _ H1 H2). Qed.

Lemma runs_not_raises {A} (c : js A) w a w1 e w2 :
  runs c w a w1 → raises c w e w2 → False.
Proof. unfold runs, raises. intros H1 H2. rewrite H1 in H2. by simplify_eq. Qed.

(** ** Functions that wait *)

Lemma runs_finally_settled {A} (c : js (suspended A)) f w a w1 w2 :
  runs c w (Settled a) w1 → runs f w1 () w2 →
  runs (finally_settled c f) w (Settled a) w2.
Proof. unfold runs, finally_settled. by intros -> ->. Qed.

Lemma runs_finally_pending {A} (c : js (suspended A)) f w w1 :
  runs c w Pending w1 → runs (finally_settled c f) w Pending w1.
Proof. unfold runs, finally_settled. by intros ->. Qed.

Lemma runs_spawn {A} (c : js A) w a w1 : runs c w a w1 → runs (spawn c) w () w1.
Proof. unfold runs, spawn. by intros ->. Qed.

Lemma runs_spawn_raises {A} (c : js A) w e w1 :
  raises c w e w1 →
  runs (spawn c) w () (with_trace (λ t, t ++ [FxUnhandled e]) w1).
Proof. unfold runs, raises, spawn. by intros ->. Qed.

(** Nothing thrown inside escapes a call that is not awaited. *)
Lemma total_spawn {A} (c : js A) : total (spawn c).
Proof. intros w. unfold spawn. by destruct (c w) as [[a|e] w1]. Qed.

(** The world a run ends in, up to equality. *)
Lemma runs_eq {A} (c : js A) w a w1 w2 : runs c w a w1 → w1 = w2 → runs c w a w2.
Proof. by intros ? <-. Qed.

Lemma with_doc_same w : with_doc (λ _, doc w) w = w.
Proof. by destruct w. Qed.

(** A world is changed in its document only: the change as a function of
    the document it starts from. *)
Lemma with_doc_const f w : with_doc f w = with_doc (λ _, f (doc w)) w.
Proof. done. Qed.

(** The world a computation ends in when it returns. *)
Definition outcome_world {A} (r : completion js_error A * world) : option world :=
  match r with
  | (Normal _, w) => Some w
  | (Thrown _, _) => None
  end.
