(* ===== verification/Safe.v ===== *)
(** * Safe: a logic for handlers that cannot fail

    A handler of the scripts runs on whatever page it finds.  This file
    sets up the reasoning that shows it cannot end in an exception there:

    - [good]: what is true of every page the scripts have run on.  The
      document is well formed; every element a listener, a timer callback
      or a pending continuation holds is an element of the document; a
      listener that reads [e.target] as an element is on an element; no
      exception has gone unhandled.
    - [ext w w']: every element of [w] is an element of [w'].  Nothing the
      scripts do removes an element from the document: a write of
      [textContent] moves the children out of the tree and they stay
      alive.
    - [safe t c w]: from [w], [c] keeps the page good and extends it, what
      it returns is valid (an element it returns is an element of the
      page), and, when [t] is [true], it does not throw.

    One rule per construct of [Prelude] and per primitive of [Runtime]
    makes a proof of [safe] follow the text of the handler. *)

From stdpp Require Import gmap strings.
From S2P Require Import Prelude JsString JsValue Dom DomTrees Closures Runtime.

(** ** The elements a closure holds *)

Definition instance_ids (c : gw_instance) : list nat :=
  [gw_checkbox c; gw_fields c; gw_error c; gw_variantIdInput c; gw_form c].

Definition callback_ids (cb : callback) : list nat :=
  match cb with
  | CbCheckboxChange c | CbFormSubmit c => instance_ids c
  | CbFieldInput field => [field]
  | CbSuccessRevert button _ => [button]
  | CbErrorHide errorEl | CbDrawerErrorHide errorEl => [errorEl]
  | CbInitializeGiftWrap | CbSectionLoad | CbSectionUnload
  | CbDrawerClick | CbDrawerChange | CbSectionClick | CbSectionChange => []
  end.

Definition continuation_ids (k : continuation) : list nat :=
  match k with
  | KAddProducts c => instance_ids c
  | KUpdate _ updateButton => [updateButton]
  | KRemove _ => []
  | KDrawerUpdate container updateButton _ => [container; updateButton]
  end.

Definition target_ids (t : target) : list nat :=
  match t with OnElement id => [id] | OnDocument => [] end.

(** The delegated listeners read [e.target] as an element. *)
Definition needs_target (cb : callback) : bool :=
  match cb with
  | CbDrawerClick | CbDrawerChange | CbSectionClick | CbSectionChange => true
  | _ => false
  end.

Definition listener_ok (l : listener) : Prop :=
  needs_target (on_callback l) = true → on_target l ≠ OnDocument.

(** A timer callback is given no event. *)
Definition timer_ok (t : Z * callback) : Prop := needs_target t.2 = false.

Definition listener_ids (l : listener) : list nat :=
  target_ids (on_target l) ++ callback_ids (on_callback l).

(** Every element a closure of the page holds. *)
Definition refs (w : world) : list nat :=
  (timers w ≫= λ t, callback_ids t.2)
  ++ (inflight w ≫= λ r, continuation_ids r.2)
  ++ (listeners w ≫= listener_ids).

(** ** Good pages *)

Definition lives (w : world) (l : list nat) : Prop :=
  Forall (λ id, live id (doc w)) l.

#[export] Instance lives_dec w l : Decision (lives w l).
Proof. unfold lives. apply _. Defined.

Record good (w : world) : Prop := {
  good_doc : doc_wf (doc w);
  good_refs : lives w (refs w);
  good_listeners : Forall listener_ok (listeners w);
  good_quiet : ∀ e, FxUnhandled e ∉ trace w;
  good_timers : Forall timer_ok (timers w);
}.

Definition ext (w w' : world) : Prop :=
  ∀ id, live id (doc w) → live id (doc w').

Definition fine (w w' : world) : Prop := good w' ∧ ext w w'.

#[export] Instance ext_preorder : PreOrder ext.
Proof. split; [by intros w id | intros w1 w2 w3 H12 H23 id Hid; auto]. Qed.

Lemma fine_refl w : good w → fine w w.
Proof. by split. Qed.

Lemma fine_trans w1 w2 w3 : fine w1 w2 → fine w2 w3 → fine w1 w3.
Proof. intros [_ H12] [Hg H23]. split; [done | by etrans]. Qed.

Lemma lives_cons w id l : lives w (id :: l) ↔ live id (doc w) ∧ lives w l.
Proof. apply (Forall_cons (λ id, live id (doc w))). Qed.

Lemma lives_nil w : lives w [].
Proof. apply Forall_nil_2. Qed.

Lemma lives_ext w w' l : ext w w' → lives w l → lives w' l.
Proof. intros He Hl. eapply Forall_impl; [exact Hl|]. intros id. apply He. Qed.

(** ** Valid values

    What a handler returns, when it is an element or holds elements, is
    of the page. *)

Class Valid (A : Type) : Type := {
  valid : A → world → Prop;
  valid_ext : ∀ a w w', ext w w' → valid a w → valid a w';
}.

Definition plain_valid (A : Type) : Valid A :=
  {| valid := λ _ _, True; valid_ext := λ _ _ _ _ _, I |}.

#[export] Instance valid_unit : Valid unit := plain_valid _.
#[export] Instance valid_bool : Valid bool := plain_valid _.
#[export] Instance valid_codes : Valid (list N) | 0 := plain_valid _.
#[export] Instance valid_attr : Valid (option (list N)) | 0 := plain_valid _.
#[export] Instance valid_Z : Valid Z := plain_valid _.
#[export] Instance valid_string : Valid string := plain_valid _.
#[export] Instance valid_jsval : Valid jsval := plain_valid _.
#[export] Instance valid_element : Valid element := plain_valid _.
#[export] Instance valid_gift_fields : Valid gift_fields := plain_valid _.
#[export] Instance valid_body : Valid body := plain_valid _.
#[export] Instance valid_external : Valid external := plain_valid _.

#[export] Program Instance valid_nat : Valid nat :=
  {| valid := λ id w, live id (doc w) |}.
Next Obligation. intros id w w' He. apply He. Qed.

#[export] Program Instance valid_option `{Valid A} : Valid (option A) :=
  {| valid := λ o w, match o with Some a => valid a w | None => True end |}.
Next Obligation. intros A ? [a|] w w' He; [by apply valid_ext | done]. Qed.

#[export] Program Instance valid_list `{Valid A} : Valid (list A) :=
  {| valid := λ l w, Forall (λ a, valid a w) l |}.
Next Obligation.
  intros A ? l w w' He Hl. eapply Forall_impl; [exact Hl|].
  intros a. by apply valid_ext.
Qed.

#[export] Program Instance valid_prod `{Valid A, Valid B} : Valid (A * B) :=
  {| valid := λ p w, valid p.1 w ∧ valid p.2 w |}.
Next Obligation. intros A ? B ? [a b] w w' He [??]. split; by eapply valid_ext. Qed.

#[export] Program Instance valid_suspended `{Valid A} : Valid (suspended A) :=
  {| valid := λ s w, match s with Settled a => valid a w | Pending => True end |}.
Next Obligation. intros A ? [a|] w w' He; [by apply valid_ext | done]. Qed.

(** ** The judgment *)

Definition wp {A} (c : js A) (w : world)
    (Q : A → world → Prop) (E : js_error → world → Prop) : Prop :=
  match c w with
  | (Normal a, w') => Q a w'
  | (Thrown e, w') => E e w'
  end.

(** [safe true c w]: [c] returns; [safe false c w]: [c] returns or throws. *)
Definition safe {A} `{Valid A} (t : bool) (c : js A) (w : world) : Prop :=
  wp c w (λ a w', fine w w' ∧ valid a w')
         (λ _ w', if t then False else fine w w').

(** * Properties *)

Lemma wp_mono {A} (c : js A) w (Q Q' : A → world → Prop) (E E' : js_error → world → Prop) :
  wp c w Q E → (∀ a w', Q a w' → Q' a w') → (∀ e w', E e w' → E' e w') →
  wp c w Q' E'.
Proof. unfold wp. destruct (c w) as [[a|e] w']; auto. Qed.

Lemma wp_bind {A B} (c : js A) (f : A → js B) w Q E :
  wp c w (λ a w1, wp (f a) w1 Q E) E → wp (c ≫= f) w Q E.
Proof. unfold wp. prog_simpl. by destruct (c w) as [[a|e] w1]. Qed.

Lemma wp_runs {A} (c : js A) w Q E a w' : runs c w a w' → Q a w' → wp c w Q E.
Proof. unfold wp, runs. by intros ->. Qed.

Section Rules.
Context {A : Type} `{Valid A}.
Implicit Types (c : js A) (w : world) (t : bool).

Lemma safe_weaken t c w : safe true c w → safe t c w.
Proof. intros Hs. eapply wp_mono; [exact Hs | done | done]. Qed.

Lemma safe_ret t (a : A) w : good w → valid a w → safe t (mret a) w.
Proof. intros Hg Hv. split; [by apply fine_refl | done]. Qed.

Lemma safe_gets t (g : world → A) w : good w → valid (g w) w → safe t (gets g) w.
Proof. intros Hg Hv. split; [by apply fine_refl | done]. Qed.

Lemma safe_throw (e : js_error) w : good w → safe false (throw e : js A) w.
Proof. intros Hg. by apply fine_refl. Qed.

Lemma safe_lift (r : completion js_error A) w :
  good w → (∀ a, r = Normal a → valid a w) → safe false (lift r) w.
Proof.
  intros Hg Hv. unfold safe, wp, lift. destruct r as [a|e].
  - split; [by apply fine_refl | by apply Hv].
  - by apply fine_refl.
Qed.

Lemma safe_bind {B} `{Valid B} t (c : js B) (f : B → js A) w :
  safe t c w →
  (∀ b w1, fine w w1 → valid b w1 → safe t (f b) w1) →
  safe t (c ≫= f) w.
Proof.
  intros Hc Hf. apply wp_bind. eapply wp_mono; [exact Hc | |]; simpl.
  - intros b w1 [Hfine Hv]. eapply wp_mono; [by apply Hf | |]; simpl.
    + intros a w2 [Hfine2 Ha]. split; [by eapply fine_trans | done].
    + intros e w2. destruct t; [done|]. by eapply fine_trans.
  - done.
Qed.

Lemma safe_try_catch t c (h : js_error → js A) w :
  safe false c w →
  (∀ e w1, fine w w1 → safe t (h e) w1) →
  safe t (try_catch c h) w.
Proof.
  intros Hc Hh. unfold safe, wp, try_catch in *.
  destruct (c w) as [[a|e] w1]; [done|]. specialize (Hh e w1 Hc).
  destruct (h e w1) as [[a|e'] w2].
  - destruct Hh as [Hf Hv]. split; [by eapply fine_trans | done].
  - destruct t; [done|]. by eapply fine_trans.
Qed.

Lemma safe_try_finally t c (f : js unit) w :
  safe t c w → (∀ w1, fine w w1 → safe t f w1) → safe t (try_finally c f) w.
Proof.
  intros Hc Hf. unfold safe, wp, try_finally in *.
  destruct (c w) as [[a|e] w1].
  - destruct Hc as [Hfine Hv]. specialize (Hf w1 Hfine).
    destruct (f w1) as [[[]|e'] w2].
    + destruct Hf as [[Hg He] _].
      split; [by eapply fine_trans | by eapply valid_ext].
    + destruct t; [done|]. by eapply fine_trans.
  - destruct t; [done|]. specialize (Hf w1 Hc).
    destruct (f w1) as [[[]|e'] w2]; [destruct Hf as [Hf _]|]; by eapply fine_trans.
Qed.

Lemma safe_if t (b : bool) c1 c2 w :
  (b = true → safe t c1 w) → (b = false → safe t c2 w) →
  safe t (if b then c1 else c2) w.
Proof. destruct b; auto. Qed.

End Rules.

Lemma safe_fmap {A B} `{Valid A, Valid B} t (g : A → B) (c : js A) w :
  safe t c w → (∀ a w1, valid a w1 → valid (g a) w1) → safe t (g <$> c) w.
Proof.
  intros Hc Hg. unfold safe, wp in *. prog_simpl.
  destruct (c w) as [[a|e] w1]; [|done]. destruct Hc. split; auto.
Qed.

Lemma safe_when t (b : bool) (c : js unit) w :
  good w → (b = true → safe t c w) → safe t (when b c) w.
Proof. intros Hg Hc. destruct b; [by apply Hc | by apply safe_ret]. Qed.

(** A loop over elements that all have [P]. *)
Lemma safe_for_each_in {A} `{Valid A} (P : A → Prop) t (f : A → js unit)
    (l : list A) w :
  good w → valid l w → Forall P l →
  (∀ a w1, P a → fine w w1 → valid a w1 → safe t (f a) w1) →
  safe t (for_each f l) w.
Proof.
  intros Hg Hl HP Hf. revert w Hg Hl Hf.
  induction HP as [|a l Pa HP IH]; intros w Hg Hl Hf; [by apply safe_ret|].
  apply Forall_cons in Hl as [Ha Hl]. simpl.
  eapply (safe_bind t (f a)); [by apply Hf; [|apply fine_refl|]|].
  intros [] w1 Hfine _. apply IH; [by destruct Hfine | |].
  - eapply Forall_impl; [exact Hl|]. intros b. apply valid_ext. by destruct Hfine.
  - intros b w2 Pb Hfine2. apply Hf; [done|]. by eapply fine_trans.
Qed.

Lemma safe_for_each {A} `{Valid A} t (f : A → js unit) (l : list A) w :
  good w → valid l w →
  (∀ a w1, fine w w1 → valid a w1 → safe t (f a) w1) →
  safe t (for_each f l) w.
Proof.
  intros Hg Hl Hf. apply (safe_for_each_in (λ _, True)); [done.. | |by auto].
  by apply Forall_true.
Qed.

Lemma safe_finally_settled {A} `{Valid A} t (c : js (suspended A)) (f : js unit) w :
  safe t c w → (∀ w1, fine w w1 → safe t f w1) → safe t (finally_settled c f) w.
Proof.
  intros Hc Hf. unfold safe, wp, finally_settled in *.
  destruct (c w) as [[[a|]|e] w1]; [| done |].
  - destruct Hc as [Hfine Hv]. specialize (Hf w1 Hfine).
    destruct (f w1) as [[[]|e'] w2].
    + destruct Hf as [[Hg He] _].
      split; [by eapply fine_trans | by eapply (valid_ext (Settled a))].
    + destruct t; [done|]. by eapply fine_trans.
  - destruct t; [done|]. specialize (Hf w1 Hc).
    destruct (f w1) as [[[]|e'] w2]; [destruct Hf as [Hf _]|]; by eapply fine_trans.
Qed.

(** A call that is not awaited: safe when the function cannot throw. *)
Lemma safe_spawn {A} `{Valid A} t (c : js A) w : safe true c w → safe t (spawn c) w.
Proof.
  intros Hc. unfold safe, wp, spawn in *.
  destruct (c w) as [[a|e] w1]; [|done]. by destruct Hc.
Qed.

(** ** What keeps a page good *)

Lemma fine_with_doc f w :
  good w → doc_wf (f (doc w)) → (∀ id, live id (doc w) → live id (f (doc w))) →
  fine w (with_doc f w).
Proof.
  intros [H1 H2 H3 H4 H5] Hwf Hl. split; [|exact Hl].
  split; [exact Hwf | | exact H3 | exact H4 | exact H5].
  eapply Forall_impl; [exact H2|]. exact Hl.
Qed.

Lemma ext_same w w' : doc w' = doc w → ext w w'.
Proof. intros Hd id. by rewrite Hd. Qed.

(** A page that differs in what [good] does not read. *)
Lemma fine_same w w' :
  doc w' = doc w → timers w' = timers w → inflight w' = inflight w →
  listeners w' = listeners w → trace w' = trace w →
  good w → fine w w'.
Proof.
  intros Hd Ht Hi Hl Htr [H1 H2 H3 H4 H5]. split.
  - split; unfold lives, refs; rewrite ?Hd, ?Ht, ?Hi, ?Hl, ?Htr; done.
  - intros id. by rewrite Hd.
Qed.

Lemma fine_with_cells f w : good w → fine w (with_cells f w).
Proof. by apply fine_same. Qed.

Lemma fine_with_next_cell n w : good w → fine w (with_next_cell n w).
Proof. by apply fine_same. Qed.

Lemma fine_with_prevented b w : good w → fine w (with_prevented b w).
Proof. by apply fine_same. Qed.

Lemma fine_emit fx w :
  good w → (∀ e, fx ≠ FxUnhandled e) → fine w (with_trace (λ t, t ++ [fx]) w).
Proof.
  intros [H1 H2 H3 H4 H5] Hfx. split; [|by apply ext_same]. split; [done.. | | done].
  simpl. intros e [?|Hin]%elem_of_app; [by eapply H4|].
  apply list_elem_of_singleton in Hin. by eapply Hfx.
Qed.

(** The parts of [refs]: a lemma for each list a primitive extends. *)
Lemma lives_refs w :
  lives w (refs w) ↔
  lives w (timers w ≫= λ t, callback_ids t.2) ∧
  lives w (inflight w ≫= λ r, continuation_ids r.2) ∧
  lives w (listeners w ≫= listener_ids).
Proof. unfold lives, refs. by rewrite !Forall_app. Qed.

Lemma lives_snoc {A} (f : A → list nat) (l : list A) a w :
  lives w (l ≫= f) → lives w (f a) → lives w ((l ++ [a]) ≫= f).
Proof.
  intros Hl Ha. unfold lives. rewrite bind_app. apply Forall_app. split; [done|].
  csimpl. by rewrite app_nil_r.
Qed.

Lemma fine_timer ms cb w :
  good w → lives w (callback_ids cb) → needs_target cb = false →
  fine w (with_timers (λ l, l ++ [(ms, cb)]) w).
Proof.
  intros [H1 H2 H3 H4 H5] Hcb Hno. split; [|by apply ext_same].
  split; [done | | done.. | by apply Forall_app_2, Forall_singleton].
  apply lives_refs in H2 as (? & ? & ?). apply lives_refs. split_and!; [|done..].
  by apply (lives_snoc (λ t, callback_ids t.2) _ (ms, cb)).
Qed.

Lemma fine_inflight r k w :
  good w → lives w (continuation_ids k) →
  fine w (with_inflight (λ l, l ++ [(r, k)]) w).
Proof.
  intros [H1 H2 H3 H4 H5] Hk. split; [|by apply ext_same]. split; [done | | done..].
  apply lives_refs in H2 as (? & ? & ?). apply lives_refs. split_and!; [done| |done].
  by apply (lives_snoc (λ r, continuation_ids r.2) _ (r, k)).
Qed.

Lemma fine_listener l w :
  good w → lives w (listener_ids l) → listener_ok l →
  fine w (with_listeners (λ ls, ls ++ [l]) w).
Proof.
  intros [H1 H2 H3 H4 H5] Hl Hok. split; [|by apply ext_same].
  split; [done | | | done..].
  - apply lives_refs in H2 as (? & ? & ?). apply lives_refs. split_and!; [done..|].
    by apply lives_snoc.
  - simpl. apply Forall_app. split; [done|]. by apply Forall_singleton.
Qed.

(** ** The primitives *)

Lemma safe_modify t (f : world → world) w : fine w (f w) → safe t (modify f) w.
Proof. intros Hf. by split. Qed.

Lemma safe_elem t id w : good w → live id (doc w) → safe t (elem id) w.
Proof.
  intros Hg [_ [e He]]. unfold safe, wp, elem. rewrite He.
  split; [by apply fine_refl | done].
Qed.

Lemma safe_prop {A} `{Valid A} t id (f : element → A) w :
  good w → live id (doc w) → (∀ e, valid (f e) w) → safe t (prop id f) w.
Proof.
  intros Hg [_ [e He]] Hv. unfold safe, wp, prop, elem. prog_simpl. rewrite He.
  split; [by apply fine_refl | apply Hv].
Qed.

Lemma safe_update t id f w : good w → live id (doc w) → safe t (update id f) w.
Proof.
  intros Hg Hid. eapply safe_bind; [by apply safe_elem|].
  intros e w1 [Hg1 He] _. apply safe_modify, fine_with_doc; [done | |].
  - apply doc_wf_update_elem, Hg1.
  - intros j. apply live_update_elem.
Qed.

Lemma safe_get_text t id w : good w → live id (doc w) → safe t (get_text id) w.
Proof.
  intros Hg [[u Hu] _]. unfold safe, wp, get_text, textContent. rewrite Hu.
  split; [by apply fine_refl | done].
Qed.

Lemma safe_set_text t id s w : good w → live id (doc w) → safe t (set_text id s) w.
Proof.
  intros Hg Hid. eapply safe_bind; [by apply safe_get_text|].
  intros e w1 [Hg1 He] _. apply safe_modify, fine_with_doc; [done | |].
  - apply doc_wf_set_textContent_any, Hg1.
  - intros j. apply live_set_textContent_any, Hg1.
Qed.

Lemma safe_focus_on t id w : good w → live id (doc w) → safe t (focus_on id) w.
Proof.
  intros Hg Hid. eapply safe_bind; [by apply safe_elem|].
  intros e w1 [Hg1 He] _. apply safe_modify, fine_with_doc; [done | |].
  - apply doc_wf_focus, Hg1.
  - intros j. apply live_focus.
Qed.

Lemma safe_query t sel w : good w → safe t (query sel) w.
Proof.
  intros Hg. apply safe_gets; [done|]. simpl.
  destruct (querySelector _ _) eqn:Hq; [|done]. by eapply querySelector_live.
Qed.

Lemma safe_query_in t scope sel w : good w → safe t (query_in scope sel) w.
Proof.
  intros Hg. apply safe_gets; [done|]. simpl.
  destruct (querySelector_in _ _ _) eqn:Hq; [|done]. by eapply querySelector_in_live.
Qed.

Lemma safe_query_all_in t scope sel w : good w → safe t (query_all_in scope sel) w.
Proof.
  intros Hg. apply safe_gets; [done|]. simpl. apply Forall_forall.
  intros el. apply querySelectorAll_in_live.
Qed.

Lemma safe_closest_of t id sel w : good w → safe t (closest_of id sel) w.
Proof.
  intros Hg. apply safe_gets; [done|]. simpl.
  destruct (closest _ _ _) eqn:Hq; [|done]. by eapply closest_live.
Qed.

Lemma safe_matches_of t id sel w : good w → safe t (matches_of id sel) w.
Proof. intros Hg. by apply safe_gets. Qed.

Lemma safe_by_id t v w : good w → safe t (by_id v) w.
Proof.
  intros Hg. apply safe_gets; [done|]. simpl.
  destruct (getElementById _ _) eqn:Hq; [|done]. by eapply querySelector_live.
Qed.

Lemma safe_create t tag w : good w → safe t (create tag) w.
Proof.
  intros Hg. unfold safe, wp, create. simpl. split.
  - apply (fine_with_doc (λ _, (createElement tag (doc w)).2)); [done | |].
    + apply doc_wf_createElement, Hg.
    + intros j. apply live_createElement.
  - apply live_created.
Qed.

Lemma safe_read_cell t a w : good w → safe t (read_cell a) w.
Proof. intros Hg. by apply safe_gets. Qed.

Lemma safe_write_cell t a v w : good w → safe t (write_cell a v) w.
Proof. intros Hg. by apply safe_modify, fine_with_cells. Qed.

Lemma safe_emit t fx w :
  good w → (∀ e, fx ≠ FxUnhandled e) → safe t (emit fx) w.
Proof. intros Hg Hfx. by apply safe_modify, fine_emit. Qed.

Lemma safe_console_log t args w : good w → safe t (console_log args) w.
Proof. intros Hg. by apply safe_emit. Qed.

Lemma safe_console_error t args w : good w → safe t (console_error args) w.
Proof. intros Hg. by apply safe_emit. Qed.

Lemma safe_preventDefault t w : good w → safe t preventDefault w.
Proof. intros Hg. by apply safe_modify, fine_with_prevented. Qed.

Lemma safe_addEventListener t tg type cb once w :
  good w → lives w (target_ids tg ++ callback_ids cb) →
  (needs_target cb = true → tg ≠ OnDocument) →
  safe t (addEventListener tg type cb once) w.
Proof. intros Hg Hl Hok. by apply safe_modify, fine_listener. Qed.

Lemma safe_setTimeout t cb ms w :
  good w → lives w (callback_ids cb) → needs_target cb = false →
  safe t (setTimeout cb ms) w.
Proof. intros Hg Hl Hno. by apply safe_modify, fine_timer. Qed.

Lemma safe_fetch t r k w :
  good w → lives w (continuation_ids k) → safe t (fetch r k) w.
Proof.
  intros Hg Hl. eapply safe_bind; [by apply safe_emit|].
  intros [] w1 [Hg1 He] _. apply safe_modify, fine_inflight; [done|].
  by eapply lives_ext.
Qed.

Lemma safe_response_of o w : good w → safe false (response_of o) w.
Proof.
  intros Hg. destruct o; [by apply safe_throw | by apply safe_ret].
Qed.

Lemma safe_call_external throws fx w :
  good w → (∀ e, fx ≠ FxUnhandled e) → safe false (call_external throws fx) w.
Proof.
  intros Hg Hfx. eapply safe_bind; [by apply safe_emit|].
  intros [] w1 [Hg1 _] _. destruct throws; [by apply safe_throw | by apply safe_ret].
Qed.

(** [let x = v] of a captured variable, and what follows it. *)
Lemma safe_new_cell {A} `{Valid A} t v (f : nat → js A) w :
  good w → (∀ a w1, fine w w1 → safe t (f a) w1) → safe t (new_cell v ≫= f) w.
Proof.
  intros Hg Hf.
  set (w1 := with_next_cell (S (next_cell w)) (with_cells <[next_cell w := v]> w)).
  assert (fine w w1) as Hw1 by by apply fine_same.
  apply wp_bind, (wp_runs _ _ _ _ (next_cell w) w1); [done|].
  eapply wp_mono; [by apply Hf, Hw1 | |]; simpl.
  - intros a w2 [Hf2 Ha]. split; [exact (fine_trans _ _ _ Hw1 Hf2) | done].
  - intros e w2. destruct t; [done|]. apply (fine_trans _ _ _ Hw1).
Qed.

(** ** A new element, inserted

    [document.createElement], a write to the new element, a query, and
    [appendChild] of the new element to what the query found: the
    insertion cannot fail, for the new element is a tree of its own and
    the query cannot have found it. *)
Section CreateAppend.
Context (tag : string) (f : element → element) (q : js (option nat))
  (g : document → option nat).
Context (Hq : ∀ w, q w = (Normal (g (doc w)), w)).
Context (Hold : ∀ d p,
  g (update_elem (next_id d) f (createElement tag d).2) = Some p → p ∈ all_ids d).

Lemma safe_create_append t w :
  good w →
  safe t (errorEl ← create tag;
          update errorEl f ;;
          actionsDiv ← q;
          match actionsDiv with
          | Some actionsDiv => append actionsDiv errorEl
          | None => mret ()
          end ;;
          mret errorEl) w.
Proof.
  intros Hg. pose proof (good_doc _ Hg) as Hwf.
  set (d := doc w). set (new := next_id d).
  set (d1 := (createElement tag d).2). set (d2 := update_elem new f d1).
  assert (doc_wf d2) as Hwf2 by by apply doc_wf_update_elem, doc_wf_createElement.
  assert (∀ j, live j d → live j d2) as Hl2
    by (intros j Hj; by apply live_update_elem, live_createElement).
  assert (live new d2) as Hnew by apply live_update_elem, live_created.
  set (w2 := with_doc (update_elem new f) (with_doc (λ _, d1) w)).
  assert (fine w w2) as Hf2 by by apply (fine_with_doc (λ _, d2)).
  unfold safe. apply wp_bind, (wp_runs _ _ _ _ new (with_doc (λ _, d1) w)); [done|].
  apply wp_bind, (wp_runs _ _ _ _ () w2).
  { apply runs_update. eexists. apply lookup_insert_eq. }
  apply wp_bind, (wp_runs _ _ _ _ (g d2) w2); [apply Hq|].
  destruct (g d2) as [p|] eqn:Hp.
  2: { apply wp_bind, (wp_runs _ _ _ _ () w2); [done|]. by eapply wp_runs. }
  assert (p ∈ all_ids d) as Hpd by by apply Hold.
  assert (¬ is_root new (page d2)) as Hroot.
  { intros Hr%is_root_ids. apply (doc_wf_fresh_id d Hwf).
    rewrite all_ids_trees. apply elem_of_app. by left. }
  destruct (appendChild_Some p new d2 (Node new [])) as [d3 Hd3].
  { unfold d2. rewrite find_tree_update_elem. by apply find_tree_created. }
  { apply attached_update_elem, attached_all_ids. unfold d1.
    rewrite all_ids_createElement. apply elem_of_app. by left. }
  { rewrite ids_Node. intros ->%list_elem_of_singleton.
    by apply (doc_wf_fresh_id d). }
  apply wp_bind, (wp_runs _ _ _ _ () (with_doc (λ _, d3) w2)).
  { unfold runs, append. change (doc w2) with d2. by rewrite Hd3. }
  eapply wp_runs; [done|]. split.
  - eapply fine_trans; [exact Hf2|]. apply (fine_with_doc (λ _, d3)); [by destruct Hf2 | |].
    + by eapply doc_wf_appendChild.
    + intros j. by eapply live_appendChild.
  - simpl. by eapply live_appendChild.
Qed.

End CreateAppend.

Lemma safe_create_append_query t tag f sel w :
  good w →
  safe t (errorEl ← create tag;
          update errorEl f ;;
          actionsDiv ← query sel;
          match actionsDiv with
          | Some actionsDiv => append actionsDiv errorEl
          | None => mret ()
          end ;;
          mret errorEl) w.
Proof.
  apply (safe_create_append tag f (query sel) (querySelector sel)); [done|].
  intros d p. apply querySelector_old.
Qed.

Lemma safe_create_append_query_in t tag f scope sel w :
  good w →
  safe t (errorEl ← create tag;
          update errorEl f ;;
          actionsDiv ← query_in scope sel;
          match actionsDiv with
          | Some actionsDiv => append actionsDiv errorEl
          | None => mret ()
          end ;;
          mret errorEl) w.
Proof.
  apply (safe_create_append tag f (query_in scope sel) (querySelector_in scope sel));
    [done|].
  intros d p. apply querySelector_in_old.
Qed.

(** ** Automation

    [safe_go] follows the text of a handler: a rule for each construct,
    the rule of the primitive or of the handler at each leaf.  What is
    known of the page ([live], [lives], [valid]) is carried along each
    extension. *)

Create HintDb safe discriminated.

Ltac safe_lives :=
  unfold instance_ids, listener_ids, callback_ids, continuation_ids, target_ids;
  cbn [app];
  repeat (apply lives_cons; split); try apply lives_nil; assumption.

Ltac safe_split :=
  repeat match goal with
    | H : lives _ (instance_ids _) |- _ => unfold instance_ids in H
    | H : lives _ (_ :: _) |- _ => apply lives_cons in H as [? H]
    | H : lives _ [] |- _ => clear H
    | H : valid None _ |- _ => clear H
    | H : valid (Some ?a) ?w |- _ => change (valid a w) in H
    | H : valid (Settled ?a) ?w |- _ => change (valid a w) in H
    | H : valid Pending _ |- _ => clear H
    | H : valid (_, _) _ |- _ => destruct H as [? ?]
    | H : valid ?a ?w |- _ =>
        lazymatch type of a with
        | nat => change (live a (doc w)) in H
        | _ => assert_succeeds (pose proof (I : valid a w)); clear H
        end
    end.

Ltac safe_valid := first [assumption | exact I | done].

(** Move what is known of [w] to the extension [w1]. *)
Ltac safe_move Hf :=
  let Hg := fresh "Hg" in
  destruct Hf as [Hg Hf];
  lazymatch type of Hf with
  | ext ?w _ =>
      repeat match goal with
        | H : live _ (doc w) |- _ => apply Hf in H
        | H : lives w _ |- _ => apply (lives_ext _ _ _ Hf) in H
        | H : valid _ w |- _ => apply (valid_ext _ _ _ Hf) in H
        | H : good w |- _ => clear H
        end
  end;
  clear Hf; safe_split.

Ltac safe_intro :=
  let Hf := fresh "Hf" in
  lazymatch goal with
  | |- ∀ _ _, fine _ _ → valid _ _ → _ => intros ? ? Hf ?; safe_move Hf
  | |- ∀ _ _, fine _ _ → _ => intros ? ? Hf; safe_move Hf
  | |- ∀ _, fine _ _ → _ => intros ? Hf; safe_move Hf
  end.

Ltac safe_leaf := solve [eauto 4 with safe].

Ltac safe_step :=
  lazymatch goal with
  | |- safe _ (mret _) _ => apply safe_ret; [assumption | safe_valid]
  | |- safe _ (create _ ≫= _) _ =>
      lazymatch goal with
      | |- context [query_in _ _] => apply safe_create_append_query_in; assumption
      | |- _ => apply safe_create_append_query; assumption
      end
  | |- safe _ (new_cell _ ≫= _) _ => apply safe_new_cell; [assumption | safe_intro]
  | |- safe _ (_ ≫= _) _ => eapply safe_bind; [|safe_intro]
  | |- safe _ (if ?b then _ else _) _ => destruct b eqn:?
  | |- safe _ (match ?x with _ => _ end) _ => destruct x eqn:?; safe_split
  | |- safe _ (when _ _) _ => apply safe_when; [assumption | intros ?]
  | |- safe _ (try_catch _ _) _ => apply safe_try_catch; [|safe_intro]
  | |- safe _ (try_finally _ _) _ => apply safe_try_finally; [|safe_intro]
  | |- safe _ (finally_settled _ _) _ => apply safe_finally_settled; [|safe_intro]
  | |- safe _ (spawn _) _ => apply safe_spawn
  | |- safe _ (for_each _ _) _ => apply safe_for_each; [assumption | assumption | safe_intro]
  | |- safe _ (_ <$> _) _ => eapply safe_fmap; [|intros; safe_valid]
  | |- safe _ _ _ => safe_leaf
  end.

Ltac safe_go := intros; safe_split; repeat safe_step.

#[export] Hint Extern 1 (lives _ _) => safe_lives : safe.
#[export] Hint Extern 1 (valid _ _) => exact I : safe.
#[export] Hint Extern 1 (valid _ _) => assumption : safe.
#[export] Hint Extern 1 (_ ≠ _) => discriminate : safe.
#[export] Hint Resolve
  safe_elem safe_prop safe_update safe_get_text safe_set_text safe_focus_on
  safe_query safe_query_in safe_query_all_in safe_closest_of safe_matches_of
  safe_by_id safe_create safe_read_cell safe_write_cell safe_emit
  safe_console_log safe_console_error safe_preventDefault
  safe_addEventListener safe_setTimeout safe_fetch
  safe_response_of safe_call_external safe_throw safe_lift safe_gets safe_ret
  : safe.
