(* ===== verification/AddTime.v ===== *)
(** * AddTime: the add-time controller of [src/assets/gift-wrap.js]

    [Module GiftWrap] holds one definition per function of the script:
    [initializeGiftWrap] with its inner [setExpanded], [showError],
    [hideError] and [addProductsToCart], and the two listeners it
    registers ([onChange], [onSubmit]).  The variables the inner functions
    share are the fields of the [gw_instance] they take.

    [addProductsToCart] awaits one [fetch]: [addProductsToCart] is the
    function up to that call, [addProductsToCart_resume] the function
    from the settled response on, under the same [catch].  The submit
    listener awaits [addProductsToCart], so it is split at the same point
    ([onSubmit], [onSubmit_resume]). *)

From stdpp Require Import gmap strings.
From S2P Require Import Prelude JsString JsValue Dom Closures Runtime.

Module GiftWrap.

(** ** Selectors and messages of the script *)

Definition sel_text_inputs : selector :=
  [Complex [] [SelTag "input"; SelAttrEq "type" (lit "text")];
   Complex [] [SelTag "textarea"]].

Definition msg_default : list N :=
  lit "Please check gift wrap details and try again.".
Definition msg_not_configured : list N :=
  lit "Gift wrap product not configured. Please contact the store.".
Definition msg_recipient : list N := lit "Please enter recipient's name".
Definition msg_no_variant : list N :=
  lit "Main product variant not found. Please refresh the page.".
Definition msg_failed : list N :=
  lit "Could not add products to cart. Please try again.".

(** ** Error display (lines 31 to 39) *)

Definition showError (c : gw_instance) (message : list N) : js unit :=
  set_text (gw_error c) (if truthy_string message then message else msg_default) ;;
  update (gw_error c) (set_style "display" (lit "block")).

Definition hideError (c : gw_instance) : js unit :=
  set_text (gw_error c) [] ;;
  update (gw_error c) (set_style "display" (lit "none")).

(** ** [setExpanded] (lines 17 to 28) *)

Definition setExpanded (c : gw_instance) (expanded : bool) : js unit :=
  update (gw_checkbox c)
    (setAttribute "aria-expanded" (if expanded then lit "true" else lit "false")) ;;
  update (gw_fields c)
    (set_style "display" (if expanded then lit "block" else lit "none")) ;;
  when (negb expanded)
    (inputs ← query_all_in (gw_fields c) sel_text_inputs;
     for_each (λ input, update input (with_value [])) inputs ;;
     hideError c).

(** ** The request (lines 67 to 94) *)

(** [scope.querySelector(sel)?.value?.trim()]: [undefined] when the
    element is not there. *)
Definition trimmed_value (scope : nat) (sel : selector) : js jsval :=
  el ← query_in scope sel;
  match el with
  | Some el => v ← prop el el_value; mret (VStr (trim v))
  | None => mret VUndefined
  end.

(** [scope.querySelector(sel)?.value] *)
Definition value_of (scope : nat) (sel : selector) : js jsval :=
  el ← query_in scope sel;
  match el with
  | Some el => VStr <$> prop el el_value
  | None => mret VUndefined
  end.

(** Lines 67 to 73. *)
Definition giftProperties (handle to from message : jsval) : jsval :=
  VObj [("_GiftWrap", VStr (lit "Yes"));
        ("_MainProductHandle", handle);
        ("To", to);
        ("From", js_or from (VStr []));
        ("Message", js_or message (VStr []))].

(** Lines 75 to 85. *)
Definition items (mainVariantId quantity giftVariantId properties : jsval) : jsval :=
  VArr [VObj [("id", VNum (parseInt mainVariantId));
              ("quantity", VNum (parseInt quantity))];
        VObj [("id", VNum (parseInt giftVariantId));
              ("quantity", VNum (Num 1));
              ("properties", properties)]].

Definition add_request (its : jsval) : request :=
  post_json "/cart/add.js" (VObj [("items", its)]).

(** ** [addProductsToCart] (lines 42 to 118) *)

(** The [catch] of lines 113 to 117. *)
Definition addProductsToCart_catch (c : gw_instance) (err : js_error) : js bool :=
  console_error [CStr "Cart error:"; CErr err] ;;
  showError c msg_failed ;;
  mret false.

(** Lines 43 to 94: up to the [await]. *)
Definition addProductsToCart (c : gw_instance) : js (suspended bool) :=
  giftVariantId ← VStr <$> prop (gw_variantIdInput c) el_value;
  if negb (truthy giftVariantId) then
    showError c msg_not_configured ;; mret (Settled false)
  else
  to ← trimmed_value (gw_fields c) (sel_attr "data-gift-wrap-to");
  if negb (truthy to) then
    showError c msg_recipient ;;
    el ← query_in (gw_fields c) (sel_attr "data-gift-wrap-to");
    match el with Some el => focus_on el | None => mret () end ;;
    mret (Settled false)
  else
  try_catch
    (mainVariantId ← value_of (gw_form c) (sel_tag_attr_eq "input" "name" (lit "id"));
     if negb (truthy mainVariantId) then
       showError c msg_no_variant ;; mret (Settled false)
     else
     value ← value_of (gw_form c) (sel_tag_attr_eq "input" "name" (lit "quantity"));
     let quantity := js_or value (VNum (Num 1)) in
     handle ← of_option <$> prop (gw_form c) (getAttribute "data-product-handle");
     from ← trimmed_value (gw_fields c) (sel_attr "data-gift-wrap-from");
     message ← trimmed_value (gw_fields c) (sel_attr "data-gift-wrap-message");
     fetch
       (add_request
          (items mainVariantId quantity giftVariantId
             (giftProperties handle to from message)))
       (KAddProducts c) ;;
     mret Pending)
    (λ err, Settled <$> addProductsToCart_catch c err).

(** Lines 96 to 112: from the settled response on. *)
Definition addProductsToCart_resume (c : gw_instance) (o : fetch_outcome) : js bool :=
  try_catch
    ('(status, b) ← response_of o;
     if negb (response_ok status) then
       errorData ← lift (response_json b);
       message ← lift (get_prop errorData "message");
       throw (ErrorOf (js_or message (VStr (lit "Failed to add products to cart"))))
     else
     result ← lift (response_json b);
     console_log [CStr "Products added to cart:"; CVal result] ;;
     st ← lift (get_prop result "status");
     (if strict_eq_int st 303 then emit (FxNavigate "/cart")
      else emit (FxDispatch "cart:updated")) ;;
     mret true)
    (addProductsToCart_catch c).

(** ** The listeners (lines 121 to 145) *)

(** [checkbox.addEventListener('change', function() { setExpanded(this.checked) })] *)
Definition onChange (c : gw_instance) : js unit :=
  checked ← prop (gw_checkbox c) el_checked;
  setExpanded c checked.

(** The [catch] of lines 141 to 144. *)
Definition onSubmit_catch (c : gw_instance) (err : js_error) : js unit :=
  console_error [CStr "Form submission error:"; CErr err] ;;
  write_cell (gw_isAdding c) (VBool false).

(** Lines 137 to 140, once [addProductsToCart] has returned. *)
Definition onSubmit_finish (c : gw_instance) (success : bool) : js unit :=
  when (negb success) (write_cell (gw_isAdding c) (VBool false)).

(** The submit listener, up to the [await] of line 136. *)
Definition onSubmit (c : gw_instance) : js unit :=
  checked ← prop (gw_checkbox c) el_checked;
  if negb checked then mret () else
  adding ← read_cell (gw_isAdding c);
  if truthy adding then mret () else
  try_catch
    (preventDefault ;;
     write_cell (gw_isAdding c) (VBool true) ;;
     hideError c ;;
     r ← addProductsToCart c;
     match r with
     | Settled success => onSubmit_finish c success
     | Pending => mret ()
     end)
    (onSubmit_catch c).

(** The submit listener, from the settled response on. *)
Definition onSubmit_resume (c : gw_instance) (o : fetch_outcome) : js unit :=
  try_catch
    (success ← addProductsToCart_resume c o;
     onSubmit_finish c success)
    (onSubmit_catch c).

(** ** [initializeGiftWrap] (lines 1 to 149) *)

Definition initializeGiftWrap : js unit :=
  giftWrap ← query (sel_attr "data-gift-wrap");
  match giftWrap with
  | None => mret ()
  | Some giftWrap =>
      checkbox ← query_in giftWrap (sel_attr "data-gift-wrap-toggle");
      fields ← by_id (lit "gift-wrap-fields");
      error ← by_id (lit "gift-wrap-error");
      variantIdInput ← query_in giftWrap (sel_attr "data-gift-wrap-variant-id");
      form ← match checkbox with
             | Some checkbox => closest_of checkbox (sel_tag "form")
             | None => mret None
             end;
      match checkbox, fields, error, variantIdInput, form with
      | Some checkbox, Some fields, Some error, Some variantIdInput, Some form =>
          isAddingGiftWrap ← new_cell (VBool false);
          let c := GwInstance checkbox fields error variantIdInput form
                     isAddingGiftWrap in
          addEventListener (OnElement checkbox) "change" (CbCheckboxChange c) false ;;
          addEventListener (OnElement form) "submit" (CbFormSubmit c) false ;;
          checked ← prop checkbox el_checked;
          setExpanded c checked
      | _, _, _, _, _ => mret ()
      end
  end.

(** Lines 151 and 152: the script's own two listeners. *)
Definition main : js unit :=
  addEventListener OnDocument "DOMContentLoaded" CbInitializeGiftWrap false ;;
  addEventListener OnDocument "shopify:section:load" CbInitializeGiftWrap false.

End GiftWrap.

(** * Properties *)

Import GiftWrap.

(** ** The instance a handler runs with

    The five elements the instance holds exist, and the error container
    holds text only. *)
Record gw_valid (c : gw_instance) (d : document) : Prop := {
  gv_checkbox : live (gw_checkbox c) d;
  gv_fields : live (gw_fields c) d;
  gv_error : live (gw_error c) d;
  gv_error_leaf : leaf (gw_error c) d;
  gv_variantIdInput : live (gw_variantIdInput c) d;
  gv_form : live (gw_form c) d;
}.

#[export] Hint Resolve gv_checkbox gv_fields gv_error gv_error_leaf
  gv_variantIdInput gv_form : dom.

#[export] Instance gw_valid_dec c d : Decision (gw_valid c d).
Proof.
  refine (cast_if (decide (live (gw_checkbox c) d ∧ live (gw_fields c) d ∧
                           live (gw_error c) d ∧ leaf (gw_error c) d ∧
                           live (gw_variantIdInput c) d ∧ live (gw_form c) d)));
    [by destruct_and!; split | intros []; tauto].
Defined.

(** ** What the script reads from the document

    The values [addProductsToCart] reads, as functions of the document. *)

(** [scope.querySelector(sel)?.value] *)
Definition read_value (scope : nat) (sel : selector) (d : document) : jsval :=
  match querySelector_in scope sel d with
  | Some el => of_option (el_value <$> elems d !! el)
  | None => VUndefined
  end.

(** [scope.querySelector(sel)?.value?.trim()] *)
Definition read_trimmed (scope : nat) (sel : selector) (d : document) : jsval :=
  match querySelector_in scope sel d with
  | Some el => of_option ((λ e, trim (el_value e)) <$> elems d !! el)
  | None => VUndefined
  end.

Definition sel_to : selector := sel_attr "data-gift-wrap-to".
Definition sel_from : selector := sel_attr "data-gift-wrap-from".
Definition sel_message : selector := sel_attr "data-gift-wrap-message".
Definition sel_main_id : selector := sel_tag_attr_eq "input" "name" (lit "id").
Definition sel_quantity : selector := sel_tag_attr_eq "input" "name" (lit "quantity").

Record form_state : Type := FormState {
  fs_giftVariantId : jsval;
  fs_to : jsval;
  fs_mainVariantId : jsval;
  fs_quantity : jsval;
  fs_handle : jsval;
  fs_from : jsval;
  fs_message : jsval;
}.

Definition read_form (c : gw_instance) (d : document) : form_state :=
  FormState
    (of_option (el_value <$> elems d !! gw_variantIdInput c))
    (read_trimmed (gw_fields c) sel_to d)
    (read_value (gw_form c) sel_main_id d)
    (read_value (gw_form c) sel_quantity d)
    (default VUndefined (of_option <$> (getAttribute "data-product-handle" <$> elems d !! gw_form c)))
    (read_trimmed (gw_fields c) sel_from d)
    (read_trimmed (gw_fields c) sel_message d).

(** The request a form in state [fs] makes. *)
Definition request_of (fs : form_state) : request :=
  add_request
    (items (fs_mainVariantId fs) (js_or (fs_quantity fs) (VNum (Num 1)))
       (fs_giftVariantId fs)
       (giftProperties (fs_handle fs) (fs_to fs) (fs_from fs) (fs_message fs))).

(** The readings depend on the answers of the queries, on the values of
    the controls and on the attributes of the form. *)
Lemma read_form_ext c d' d :
  (∀ sel, agree sel d' d) →
  (∀ el, el_value <$> elems d' !! el = el_value <$> elems d !! el) →
  el_attrs <$> elems d' !! gw_form c = el_attrs <$> elems d !! gw_form c →
  read_form c d' = read_form c d.
Proof.
  intros Hq Hval Hattr. unfold read_form, read_value, read_trimmed.
  rewrite !(agree_querySelector_in _ _ _ (Hq _)), Hval.
  assert (∀ el, (λ e, trim (el_value e)) <$> elems d' !! el
              = (λ e, trim (el_value e)) <$> elems d !! el) as Htrim.
  { intros el. specialize (Hval el).
    destruct (elems d' !! el), (elems d !! el); simplify_eq/=; congruence. }
  assert (getAttribute "data-product-handle" <$> elems d' !! gw_form c
          = getAttribute "data-product-handle" <$> elems d !! gw_form c) as ->.
  { destruct (elems d' !! gw_form c), (elems d !! gw_form c);
      simplify_eq/=; unfold getAttribute; congruence. }
  f_equal; repeat case_match; by rewrite ?Hval, ?Htrim.
Qed.

Lemma value_of_runs scope sel w :
  runs (value_of scope sel) w (read_value scope sel (doc w)) w.
Proof.
  unfold value_of, read_value. js_step.
  destruct (querySelector_in scope sel (doc w)) as [el|] eqn:Hq; [|js_run].
  destruct (querySelector_in_has_elem _ _ _ _ Hq) as [e He].
  rewrite He. simpl. apply runs_fmap. by apply runs_prop.
Qed.

Lemma trimmed_value_runs scope sel w :
  runs (trimmed_value scope sel) w (read_trimmed scope sel (doc w)) w.
Proof.
  unfold trimmed_value, read_trimmed. js_step.
  destruct (querySelector_in scope sel (doc w)) as [el|] eqn:Hq; [|js_run].
  destruct (querySelector_in_has_elem _ _ _ _ Hq) as [e He].
  rewrite He. simpl. eapply runs_bind; [by apply runs_prop | js_run].
Qed.

#[export] Hint Resolve value_of_runs trimmed_value_runs : run.

(** ** The error display *)

(** The document after [showError(message)] and after [hideError()]. *)
Definition shown (c : gw_instance) (message : list N) (d : document) : document :=
  update_elem (gw_error c) (set_style "display" (lit "block"))
    (set_textContent (gw_error c)
       (if truthy_string message then message else msg_default) d).

Definition hidden (c : gw_instance) (d : document) : document :=
  update_elem (gw_error c) (set_style "display" (lit "none"))
    (set_textContent (gw_error c) [] d).

Section ErrorDisplay.
Context (c : gw_instance).

Lemma showError_runs w message :
  gw_valid c (doc w) →
  runs (showError c message) w () (with_doc (shown c message) w).
Proof. intros Hv. unfold showError. js_run. Qed.

Lemma hideError_runs w :
  gw_valid c (doc w) → runs (hideError c) w () (with_doc (hidden c) w).
Proof. intros Hv. unfold hideError. js_run. Qed.

Context (d : document) (Hv : gw_valid c d).

Lemma gw_valid_shown message : gw_valid c (shown c message d).
Proof. destruct Hv. unfold shown. split; eauto 6 with dom. Qed.

Lemma gw_valid_hidden : gw_valid c (hidden c d).
Proof. destruct Hv. unfold hidden. split; eauto 6 with dom. Qed.

(** The message is in the container, and the container is displayed. *)
Lemma shown_text message :
  textContent (gw_error c) (shown c message d)
  = Some (if truthy_string message then message else msg_default).
Proof. unfold shown. by autorewrite with dom. Qed.

Lemma shown_display message :
  style_of "display" <$> elems (shown c message d) !! gw_error c = Some (lit "block").
Proof.
  unfold shown. rewrite elems_update_elem_eq, elems_set_textContent.
  destruct (gv_error _ _ Hv) as [_ [e ->]]. simpl. f_equal.
  unfold style_of. simpl. by rewrite lookup_insert_eq.
Qed.

Lemma hidden_text : textContent (gw_error c) (hidden c d) = Some [].
Proof. unfold hidden. by autorewrite with dom. Qed.

Lemma hidden_display :
  style_of "display" <$> elems (hidden c d) !! gw_error c = Some (lit "none").
Proof.
  unfold hidden. rewrite elems_update_elem_eq, elems_set_textContent.
  destruct (gv_error _ _ Hv) as [_ [e ->]]. simpl. f_equal.
  unfold style_of. simpl. by rewrite lookup_insert_eq.
Qed.

(** Neither changes what the script reads from the form. *)
Lemma agree_shown sel message : agree sel (shown c message d) d.
Proof.
  unfold shown. etrans; [apply agree_update_unseen; auto with dom|].
  apply agree_set_textContent; auto with dom.
Qed.

Lemma agree_hidden sel : agree sel (hidden c d) d.
Proof.
  unfold hidden. etrans; [apply agree_update_unseen; auto with dom|].
  apply agree_set_textContent; auto with dom.
Qed.

Lemma read_form_shown message : read_form c (shown c message d) = read_form c d.
Proof.
  apply read_form_ext; [intros; apply agree_shown | intros el | ];
    unfold shown; by autorewrite with dom.
Qed.

Lemma read_form_hidden : read_form c (hidden c d) = read_form c d.
Proof.
  apply read_form_ext; [intros; apply agree_hidden | intros el | ];
    unfold hidden; by autorewrite with dom.
Qed.

Lemma checked_shown message j :
  el_checked <$> elems (shown c message d) !! j = el_checked <$> elems d !! j.
Proof. unfold shown. by autorewrite with dom. Qed.

Lemma checked_hidden j :
  el_checked <$> elems (hidden c d) !! j = el_checked <$> elems d !! j.
Proof. unfold hidden. by autorewrite with dom. Qed.

End ErrorDisplay.

#[export] Hint Resolve gw_valid_shown gw_valid_hidden showError_runs hideError_runs : dom.

(** ** [addProductsToCart], case by case *)

(** [fields.querySelector('[data-gift-wrap-to]')?.focus()] *)
Definition focus_recipient (c : gw_instance) (d : document) : document :=
  match querySelector_in (gw_fields c) sel_to d with
  | Some el => focus el d
  | None => d
  end.

Section AddProducts.
Context (c : gw_instance) (w : world) (Hv : gw_valid c (doc w)).

Lemma giftVariantId_runs :
  runs (VStr <$> prop (gw_variantIdInput c) el_value) w
    (fs_giftVariantId (read_form c (doc w))) w.
Proof.
  destruct (gv_variantIdInput _ _ Hv) as [_ [e He]]. simpl. rewrite He. simpl.
  apply (runs_fmap VStr). by apply runs_prop.
Qed.

Lemma handle_runs :
  runs (of_option <$> prop (gw_form c) (getAttribute "data-product-handle")) w
    (fs_handle (read_form c (doc w))) w.
Proof.
  destruct (gv_form _ _ Hv) as [_ [e He]]. simpl. rewrite He. simpl.
  apply (runs_fmap of_option). by apply runs_prop.
Qed.

(** No gift-wrap variant is configured: the error, and no request. *)
Lemma addProductsToCart_not_configured :
  truthy (fs_giftVariantId (read_form c (doc w))) = false →
  runs (addProductsToCart c) w (Settled false)
    (with_doc (shown c msg_not_configured) w).
Proof.
  intros H1. unfold addProductsToCart.
  eapply runs_bind; [apply giftVariantId_runs|]. rewrite H1. simpl.
  eapply runs_bind; [by apply showError_runs | apply runs_ret].
Qed.

(** The recipient is empty after trimming: the error, the focus, and no
    request. *)
Lemma addProductsToCart_no_recipient :
  truthy (fs_giftVariantId (read_form c (doc w))) = true →
  truthy (fs_to (read_form c (doc w))) = false →
  runs (addProductsToCart c) w (Settled false)
    (with_doc (focus_recipient c) (with_doc (shown c msg_recipient) w)).
Proof.
  intros H1 H2. unfold addProductsToCart.
  eapply runs_bind; [apply giftVariantId_runs|]. rewrite H1. simpl.
  eapply runs_bind; [apply trimmed_value_runs|]. fold sel_to.
  change (read_trimmed (gw_fields c) sel_to (doc w))
    with (fs_to (read_form c (doc w))).
  rewrite H2. simpl.
  eapply runs_bind; [by apply showError_runs|].
  eapply runs_bind; [apply runs_query_in|].
  set (w1 := with_doc (shown c msg_recipient) w).
  assert (with_doc (focus_recipient c) w1
          = match querySelector_in (gw_fields c) sel_to (doc w1) with
            | Some el => with_doc (focus el) w1
            | None => w1
            end) as ->.
  { unfold with_doc at 1, focus_recipient.
    destruct (querySelector_in _ _ (doc w1)); [done | by destruct w1]. }
  destruct (querySelector_in _ _ (doc w1)) as [el|] eqn:Hq.
  - eapply runs_bind; [|apply runs_ret].
    eapply runs_focus_on. eauto with dom.
  - eapply runs_bind; apply runs_ret.
Qed.

(** The form has no variant input, or an empty one: the error, and no
    request. *)
Lemma addProductsToCart_no_variant :
  truthy (fs_giftVariantId (read_form c (doc w))) = true →
  truthy (fs_to (read_form c (doc w))) = true →
  truthy (fs_mainVariantId (read_form c (doc w))) = false →
  runs (addProductsToCart c) w (Settled false)
    (with_doc (shown c msg_no_variant) w).
Proof.
  intros H1 H2 H3. unfold addProductsToCart.
  eapply runs_bind; [apply giftVariantId_runs|]. rewrite H1. simpl.
  eapply runs_bind; [apply trimmed_value_runs|]. fold sel_to.
  change (read_trimmed (gw_fields c) sel_to (doc w))
    with (fs_to (read_form c (doc w))).
  rewrite H2. simpl. apply runs_try_catch.
  eapply runs_bind; [apply value_of_runs|]. fold sel_main_id.
  change (read_value (gw_form c) sel_main_id (doc w))
    with (fs_mainVariantId (read_form c (doc w))).
  rewrite H3. simpl.
  eapply runs_bind; [by apply showError_runs | apply runs_ret].
Qed.

(** Everything is there: one request, built from the form, and the
    function waits. *)
Lemma addProductsToCart_sends :
  truthy (fs_giftVariantId (read_form c (doc w))) = true →
  truthy (fs_to (read_form c (doc w))) = true →
  truthy (fs_mainVariantId (read_form c (doc w))) = true →
  runs (addProductsToCart c) w Pending
    (with_inflight (λ l, l ++ [(request_of (read_form c (doc w)), KAddProducts c)])
       (with_trace (λ t, t ++ [FxFetch (request_of (read_form c (doc w)))]) w)).
Proof.
  intros H1 H2 H3. unfold addProductsToCart.
  eapply runs_bind; [apply giftVariantId_runs|]. rewrite H1. simpl.
  eapply runs_bind; [apply trimmed_value_runs|]. fold sel_to.
  change (read_trimmed (gw_fields c) sel_to (doc w))
    with (fs_to (read_form c (doc w))).
  rewrite H2. simpl. apply runs_try_catch.
  eapply runs_bind; [apply value_of_runs|]. fold sel_main_id.
  change (read_value (gw_form c) sel_main_id (doc w))
    with (fs_mainVariantId (read_form c (doc w))).
  rewrite H3. simpl.
  eapply runs_bind; [apply value_of_runs|].
  eapply runs_bind; [apply handle_runs|].
  eapply runs_bind; [apply trimmed_value_runs|].
  eapply runs_bind; [apply trimmed_value_runs|].
  eapply runs_bind; [apply runs_fetch | apply runs_ret].
Qed.

End AddProducts.

(** ** The submit listener *)

(** [checkbox.checked] and [isAddingGiftWrap], as the listener reads them. *)
Definition is_checked (c : gw_instance) (w : world) : bool :=
  default false (el_checked <$> elems (doc w) !! gw_checkbox c).

Definition is_adding (c : gw_instance) (w : world) : bool :=
  truthy (default VUndefined (cells w !! gw_isAdding c)).

(** The world once the listener has taken the submission over: the
    default action is prevented, the guard is engaged, the error is
    hidden (lines 131 to 133). *)
Definition taken_over (c : gw_instance) (w : world) : world :=
  with_doc (hidden c)
    (with_cells <[gw_isAdding c := VBool true]> (with_prevented true w)).

(** The guard released (lines 139 and 143). *)
Definition released (c : gw_instance) (w : world) : world :=
  with_cells <[gw_isAdding c := VBool false]> w.

Lemma is_adding_released c w : is_adding c (released c w) = false.
Proof. unfold is_adding, released. simpl. by rewrite lookup_insert_eq. Qed.

Lemma is_adding_taken_over c w : is_adding c (taken_over c w) = true.
Proof. unfold is_adding, taken_over. simpl. by rewrite lookup_insert_eq. Qed.

Lemma is_adding_with_doc c f w : is_adding c (with_doc f w) = is_adding c w.
Proof. done. Qed.

Lemma is_adding_with_trace c f w : is_adding c (with_trace f w) = is_adding c w.
Proof. done. Qed.

Lemma is_adding_with_inflight c f w : is_adding c (with_inflight f w) = is_adding c w.
Proof. done. Qed.

Section Submit.
Context (c : gw_instance) (w : world) (Hv : gw_valid c (doc w)).

Lemma checked_runs : runs (prop (gw_checkbox c) el_checked) w (is_checked c w) w.
Proof.
  destruct (gv_checkbox _ _ Hv) as [_ [e He]]. unfold is_checked. rewrite He.
  simpl. by apply runs_prop.
Qed.

Lemma gw_valid_taken_over : gw_valid c (doc (taken_over c w)).
Proof. unfold taken_over. rewrite doc_with_doc. simpl. by apply gw_valid_hidden. Qed.

Lemma read_form_taken_over : read_form c (doc (taken_over c w)) = read_form c (doc w).
Proof. unfold taken_over. rewrite doc_with_doc. simpl. by apply read_form_hidden. Qed.

(** The listener up to the call of [addProductsToCart]. *)
Lemma onSubmit_takes_over {A} (k : js A) (h : js_error → js A) a w' :
  runs k (taken_over c w) a w' →
  runs (try_catch (preventDefault ;; write_cell (gw_isAdding c) (VBool true) ;;
                   hideError c ;; k) h) w a w'.
Proof.
  intros Hk. apply runs_try_catch.
  eapply runs_bind; [apply runs_preventDefault|].
  eapply runs_bind; [apply runs_write_cell|].
  eapply runs_bind; [by apply hideError_runs|]. exact Hk.
Qed.

Lemma onSubmit_guarded a w' :
  is_checked c w = true → is_adding c w = false →
  runs (r ← addProductsToCart c;
        match r with
        | Settled success => onSubmit_finish c success
        | Pending => mret ()
        end) (taken_over c w) a w' →
  runs (onSubmit c) w a w'.
Proof.
  intros Hc Ha Hk. unfold onSubmit.
  eapply runs_bind; [apply checked_runs|]. rewrite Hc. simpl.
  eapply runs_bind; [apply runs_read_cell|]. fold (is_adding c w). rewrite Ha.
  by apply onSubmit_takes_over.
Qed.

End Submit.

(** ** What a submission promises

    The abstract account of lines 45 to 65: a form is judged on three
    readings, in this order. *)
Inductive verdict : Type :=
| NotConfigured
| NoRecipient
| NoVariant
| Ready.

Definition validate (fs : form_state) : verdict :=
  if negb (truthy (fs_giftVariantId fs)) then NotConfigured
  else if negb (truthy (fs_to fs)) then NoRecipient
  else if negb (truthy (fs_mainVariantId fs)) then NoVariant
  else Ready.

(** The world a refused submission leaves: the message shown (and the
    recipient field focused when it is the culprit), the guard released. *)
Definition refused (c : gw_instance) (v : verdict) (w : world) : world :=
  match v with
  | NotConfigured => released c (with_doc (shown c msg_not_configured) w)
  | NoRecipient =>
      released c
        (with_doc (focus_recipient c) (with_doc (shown c msg_recipient) w))
  | NoVariant => released c (with_doc (shown c msg_no_variant) w)
  | Ready => w
  end.

(** The world an accepted submission leaves: one request on its way. *)
Definition requested (c : gw_instance) (r : request) (w : world) : world :=
  with_inflight (λ l, l ++ [(r, KAddProducts c)])
    (with_trace (λ t, t ++ [FxFetch r]) w).

(** The submit listener as a function of the world. *)
Definition submit_spec (c : gw_instance) (w : world) : world :=
  if negb (is_checked c w) then w
  else if is_adding c w then w
  else
    let fs := read_form c (doc w) in
    match validate fs with
    | Ready => requested c (request_of fs) (taken_over c w)
    | v => refused c v (taken_over c w)
    end.

Lemma validate_cases fs :
  match validate fs with
  | NotConfigured => truthy (fs_giftVariantId fs) = false
  | NoRecipient =>
      truthy (fs_giftVariantId fs) = true ∧ truthy (fs_to fs) = false
  | NoVariant =>
      truthy (fs_giftVariantId fs) = true ∧ truthy (fs_to fs) = true ∧
      truthy (fs_mainVariantId fs) = false
  | Ready =>
      truthy (fs_giftVariantId fs) = true ∧ truthy (fs_to fs) = true ∧
      truthy (fs_mainVariantId fs) = true
  end.
Proof.
  unfold validate.
  destruct (truthy (fs_giftVariantId fs)), (truthy (fs_to fs)),
    (truthy (fs_mainVariantId fs)); simpl; auto.
Qed.

Lemma validate_ready fs :
  validate fs = Ready ↔
  truthy (fs_giftVariantId fs) = true ∧ truthy (fs_to fs) = true ∧
  truthy (fs_mainVariantId fs) = true.
Proof.
  unfold validate.
  destruct (truthy (fs_giftVariantId fs)), (truthy (fs_to fs)),
    (truthy (fs_mainVariantId fs)); simpl; intuition congruence.
Qed.

Lemma validate_no_recipient fs :
  validate fs = NoRecipient ↔
  truthy (fs_giftVariantId fs) = true ∧ truthy (fs_to fs) = false.
Proof.
  unfold validate.
  destruct (truthy (fs_giftVariantId fs)), (truthy (fs_to fs)),
    (truthy (fs_mainVariantId fs)); simpl; intuition congruence.
Qed.

Section SubmitCases.
Context (c : gw_instance) (w : world) (Hv : gw_valid c (doc w)).

(** [addProductsToCart], whatever the form holds: it refuses and returns
    [false], or sends and waits. *)
Lemma addProductsToCart_spec :
  let fs := read_form c (doc w) in
  match validate fs with
  | Ready => runs (addProductsToCart c) w Pending (requested c (request_of fs) w)
  | v =>
      ∃ w', runs (addProductsToCart c) w (Settled false) w' ∧
            refused c v w = released c w'
  end.
Proof.
  intros fs. pose proof (validate_cases fs) as H. subst fs.
  destruct (validate _).
  - eexists. split; [by apply addProductsToCart_not_configured | done].
  - destruct H. eexists. split; [by apply addProductsToCart_no_recipient | done].
  - destruct H as (?&?&?).
    eexists. split; [by apply addProductsToCart_no_variant | done].
  - destruct H as (?&?&?). by apply addProductsToCart_sends.
Qed.

End SubmitCases.

Section SubmitSpec.
Context (c : gw_instance) (w : world) (Hv : gw_valid c (doc w)).

Lemma onSubmit_unchecked : is_checked c w = false → runs (onSubmit c) w () w.
Proof.
  intros Hc. unfold onSubmit.
  eapply runs_bind; [by apply checked_runs|]. rewrite Hc. apply runs_ret.
Qed.

Lemma onSubmit_adding :
  is_checked c w = true → is_adding c w = true → runs (onSubmit c) w () w.
Proof.
  intros Hc Ha. unfold onSubmit.
  eapply runs_bind; [by apply checked_runs|]. rewrite Hc. simpl.
  eapply runs_bind; [apply runs_read_cell|]. fold (is_adding c w). rewrite Ha.
  apply runs_ret.
Qed.

Lemma onSubmit_validated :
  is_checked c w = true → is_adding c w = false →
  let fs := read_form c (doc w) in
  runs (onSubmit c) w ()
    match validate fs with
    | Ready => requested c (request_of fs) (taken_over c w)
    | v => refused c v (taken_over c w)
    end.
Proof.
  intros Hc Ha fs. apply onSubmit_guarded; [done..|].
  pose proof (addProductsToCart_spec c (taken_over c w)
                (gw_valid_taken_over c w Hv)) as H.
  cbv zeta in H. rewrite (read_form_taken_over c w Hv) in H. fold fs in H.
  destruct (validate fs);
    try (destruct H as (w' & Hrun & ->);
         eapply runs_bind; [exact Hrun | apply runs_write_cell]).
  eapply runs_bind; [exact H | apply runs_ret].
Qed.

Lemma onSubmit_runs : runs (onSubmit c) w () (submit_spec c w).
Proof.
  unfold submit_spec.
  destruct (is_checked c w) eqn:Hc; [|by apply onSubmit_unchecked].
  destruct (is_adding c w) eqn:Ha; [by apply onSubmit_adding|].
  by apply onSubmit_validated.
Qed.

End SubmitSpec.

(** ** The settled response *)

Definition log_error (err : js_error) : effect :=
  FxConsole LevelError [CStr "Cart error:"; CErr err].

Definition log_result (result : jsval) : effect :=
  FxConsole LevelLog [CStr "Products added to cart:"; CVal result].

(** What a settled request amounts to: accepted, with the parsed result
    and what follows it (the redirect or the event); or failed, with the
    value the [catch] receives (and the result, when it was logged before
    the failure). *)
Inductive settlement : Type :=
| Accepted (result : jsval) (fx : effect)
| Failed (logged : option jsval) (err : js_error).

Definition settle (o : fetch_outcome) : settlement :=
  match o with
  | FetchRejected => Failed None (TypeError "Failed to fetch")
  | FetchResponse status b =>
      match response_json b with
      | Thrown e => Failed None e
      | Normal v =>
          if response_ok status then
            match get_prop v "status" with
            | Normal st =>
                Accepted v (if strict_eq_int st 303 then FxNavigate "/cart"
                            else FxDispatch "cart:updated")
            | Thrown e => Failed (Some v) e
            end
          else
            match get_prop v "message" with
            | Normal m =>
                Failed None
                  (ErrorOf (js_or m (VStr (lit "Failed to add products to cart"))))
            | Thrown e => Failed None e
            end
      end
  end.

Definition accepted (o : fetch_outcome) : bool :=
  match settle o with Accepted _ _ => true | Failed _ _ => false end.

Definition logged (l : option jsval) (w : world) : world :=
  match l with
  | Some v => with_trace (λ t, t ++ [log_result v]) w
  | None => w
  end.

(** The world the [catch] of [addProductsToCart] leaves. *)
Definition caught (c : gw_instance) (err : js_error) (w : world) : world :=
  with_doc (shown c msg_failed) (with_trace (λ t, t ++ [log_error err]) w).

(** The resumed listener as a function of the world. *)
Definition resume_spec (c : gw_instance) (o : fetch_outcome) (w : world) : world :=
  match settle o with
  | Accepted result fx =>
      with_trace (λ t, t ++ [fx]) (with_trace (λ t, t ++ [log_result result]) w)
  | Failed l err => released c (caught c err (logged l w))
  end.

Section Resume.
Context (c : gw_instance) (w : world) (Hv : gw_valid c (doc w)).

Lemma addProductsToCart_catch_runs err :
  runs (addProductsToCart_catch c err) w false (caught c err w).
Proof.
  unfold addProductsToCart_catch.
  eapply runs_bind; [apply runs_console_error|].
  eapply runs_bind; [by apply showError_runs | apply runs_ret].
Qed.

End Resume.

Section ResumeSpec.
Context (c : gw_instance) (w : world) (Hv : gw_valid c (doc w)).

Lemma gw_valid_logged l : gw_valid c (doc (logged l w)).
Proof. by destruct l. Qed.

Lemma addProductsToCart_resume_runs o :
  runs (addProductsToCart_resume c o) w (accepted o)
    match settle o with
    | Accepted result fx =>
        with_trace (λ t, t ++ [fx]) (with_trace (λ t, t ++ [log_result result]) w)
    | Failed l err => caught c err (logged l w)
    end.
Proof.
  unfold addProductsToCart_resume, accepted.
  destruct (settle o) as [result fx|l err] eqn:Ho.
  - apply runs_try_catch. unfold runs.
    destruct o as [|status [v|]]; simpl in Ho; [done| |done].
    destruct (response_ok status) eqn:Hok, (get_prop v "status") as [st|] eqn:Hst;
      try destruct (get_prop v "message"); simplify_eq;
      prog_simpl; rewrite Hok, Hst; simpl; by destruct (strict_eq_int st 303).
  - eapply runs_try_catch_handler;
      [|apply addProductsToCart_catch_runs, gw_valid_logged].
    unfold raises.
    destruct o as [|status [v|]]; simpl in Ho; simplify_eq; [done| |];
      destruct (response_ok status) eqn:Hok; prog_simpl; rewrite Hok; [| |done..];
      destruct (get_prop v "status") as [st|] eqn:Hst,
        (get_prop v "message") as [m|] eqn:Hm; simplify_eq;
      simpl; rewrite ?Hst, ?Hm; done.
Qed.

Lemma onSubmit_resume_runs o : runs (onSubmit_resume c o) w () (resume_spec c o w).
Proof.
  unfold onSubmit_resume, resume_spec. apply runs_try_catch.
  eapply runs_bind; [apply addProductsToCart_resume_runs|].
  unfold accepted. destruct (settle o); [apply runs_ret | apply runs_write_cell].
Qed.

End ResumeSpec.

(** ** [setExpanded] and the change listener *)

(** Every text input and text area under the fields, emptied. *)
Definition cleared (c : gw_instance) (d : document) : document :=
  update_all (with_value [])
    (querySelectorAll_in (gw_fields c) sel_text_inputs d) d.

(** The checkbox and the fields after [setExpanded(b)], before the
    clearing. *)
Definition toggled (c : gw_instance) (b : bool) (d : document) : document :=
  update_elem (gw_fields c)
    (set_style "display" (if b then lit "block" else lit "none"))
    (update_elem (gw_checkbox c)
       (setAttribute "aria-expanded" (if b then lit "true" else lit "false")) d).

Definition expanded (c : gw_instance) (b : bool) (d : document) : document :=
  if b then toggled c b d else hidden c (cleared c (toggled c b d)).

Section Expanded.
Context (c : gw_instance) (d : document) (Hv : gw_valid c d).

Lemma gw_valid_toggled b : gw_valid c (toggled c b d).
Proof. destruct Hv. unfold toggled. split; eauto 6 with dom. Qed.

Lemma gw_valid_cleared : gw_valid c (cleared c d).
Proof. destruct Hv. unfold cleared. split; eauto 6 with dom. Qed.

Lemma agree_toggled sel b :
  attr_free "aria-expanded" (simples sel) = true → agree sel (toggled c b d) d.
Proof.
  intros Hsel. unfold toggled.
  etrans; [apply agree_update_unseen; auto with dom|]. by apply agree_setAttribute.
Qed.

Lemma text_inputs_toggled b :
  querySelectorAll_in (gw_fields c) sel_text_inputs (toggled c b d)
  = querySelectorAll_in (gw_fields c) sel_text_inputs d.
Proof. by apply agree_querySelectorAll_in, agree_toggled. Qed.

End Expanded.

Section SetExpanded.
Context (c : gw_instance) (w : world) (Hv : gw_valid c (doc w)).

Lemma setExpanded_runs b :
  runs (setExpanded c b) w () (with_doc (expanded c b) w).
Proof.
  pose proof (gw_valid_toggled c _ Hv b) as Hv1. destruct Hv.
  unfold setExpanded.
  eapply runs_bind; [apply runs_update; auto with dom|].
  eapply runs_bind; [apply runs_update; js_side|].
  destruct b; [apply runs_when_false|]. apply runs_when_true.
  eapply runs_bind; [apply runs_query_all_in|].
  eapply runs_bind.
  { apply runs_for_each_update, Forall_forall. intros.
    by eapply querySelectorAll_in_has_elem. }
  apply (hideError_runs c (with_doc (cleared c) (with_doc (toggled c false) w))).
  by apply gw_valid_cleared.
Qed.

Lemma onChange_runs :
  runs (onChange c) w () (with_doc (expanded c (is_checked c w)) w).
Proof.
  unfold onChange.
  eapply runs_bind; [by apply checked_runs | by apply setExpanded_runs].
Qed.

End SetExpanded.

(** ** [initializeGiftWrap] *)

(** The five elements the script looks for, and the cell it will use. *)
Definition instance_of (d : document) (cell : nat) : option gw_instance :=
  giftWrap ← querySelector (sel_attr "data-gift-wrap") d;
  checkbox ← querySelector_in giftWrap (sel_attr "data-gift-wrap-toggle") d;
  fields ← getElementById (lit "gift-wrap-fields") d;
  error ← getElementById (lit "gift-wrap-error") d;
  variantIdInput ← querySelector_in giftWrap (sel_attr "data-gift-wrap-variant-id") d;
  form ← closest checkbox (sel_tag "form") d;
  Some (GwInstance checkbox fields error variantIdInput form cell).

(** The page once the controller [c] is attached. *)
Definition attached_controller (c : gw_instance) (w : world) : world :=
  with_doc (expanded c (is_checked c w))
    (with_listeners
       (λ l, l ++ [Listener (OnElement (gw_checkbox c)) "change" (CbCheckboxChange c) false;
                   Listener (OnElement (gw_form c)) "submit" (CbFormSubmit c) false])
       (with_next_cell (S (next_cell w))
          (with_cells <[gw_isAdding c := VBool false]> w))).

Definition initialized (w : world) : world :=
  match instance_of (doc w) (next_cell w) with
  | Some c => attached_controller c w
  | None => w
  end.

Lemma initializeGiftWrap_absent w :
  instance_of (doc w) (next_cell w) = None → runs initializeGiftWrap w () w.
Proof.
  unfold instance_of, initializeGiftWrap. intros Hnone.
  eapply runs_bind; [apply runs_query|].
  destruct (querySelector _ (doc w)) as [giftWrap|]; [|apply runs_ret].
  eapply runs_bind; [apply runs_query_in|].
  eapply runs_bind; [apply runs_by_id|].
  eapply runs_bind; [apply runs_by_id|].
  eapply runs_bind; [apply runs_query_in|].
  simpl in Hnone.
  destruct (querySelector_in giftWrap (sel_attr "data-gift-wrap-toggle") _)
    as [checkbox|]; simpl in Hnone.
  - eapply runs_bind; [apply runs_closest_of|].
    destruct (getElementById (lit "gift-wrap-fields") _),
      (getElementById (lit "gift-wrap-error") _),
      (querySelector_in giftWrap _ _), (closest checkbox _ _);
      simpl in Hnone; try done; apply runs_ret.
  - eapply runs_bind; apply runs_ret.
Qed.

Lemma initializeGiftWrap_present c w :
  instance_of (doc w) (next_cell w) = Some c → gw_valid c (doc w) →
  runs initializeGiftWrap w () (attached_controller c w).
Proof.
  unfold instance_of, initializeGiftWrap. intros Hsome Hv.
  eapply runs_bind; [apply runs_query|].
  destruct (querySelector _ (doc w)) as [giftWrap|]; [|done].
  eapply runs_bind; [apply runs_query_in|].
  eapply runs_bind; [apply runs_by_id|].
  eapply runs_bind; [apply runs_by_id|].
  eapply runs_bind; [apply runs_query_in|].
  simpl in Hsome.
  destruct (querySelector_in giftWrap (sel_attr "data-gift-wrap-toggle") _)
    as [checkbox|]; [|done]. simpl in Hsome.
  eapply runs_bind; [apply runs_closest_of|].
  destruct (getElementById (lit "gift-wrap-fields") _) as [fields|]; [|done].
  destruct (getElementById (lit "gift-wrap-error") _) as [error|]; [|done].
  destruct (querySelector_in giftWrap _ _) as [variantIdInput|]; [|done].
  destruct (closest checkbox _ _) as [form|]; [|done].
  simpl in Hsome. injection Hsome as <-.
  set (c := GwInstance checkbox fields error variantIdInput form (next_cell w)) in *.
  eapply runs_bind; [done|].
  eapply runs_bind; [apply runs_addEventListener|].
  eapply runs_bind; [apply runs_addEventListener|].
  set (w1 := with_listeners _ (with_listeners _ _)).
  eapply runs_bind; [apply (checked_runs c w1); exact Hv|].
  eapply runs_eq; [apply (setExpanded_runs c w1); exact Hv|].
  unfold attached_controller, w1. unfold with_listeners. simpl.
  by rewrite <- app_assoc.
Qed.

Lemma initializeGiftWrap_runs w :
  (∀ c, instance_of (doc w) (next_cell w) = Some c → gw_valid c (doc w)) →
  runs initializeGiftWrap w () (initialized w).
Proof.
  intros Hv. unfold initialized.
  destruct (instance_of _ _) as [c|] eqn:Hc.
  - by apply initializeGiftWrap_present, Hv.
  - by apply initializeGiftWrap_absent.
Qed.
