(* ===== verification/CartPage.v ===== *)
(** * CartPage: the inline editor of [src/assets/cart-gift-wrap-inline.js]

    [Module Editor] holds the methods of [GiftWrapInlineEditor] that
    serve the cart page, one definition per method, and the callbacks
    they hand to the browser.  A cart line is named by its item key,
    which the handlers read from a [data-] attribute of the event target:
    a string, or [undefined] when the attribute is not there
    ([option (list N)]).

    The two [async] methods are split at their [await fetch]:
    [updateGiftWrap] and [removeGiftWrap] are the methods up to that
    call, [updateGiftWrap_resume] and [removeGiftWrap_resume] the methods
    from the settled response on.  The [finally] of [updateGiftWrap] runs
    when the method returns, so after the response when there is one
    ([finally_settled]).  A handler calls them without [await]
    ([spawn]). *)

From stdpp Require Import gmap strings.
From S2P Require Import Prelude JsString JsValue Dom Closures Runtime.

Module Editor.

(** ** Selectors and messages *)

(** [`[data-gift-wrap-field="${fieldName}"][data-item-key="${itemKey}"]`] *)
Definition sel_field (fieldName : list N) (itemKey : option (list N)) : selector :=
  [Complex [] [SelAttrEq "data-gift-wrap-field" fieldName;
               SelAttrEq "data-item-key" (interpolate itemKey)]].

(** [`[data-gift-wrap-editor-row="${itemKey}"]`] *)
Definition sel_row (itemKey : option (list N)) : selector :=
  sel_attr_eq "data-gift-wrap-editor-row" (interpolate itemKey).

(** [`[data-gift-wrap-editor-row="${itemKey}"] .c`] *)
Definition sel_in_row (itemKey : option (list N)) (c : string) : selector :=
  [Complex [[SelAttrEq "data-gift-wrap-editor-row" (interpolate itemKey)]]
     [SelClass c]].

(** [`[data-gift-wrap-toggle-inline="${itemKey}"]`] *)
Definition sel_toggle_inline (itemKey : option (list N)) : selector :=
  sel_attr_eq "data-gift-wrap-toggle-inline" (interpolate itemKey).

Definition sel_cart_section : selector :=
  [Complex [] [SelClass "cart__contents"]; Complex [] [SelTag "cart-items"]].

Definition cls_error : string := "gift-wrap-inline-editor__error".
Definition cls_actions : string := "gift-wrap-inline-editor__actions".

Definition msg_recipient_required : list N := lit "Recipient name is required".
Definition msg_update_failed : list N :=
  lit "Failed to update gift wrap. Please try again.".
Definition color_success : list N := lit "rgb(var(--color-success, 40, 167, 69))".

(** ** [getGiftWrapFields] (lines 174 to 184) *)

(** [field ? field.value.trim() : ''] *)
Definition field_text (field : option nat) : js (list N) :=
  match field with
  | Some el => trim <$> prop el el_value
  | None => mret []
  end.

Definition getGiftWrapFields (itemKey : option (list N)) : js gift_fields :=
  toField ← query (sel_field (lit "to") itemKey);
  fromField ← query (sel_field (lit "from") itemKey);
  messageField ← query (sel_field (lit "message") itemKey);
  to ← field_text toField;
  from ← field_text fromField;
  message ← field_text messageField;
  mret (GiftFields to from message).

(** ** [setLoadingState] (lines 186 to 197) *)

Definition setLoadingState (button : nat) (loading : bool) : js unit :=
  if loading then
    update button (with_disabled true) ;;
    update button (classList_add "loading") ;;
    text ← get_text button;
    update button (setAttribute "data-original-text" text) ;;
    set_text button (lit "Updating...")
  else
    update button (with_disabled false) ;;
    update button (classList_remove "loading") ;;
    originalText ← prop button (getAttribute "data-original-text");
    set_text button (str_or originalText (lit "Update")).

(** ** [showSuccess] (lines 199 to 208) *)

Definition showSuccess (button : nat) : js unit :=
  originalText ← prop button (getAttribute "data-original-text");
  set_text button (lit "Updated!") ;;
  update button (set_style "background" color_success) ;;
  setTimeout (CbSuccessRevert button (str_or originalText (lit "Update"))) 2000.

(** The timer callback of lines 204 to 207. *)
Definition onSuccessRevert (button : nat) (originalText : list N) : js unit :=
  set_text button originalText ;;
  update button (clear_style "background").

(** ** [showError] (lines 210 to 229) *)

Definition showError (itemKey : option (list N)) (message : list N) : js unit :=
  found ← query (sel_in_row itemKey cls_error);
  errorEl ← match found with
            | Some errorEl => mret errorEl
            | None =>
                errorEl ← create "div";
                update errorEl (set_className cls_error) ;;
                actionsDiv ← query (sel_in_row itemKey cls_actions);
                match actionsDiv with
                | Some actionsDiv => append actionsDiv errorEl
                | None => mret ()
                end ;;
                mret errorEl
            end;
  set_text errorEl message ;;
  update errorEl (classList_add "show") ;;
  setTimeout (CbErrorHide errorEl) 5000.

(** The timer callback of lines 226 to 228. *)
Definition onErrorHide (errorEl : nat) : js unit :=
  update errorEl (classList_remove "show").

(** ** [showFieldError] (lines 231 to 244) *)

Definition showFieldError (itemKey : option (list N)) (fieldName message : list N)
    : js unit :=
  field ← query (sel_field fieldName itemKey);
  match field with
  | Some field =>
      update field (classList_add "error") ;;
      focus_on field ;;
      addEventListener (OnElement field) "input" (CbFieldInput field) true
  | None => mret ()
  end ;;
  showError itemKey message.

(** The listener of lines 238 to 240. *)
Definition onFieldInput (field : nat) : js unit :=
  update field (classList_remove "error").

(** ** [clearErrors] (lines 246 to 257) *)

Definition clearErrors (itemKey : option (list N)) : js unit :=
  editorRow ← query (sel_row itemKey);
  match editorRow with
  | Some editorRow =>
      fields ← query_all_in editorRow (sel_class "error");
      for_each (λ field, update field (classList_remove "error")) fields ;;
      errorEl ← query_in editorRow (sel_class cls_error);
      match errorEl with
      | Some errorEl => update errorEl (classList_remove "show")
      | None => mret ()
      end
  | None => mret ()
  end.

(** ** [refreshCartUI] (lines 259 to 267) *)

Definition refreshCartUI : js unit :=
  getCart ← gets (λ w, env_getCart (env w));
  match getCart with
  | Present throws => call_external throws FxGetCart
  | Absent => emit FxReload
  end.

(** ** [updateGiftWrap] (lines 84 to 138) *)

(** Lines 100 to 118: the request. *)
Definition update_request (itemKey : option (list N)) (fields : gift_fields)
    : request :=
  post_json "/cart/change.js"
    (VObj [("id", of_option itemKey);
           ("properties",
            VObj [("_GiftWrap", VStr (lit "Yes"));
                  ("To", VStr (gf_to fields));
                  ("From", VStr (gf_from fields));
                  ("Message", VStr (gf_message fields))])]).

(** The [catch] of lines 132 to 134. *)
Definition updateGiftWrap_catch (itemKey : option (list N)) (error : js_error)
    : js unit :=
  console_error [CStr "Gift wrap update error:"; CErr error] ;;
  showError itemKey msg_update_failed.

(** Lines 85 to 118: up to the [await]. *)
Definition updateGiftWrap (itemKey : option (list N)) (updateButton : nat)
    : js (suspended unit) :=
  finally_settled
    (try_catch
       (fields ← getGiftWrapFields itemKey;
        if negb (truthy_string (trim (gf_to fields))) then
          showFieldError itemKey (lit "to") msg_recipient_required ;;
          mret (Settled ())
        else
        setLoadingState updateButton true ;;
        clearErrors itemKey ;;
        fetch (update_request itemKey fields) (KUpdate itemKey updateButton) ;;
        mret Pending)
       (λ error, Settled <$> updateGiftWrap_catch itemKey error))
    (setLoadingState updateButton false).

(** Lines 120 to 137: from the settled response on. *)
Definition updateGiftWrap_resume (itemKey : option (list N)) (updateButton : nat)
    (o : fetch_outcome) : js unit :=
  try_finally
    (try_catch
       ('(status, b) ← response_of o;
        if negb (response_ok status) then
          throw (ErrorOf (VStr (lit "Failed to update gift wrap")))
        else
        _ ← lift (response_json b);
        showSuccess updateButton ;;
        refreshCartUI)
       (updateGiftWrap_catch itemKey))
    (setLoadingState updateButton false).

(** ** [removeGiftWrap] (lines 140 to 168) *)

Definition remove_request (itemKey : option (list N)) : request :=
  post_json "/cart/change.js"
    (VObj [("id", of_option itemKey); ("quantity", VNum (Num 0))]).

(** The [catch] of lines 162 to 167. *)
Definition removeGiftWrap_catch (itemKey : option (list N)) (error : js_error)
    : js unit :=
  console_error [CStr "Gift wrap removal error:"; CErr error] ;;
  checkbox ← query (sel_toggle_inline itemKey);
  match checkbox with
  | Some checkbox => update checkbox (with_checked true)
  | None => mret ()
  end.

(** Lines 141 to 153: up to the [await]. *)
Definition removeGiftWrap (itemKey : option (list N)) : js (suspended unit) :=
  try_catch
    (fetch (remove_request itemKey) (KRemove itemKey) ;;
     mret Pending)
    (λ error, Settled <$> removeGiftWrap_catch itemKey error).

(** Lines 155 to 167: from the settled response on. *)
Definition removeGiftWrap_resume (itemKey : option (list N)) (o : fetch_outcome)
    : js unit :=
  try_catch
    ('(status, _) ← response_of o;
     if negb (response_ok status) then
       throw (ErrorOf (VStr (lit "Failed to remove gift wrap")))
     else
     refreshCartUI)
    (removeGiftWrap_catch itemKey).

(** ** [cancelGiftWrap] (lines 170 to 172) *)

Definition cancelGiftWrap (itemKey : option (list N)) : js (suspended unit) :=
  removeGiftWrap itemKey.

Definition cancelGiftWrap_resume (itemKey : option (list N)) (o : fetch_outcome)
    : js unit :=
  removeGiftWrap_resume itemKey o.

(** ** The delegated listeners of the cart section (lines 61 to 82) *)

Definition handleCartSectionClick (target : nat) : js unit :=
  isUpdate ← matches_of target (sel_attr "data-gift-wrap-update");
  when isUpdate
    (preventDefault ;;
     console_log [CStr "hey"] ;;
     itemKey ← prop target (getAttribute "data-gift-wrap-update");
     spawn (updateGiftWrap itemKey target)) ;;
  isCancel ← matches_of target (sel_attr "data-gift-wrap-cancel");
  when isCancel
    (preventDefault ;;
     itemKey ← prop target (getAttribute "data-gift-wrap-cancel");
     spawn (cancelGiftWrap itemKey)).

Definition handleCartSectionChange (target : nat) : js unit :=
  isToggle ← matches_of target (sel_attr "data-gift-wrap-toggle-inline");
  when isToggle
    (itemKey ← prop target (getAttribute "data-gift-wrap-toggle-inline");
     checked ← prop target el_checked;
     when (negb checked) (spawn (removeGiftWrap itemKey))).

(** ** Binding (lines 6 to 36) *)

Definition bindEvents : js unit :=
  cartDrawer ← query (sel_tag "cart-drawer");
  match cartDrawer with
  | Some cartDrawer =>
      addEventListener (OnElement cartDrawer) "click" CbDrawerClick false ;;
      addEventListener (OnElement cartDrawer) "change" CbDrawerChange false
  | None => mret ()
  end ;;
  cartSection ← query sel_cart_section;
  match cartSection with
  | Some cartSection =>
      addEventListener (OnElement cartSection) "click" CbSectionClick false ;;
      addEventListener (OnElement cartSection) "change" CbSectionChange false
  | None => mret ()
  end.

Definition unbindEvents : js unit := mret ().

Definition init : js unit :=
  bindEvents ;;
  addEventListener OnDocument "shopify:section:load" CbSectionLoad false ;;
  addEventListener OnDocument "shopify:section:unload" CbSectionUnload false.

(** [new GiftWrapInlineEditor()] (lines 6 to 8 and 443) *)
Definition constructor : js unit := init.

End Editor.

(** * Properties *)

Import Editor.

(** ** What the methods do to the document *)

(** [field ? field.value.trim() : ''] *)
Definition text_of_field (d : document) (field : option nat) : list N :=
  match field with
  | Some el => default [] ((λ e, trim (el_value e)) <$> elems d !! el)
  | None => []
  end.

(** The three texts of the line [itemKey], as [getGiftWrapFields] reads
    them. *)
Definition read_fields (itemKey : option (list N)) (d : document) : gift_fields :=
  GiftFields
    (text_of_field d (querySelector (sel_field (lit "to") itemKey) d))
    (text_of_field d (querySelector (sel_field (lit "from") itemKey) d))
    (text_of_field d (querySelector (sel_field (lit "message") itemKey) d)).

(** The button after [setLoadingState(button, true)]. *)
Definition loading (button : nat) (d : document) : document :=
  set_textContent button (lit "Updating...")
    (update_elem button
       (setAttribute "data-original-text" (default [] (textContent button d)))
       (update_elem button (classList_add "loading")
          (update_elem button (with_disabled true) d))).

(** [button.dataset.originalText || 'Update'] *)
Definition original_text (button : nat) (d : document) : list N :=
  str_or (elems d !! button ≫= getAttribute "data-original-text") (lit "Update").

(** The button after [setLoadingState(button, false)]. *)
Definition idle (button : nat) (d : document) : document :=
  set_textContent button (original_text button d)
    (update_elem button (classList_remove "loading")
       (update_elem button (with_disabled false) d)).

(** The row after [clearErrors(itemKey)]. *)
Definition errors_cleared (itemKey : option (list N)) (d : document) : document :=
  match querySelector (sel_row itemKey) d with
  | Some editorRow =>
      let d1 := update_all (classList_remove "error")
                  (querySelectorAll_in editorRow (sel_class "error") d) d in
      match querySelector_in editorRow (sel_class cls_error) d1 with
      | Some errorEl => update_elem errorEl (classList_remove "show") d1
      | None => d1
      end
  | None => d
  end.

(** The world after [showError(itemKey, message)] when the row has its
    error element. *)
Definition error_shown (errorEl : nat) (message : list N) (w : world) : world :=
  with_timers (λ l, l ++ [(5000%Z, CbErrorHide errorEl)])
    (with_doc (λ d, update_elem errorEl (classList_add "show")
                      (set_textContent errorEl message d)) w).

Section Methods.
Implicit Types (w : world) (itemKey : option (list N)).

Lemma field_text_runs field w :
  (∀ el, field = Some el → has_elem el (doc w)) →
  runs (field_text field) w (text_of_field (doc w) field) w.
Proof.
  intros Hel. destruct field as [el|]; [|apply runs_ret].
  destruct (Hel el eq_refl) as [e He]. simpl. rewrite He. simpl.
  apply (runs_fmap trim). by apply runs_prop.
Qed.

Lemma getGiftWrapFields_runs itemKey w :
  runs (getGiftWrapFields itemKey) w (read_fields itemKey (doc w)) w.
Proof.
  unfold getGiftWrapFields, read_fields.
  do 3 (eapply runs_bind; [apply runs_query|]).
  do 3 (eapply runs_bind;
        [apply field_text_runs; intros el Hel; by eapply querySelector_has_elem|]).
  apply runs_ret.
Qed.

Lemma loading_eq button d t :
  find_tree button d = Some t →
  loading button d
  = set_textContent button (lit "Updating...")
      (update_elem button (setAttribute "data-original-text" (text_of t))
         (update_elem button (classList_add "loading")
            (update_elem button (with_disabled true) d))).
Proof. intros Ht. unfold loading, textContent. by rewrite Ht. Qed.

Lemma setLoadingState_true_runs button w :
  live button (doc w) →
  runs (setLoadingState button true) w () (with_doc (loading button) w).
Proof.
  intros [[t Ht] Hel]. unfold setLoadingState.
  replace (with_doc (loading button) w)
    with (with_doc (λ _, loading button (doc w)) w) by done.
  rewrite (loading_eq _ _ _ Ht).
  eapply runs_bind; [by apply runs_update|].
  eapply runs_bind; [apply runs_update; by apply has_elem_update_elem|].
  eapply runs_bind.
  { apply runs_get_text. unfold textContent.
    change (find_tree button (doc (with_doc _ (with_doc _ w))))
      with (find_tree button (doc w)). by rewrite Ht. }
  eapply runs_bind; [apply runs_update; by do 2 apply has_elem_update_elem|].
  eapply runs_eq; [apply runs_set_text; by exists t | done].
Qed.

Lemma setLoadingState_false_runs button w :
  live button (doc w) →
  runs (setLoadingState button false) w () (with_doc (idle button) w).
Proof.
  intros [[t Ht] [e He]]. unfold setLoadingState.
  replace (with_doc (idle button) w)
    with (with_doc (λ _, idle button (doc w)) w) by done.
  unfold idle, original_text. rewrite He. simpl.
  eapply runs_bind; [apply runs_update; by exists e|].
  eapply runs_bind; [apply runs_update; apply has_elem_update_elem; by exists e|].
  eapply runs_bind.
  { apply runs_prop_proj. rewrite !doc_with_doc, !elems_update_elem_eq, He. done. }
  eapply runs_eq; [apply runs_set_text; by exists t | done].
Qed.

Lemma clearErrors_runs itemKey w :
  runs (clearErrors itemKey) w () (with_doc (errors_cleared itemKey) w).
Proof.
  rewrite with_doc_const. unfold clearErrors, errors_cleared.
  eapply runs_bind; [apply runs_query|].
  destruct (querySelector (sel_row itemKey) (doc w)) as [row|];
    [|rewrite with_doc_same; apply runs_ret].
  eapply runs_bind; [apply runs_query_all_in|].
  eapply runs_bind.
  { apply runs_for_each_update, Forall_forall. intros.
    by eapply querySelectorAll_in_has_elem. }
  eapply runs_bind; [apply runs_query_in|]. rewrite doc_with_doc. cbv zeta.
  destruct (querySelector_in row _ _) as [errorEl|] eqn:Hq; [|apply runs_ret].
  eapply runs_eq; [apply runs_update|done].
  rewrite doc_with_doc. by eapply querySelector_in_has_elem.
Qed.

Lemma showError_row_runs itemKey message errorEl w :
  querySelector (sel_in_row itemKey cls_error) (doc w) = Some errorEl →
  runs (showError itemKey message) w () (error_shown errorEl message w).
Proof.
  intros Hq. unfold showError, error_shown.
  eapply runs_bind; [apply runs_query|]. rewrite Hq.
  eapply runs_bind; [apply runs_ret|].
  destruct (querySelector_live _ _ _ Hq) as [Hatt Hel].
  eapply runs_bind; [by apply runs_set_text|].
  eapply runs_bind; [apply runs_update; by apply has_elem_set_textContent|].
  eapply runs_eq; [apply runs_setTimeout | done].
Qed.

Lemma refreshCartUI_runs w :
  env_getCart (env w) ≠ Present true →
  runs refreshCartUI w ()
    (with_trace (λ t, t ++ [match env_getCart (env w) with
                            | Absent => FxReload
                            | Present _ => FxGetCart
                            end]) w).
Proof.
  intros Henv. unfold refreshCartUI.
  eapply runs_bind; [apply runs_gets|].
  destruct (env_getCart (env w)) as [|[]]; [apply runs_emit|done|].
  eapply runs_bind; [apply runs_emit | apply runs_ret].
Qed.

End Methods.

(** ** [showFieldError] *)

(** The field marked, focused, and listening for the next input. *)
Definition field_flagged (field : nat) (w : world) : world :=
  with_listeners
    (λ l, l ++ [Listener (OnElement field) "input" (CbFieldInput field) true])
    (with_doc (λ d, focus field (update_elem field (classList_add "error") d)) w).

Definition flagged (itemKey : option (list N)) (fieldName : list N) (w : world)
    : world :=
  match querySelector (sel_field fieldName itemKey) (doc w) with
  | Some field => field_flagged field w
  | None => w
  end.

Lemma query_flagged itemKey fieldName sel w :
  class_free "error" (simples sel) = true →
  querySelector sel (doc (flagged itemKey fieldName w)) = querySelector sel (doc w).
Proof.
  intros Hsel. unfold flagged.
  destruct (querySelector (sel_field fieldName itemKey) (doc w)); [|done].
  unfold field_flagged. simpl. by autorewrite with dom.
Qed.

Lemma showFieldError_runs itemKey fieldName message errorEl w :
  querySelector (sel_in_row itemKey cls_error) (doc w) = Some errorEl →
  runs (showFieldError itemKey fieldName message) w ()
    (error_shown errorEl message (flagged itemKey fieldName w)).
Proof.
  intros Hq. unfold showFieldError.
  eapply runs_bind; [apply runs_query|].
  eapply runs_bind with (w1 := flagged itemKey fieldName w).
  { unfold flagged.
    destruct (querySelector (sel_field _ _) _) as [field|] eqn:Hf; [|apply runs_ret].
    destruct (querySelector_live _ _ _ Hf) as [_ Hel].
    eapply runs_bind; [by apply runs_update|].
    eapply runs_bind; [apply runs_focus_on; by apply has_elem_update_elem|].
    eapply runs_eq; [apply runs_addEventListener | done]. }
  apply showError_row_runs. by rewrite query_flagged.
Qed.

(** ** [updateGiftWrap], case by case *)

Section Update.
Context (itemKey : option (list N)) (updateButton : nat) (w : world).
Context (Hbutton : live updateButton (doc w)).

(** [setLoadingState(updateButton, true); clearErrors(itemKey)] *)
Definition prepared (d : document) : document :=
  errors_cleared itemKey (loading updateButton d).

(** The recipient is there: the button loads, the errors go, one request
    leaves, and the method waits. *)
Lemma updateGiftWrap_sends :
  truthy_string (gf_to (read_fields itemKey (doc w))) = true →
  runs (updateGiftWrap itemKey updateButton) w Pending
    (with_inflight
       (λ l, l ++ [(update_request itemKey (read_fields itemKey (doc w)),
                    KUpdate itemKey updateButton)])
       (with_trace
          (λ t, t ++ [FxFetch (update_request itemKey (read_fields itemKey (doc w)))])
          (with_doc prepared w))).
Proof.
  intros Hto. unfold updateGiftWrap.
  apply runs_finally_pending, runs_try_catch.
  eapply runs_bind; [apply getGiftWrapFields_runs|].
  assert (trim (gf_to (read_fields itemKey (doc w)))
          = gf_to (read_fields itemKey (doc w))) as ->.
  { unfold read_fields, text_of_field. simpl.
    destruct (querySelector _ _) as [el|]; [|done].
    destruct (elems (doc w) !! el); [apply trim_idemp | done]. }
  rewrite Hto. simpl.
  eapply runs_bind; [by apply setLoadingState_true_runs|].
  eapply runs_bind; [apply clearErrors_runs|].
  eapply runs_bind; [apply runs_fetch | apply runs_ret].
Qed.

(** The recipient is blank and the row has its error element: the field
    is marked, the message shown, nothing is sent, and the [finally]
    resets the button. *)
Lemma updateGiftWrap_blank errorEl :
  truthy_string (gf_to (read_fields itemKey (doc w))) = false →
  querySelector (sel_in_row itemKey cls_error) (doc w) = Some errorEl →
  leaf errorEl (doc w) →
  runs (updateGiftWrap itemKey updateButton) w (Settled ())
    (with_doc (idle updateButton)
       (error_shown errorEl msg_recipient_required (flagged itemKey (lit "to") w))).
Proof.
  intros Hto Hq Hleaf. unfold updateGiftWrap.
  eapply runs_finally_settled.
  - apply runs_try_catch.
    eapply runs_bind; [apply getGiftWrapFields_runs|].
    assert (truthy_string (trim (gf_to (read_fields itemKey (doc w)))) = false) as ->.
    { destruct (gf_to _); [done | discriminate]. }
    simpl. eapply runs_bind; [by apply showFieldError_runs | apply runs_ret].
  - apply setLoadingState_false_runs.
    unfold error_shown, flagged. destruct (querySelector (sel_field _ _) _);
      simpl; rewrite ?doc_with_doc; unfold field_flagged;
      rewrite ?doc_with_doc; simpl;
      destruct (querySelector_live _ _ _ Hq); eauto 8 with dom.
Qed.

End Update.

(** ** The settled update *)

(** What the response of an update amounts to: the value the [catch]
    receives, or none when the update went through. *)
Definition update_failure (o : fetch_outcome) : option js_error :=
  match o with
  | FetchRejected => Some (TypeError "Failed to fetch")
  | FetchResponse status b =>
      if response_ok status then
        match response_json b with
        | Normal _ => None
        | Thrown e => Some e
        end
      else Some (ErrorOf (VStr (lit "Failed to update gift wrap")))
  end.

(** The button after [showSuccess(button)], and the timer that reverts
    it. *)
Definition success_shown (button : nat) (w : world) : world :=
  with_timers
    (λ l, l ++ [(2000%Z, CbSuccessRevert button (original_text button (doc w)))])
    (with_doc (λ d, update_elem button (set_style "background" color_success)
                      (set_textContent button (lit "Updated!") d)) w).

(** [refreshCartUI()] where [CartAPI.getCart], if there, returns. *)
Definition refreshed (w : world) : world :=
  with_trace (λ t, t ++ [match env_getCart (env w) with
                         | Absent => FxReload
                         | Present _ => FxGetCart
                         end]) w.

Definition log_update_error (err : js_error) : effect :=
  FxConsole LevelError [CStr "Gift wrap update error:"; CErr err].

Lemma showSuccess_runs button w :
  live button (doc w) → runs (showSuccess button) w () (success_shown button w).
Proof.
  intros [Hatt [e He]]. unfold showSuccess, success_shown, original_text.
  rewrite He. simpl.
  eapply runs_bind; [by apply runs_prop|].
  eapply runs_bind; [by apply runs_set_text|].
  eapply runs_bind; [apply runs_update, has_elem_set_textContent; by exists e|].
  eapply runs_eq; [apply runs_setTimeout | done].
Qed.

Section UpdateResume.
Context (itemKey : option (list N)) (updateButton : nat) (w : world).
Context (Hbutton : live updateButton (doc w)) (Hleaf : leaf updateButton (doc w)).

Lemma updateGiftWrap_body_raises o err :
  update_failure o = Some err →
  raises ('(status, b) ← response_of o;
          if negb (response_ok status) then
            throw (ErrorOf (VStr (lit "Failed to update gift wrap")))
          else
          _ ← lift (response_json b);
          showSuccess updateButton ;;
          refreshCartUI) w err w.
Proof.
  unfold raises. destruct o as [|status b]; simpl; [by intros [= <-]|].
  prog_simpl. destruct (response_ok status); simpl; [|by intros [= <-]].
  destruct b; simpl; [done | by intros [= <-]].
Qed.

(** The update failed and the row has its error element: the failure
    message is shown for five seconds, and the button is reset. *)
Lemma updateGiftWrap_resume_fails o err errorEl :
  update_failure o = Some err →
  querySelector (sel_in_row itemKey cls_error) (doc w) = Some errorEl →
  leaf errorEl (doc w) →
  runs (updateGiftWrap_resume itemKey updateButton o) w ()
    (with_doc (idle updateButton)
       (error_shown errorEl msg_update_failed
          (with_trace (λ t, t ++ [log_update_error err]) w))).
Proof.
  intros Ho Hq Hel. unfold updateGiftWrap_resume.
  eapply runs_try_finally.
  - eapply runs_try_catch_handler; [by apply updateGiftWrap_body_raises|].
    unfold updateGiftWrap_catch.
    eapply runs_bind; [apply runs_console_error | by apply showError_row_runs].
  - apply setLoadingState_false_runs. unfold error_shown. simpl.
    destruct (querySelector_live _ _ _ Hq). eauto 8 with dom.
Qed.

(** The update went through: the success label and its timer, the cart
    refresh, and the button reset by the [finally]. *)
Lemma updateGiftWrap_resume_succeeds o :
  update_failure o = None → env_getCart (env w) ≠ Present true →
  runs (updateGiftWrap_resume itemKey updateButton o) w ()
    (with_doc (idle updateButton) (refreshed (success_shown updateButton w))).
Proof.
  intros Ho Henv. unfold updateGiftWrap_resume.
  destruct o as [|status [v|]]; simpl in Ho; [done| |by destruct (response_ok _)].
  destruct (response_ok status) eqn:Hok; [|done].
  eapply runs_try_finally.
  - apply runs_try_catch.
    eapply runs_bind; [apply runs_ret|]. simpl. rewrite Hok. simpl.
    eapply runs_bind; [apply runs_lift|].
    eapply runs_bind; [by apply showSuccess_runs|].
    by apply (refreshCartUI_runs (success_shown updateButton w)).
  - apply setLoadingState_false_runs. unfold refreshed, success_shown. simpl.
    eauto 8 with dom.
Qed.

End UpdateResume.

(** ** [removeGiftWrap] *)

Definition remove_failure (o : fetch_outcome) : option js_error :=
  match o with
  | FetchRejected => Some (TypeError "Failed to fetch")
  | FetchResponse status _ =>
      if response_ok status then None
      else Some (ErrorOf (VStr (lit "Failed to remove gift wrap")))
  end.

(** The request of a removal on its way. *)
Definition removal_requested (itemKey : option (list N)) (w : world) : world :=
  with_inflight (λ l, l ++ [(remove_request itemKey, KRemove itemKey)])
    (with_trace (λ t, t ++ [FxFetch (remove_request itemKey)]) w).

(** The toggle of the line checked again. *)
Definition rechecked (itemKey : option (list N)) (w : world) : world :=
  match querySelector (sel_toggle_inline itemKey) (doc w) with
  | Some checkbox => with_doc (update_elem checkbox (with_checked true)) w
  | None => w
  end.

Definition log_removal_error (err : js_error) : effect :=
  FxConsole LevelError [CStr "Gift wrap removal error:"; CErr err].

Section Remove.
Context (itemKey : option (list N)) (w : world).

Lemma removeGiftWrap_runs :
  runs (removeGiftWrap itemKey) w Pending (removal_requested itemKey w).
Proof.
  unfold removeGiftWrap. apply runs_try_catch.
  eapply runs_bind; [apply runs_fetch | apply runs_ret].
Qed.

Lemma removeGiftWrap_catch_runs err :
  runs (removeGiftWrap_catch itemKey err) w ()
    (rechecked itemKey (with_trace (λ t, t ++ [log_removal_error err]) w)).
Proof.
  unfold removeGiftWrap_catch, rechecked.
  eapply runs_bind; [apply runs_console_error|].
  eapply runs_bind; [apply runs_query|].
  change (doc (with_trace _ w)) with (doc w).
  destruct (querySelector _ (doc w)) as [checkbox|] eqn:Hq; [|apply runs_ret].
  apply runs_update. by eapply querySelector_has_elem.
Qed.

Lemma removeGiftWrap_resume_fails o err :
  remove_failure o = Some err →
  runs (removeGiftWrap_resume itemKey o) w ()
    (rechecked itemKey (with_trace (λ t, t ++ [log_removal_error err]) w)).
Proof.
  intros Ho. unfold removeGiftWrap_resume.
  eapply runs_try_catch_handler; [|apply removeGiftWrap_catch_runs].
  unfold raises. destruct o as [|status b]; simpl in *; [by simplify_eq|].
  prog_simpl. destruct (response_ok status); by simplify_eq.
Qed.

Lemma removeGiftWrap_resume_succeeds o :
  remove_failure o = None → env_getCart (env w) ≠ Present true →
  runs (removeGiftWrap_resume itemKey o) w () (refreshed w).
Proof.
  intros Ho Henv. unfold removeGiftWrap_resume. apply runs_try_catch.
  destruct o as [|status b]; simpl in *; [done|].
  destruct (response_ok status) eqn:Hok; [|done].
  eapply runs_bind; [apply runs_ret|]. simpl. rewrite Hok.
  by apply refreshCartUI_runs.
Qed.

End Remove.

(** ** The delegated listeners *)

Section Listeners.
Context (target : nat) (w : world).

(** A change that does not come from an inline toggle, or that checks
    it, does nothing. *)
Lemma handleCartSectionChange_other :
  has_elem target (doc w) →
  matches target (sel_attr "data-gift-wrap-toggle-inline") (doc w) = false ∨
  el_checked <$> elems (doc w) !! target = Some true →
  runs (handleCartSectionChange target) w () w.
Proof.
  intros [e He] Hcase. unfold handleCartSectionChange.
  eapply runs_bind; [apply runs_matches_of|].
  destruct (matches target _ (doc w)); [|apply runs_ret].
  destruct Hcase as [|Hc]; [done|]. rewrite He in Hc. simplify_eq/=.
  eapply runs_bind; [by apply runs_prop|].
  eapply runs_bind; [by apply runs_prop|]. rewrite Hc. apply runs_ret.
Qed.

(** Unchecking the inline toggle of a line sends the removal of that
    line. *)
Lemma handleCartSectionChange_removes e :
  elems (doc w) !! target = Some e →
  matches target (sel_attr "data-gift-wrap-toggle-inline") (doc w) = true →
  el_checked e = false →
  runs (handleCartSectionChange target) w ()
    (removal_requested (getAttribute "data-gift-wrap-toggle-inline" e) w).
Proof.
  intros He Hm Hc. unfold handleCartSectionChange.
  eapply runs_bind; [apply runs_matches_of|]. rewrite Hm.
  eapply runs_bind; [by apply runs_prop|].
  eapply runs_bind; [by apply runs_prop|]. rewrite Hc.
  eapply runs_spawn, removeGiftWrap_runs.
Qed.

End Listeners.

(** ** Observations on the documents the methods leave

    What stays and what changes, one projection at a time: the values the
    shopper typed, the text of an element, its classes, the focus. *)

Definition classes_of (id : nat) (d : document) : gset string :=
  default ∅ (el_classes <$> elems d !! id).

Section Observations.
Context (button : nat) (d : document).

Lemma value_loading j :
  el_value <$> elems (loading button d) !! j = el_value <$> elems d !! j.
Proof. unfold loading. by autorewrite with dom. Qed.

Lemma value_idle j :
  el_value <$> elems (idle button d) !! j = el_value <$> elems d !! j.
Proof. unfold idle. by autorewrite with dom. Qed.

Lemma focused_idle : focused (idle button d) = focused d.
Proof. unfold idle. by autorewrite with dom. Qed.

Lemma classes_idle j : button ≠ j → classes_of j (idle button d) = classes_of j d.
Proof.
  intros Hne. unfold classes_of, idle.
  by rewrite elems_set_textContent, !elems_update_elem_ne.
Qed.

Lemma disabled_idle :
  has_elem button d → el_disabled <$> elems (idle button d) !! button = Some false.
Proof.
  intros [e He]. unfold idle.
  rewrite elems_set_textContent, elems_update_elem_proj by done.
  by rewrite elems_update_elem_eq, He.
Qed.

Context (Hatt : attached button d) (Hleaf : leaf button d).

Lemma text_idle : textContent button (idle button d) = Some (original_text button d).
Proof. unfold idle. by rewrite textContent_set_textContent by eauto with dom. Qed.

Lemma text_idle_ne j :
  button ≠ j → leaf j d → textContent j (idle button d) = textContent j d.
Proof.
  intros Hne Hj. unfold idle.
  rewrite textContent_set_textContent_ne by eauto with dom.
  by autorewrite with dom.
Qed.

Lemma live_loading j : live j d → live j (loading button d).
Proof.
  intros Hj. unfold loading. apply live_set_textContent; [..|by eauto with dom].
  - by do 3 apply leaf_update_elem_2.
  - by do 3 apply attached_update_elem.
Qed.

Lemma leaf_loading j : leaf j d → leaf j (loading button d).
Proof.
  intros Hj. unfold loading. apply leaf_set_textContent.
  - by do 3 apply leaf_update_elem_2.
  - by do 3 apply attached_update_elem.
  - by do 3 apply leaf_update_elem_2.
Qed.

Lemma text_loading : textContent button (loading button d) = Some (lit "Updating...").
Proof. unfold loading. by rewrite textContent_set_textContent by eauto with dom. Qed.

(** Loading and then resetting the button gives it back its label, or
    "Update" when it had none. *)
Lemma original_text_loading s :
  has_elem button d → textContent button d = Some s →
  original_text button (loading button d) = str_or (Some s) (lit "Update").
Proof.
  intros [e He] Hs. unfold original_text, loading.
  rewrite elems_set_textContent, !elems_update_elem_eq, He, Hs. simpl.
  unfold getAttribute. simpl. by rewrite lookup_insert_eq.
Qed.

End Observations.

Lemma value_errors_cleared itemKey d j :
  el_value <$> elems (errors_cleared itemKey d) !! j = el_value <$> elems d !! j.
Proof.
  unfold errors_cleared. destruct (querySelector _ _); [|done]. cbv zeta.
  destruct (querySelector_in _ _ _);
    by rewrite ?elems_update_elem_proj, elems_update_all_proj.
Qed.

Section ErrorShown.
Context (errorEl : nat) (message : list N) (w : world).

Lemma doc_error_shown :
  doc (error_shown errorEl message w)
  = update_elem errorEl (classList_add "show")
      (set_textContent errorEl message (doc w)).
Proof. done. Qed.

Lemma value_error_shown j :
  el_value <$> elems (doc (error_shown errorEl message w)) !! j
  = el_value <$> elems (doc w) !! j.
Proof. rewrite doc_error_shown. by autorewrite with dom. Qed.

Lemma focused_error_shown :
  focused (doc (error_shown errorEl message w)) = focused (doc w).
Proof. rewrite doc_error_shown. by autorewrite with dom. Qed.

Lemma classes_error_shown :
  has_elem errorEl (doc w) →
  "show" ∈ classes_of errorEl (doc (error_shown errorEl message w)).
Proof.
  intros [e He]. unfold classes_of. rewrite doc_error_shown.
  rewrite elems_update_elem_eq, elems_set_textContent, He. simpl. set_solver.
Qed.

Lemma text_error_shown :
  attached errorEl (doc w) → leaf errorEl (doc w) →
  textContent errorEl (doc (error_shown errorEl message w)) = Some message.
Proof. intros Hatt Hleaf. rewrite doc_error_shown. by autorewrite with dom. Qed.

Lemma live_error_shown j :
  live errorEl (doc w) → leaf errorEl (doc w) → live j (doc w) →
  live j (doc (error_shown errorEl message w)).
Proof. intros [??] ??. rewrite doc_error_shown. eauto 6 with dom. Qed.

Lemma leaf_error_shown j :
  live errorEl (doc w) → leaf errorEl (doc w) → leaf j (doc w) →
  leaf j (doc (error_shown errorEl message w)).
Proof. intros [??] ??. rewrite doc_error_shown. eauto 6 with dom. Qed.

End ErrorShown.

#[export] Hint Resolve live_error_shown leaf_error_shown : dom.

Lemma doc_field_flagged field w :
  doc (field_flagged field w)
  = focus field (update_elem field (classList_add "error") (doc w)).
Proof. done. Qed.

Section Flagged.
Context (itemKey : option (list N)) (fieldName : list N) (w : world).

Lemma sent_flagged : sent (flagged itemKey fieldName w) = sent w.
Proof. unfold flagged. by destruct (querySelector _ _). Qed.

Lemma inflight_flagged : inflight (flagged itemKey fieldName w) = inflight w.
Proof. unfold flagged. by destruct (querySelector _ _). Qed.

Lemma timers_flagged : timers (flagged itemKey fieldName w) = timers w.
Proof. unfold flagged. by destruct (querySelector _ _). Qed.

Lemma value_flagged j :
  el_value <$> elems (doc (flagged itemKey fieldName w)) !! j
  = el_value <$> elems (doc w) !! j.
Proof.
  unfold flagged. destruct (querySelector _ _); [|done].
  rewrite doc_field_flagged. by autorewrite with dom.
Qed.

Lemma live_flagged j : live j (doc w) → live j (doc (flagged itemKey fieldName w)).
Proof.
  intros Hj. unfold flagged. destruct (querySelector _ _); [|done].
  rewrite doc_field_flagged. eauto with dom.
Qed.

Lemma leaf_flagged j : leaf j (doc w) → leaf j (doc (flagged itemKey fieldName w)).
Proof.
  intros Hj. unfold flagged. destruct (querySelector _ _); [|done].
  rewrite doc_field_flagged. eauto with dom.
Qed.

Lemma focused_flagged field :
  querySelector (sel_field fieldName itemKey) (doc w) = Some field →
  focused (doc (flagged itemKey fieldName w)) = Some field.
Proof. intros Hq. unfold flagged. by rewrite Hq. Qed.

Lemma classes_flagged field :
  querySelector (sel_field fieldName itemKey) (doc w) = Some field →
  "error" ∈ classes_of field (doc (flagged itemKey fieldName w)).
Proof.
  intros Hq. destruct (querySelector_has_elem _ _ _ Hq) as [e He].
  unfold flagged, classes_of. rewrite Hq, doc_field_flagged.
  rewrite elems_focus, elems_update_elem_eq, He. simpl. set_solver.
Qed.

End Flagged.

#[export] Hint Resolve live_flagged leaf_flagged : dom.

Lemma original_text_error_shown button errorEl message w :
  button ≠ errorEl →
  original_text button (doc (error_shown errorEl message w))
  = original_text button (doc w).
Proof.
  intros Hne. unfold original_text. rewrite doc_error_shown.
  by rewrite elems_update_elem_ne, elems_set_textContent.
Qed.

Section SuccessShown.
Context (button : nat) (w : world).

Lemma doc_success_shown :
  doc (success_shown button w)
  = update_elem button (set_style "background" color_success)
      (set_textContent button (lit "Updated!") (doc w)).
Proof. done. Qed.

Lemma original_text_success_shown :
  original_text button (doc (success_shown button w)) = original_text button (doc w).
Proof.
  unfold original_text. rewrite doc_success_shown.
  rewrite elems_update_elem_eq, elems_set_textContent.
  by destruct (elems (doc w) !! button).
Qed.

Lemma value_success_shown j :
  el_value <$> elems (doc (success_shown button w)) !! j
  = el_value <$> elems (doc w) !! j.
Proof. rewrite doc_success_shown. by autorewrite with dom. Qed.

Lemma live_success_shown j :
  live button (doc w) → leaf button (doc w) → live j (doc w) →
  live j (doc (success_shown button w)).
Proof. intros [??] ??. rewrite doc_success_shown. eauto 6 with dom. Qed.

Lemma leaf_success_shown j :
  live button (doc w) → leaf button (doc w) → leaf j (doc w) →
  leaf j (doc (success_shown button w)).
Proof. intros [??] ??. rewrite doc_success_shown. eauto 6 with dom. Qed.

End SuccessShown.

(** ** Clicks in the cart section *)

Section Click.
Context (target : nat) (w : world) (e : element).
Context (He : elems (doc w) !! target = Some e).

(** A click on a cancel button: the default action is prevented and the
    removal of the line is sent. *)
Lemma handleCartSectionClick_cancel :
  matches target (sel_attr "data-gift-wrap-update") (doc w) = false →
  matches target (sel_attr "data-gift-wrap-cancel") (doc w) = true →
  runs (handleCartSectionClick target) w ()
    (removal_requested (getAttribute "data-gift-wrap-cancel" e)
       (with_prevented true w)).
Proof.
  intros Hu Hc. unfold handleCartSectionClick.
  eapply runs_bind; [apply runs_matches_of|]. rewrite Hu.
  eapply runs_bind; [apply runs_when_false|].
  eapply runs_bind; [apply runs_matches_of|]. rewrite Hc.
  eapply runs_bind; [apply runs_preventDefault|].
  eapply runs_bind; [by apply runs_prop|].
  eapply runs_spawn, removeGiftWrap_runs.
Qed.

(** A click elsewhere in the section does nothing. *)
Lemma handleCartSectionClick_other :
  matches target (sel_attr "data-gift-wrap-update") (doc w) = false →
  matches target (sel_attr "data-gift-wrap-cancel") (doc w) = false →
  runs (handleCartSectionClick target) w () w.
Proof.
  intros Hu Hc. unfold handleCartSectionClick.
  eapply runs_bind; [apply runs_matches_of|]. rewrite Hu.
  eapply runs_bind; [apply runs_when_false|].
  eapply runs_bind; [apply runs_matches_of|]. rewrite Hc.
  apply runs_when_false.
Qed.

End Click.
