(* ===== verification/CartDrawer.v ===== *)
(** * CartDrawer: the drawer half of [src/assets/cart-gift-wrap-inline.js]

    [Module Drawer] holds the methods of [GiftWrapInlineEditor] that
    serve the cart drawer, one definition per method.  They share
    [setLoadingState], [showSuccess] and [removeGiftWrap] with the cart
    page ([CartPage.Editor]).

    [updateCartDrawerGiftWrap] declares [giftWrapContainer] twice: once
    in the body of the method (line 315) and once inside the [try] block
    (line 373).  Inside the block every use of the name, from its first
    line on, is a use of the second constant, which has no value before
    line 373: reading it throws a ReferenceError ([uninitialised]).  The
    [catch] and the [finally] are outside the block and see the first
    constant.  The definition follows the source line by line, with the
    two constants under two names ([giftWrapContainer] and [inner]). *)

From stdpp Require Import gmap strings.
From S2P Require Import Prelude JsString JsValue Dom Closures Runtime CartPage.

Module Drawer.

Import Editor.

(** ** Class names and selectors *)

Definition cls_container : string := "cart-drawer__gift-wrap".
Definition cls_toggle : string := "cart-drawer__gift-wrap-toggle".
Definition cls_update : string := "cart-drawer__gift-wrap-update".
Definition cls_display : string := "cart-drawer__gift-wrap-display".
Definition cls_editor : string := "cart-drawer__gift-wrap-editor".
Definition cls_drawer_error : string := "cart-drawer__gift-wrap-error".
Definition cls_drawer_actions : string := "cart-drawer__gift-wrap-actions".

(** [input[name="gift_wrap_to"]] and its two siblings *)
Definition sel_named (tag name : string) : selector :=
  sel_tag_attr_eq tag "name" (lit name).

(** [if (el) el.style.p = v] *)
Definition style_if (el : option nat) (p : string) (v : list N) : js unit :=
  match el with
  | Some el => update el (set_style p v)
  | None => mret ()
  end.

(** Reading a [const] of the enclosing block before its declaration. *)
Definition uninitialised {A} (name : string) : js A :=
  throw (ReferenceError name).

(** ** [toggleCartDrawerEditor] (lines 270 to 291) *)

Definition toggleCartDrawerEditor (toggleButton : nat) : js unit :=
  giftWrapContainer ← closest_of toggleButton (sel_class cls_container);
  match giftWrapContainer with
  | None => mret ()
  | Some giftWrapContainer =>
      display ← query_in giftWrapContainer (sel_class cls_display);
      editor ← query_in giftWrapContainer (sel_class cls_editor);
      labelEdit ← query_in toggleButton (sel_class "label-edit");
      labelCancel ← query_in toggleButton (sel_class "label-cancel");
      aria ← prop toggleButton (getAttribute "aria-expanded");
      if negb (bool_decide (aria = Some (lit "true"))) then
        style_if editor "display" (lit "block") ;;
        style_if labelEdit "display" (lit "none") ;;
        style_if labelCancel "display" (lit "flex") ;;
        update toggleButton (setAttribute "aria-expanded" (lit "true"))
      else
        style_if editor "display" (lit "none") ;;
        style_if labelEdit "display" (lit "flex") ;;
        style_if labelCancel "display" (lit "none") ;;
        update toggleButton (setAttribute "aria-expanded" (lit "false"))
  end.

(** ** [showCartDrawerEditor], [hideCartDrawerEditor] (lines 292 to 312) *)

Definition showCartDrawerEditor (editButton : nat) : js unit :=
  giftWrapContainer ← closest_of editButton (sel_class cls_container);
  match giftWrapContainer with
  | None => mret ()
  | Some giftWrapContainer =>
      display ← query_in giftWrapContainer (sel_class cls_display);
      editor ← query_in giftWrapContainer (sel_class cls_editor);
      match display, editor with
      | Some display, Some editor =>
          update display (set_style "display" (lit "none")) ;;
          update editor (set_style "display" (lit "block"))
      | _, _ => mret ()
      end
  end.

Definition hideCartDrawerEditor (cancelButton : nat) : js unit :=
  giftWrapContainer ← closest_of cancelButton (sel_class cls_container);
  match giftWrapContainer with
  | None => mret ()
  | Some giftWrapContainer =>
      display ← query_in giftWrapContainer (sel_class cls_display);
      editor ← query_in giftWrapContainer (sel_class cls_editor);
      match display, editor with
      | Some display, Some editor =>
          update editor (set_style "display" (lit "none")) ;;
          update display (set_style "display" (lit "block"))
      | _, _ => mret ()
      end
  end.

(** ** [updateCartDrawerDisplay] (lines 401 to 412) *)

(** [if (span) span.textContent = s] *)
Definition text_if (span : option nat) (s : list N) : js unit :=
  match span with
  | Some span => set_text span s
  | None => mret ()
  end.

Definition updateCartDrawerDisplay (giftWrapContainer : nat) (fields : gift_fields)
    : js unit :=
  display ← query_in giftWrapContainer (sel_class cls_display);
  match display with
  | None => mret ()
  | Some display =>
      toSpan ← query_in display (sel_class "gift-wrap-to");
      fromSpan ← query_in display (sel_class "gift-wrap-from");
      messageSpan ← query_in display (sel_class "gift-wrap-message");
      text_if toSpan (gf_to fields) ;;
      text_if fromSpan (gf_from fields) ;;
      text_if messageSpan (gf_message fields)
  end.

(** ** [showCartDrawerError] (lines 414 to 432) *)

Definition showCartDrawerError (giftWrapContainer : nat) (message : list N)
    : js unit :=
  found ← query_in giftWrapContainer (sel_class cls_drawer_error);
  errorEl ← match found with
            | Some errorEl => mret errorEl
            | None =>
                errorEl ← create "div";
                update errorEl (set_className cls_drawer_error) ;;
                actionsDiv ← query_in giftWrapContainer (sel_class cls_drawer_actions);
                match actionsDiv with
                | Some actionsDiv => append actionsDiv errorEl
                | None => mret ()
                end ;;
                mret errorEl
            end;
  set_text errorEl message ;;
  update errorEl (set_style "display" (lit "block")) ;;
  setTimeout (CbDrawerErrorHide errorEl) 5000.

(** The timer callback of lines 429 to 431. *)
Definition onDrawerErrorHide (errorEl : nat) : js unit :=
  update errorEl (set_style "display" (lit "none")).

(** ** [clearCartDrawerErrors] (lines 434 to 439) *)

Definition clearCartDrawerErrors (giftWrapContainer : nat) : js unit :=
  errorEl ← query_in giftWrapContainer (sel_class cls_drawer_error);
  style_if errorEl "display" (lit "none").

(** ** [updateCartDrawerGiftWrap] (lines 314 to 399) *)

(** The [catch] of lines 393 to 395, with the constant of line 315. *)
Definition updateCartDrawerGiftWrap_catch (giftWrapContainer : nat)
    (error : js_error) : js unit :=
  console_error [CStr "Cart drawer gift wrap update error:"; CErr error] ;;
  showCartDrawerError giftWrapContainer msg_update_failed.

(** Lines 372 to 390, from the second declaration on. *)
Definition collapse_after_update (updateButton : nat) : js unit :=
  inner ← closest_of updateButton (sel_class cls_container);
  inner ← match inner with
          | Some inner => mret inner
          | None => throw (TypeError "querySelector")
          end;
  toggleButton ← query_in inner (sel_class cls_toggle);
  editor ← query_in inner (sel_class cls_editor);
  labelEdit ← match toggleButton with
              | Some toggleButton => query_in toggleButton (sel_class "label-edit")
              | None => mret None
              end;
  labelCancle ← match toggleButton with
                | Some toggleButton => query_in toggleButton (sel_class "label-cancel")
                | None => mret None
                end;
  match editor, toggleButton with
  | Some editor, Some toggleButton =>
      update editor (set_style "display" (lit "none")) ;;
      style_if labelEdit "display" (lit "flex") ;;
      style_if labelCancle "display" (lit "none") ;;
      update toggleButton (setAttribute "aria-expanded" (lit "false"))
  | _, _ => mret ()
  end ;;
  showSuccess updateButton ;;
  cartDrawer ← query (sel_tag "cart-drawer");
  renderContents ← gets (λ w, env_renderContents (env w));
  match cartDrawer, renderContents with
  | Some _, Present throws => call_external throws FxRenderContents
  | _, _ => mret ()
  end.

(** Lines 315 to 363: up to the [await]. *)
Definition updateCartDrawerGiftWrap (updateButton : nat) : js (suspended unit) :=
  giftWrapContainer ← closest_of updateButton (sel_class cls_container);
  match giftWrapContainer with
  | None => mret (Settled ())
  | Some giftWrapContainer =>
      itemKey ← prop giftWrapContainer (getAttribute "data-gift-wrap-drawer");
      if negb (truthy (of_option itemKey)) then mret (Settled ()) else
      finally_settled
        (try_catch
           (inner ← uninitialised "giftWrapContainer";
            toField ← query_in inner (sel_named "input" "gift_wrap_to");
            fromField ← query_in inner (sel_named "input" "gift_wrap_from");
            messageField ← query_in inner (sel_named "textarea" "gift_wrap_message");
            to ← field_text toField;
            from ← field_text fromField;
            message ← field_text messageField;
            let fields := GiftFields to from message in
            if negb (truthy_string (gf_to fields)) then
              showCartDrawerError inner msg_recipient_required ;;
              match toField with
              | Some toField => focus_on toField
              | None => mret ()
              end ;;
              mret (Settled ())
            else
            setLoadingState updateButton true ;;
            clearCartDrawerErrors inner ;;
            fetch (update_request itemKey fields)
              (KDrawerUpdate giftWrapContainer updateButton fields) ;;
            mret Pending)
           (λ error,
              Settled <$> updateCartDrawerGiftWrap_catch giftWrapContainer error))
        (setLoadingState updateButton false)
  end.

(** Lines 365 to 398: from the settled response on.  Line 370 is still
    before the second declaration. *)
Definition updateCartDrawerGiftWrap_resume (giftWrapContainer updateButton : nat)
    (fields : gift_fields) (o : fetch_outcome) : js unit :=
  try_finally
    (try_catch
       ('(status, _) ← response_of o;
        if negb (response_ok status) then
          throw (ErrorOf (VStr (lit "Failed to update gift wrap")))
        else
        inner ← uninitialised "giftWrapContainer";
        updateCartDrawerDisplay inner fields ;;
        collapse_after_update updateButton)
       (updateCartDrawerGiftWrap_catch giftWrapContainer))
    (setLoadingState updateButton false).

(** ** The delegated listeners of the drawer (lines 38 to 59) *)

Definition handleCartDrawerClick (target : nat) : js unit :=
  toggleButton ← closest_of target (sel_class cls_toggle);
  match toggleButton with
  | Some toggleButton =>
      preventDefault ;;
      toggleCartDrawerEditor toggleButton
  | None =>
      isUpdate ← prop target (classList_contains cls_update);
      when isUpdate
        (preventDefault ;;
         spawn (updateCartDrawerGiftWrap target))
  end.

Definition handleCartDrawerChange (target : nat) : js unit :=
  isToggle ← prop target (classList_contains cls_toggle);
  when isToggle
    (itemKey ← prop target (getAttribute "data-gift-wrap-toggle-inline");
     checked ← prop target el_checked;
     when (negb checked) (spawn (removeGiftWrap itemKey))).

End Drawer.

(** * Properties *)

Import Editor Drawer.

(** ** The error of the drawer *)

(** The world after [showCartDrawerError] when the container has its
    error element. *)
Definition drawer_error_shown (errorEl : nat) (message : list N) (w : world)
    : world :=
  with_timers (λ l, l ++ [(5000%Z, CbDrawerErrorHide errorEl)])
    (with_doc (λ d, update_elem errorEl (set_style "display" (lit "block"))
                      (set_textContent errorEl message d)) w).

Definition log_drawer_error (err : js_error) : effect :=
  FxConsole LevelError [CStr "Cart drawer gift wrap update error:"; CErr err].

Lemma showCartDrawerError_runs giftWrapContainer message errorEl w :
  querySelector_in giftWrapContainer (sel_class cls_drawer_error) (doc w)
  = Some errorEl →
  runs (showCartDrawerError giftWrapContainer message) w ()
    (drawer_error_shown errorEl message w).
Proof.
  intros Hq. unfold showCartDrawerError, drawer_error_shown.
  eapply runs_bind; [apply runs_query_in|]. rewrite Hq.
  eapply runs_bind; [apply runs_ret|].
  destruct (querySelector_in_live _ _ _ _ Hq) as [Hatt Hel].
  eapply runs_bind; [by apply runs_set_text|].
  eapply runs_bind; [apply runs_update; by apply has_elem_set_textContent|].
  eapply runs_eq; [apply runs_setTimeout | done].
Qed.

(** ** [updateCartDrawerGiftWrap] *)

Section DrawerUpdate.
Context (updateButton giftWrapContainer errorEl : nat) (w : world).
Context (Hbutton : live updateButton (doc w)).
Context (Hcontainer :
  closest updateButton (sel_class cls_container) (doc w) = Some giftWrapContainer).
Context (Herror :
  querySelector_in giftWrapContainer (sel_class cls_drawer_error) (doc w)
  = Some errorEl).
Context (Hleaf : leaf errorEl (doc w)).

(** The world every update from the drawer ends in: the failure message
    in the error element, the button reset, the ReferenceError in the
    console. *)
Definition drawer_update_failed (err : js_error) : world :=
  with_doc (idle updateButton)
    (drawer_error_shown errorEl msg_update_failed
       (with_trace (λ t, t ++ [log_drawer_error err]) w)).

Lemma updateCartDrawerGiftWrap_catch_runs err :
  runs (updateCartDrawerGiftWrap_catch giftWrapContainer err) w ()
    (drawer_error_shown errorEl msg_update_failed
       (with_trace (λ t, t ++ [log_drawer_error err]) w)).
Proof.
  unfold updateCartDrawerGiftWrap_catch.
  eapply runs_bind; [apply runs_console_error | by apply showCartDrawerError_runs].
Qed.

Lemma live_after_drawer_error err :
  live updateButton
    (doc (drawer_error_shown errorEl msg_update_failed
            (with_trace (λ t, t ++ [log_drawer_error err]) w))).
Proof.
  unfold drawer_error_shown. simpl.
  destruct (querySelector_in_live _ _ _ _ Herror). eauto 8 with dom.
Qed.

Lemma updateCartDrawerGiftWrap_runs e :
  elems (doc w) !! giftWrapContainer = Some e →
  truthy (of_option (getAttribute "data-gift-wrap-drawer" e)) = true →
  runs (updateCartDrawerGiftWrap updateButton) w (Settled ())
    (drawer_update_failed (ReferenceError "giftWrapContainer")).
Proof.
  intros He Hkey. unfold updateCartDrawerGiftWrap.
  eapply runs_bind; [apply runs_closest_of|]. rewrite Hcontainer.
  eapply runs_bind; [by apply runs_prop|]. rewrite Hkey. simpl.
  eapply runs_finally_settled.
  - eapply runs_try_catch_handler; [apply raises_bind_l, raises_throw|].
    apply (runs_fmap Settled), updateCartDrawerGiftWrap_catch_runs.
  - apply setLoadingState_false_runs, live_after_drawer_error.
Qed.

(** Were a request of the drawer ever answered, the continuation would
    fail the same way, whatever the answer. *)
Lemma updateCartDrawerGiftWrap_resume_runs fields o :
  ∃ err, runs (updateCartDrawerGiftWrap_resume giftWrapContainer updateButton fields o)
           w () (drawer_update_failed err).
Proof.
  unfold updateCartDrawerGiftWrap_resume.
  destruct o as [|status b]; [|destruct (response_ok status) eqn:Hok];
    eexists;
    (eapply runs_try_finally;
     [eapply runs_try_catch_handler; [|apply updateCartDrawerGiftWrap_catch_runs]
     |apply setLoadingState_false_runs, live_after_drawer_error]);
    unfold raises; prog_simpl; rewrite ?Hok; done.
Qed.

End DrawerUpdate.

(** ** [toggleCartDrawerEditor] *)

(** [if (el) el.style.p = v], on the document. *)
Definition styled (el : option nat) (p : string) (v : list N) (d : document)
    : document :=
  match el with
  | Some el => update_elem el (set_style p v) d
  | None => d
  end.

(** [toggleButton.getAttribute('aria-expanded') === 'true'] *)
Definition is_expanded (toggleButton : nat) (d : document) : bool :=
  bool_decide (elems d !! toggleButton ≫= getAttribute "aria-expanded"
               = Some (lit "true")).

(** The drawer after a click on the toggle of [giftWrapContainer]. *)
Definition drawer_toggled (toggleButton giftWrapContainer : nat) (d : document)
    : document :=
  let editor := querySelector_in giftWrapContainer (sel_class cls_editor) d in
  let labelEdit := querySelector_in toggleButton (sel_class "label-edit") d in
  let labelCancel := querySelector_in toggleButton (sel_class "label-cancel") d in
  let now := negb (is_expanded toggleButton d) in
  update_elem toggleButton
    (setAttribute "aria-expanded" (if now then lit "true" else lit "false"))
    (styled labelCancel "display" (if now then lit "flex" else lit "none")
       (styled labelEdit "display" (if now then lit "none" else lit "flex")
          (styled editor "display" (if now then lit "block" else lit "none") d))).

Lemma has_elem_styled el p v d j : has_elem j (styled el p v d) ↔ has_elem j d.
Proof. destruct el; [apply has_elem_update_elem | done]. Qed.

Lemma style_if_runs el p v w :
  (∀ e, el = Some e → has_elem e (doc w)) →
  runs (style_if el p v) w () (with_doc (styled el p v) w).
Proof.
  intros Hel. destruct el as [e|]; simpl.
  - apply runs_update. by apply Hel.
  - rewrite with_doc_id. apply runs_ret.
Qed.

Lemma value_styled el p v d j :
  el_value <$> elems (styled el p v d) !! j = el_value <$> elems d !! j.
Proof. destruct el; [|done]. unfold styled. by rewrite elems_update_elem_proj. Qed.

Lemma toggleCartDrawerEditor_runs toggleButton giftWrapContainer w :
  has_elem toggleButton (doc w) →
  closest toggleButton (sel_class cls_container) (doc w) = Some giftWrapContainer →
  runs (toggleCartDrawerEditor toggleButton) w ()
    (with_doc (drawer_toggled toggleButton giftWrapContainer) w).
Proof.
  intros [e He] Hc. rewrite with_doc_const.
  unfold toggleCartDrawerEditor, drawer_toggled, is_expanded.
  eapply runs_bind; [apply runs_closest_of|]. rewrite Hc.
  do 4 (eapply runs_bind; [apply runs_query_in|]).
  eapply runs_bind; [by apply runs_prop|]. rewrite He. simpl.
  set (editor := querySelector_in giftWrapContainer _ _).
  set (labelEdit := querySelector_in toggleButton (sel_class "label-edit") _).
  set (labelCancel := querySelector_in toggleButton (sel_class "label-cancel") _).
  assert (∀ el sel scope, querySelector_in scope sel (doc w) = el →
            ∀ x, el = Some x → has_elem x (doc w)) as Hq.
  { intros el sel scope <- x Hx. by eapply querySelector_in_has_elem. }
  destruct (bool_decide _); simpl;
    (eapply runs_bind; [apply style_if_runs; by eapply Hq|]);
    (eapply runs_bind;
     [apply style_if_runs; intros x Hx; apply has_elem_styled; by eapply Hq|]);
    (eapply runs_bind;
     [apply style_if_runs; intros x Hx; do 2 apply has_elem_styled; by eapply Hq|]);
    (eapply runs_eq; [apply runs_update|done]);
    do 3 apply has_elem_styled; by exists e.
Qed.

(** ** Observations *)

Section DrawerErrorShown.
Context (errorEl : nat) (message : list N) (w : world).

Lemma doc_drawer_error_shown :
  doc (drawer_error_shown errorEl message w)
  = update_elem errorEl (set_style "display" (lit "block"))
      (set_textContent errorEl message (doc w)).
Proof. done. Qed.

Lemma text_drawer_error_shown :
  attached errorEl (doc w) → leaf errorEl (doc w) →
  textContent errorEl (doc (drawer_error_shown errorEl message w)) = Some message.
Proof. intros ??. rewrite doc_drawer_error_shown. by autorewrite with dom. Qed.

Lemma display_drawer_error_shown :
  has_elem errorEl (doc w) →
  style_of "display" <$> elems (doc (drawer_error_shown errorEl message w)) !! errorEl
  = Some (lit "block").
Proof.
  intros [e He]. rewrite doc_drawer_error_shown.
  rewrite elems_update_elem_eq, elems_set_textContent, He. simpl.
  unfold style_of. simpl. by rewrite lookup_insert_eq.
Qed.

Lemma value_drawer_error_shown j :
  el_value <$> elems (doc (drawer_error_shown errorEl message w)) !! j
  = el_value <$> elems (doc w) !! j.
Proof. rewrite doc_drawer_error_shown. by autorewrite with dom. Qed.

Lemma leaf_drawer_error_shown j :
  live errorEl (doc w) → leaf errorEl (doc w) → leaf j (doc w) →
  leaf j (doc (drawer_error_shown errorEl message w)).
Proof. intros [??] ??. rewrite doc_drawer_error_shown. eauto 6 with dom. Qed.

End DrawerErrorShown.

Lemma style_idle button d j p :
  style_of p <$> elems (idle button d) !! j = style_of p <$> elems d !! j.
Proof. unfold idle. by autorewrite with dom. Qed.
