(* ===== verification/Dispatch.v ===== *)
(** * Dispatch: the browser runs what the scripts registered

    The two scripts hand functions to the browser: listeners, timer
    callbacks, and the rest of each [async] function at its [await].
    [Closures] names them; this file says what running each one is (the
    body the source gives it, from [AddTime], [CartPage] and
    [CartDrawer]), and models the part of the browser that runs them:

    - the dispatch of an event along the path from its target up to the
      document, to the listeners registered for its type (DOM standard,
      section 2.9);
    - the settling of a pending [fetch], which resumes the function that
      awaits it;
    - the firing of a timer.

    [page_next] is one thing happening on the page, as a function;
    [page_step] and [page_run] are the same as relations.  [boot] is the
    loading of the two scripts, run on the document as it is at that
    moment: the editor binds its listeners to the cart markup it finds
    then.  A click on a disabled form control is dropped before any
    dispatch ([is_disabled]); on an element that is no form control
    [disabled] stops nothing.

    An uncaught exception of a listener, and the rejection of the promise
    of an [async] function nobody awaits, reach no caller: the browser
    reports them, which the model records as [FxUnhandled].

    The path of an event is fixed when its dispatch starts; the
    listeners of each target of the path are those registered when the
    event reaches that target, so a listener added further up the path
    by an earlier listener of the same dispatch runs too (DOM standard,
    inner invoke).  The scripts never remove a listener, so the removal
    of a listener during a dispatch is not modelled; they register no
    capturing listener and never stop the propagation. *)

From stdpp Require Import gmap strings.
From S2P Require Import Prelude JsString JsValue Dom DomTrees Closures Runtime.
From S2P Require Import AddTime CartPage CartDrawer.

(** ** What each closure runs *)

(** A delegated listener reads [e.target] as an element: on an event
    whose target is the document it throws a TypeError. *)
Definition with_target (target : option nat) (h : nat → js unit) : js unit :=
  match target with
  | Some t => h t
  | None => throw (TypeError "target")
  end.

Definition run_callback (cb : callback) (target : option nat) : js unit :=
  match cb with
  | CbInitializeGiftWrap => GiftWrap.initializeGiftWrap
  | CbCheckboxChange c => GiftWrap.onChange c
  | CbFormSubmit c => GiftWrap.onSubmit c
  | CbSectionLoad => Editor.bindEvents
  | CbSectionUnload => Editor.unbindEvents
  | CbDrawerClick => with_target target Drawer.handleCartDrawerClick
  | CbDrawerChange => with_target target Drawer.handleCartDrawerChange
  | CbSectionClick => with_target target Editor.handleCartSectionClick
  | CbSectionChange => with_target target Editor.handleCartSectionChange
  | CbFieldInput field => Editor.onFieldInput field
  | CbSuccessRevert button originalText => Editor.onSuccessRevert button originalText
  | CbErrorHide errorEl => Editor.onErrorHide errorEl
  | CbDrawerErrorHide errorEl => Drawer.onDrawerErrorHide errorEl
  end.

Definition run_continuation (k : continuation) (o : fetch_outcome) : js unit :=
  match k with
  | KAddProducts c => GiftWrap.onSubmit_resume c o
  | KUpdate itemKey updateButton => Editor.updateGiftWrap_resume itemKey updateButton o
  | KRemove itemKey => Editor.removeGiftWrap_resume itemKey o
  | KDrawerUpdate container updateButton fields =>
      Drawer.updateCartDrawerGiftWrap_resume container updateButton fields o
  end.

(** The two scripts at load: the top level of each. *)
Definition boot : js unit :=
  GiftWrap.main ;; Editor.constructor.

(** ** Dispatch *)

Definition listens (t : target) (type : string) (l : listener) : bool :=
  bool_decide (on_target l = t) && bool_decide (on_type l = type).

(** The callbacks registered on [t] for [type], in the order of their
    registration. *)
Definition listeners_for (t : target) (type : string) (w : world) : list callback :=
  on_callback <$> List.filter (listens t type) (listeners w).

(** A listener registered with [{ once: true }] is removed when the event
    reaches it. *)
Definition drop_once (t : target) (type : string) (w : world) : world :=
  with_listeners (List.filter (λ l, negb (listens t type l && on_once l))) w.

(** The path of an event: its target, the ancestors of the target, and
    the document when the target is in the page. *)
Definition event_path (target : nat) (d : document) : list Runtime.target :=
  match head (filter (λ n, n.1 = target) (nodes d)) with
  | Some n => (OnElement <$> target :: n.2) ++ [OnDocument]
  | None =>
      match ancestors target d with
      | Some anc => OnElement <$> target :: anc
      | None => []
      end
  end.

(** The callbacks an event of [type] reaches along [path], in order, when
    no listener it runs registers another for the same type. *)
Definition reached (type : string) (path : list Runtime.target) (w : world)
    : list callback :=
  path ≫= λ t, listeners_for t type w.

(** Run the callbacks; what one throws is reported and the next one runs. *)
Definition invoke_all (cbs : list callback) (target : option nat) : js unit :=
  for_each (λ cb, spawn (run_callback cb target)) cbs.

(** The event reaches [t]: its listeners for the type, as they are now,
    run in order. *)
Definition invoke_at (type : string) (target : option nat) (t : Runtime.target)
    : js unit :=
  cbs ← gets (listeners_for t type);
  modify (drop_once t type) ;;
  invoke_all cbs target.

(** [target.dispatchEvent(e)] for a bubbling, cancelable event: [true]
    unless a listener called [preventDefault]. *)
Definition dispatch (type : string) (target : nat) : js bool :=
  modify (with_prevented false) ;;
  path ← gets (λ w, event_path target (doc w));
  for_each (invoke_at type (Some target)) path ;;
  negb <$> gets prevented.

(** An event fired at the document itself. *)
Definition dispatch_document (type : string) : js unit :=
  modify (with_prevented false) ;;
  invoke_at type None OnDocument.

(** ** What happens on a page *)

Inductive input : Type :=
| Click (target : nat)
| Change (target : nat) (checked : bool)   (* a box is checked or unchecked *)
| Input (target : nat) (value : list N)    (* a text is typed *)
| Submit (form : nat)
| Loaded (type : string)                   (* a page or section life-cycle event *)
| Settle (i : nat) (o : fetch_outcome)     (* the request at position i settles *)
| Fire (i : nat).                          (* the timer at position i fires *)

(** The elements that [disabled] disables: on any other element
    [el.disabled = true] sets a property that nothing reads. *)
Definition form_control (e : element) : bool :=
  bool_decide (el_tag e ∈ ["button"; "input"; "select"; "textarea"]).

(** A disabled form control receives no click (HTML standard,
    4.10.18.5). *)
Definition is_disabled (target : nat) (w : world) : bool :=
  default false ((λ e, form_control e && el_disabled e) <$> elems (doc w) !! target).

Definition page_next (w : world) (i : input) : option world :=
  match i with
  | Click target =>
      if is_disabled target w then Some w
      else outcome_world (dispatch "click" target w)
  | Change target checked =>
      outcome_world
        (dispatch "change" target
           (with_doc (update_elem target (with_checked checked)) w))
  | Input target value =>
      outcome_world
        (dispatch "input" target
           (with_doc (update_elem target (with_value value)) w))
  | Submit form => outcome_world (dispatch "submit" form w)
  | Loaded type => outcome_world (dispatch_document type w)
  | Settle i o =>
      '(_, k) ← inflight w !! i;
      outcome_world
        (spawn (run_continuation k o) (with_inflight (delete i) w))
  | Fire i =>
      '(_, cb) ← timers w !! i;
      outcome_world (spawn (run_callback cb None) (with_timers (delete i) w))
  end.

Fixpoint page_exec (w : world) (ins : list input) : option world :=
  match ins with
  | [] => Some w
  | i :: ins' => w1 ← page_next w i; page_exec w1 ins'
  end.

Definition page_step (w : world) (i : input) (w' : world) : Prop :=
  page_next w i = Some w'.

Inductive page_run : world → list input → world → Prop :=
| page_run_nil w : page_run w [] w
| page_run_cons w i w1 ins w2 :
    page_step w i w1 → page_run w1 ins w2 → page_run w (i :: ins) w2.

(** * Properties *)

Lemma page_run_exec w ins w' : page_run w ins w' ↔ page_exec w ins = Some w'.
Proof.
  split.
  - induction 1 as [|w i w1 ins w2 Hs _ IH]; [done|]. simpl. by rewrite Hs.
  - revert w. induction ins as [|i ins IH]; intros w; simpl.
    + intros [= <-]. constructor.
    + destruct (page_next w i) as [w1|] eqn:Hn; [|done]. simpl.
      intros He. econstructor; [exact Hn | by apply IH].
Qed.

Lemma page_run_app w ins1 w1 ins2 w2 :
  page_run w ins1 w1 → page_run w1 ins2 w2 → page_run w (ins1 ++ ins2) w2.
Proof. induction 1; [done|]. intros. econstructor; eauto. Qed.

(** An invariant of every step is an invariant of every run. *)
Lemma page_run_ind_inv (I : world → Prop) :
  (∀ w i w', I w → page_step w i w' → I w') →
  ∀ w ins w', I w → page_run w ins w' → I w'.
Proof. intros Hstep w ins w' Hw Hr. induction Hr; eauto. Qed.

(** ** The path of an event *)

#[export] Instance OnElement_inj : Inj (=) (=) OnElement.
Proof. by intros i j [=]. Qed.

(** The path visits no target twice. *)
Lemma event_path_nodup target d : NoDup (all_ids d) → NoDup (event_path target d).
Proof.
  intros Hnd. unfold event_path, ancestors.
  assert (∀ n : nat * list nat, n ∈ all_nodes d → n.1 = target →
            NoDup (OnElement <$> target :: n.2)) as Hpath.
  { intros n Hn <-. by apply (NoDup_fmap_2 _), (all_nodes_path_nodup d). }
  destruct (head (filter _ (nodes d))) as [n|] eqn:Hn.
  - apply head_Some_elem_of, list_elem_of_filter in Hn as [Hn1 Hn%nodes_all_nodes].
    apply NoDup_app. split_and!; [by apply Hpath | | apply NoDup_singleton].
    intros t (x & -> & _)%list_elem_of_fmap [=]%list_elem_of_singleton.
  - destruct (head (filter _ (all_nodes d))) as [n'|] eqn:Hn'; [|constructor]. simpl.
    apply head_Some_elem_of, list_elem_of_filter in Hn' as [Hn1 Hn']. by apply Hpath.
Qed.

(** It starts at the target. *)
Lemma event_path_target target d :
  attached target d → ∃ up, event_path target d = OnElement target :: up.
Proof.
  intros Ha%attached_all_ids. unfold event_path.
  destruct (head (filter _ (nodes d))) as [n|]; [by eexists|].
  unfold all_ids in Ha. apply list_elem_of_fmap in Ha as (n & -> & Hn).
  unfold ancestors. destruct (filter _ (all_nodes d)) as [|n' l] eqn:Hf; [|by eexists].
  assert (n ∈ filter (λ m : nat * list nat, m.1 = n.1) (all_nodes d)) as Hin
    by by apply list_elem_of_filter.
  rewrite Hf in Hin. by apply elem_of_nil in Hin.
Qed.
