(* ===== verification/AddTimeSpec.v ===== *)
(** * AddTimeSpec: what the add-time controller guarantees

    The theorems about [src/assets/gift-wrap.js], stated on the
    definitions of [AddTime]: what one submission does in each state of
    the form, what the settled response does, what collapsing the fields
    does, and what holds of every state the controller can reach: the
    guard and the pending request ([inv]), and what the shopper sees
    ([consistent]).  A sample product page at the top instantiates each
    theorem. *)

From stdpp Require Import gmap strings.
From S2P Require Import Prelude JsString JsValue Dom Closures Runtime AddTime.
Import GiftWrap.

(** ** A product page

    The markup of the gift-wrap block inside a product form, with the
    recipient typed in between spaces. *)

Definition control (tag : string) (attrs : list (string * string)) (value : string)
    (checked : bool) : element :=
  mk_element tag attrs [] value checked.

Definition sample_page : tree :=
  Node 0
    [Node 1
       [Node 2 []; Node 3 [];
        Node 4
          [Node 5 []; Node 6 [];
           Node 7 [Node 8 []; Node 9 []; Node 10 []];
           Node 11 []];
        Node 12 [Text (lit "Add to cart")]]].

Definition sample_elems : gmap nat element :=
  list_to_map
    [(0, control "body" [] "" false);
     (1, control "form" [("data-product-handle", "mug")] "" false);
     (2, control "input" [("type", "hidden"); ("name", "id")] "111" false);
     (3, control "input" [("type", "number"); ("name", "quantity")] "2" false);
     (4, control "div" [("data-gift-wrap", "")] "" false);
     (5, control "input" [("type", "checkbox"); ("data-gift-wrap-toggle", "")]
           "on" true);
     (6, control "input" [("type", "hidden"); ("data-gift-wrap-variant-id", "")]
           "999" false);
     (7, control "div" [("id", "gift-wrap-fields")] "" false);
     (8, control "input" [("type", "text"); ("data-gift-wrap-to", "")]
           "  Alice " false);
     (9, control "input" [("type", "text"); ("data-gift-wrap-from", "")]
           "" false);
     (10, control "textarea" [("data-gift-wrap-message", "")] "Enjoy" false);
     (11, control "div" [("id", "gift-wrap-error")] "" false);
     (12, control "button" [("type", "submit")] "" false)].

Definition sample_doc : document := Document sample_page [] sample_elems 13 None.

Definition sample_env : window_env := WindowEnv Absent Absent.

Definition sample_world : world :=
  World sample_doc ∅ 0 [] [] [] [] false sample_env.

(** The instance [initializeGiftWrap] builds on that page. *)
Definition sample_instance : gw_instance := GwInstance 5 7 11 6 1 0.

(** The page once the script has run. *)
Definition sample_ready : world :=
  World sample_doc {[0 := VBool false]} 1 [] [] [] [] false sample_env.

(** The same page with only spaces typed as the recipient. *)
Definition sample_blank : world :=
  with_doc (update_elem 8 (with_value (lit "   "))) sample_ready.

(** The same page with the checkbox cleared. *)
Definition sample_unchecked : world :=
  with_doc (update_elem 5 (with_checked false)) sample_ready.

(** The same page while a submission is on its way. *)
Definition sample_adding : world :=
  with_cells <[0 := VBool true]> sample_ready.

(** ** Observations on the worlds a submission leaves *)

(** The message of a refusal. *)
Definition message_of (v : verdict) : list N :=
  match v with
  | NotConfigured => msg_not_configured
  | NoRecipient => msg_recipient
  | NoVariant => msg_no_variant
  | Ready => []
  end.

Lemma textContent_focus_recipient c d id :
  textContent id (focus_recipient c d) = textContent id d.
Proof. unfold focus_recipient. by destruct (querySelector_in _ _ _). Qed.

Lemma elems_focus_recipient c d : elems (focus_recipient c d) = elems d.
Proof. unfold focus_recipient. by destruct (querySelector_in _ _ _). Qed.

(** The document of a refusal. *)
Definition refused_doc (c : gw_instance) (v : verdict) (d : document) : document :=
  match v with
  | NotConfigured => shown c msg_not_configured d
  | NoRecipient => focus_recipient c (shown c msg_recipient d)
  | NoVariant => shown c msg_no_variant d
  | Ready => d
  end.

Lemma doc_refused c v w : doc (refused c v w) = refused_doc c v (doc w).
Proof. by destruct v. Qed.

Lemma doc_taken_over c w : doc (taken_over c w) = hidden c (doc w).
Proof. done. Qed.

Section Refused.
Context (c : gw_instance) (w : world) (Hv : gw_valid c (doc w)).
Context (v : verdict) (Hr : v ≠ Ready).

Lemma refused_sent : sent (refused c v (taken_over c w)) = sent w.
Proof. by destruct v. Qed.

Lemma refused_inflight : inflight (refused c v (taken_over c w)) = inflight w.
Proof. by destruct v. Qed.

Lemma refused_prevented : prevented (refused c v (taken_over c w)) = true.
Proof. by destruct v. Qed.

Lemma refused_is_adding : is_adding c (refused c v (taken_over c w)) = false.
Proof. destruct v; [apply is_adding_released..|done]. Qed.

Lemma refused_text :
  textContent (gw_error c) (doc (refused c v (taken_over c w))) = Some (message_of v).
Proof.
  pose proof (gw_valid_hidden c _ Hv) as Hv'.
  rewrite doc_refused, doc_taken_over.
  destruct v; [| | |done]; cbn [refused_doc]; rewrite ?textContent_focus_recipient;
    by rewrite shown_text.
Qed.

Lemma refused_display :
  style_of "display" <$> elems (doc (refused c v (taken_over c w))) !! gw_error c
  = Some (lit "block").
Proof.
  pose proof (gw_valid_hidden c _ Hv) as Hv'.
  rewrite doc_refused, doc_taken_over.
  destruct v; [| | |done]; cbn [refused_doc]; rewrite ?elems_focus_recipient;
    by rewrite shown_display.
Qed.

End Refused.

Lemma sent_requested c r w : sent (requested c r (taken_over c w)) = sent w ++ [r].
Proof. apply (sent_app (taken_over c w) (FxFetch r)). Qed.

Lemma querySelector_in_shown_hidden c d scope sel message :
  gw_valid c d →
  querySelector_in scope sel (shown c message (hidden c d))
  = querySelector_in scope sel d.
Proof.
  intros Hv. etrans; apply agree_querySelector_in;
    [by apply agree_shown, gw_valid_hidden | by apply agree_hidden].
Qed.

(** ** One submission *)

(** C1: with the box checked, no submission on its way and a form that
    passes the three checks, the submit listener cancels the native
    submission, engages the guard, clears the error and sends exactly one
    request, the one built from the form, whose continuation waits for
    the response. *)
Theorem submit_sends_one_request c w :
  gw_valid c (doc w) →
  is_checked c w = true → is_adding c w = false →
  validate (read_form c (doc w)) = Ready →
  ∃ w', runs (onSubmit c) w () w' ∧
        sent w' = sent w ++ [request_of (read_form c (doc w))] ∧
        inflight w'
        = inflight w ++ [(request_of (read_form c (doc w)), KAddProducts c)] ∧
        is_adding c w' = true ∧ prevented w' = true ∧
        textContent (gw_error c) (doc w') = Some [].
Proof.
  intros Hv Hc Ha Hr. eexists. split; [by apply onSubmit_validated|].
  cbv zeta. rewrite Hr. split_and!;
    [apply sent_requested | done | apply (is_adding_taken_over c w) | done
    | by apply hidden_text].
Qed.

Lemma submit_sends_one_request_witness :
  ∃ w', runs (onSubmit sample_instance) sample_ready () w' ∧
        sent w' = sent sample_ready
                  ++ [request_of (read_form sample_instance (doc sample_ready))] ∧
        inflight w'
        = inflight sample_ready
          ++ [(request_of (read_form sample_instance (doc sample_ready)),
               KAddProducts sample_instance)] ∧
        is_adding sample_instance w' = true ∧ prevented w' = true ∧
        textContent (gw_error sample_instance) (doc w') = Some [].
Proof.
  apply submit_sends_one_request;
    [apply (bool_decide_unpack _); vm_compute; exact I | reflexivity..].
Defined.

(** C3: when one of the three checks fails, the listener still cancels
    the native submission, but sends nothing: the message of the failed
    check is shown in the error container, and the guard is released so
    that the shopper can submit again. *)
Theorem submit_refused_sends_nothing c w v :
  gw_valid c (doc w) →
  is_checked c w = true → is_adding c w = false →
  validate (read_form c (doc w)) = v → v ≠ Ready →
  ∃ w', runs (onSubmit c) w () w' ∧
        sent w' = sent w ∧ inflight w' = inflight w ∧
        textContent (gw_error c) (doc w') = Some (message_of v) ∧
        style_of "display" <$> elems (doc w') !! gw_error c = Some (lit "block") ∧
        is_adding c w' = false ∧ prevented w' = true.
Proof.
  intros Hv Hc Ha Hval Hr.
  exists (refused c v (taken_over c w)). split.
  - pose proof (onSubmit_validated c w Hv Hc Ha) as H. cbv zeta in H.
    rewrite Hval in H. by destruct v.
  - split_and!; eauto using refused_sent, refused_inflight, refused_text,
      refused_display, refused_is_adding, refused_prevented.
Qed.

Lemma submit_refused_sends_nothing_witness :
  ∃ w', runs (onSubmit sample_instance) sample_blank () w' ∧
        sent w' = sent sample_blank ∧ inflight w' = inflight sample_blank ∧
        textContent (gw_error sample_instance) (doc w') = Some (message_of NoRecipient) ∧
        style_of "display" <$> elems (doc w') !! gw_error sample_instance
        = Some (lit "block") ∧
        is_adding sample_instance w' = false ∧ prevented w' = true.
Proof.
  apply submit_refused_sends_nothing;
    [apply (bool_decide_unpack _); vm_compute; exact I | reflexivity.. | discriminate].
Defined.

(** C20: a refusal for a blank recipient moves the focus to the recipient
    field. *)
Theorem submit_blank_recipient_focuses c w el :
  gw_valid c (doc w) →
  is_checked c w = true → is_adding c w = false →
  validate (read_form c (doc w)) = NoRecipient →
  querySelector_in (gw_fields c) sel_to (doc w) = Some el →
  ∃ w', runs (onSubmit c) w () w' ∧ focused (doc w') = Some el.
Proof.
  intros Hv Hc Ha Hval Hel.
  pose proof (onSubmit_validated c w Hv Hc Ha) as H. cbv zeta in H.
  rewrite Hval in H. eexists. split; [exact H|].
  rewrite doc_refused, doc_taken_over. cbn [refused_doc]. unfold focus_recipient.
  by rewrite querySelector_in_shown_hidden, Hel.
Qed.

Lemma submit_blank_recipient_focuses_witness :
  ∃ w', runs (onSubmit sample_instance) sample_blank () w' ∧
        focused (doc w') = Some 8.
Proof.
  apply submit_blank_recipient_focuses;
    [apply (bool_decide_unpack _); vm_compute; exact I | reflexivity..].
Defined.

(** C6: with the box unchecked the listener does nothing at all: the
    world after it is the world before it, so the native submission is
    not cancelled and no request is sent. *)
Theorem submit_unchecked_is_native c w :
  gw_valid c (doc w) → is_checked c w = false →
  runs (onSubmit c) w () w.
Proof. intros Hv Hc. by apply onSubmit_unchecked. Qed.

Lemma submit_unchecked_is_native_witness :
  runs (onSubmit sample_instance) sample_unchecked () sample_unchecked.
Proof.
  apply submit_unchecked_is_native;
    [apply (bool_decide_unpack _); vm_compute; exact I | reflexivity].
Defined.

(** C9: while the guard is engaged a second submit event leaves the
    world as it is: no second request is sent, and the native submission
    of that event is not cancelled either, because the listener returns
    before it reaches [preventDefault]. *)
Theorem submit_while_adding_returns_early c w :
  gw_valid c (doc w) → is_checked c w = true → is_adding c w = true →
  ∃ w', runs (onSubmit c) w () w' ∧ sent w' = sent w ∧
        prevented w' = prevented w.
Proof. intros Hv Hc Ha. exists w. split; [by apply onSubmit_adding | done]. Qed.

Lemma submit_while_adding_returns_early_witness :
  ∃ w', runs (onSubmit sample_instance) sample_adding () w' ∧
        sent w' = sent sample_adding ∧ prevented w' = prevented sample_adding.
Proof.
  apply submit_while_adding_returns_early;
    [apply (bool_decide_unpack _); vm_compute; exact I | reflexivity..].
Defined.

(** ** The settled response *)

Section Settled.
Context (c : gw_instance) (w : world) (Hv : gw_valid c (doc w)).

Lemma actions_logged l : actions (logged l w) = actions w.
Proof. destruct l; [|done]. unfold logged. by rewrite actions_app, app_nil_r. Qed.

Lemma sent_logged l : sent (logged l w) = sent w.
Proof. destruct l; [|done]. unfold logged. by rewrite sent_app, app_nil_r. Qed.

Lemma actions_caught err w1 : actions (caught c err w1) = actions w1.
Proof. unfold caught. change (actions (with_doc ?f ?x)) with (actions x).
  by rewrite actions_app, app_nil_r. Qed.

Lemma sent_caught err w1 : sent (caught c err w1) = sent w1.
Proof. unfold caught. change (sent (with_doc ?f ?x)) with (sent x).
  by rewrite sent_app, app_nil_r. Qed.

Lemma caught_text err l :
  textContent (gw_error c) (doc (caught c err (logged l w))) = Some msg_failed.
Proof.
  unfold caught. rewrite doc_with_doc.
  change (doc (with_trace ?f ?x)) with (doc x).
  rewrite shown_text; [done | by apply gw_valid_logged].
Qed.

End Settled.

(** C7: whatever goes wrong with the request (it is rejected, the
    response is not a success, its body is not JSON, or the parsed body
    has no readable status) the shopper sees the same fixed message, the
    guard is released for a retry, nothing is sent, and the page neither
    navigates nor announces a cart update.  The message of the server is
    logged and never shown. *)
Theorem resume_failure_is_generic c w o :
  gw_valid c (doc w) → accepted o = false →
  ∃ w', runs (onSubmit_resume c o) w () w' ∧
        textContent (gw_error c) (doc w') = Some msg_failed ∧
        is_adding c w' = false ∧
        actions w' = actions w ∧ sent w' = sent w.
Proof.
  intros Hv Ho. eexists. split; [by apply onSubmit_resume_runs|].
  unfold resume_spec, accepted in *. destruct (settle o) as [|l err]; [done|].
  split_and!.
  - by apply caught_text.
  - apply is_adding_released.
  - change (actions (released c ?x)) with (actions x).
    by rewrite actions_caught, actions_logged.
  - change (sent (released c ?x)) with (sent x).
    by rewrite sent_caught, sent_logged.
Qed.

(** The page while the request of [sample_ready] is on its way. *)
Definition sample_waiting : world :=
  with_cells <[0 := VBool true]> (with_prevented true sample_ready).

(** A response of status 422 with the shop's message. *)
Definition sample_422 : fetch_outcome :=
  FetchResponse 422
    (BodyJson (VObj [("status", VNum (Num 422));
                     ("message", VStr (lit "Cart Error"))])).

Lemma resume_failure_is_generic_witness :
  ∃ w', runs (onSubmit_resume sample_instance sample_422) sample_waiting () w' ∧
        textContent (gw_error sample_instance) (doc w') = Some msg_failed ∧
        is_adding sample_instance w' = false ∧
        actions w' = actions sample_waiting ∧ sent w' = sent sample_waiting.
Proof.
  apply resume_failure_is_generic;
    [apply (bool_decide_unpack _); vm_compute; exact I | reflexivity].
Defined.

(** C8: a successful response whose parsed body has [status] 303 sends
    the shopper to the cart page; any other successful response with a
    readable body dispatches [cart:updated] instead.  Either way the
    document is untouched and the guard stays as it was, engaged. *)
Theorem resume_success_navigates_or_announces c w status result st :
  gw_valid c (doc w) →
  response_ok status = true → get_prop result "status" = Normal st →
  ∃ w', runs (onSubmit_resume c (FetchResponse status (BodyJson result))) w () w' ∧
        actions w'
        = actions w ++ [if strict_eq_int st 303 then FxNavigate "/cart"
                        else FxDispatch "cart:updated"] ∧
        doc w' = doc w ∧ cells w' = cells w ∧ sent w' = sent w.
Proof.
  intros Hv Hok Hst. eexists. split; [by apply onSubmit_resume_runs|].
  unfold resume_spec. simpl. rewrite Hok, Hst.
  split_and!; [|done..|].
  - rewrite !actions_app, app_nil_r. by destruct (strict_eq_int st 303).
  - rewrite !sent_app, app_nil_r. destruct (strict_eq_int st 303); apply app_nil_r.
Qed.

(** The response of the shop to an accepted add. *)
Definition sample_200 : fetch_outcome :=
  FetchResponse 200 (BodyJson (VObj [("items", VArr [])])).

Lemma resume_success_navigates_or_announces_witness :
  ∃ w', runs (onSubmit_resume sample_instance sample_200) sample_waiting () w' ∧
        actions w' = actions sample_waiting ++ [FxDispatch "cart:updated"] ∧
        doc w' = doc sample_waiting ∧ cells w' = cells sample_waiting ∧
        sent w' = sent sample_waiting.
Proof.
  apply (resume_success_navigates_or_announces sample_instance sample_waiting
           200 (VObj [("items", VArr [])]) VUndefined);
    [apply (bool_decide_unpack _); vm_compute; exact I | reflexivity..].
Defined.

(** ** The request *)

(** The text typed in the control the selector finds under [scope]. *)
Definition typed (scope : nat) (sel : selector) (d : document) : option (list N) :=
  el ← querySelector_in scope sel d; el_value <$> elems d !! el.

Lemma read_value_typed scope sel d :
  read_value scope sel d = of_option (typed scope sel d).
Proof. unfold read_value, typed. by destruct (querySelector_in _ _ _). Qed.

Lemma read_trimmed_typed scope sel d :
  read_trimmed scope sel d = of_option (trim <$> typed scope sel d).
Proof.
  unfold read_trimmed, typed. destruct (querySelector_in _ _ _); [|done].
  simpl. by rewrite <- option_fmap_compose.
Qed.

(** [x?.value?.trim() || ''] is the trimmed text, the empty string when
    there is no such control. *)
Lemma js_or_trimmed o :
  js_or (of_option (trim <$> o)) (VStr []) = VStr (trim (default [] o)).
Proof.
  destruct o as [s|]; [|done]. unfold js_or. simpl.
  by destruct (trim s).
Qed.

Lemma truthy_trimmed o :
  truthy (of_option (trim <$> o)) = true →
  ∃ s, o = Some s ∧ trim s ≠ [] ∧ all_white_space s = false.
Proof.
  destruct o as [s|]; [|done]. simpl. rewrite truthy_trim.
  intros Hs%negb_true_iff. exists s. split_and!; [done| |done].
  intros Hnil%trim_nil_inv. congruence.
Qed.

(** C2: the request of a form that passes the checks has exactly two
    items: the main product with the variant and the quantity parsed from
    the form (quantity 1 when the form has no quantity, or an empty one),
    and the gift-wrap product with quantity 1 and the properties
    [_GiftWrap] = Yes, the product handle, and the three texts as typed,
    trimmed.  The recipient among them is not blank. *)
Theorem request_has_two_items_trimmed c d :
  validate (read_form c d) = Ready →
  ∃ to, typed (gw_fields c) sel_to d = Some to ∧ all_white_space to = false ∧
    request_of (read_form c d)
    = post_json "/cart/add.js"
        (VObj [("items",
           VArr [VObj [("id", VNum (parseInt (fs_mainVariantId (read_form c d))));
                       ("quantity",
                        VNum (parseInt (js_or (of_option (typed (gw_form c) sel_quantity d))
                                          (VNum (Num 1)))))];
                 VObj [("id", VNum (parseInt (fs_giftVariantId (read_form c d))));
                       ("quantity", VNum (Num 1));
                       ("properties",
                        VObj [("_GiftWrap", VStr (lit "Yes"));
                              ("_MainProductHandle", fs_handle (read_form c d));
                              ("To", VStr (trim to));
                              ("From",
                               VStr (trim (default [] (typed (gw_fields c) sel_from d))));
                              ("Message",
                               VStr (trim (default [] (typed (gw_fields c) sel_message d))))])]])]).
Proof.
  intros (_ & Hto & _)%validate_ready. simpl in Hto.
  rewrite read_trimmed_typed in Hto.
  destruct (truthy_trimmed _ Hto) as (to & Hty & _ & Hws).
  exists to. split_and!; [done..|].
  unfold request_of, add_request, items, giftProperties. simpl.
  rewrite !read_trimmed_typed, !read_value_typed, !js_or_trimmed, Hty. done.
Qed.

Lemma request_has_two_items_trimmed_witness :
  ∃ to, typed 7 sel_to sample_doc = Some to ∧ all_white_space to = false ∧
    request_of (read_form sample_instance sample_doc)
    = post_json "/cart/add.js"
        (VObj [("items",
           VArr [VObj [("id", VNum (Num 111)); ("quantity", VNum (Num 2))];
                 VObj [("id", VNum (Num 999));
                       ("quantity", VNum (Num 1));
                       ("properties",
                        VObj [("_GiftWrap", VStr (lit "Yes"));
                              ("_MainProductHandle", VStr (lit "mug"));
                              ("To", VStr (trim to));
                              ("From", VStr []);
                              ("Message", VStr (lit "Enjoy"))])]])]).
Proof. apply (request_has_two_items_trimmed sample_instance sample_doc). reflexivity. Defined.

(** ** Collapsing the fields *)

Lemma value_hidden c d j :
  el_value <$> elems (hidden c d) !! j = el_value <$> elems d !! j.
Proof. unfold hidden. by autorewrite with dom. Qed.

Lemma has_elem_toggled c b d j : has_elem j (toggled c b d) ↔ has_elem j d.
Proof. unfold toggled. by rewrite !has_elem_update_elem. Qed.

(** C21: unchecking the box empties every text input and text area of
    the field group, hides the error and its text, marks the checkbox as
    collapsed and hides the group. *)
Theorem collapse_clears_fields c w input :
  gw_valid c (doc w) → is_checked c w = false →
  input ∈ querySelectorAll_in (gw_fields c) sel_text_inputs (doc w) →
  ∃ w', runs (onChange c) w () w' ∧
        el_value <$> elems (doc w') !! input = Some [] ∧
        textContent (gw_error c) (doc w') = Some [] ∧
        style_of "display" <$> elems (doc w') !! gw_error c = Some (lit "none") ∧
        sent w' = sent w.
Proof.
  intros Hv Hc Hin. eexists. split; [by apply onChange_runs|].
  rewrite Hc, doc_with_doc. unfold expanded.
  pose proof (gw_valid_toggled c _ Hv false) as Hv1.
  pose proof (gw_valid_cleared c _ Hv1) as Hv2.
  split_and!; [|by apply hidden_text|by apply hidden_display|done].
  rewrite value_hidden. unfold cleared.
  rewrite (text_inputs_toggled c _ false) by done.
  rewrite elems_update_all_elem by done.
  apply querySelectorAll_in_has_elem, (has_elem_toggled c false) in Hin.
  by destruct Hin as [e ->].
Qed.

Lemma collapse_clears_fields_witness :
  ∃ w', runs (onChange sample_instance) sample_unchecked () w' ∧
        el_value <$> elems (doc w') !! 8 = Some [] ∧
        textContent (gw_error sample_instance) (doc w') = Some [] ∧
        style_of "display" <$> elems (doc w') !! gw_error sample_instance
        = Some (lit "none") ∧
        sent w' = sent sample_unchecked.
Proof.
  apply collapse_clears_fields;
    [apply (bool_decide_unpack _); vm_compute; exact I | reflexivity
    | apply (bool_decide_unpack _); vm_compute; exact I].
Defined.

(** C22: checking the box shows the field group and marks the checkbox
    as expanded; what the shopper typed, the error and the network are
    left alone. *)
Theorem expand_shows_fields c w :
  gw_valid c (doc w) → is_checked c w = true →
  ∃ w', runs (onChange c) w () w' ∧
        style_of "display" <$> elems (doc w') !! gw_fields c = Some (lit "block") ∧
        (getAttribute "aria-expanded" <$> elems (doc w') !! gw_checkbox c
         = Some (Some (lit "true"))) ∧
        (∀ j, el_value <$> elems (doc w') !! j = el_value <$> elems (doc w) !! j) ∧
        textContent (gw_error c) (doc w') = textContent (gw_error c) (doc w) ∧
        sent w' = sent w.
Proof.
  intros Hv Hc. eexists. split; [by apply onChange_runs|].
  rewrite Hc, doc_with_doc. unfold expanded, toggled.
  destruct (gv_fields _ _ Hv) as [_ [ef Hf]], (gv_checkbox _ _ Hv) as [_ [ec Hcb]].
  split_and!; [| |intros j|done..].
  - rewrite elems_update_elem_eq, elems_update_elem, Hf.
    destruct (decide _); simpl; unfold style_of; simpl;
      by rewrite lookup_insert_eq.
  - rewrite elems_update_elem, elems_update_elem_eq, Hcb.
    destruct (decide _); simpl; unfold getAttribute; simpl;
      by rewrite lookup_insert_eq.
  - rewrite !elems_update_elem.
    repeat destruct (decide _); by destruct (elems (doc w) !! j).
Qed.

Lemma expand_shows_fields_witness :
  ∃ w', runs (onChange sample_instance) sample_ready () w' ∧
        style_of "display" <$> elems (doc w') !! gw_fields sample_instance
        = Some (lit "block") ∧
        (getAttribute "aria-expanded" <$> elems (doc w') !! gw_checkbox sample_instance
         = Some (Some (lit "true"))) ∧
        (∀ j, el_value <$> elems (doc w') !! j
              = el_value <$> elems (doc sample_ready) !! j) ∧
        textContent (gw_error sample_instance) (doc w')
        = textContent (gw_error sample_instance) (doc sample_ready) ∧
        sent w' = sent sample_ready.
Proof.
  apply expand_shows_fields;
    [apply (bool_decide_unpack _); vm_compute; exact I | reflexivity].
Defined.

(** ** The controller over time

    What can happen on the product page once the controller is attached:
    the shopper edits a control, clicks the checkbox, submits the form,
    and the pending request settles.  A step runs the listener the event
    reaches, to its end or to its [await]. *)

Inductive event : Type :=
| Typed (el : nat) (s : list N)
| Clicked (b : bool)
| Submitted
| Responded (o : fetch_outcome).

Inductive step (c : gw_instance) : world → event → world → Prop :=
| step_typed w el s :
    step c w (Typed el s) (with_doc (update_elem el (with_value s)) w)
| step_clicked w b w' :
    runs (onChange c)
      (with_doc (update_elem (gw_checkbox c) (with_checked b)) w) () w' →
    step c w (Clicked b) w'
| step_submitted w w' :
    runs (onSubmit c) (with_prevented false w) () w' →
    step c w Submitted w'
| step_responded w r rest o w' :
    inflight w = (r, KAddProducts c) :: rest →
    runs (onSubmit_resume c o) (with_inflight (λ _, rest) w) () w' →
    step c w (Responded o) w'.

(** A run: the events in the order they happened. *)
Inductive run (c : gw_instance) : world → list event → world → Prop :=
| run_nil w : run c w [] w
| run_cons w e w1 es w2 : step c w e w1 → run c w1 es w2 → run c w (e :: es) w2.

(** The invariant: the elements are there, at most one request is on its
    way, and while it is the guard is engaged. *)
Record inv (c : gw_instance) (w : world) : Prop := {
  inv_valid : gw_valid c (doc w);
  inv_inflight :
    inflight w = [] ∨
    ∃ r, inflight w = [(r, KAddProducts c)] ∧ is_adding c w = true;
}.

(** Every request sent was built from a form that passed the checks. *)
Definition well_formed_request (r : request) : Prop :=
  ∃ fs, validate fs = Ready ∧ r = request_of fs.

Section Invariant.
Context (c : gw_instance).

Lemma gw_valid_update_elem d el f : gw_valid c d → gw_valid c (update_elem el f d).
Proof. intros []. split; auto with dom. Qed.

Lemma gw_valid_focus_recipient d : gw_valid c d → gw_valid c (focus_recipient c d).
Proof.
  intros Hv. unfold focus_recipient.
  destruct (querySelector_in _ _ _); [|done]. destruct Hv. split; auto with dom.
Qed.

Lemma gw_valid_refused_doc v d : gw_valid c d → gw_valid c (refused_doc c v d).
Proof.
  intros Hv. destruct v; cbn [refused_doc];
    auto using gw_valid_focus_recipient, gw_valid_shown.
Qed.

Lemma gw_valid_expanded b d : gw_valid c d → gw_valid c (expanded c b d).
Proof.
  intros Hv. unfold expanded.
  destruct b; auto using gw_valid_toggled, gw_valid_hidden, gw_valid_cleared.
Qed.

(** What a submit step does, by the state it finds. *)
Lemma step_submitted_inv w w' :
  gw_valid c (doc w) → step c w Submitted w' →
  w' = submit_spec c (with_prevented false w).
Proof.
  intros Hv Hs. inversion Hs as [| |w1 w2 Hrun|]; subst.
  eapply runs_world; [|exact Hrun]. by apply onSubmit_runs.
Qed.

Lemma step_responded_inv w o w' :
  gw_valid c (doc w) → step c w (Responded o) w' →
  ∃ r rest, inflight w = (r, KAddProducts c) :: rest ∧
            w' = resume_spec c o (with_inflight (λ _, rest) w).
Proof.
  intros Hv Hs. inversion Hs as [| | |w1 r rest o1 w2 Hin Hrun]; subst.
  exists r, rest. split; [done|].
  eapply runs_world; [|exact Hrun]. by apply onSubmit_resume_runs.
Qed.

Lemma step_clicked_inv w b w' :
  gw_valid c (doc w) → step c w (Clicked b) w' →
  w' = with_doc (expanded c b)
         (with_doc (update_elem (gw_checkbox c) (with_checked b)) w).
Proof.
  intros Hv Hs. inversion Hs as [|w1 b1 w2 Hrun| |]; subst.
  set (w1 := with_doc _ w) in *.
  assert (gw_valid c (doc w1)) as Hv1 by by apply gw_valid_update_elem.
  assert (is_checked c w1 = b) as Hb.
  { unfold is_checked, w1. rewrite doc_with_doc, elems_update_elem_eq.
    by destruct (gv_checkbox _ _ Hv) as [_ [e ->]]. }
  eapply runs_world; [|exact Hrun]. rewrite <- Hb at 1. by apply onChange_runs.
Qed.

End Invariant.

(** What follows an accepted response is the redirect or the event. *)
Lemma settle_accepted o result fx :
  settle o = Accepted result fx →
  fx = FxNavigate "/cart" ∨ fx = FxDispatch "cart:updated".
Proof.
  destruct o as [|status [v|]]; simpl; [done| |done].
  destruct (response_ok status), (get_prop v "status") as [st|],
    (get_prop v "message"); intros; simplify_eq;
    destruct (strict_eq_int st 303); auto.
Qed.

Section Preservation.
Context (c : gw_instance).

Lemma inv_submit_spec w : inv c w → inv c (submit_spec c w).
Proof.
  intros Hi. pose proof Hi as [Hv Hin]. unfold submit_spec.
  destruct (is_checked c w); [|exact Hi]. cbn [negb].
  destruct (is_adding c w) eqn:Ha; [exact Hi|].
  assert (inflight w = []) as Hnil.
  { destruct Hin as [|(r & _ & ?)]; [done | congruence]. }
  pose proof (gw_valid_hidden c _ Hv) as Hv'. cbv zeta.
  destruct (validate _) eqn:Hval.
  1-3: split; [rewrite doc_refused, doc_taken_over; by apply gw_valid_refused_doc
              | left; by rewrite refused_inflight].
  split; [done|]. right. eexists. split; [|apply (is_adding_taken_over c w)].
  unfold requested. simpl. by rewrite Hnil.
Qed.

Lemma inv_resume_spec w o : inv c w → inflight w = [] → inv c (resume_spec c o w).
Proof.
  intros [Hv _] Hnil. unfold resume_spec.
  destruct (settle o) as [result fx|l err]; split;
    try (by left); try (left; by destruct l); [exact Hv|].
  change (gw_valid c (shown c msg_failed (doc (logged l w)))).
  apply gw_valid_shown. by destruct l.
Qed.

Lemma inv_step w e w' : inv c w → step c w e w' → inv c w'.
Proof.
  intros Hi Hs. pose proof (inv_valid _ _ Hi) as Hv. destruct e.
  - inversion Hs; subst. destruct Hi. split; [|done].
    rewrite doc_with_doc. by apply gw_valid_update_elem.
  - apply step_clicked_inv in Hs as ->; [|done]. destruct Hi. split; [|done].
    rewrite !doc_with_doc. by apply gw_valid_expanded, gw_valid_update_elem.
  - apply step_submitted_inv in Hs as ->; [|done].
    apply inv_submit_spec. by destruct Hi.
  - apply step_responded_inv in Hs as (r & rest & Hin & ->); [|done].
    destruct Hi as [_ [Hnil|(r' & Hone & _)]]; [congruence|].
    assert (rest = []) as -> by congruence.
    apply inv_resume_spec; [split; [done | by left] | done].
Qed.

Lemma inv_run w es w' : inv c w → run c w es w' → inv c w'.
Proof. intros Hi Hr. induction Hr; eauto using inv_step. Qed.

(** What a step sends: nothing, or the one request of a submission that
    found the box checked, the guard free and the form in order. *)
Lemma sent_step w e w' :
  inv c w → step c w e w' →
  sent w' = sent w ∨
  (e = Submitted ∧ is_checked c w = true ∧ is_adding c w = false ∧
   validate (read_form c (doc w)) = Ready ∧
   sent w' = sent w ++ [request_of (read_form c (doc w))]).
Proof.
  intros Hi Hs. pose proof (inv_valid _ _ Hi) as Hv. destruct e.
  - inversion Hs; subst. by left.
  - apply step_clicked_inv in Hs as ->; [by left | done].
  - apply step_submitted_inv in Hs as ->; [|done]. unfold submit_spec.
    change (is_checked c (with_prevented false w)) with (is_checked c w).
    change (is_adding c (with_prevented false w)) with (is_adding c w).
    change (doc (with_prevented false w)) with (doc w).
    destruct (is_checked c w); [|by left]. simpl.
    destruct (is_adding c w); [by left|].
    destruct (validate _) eqn:Hval; [by left..|]. right.
    split_and!; [done..|]. apply (sent_requested c _ (with_prevented false w)).
  - apply step_responded_inv in Hs as (r & rest & Hin & ->); [|done]. left.
    unfold resume_spec. destruct (settle o) as [result fx|l err] eqn:Ho.
    + rewrite !sent_app, app_nil_r.
      by destruct (settle_accepted _ _ _ Ho) as [-> | ->]; rewrite app_nil_r.
    + change (sent (released c ?x)) with (sent x).
      by rewrite sent_caught, sent_logged.
Qed.

End Preservation.

(** ** Running the controller

    The step relation as a function, for evaluation. *)

Definition outcome (r : completion js_error unit * world) : option world :=
  match r with
  | (Normal _, w) => Some w
  | (Thrown _, _) => None
  end.

Definition next (c : gw_instance) (w : world) (e : event) : option world :=
  match e with
  | Typed el s => Some (with_doc (update_elem el (with_value s)) w)
  | Clicked b =>
      outcome (onChange c
                 (with_doc (update_elem (gw_checkbox c) (with_checked b)) w))
  | Submitted => outcome (onSubmit c (with_prevented false w))
  | Responded o =>
      match inflight w with
      | (r, KAddProducts c') :: rest =>
          if decide (c' = c)
          then outcome (onSubmit_resume c o (with_inflight (λ _, rest) w))
          else None
      | _ => None
      end
  end.

Fixpoint exec (c : gw_instance) (w : world) (es : list event) : option world :=
  match es with
  | [] => Some w
  | e :: es' => w1 ← next c w e; exec c w1 es'
  end.

Lemma outcome_runs (k : js unit) w w' : outcome (k w) = Some w' ↔ runs k w () w'.
Proof.
  unfold runs. destruct (k w) as [[[]|e] w1]; simpl; split; intros; by simplify_eq.
Qed.

Lemma step_next c w e w' : step c w e w' ↔ next c w e = Some w'.
Proof.
  split.
  - intros Hs. destruct Hs as [w el s|w b w' Hr|w w' Hr|w r rest o w' Hin Hr];
      simpl; rewrite ?Hin, ?decide_True by done; try by apply outcome_runs.
    done.
  - destruct e as [el s|b| |o]; simpl.
    + intros [= <-]. constructor.
    + intros Hr%outcome_runs. by constructor.
    + intros Hr%outcome_runs. by constructor.
    + destruct (inflight w) as [|[r [c'| | |]] rest] eqn:Hin; try done.
      destruct (decide (c' = c)) as [->|]; [|done].
      intros Hr%outcome_runs. by econstructor.
Qed.

Lemma run_exec c w es w' : run c w es w' ↔ exec c w es = Some w'.
Proof.
  split.
  - intros Hr. induction Hr as [|w e w1 es w2 Hs _ IH]; [done|].
    simpl. apply step_next in Hs. by rewrite Hs.
  - revert w. induction es as [|e es IH]; intros w; simpl.
    + intros [= <-]. constructor.
    + destruct (next c w e) as [w1|] eqn:Hn; [|done]. simpl. intros He.
      econstructor; [by apply step_next | by apply IH].
Qed.

(** A shopper in a hurry: two submits in a row, a refusal by the shop, and
    one more submit. *)
Definition sample_events : list event :=
  [Submitted; Submitted; Responded sample_422; Submitted].

Definition sample_final : world :=
  default sample_ready (exec sample_instance sample_ready sample_events).

Lemma sample_run : run sample_instance sample_ready sample_events sample_final.
Proof. apply run_exec. vm_compute. reflexivity. Qed.

Lemma sample_inv : inv sample_instance sample_ready.
Proof. split; [apply (bool_decide_unpack _); vm_compute; exact I | by left]. Qed.

(** ** What holds of every run *)

(** C4: at most one add request is on its way at any time, and while
    one is the guard is engaged: whatever the shopper does and however
    the shop answers, starting from a page with nothing pending. *)
Theorem at_most_one_in_flight c w0 es w :
  gw_valid c (doc w0) → inflight w0 = [] → run c w0 es w →
  length (inflight w) ≤ 1 ∧ (inflight w ≠ [] → is_adding c w = true).
Proof.
  intros Hv Hnil Hr.
  assert (inv c w0) as Hi by (split; [done | by left]).
  destruct (inv_run c _ _ _ Hi Hr) as [_ [->|(r & -> & Ha)]]; simpl; split;
    (lia || done).
Qed.

Lemma at_most_one_in_flight_witness :
  length (inflight sample_final) ≤ 1 ∧
  (inflight sample_final ≠ [] → is_adding sample_instance sample_final = true).
Proof.
  apply (at_most_one_in_flight sample_instance sample_ready sample_events);
    [apply (bool_decide_unpack _); vm_compute; exact I | reflexivity
    | exact sample_run].
Defined.

(** C5: a submit event that arrives while a request is pending sends
    nothing and leaves the pending request where it is. *)
Theorem pending_submit_sends_nothing c w0 es w w' :
  gw_valid c (doc w0) → inflight w0 = [] → run c w0 es w →
  inflight w ≠ [] → step c w Submitted w' →
  sent w' = sent w ∧ inflight w' = inflight w.
Proof.
  intros Hv Hnil Hr Hpending Hs.
  assert (inv c w) as Hi.
  { eapply inv_run; [|done]. split; [done | by left]. }
  destruct (inv_inflight _ _ Hi) as [|(r & Hone & Ha)]; [done|].
  apply step_submitted_inv in Hs as ->; [|by destruct Hi].
  unfold submit_spec.
  change (is_adding c (with_prevented false w)) with (is_adding c w).
  rewrite Ha. by destruct (negb _).
Qed.

(** The sample page after its first submit. *)
Definition sample_pending : world :=
  default sample_ready (exec sample_instance sample_ready [Submitted]).

Lemma pending_submit_sends_nothing_witness :
  sent (with_prevented false sample_pending) = sent sample_pending ∧
  inflight (with_prevented false sample_pending) = inflight sample_pending.
Proof.
  apply (pending_submit_sends_nothing sample_instance sample_ready [Submitted]
           sample_pending (with_prevented false sample_pending));
    [apply (bool_decide_unpack _); vm_compute; exact I | reflexivity
    | apply run_exec; vm_compute; reflexivity | discriminate
    | apply step_next; vm_compute; reflexivity].
Defined.

(** C11: every request the controller ever sends was built from a form
    that passed the three checks: its recipient is not blank, its gift
    variant and its main variant are not empty. *)
Theorem sent_requests_are_validated c w0 es w :
  gw_valid c (doc w0) → inflight w0 = [] → sent w0 = [] → run c w0 es w →
  Forall well_formed_request (sent w).
Proof.
  intros Hv Hnil Hsent Hr.
  assert (inv c w0) as Hi by (split; [done | by left]).
  assert (Forall well_formed_request (sent w0)) as Hall by by rewrite Hsent.
  clear Hv Hnil Hsent. induction Hr as [|w e w1 es w2 Hs _ IH]; [done|].
  apply IH; [by eapply inv_step|].
  destruct (sent_step c _ _ _ Hi Hs) as [->|(_ & _ & _ & Hval & ->)]; [done|].
  apply Forall_app. split; [done|]. apply Forall_singleton. by eexists.
Qed.

Lemma sent_requests_are_validated_witness :
  Forall well_formed_request (sent sample_final).
Proof.
  apply (sent_requests_are_validated sample_instance sample_ready sample_events);
    [apply (bool_decide_unpack _); vm_compute; exact I | reflexivity..
    | exact sample_run].
Defined.

(** C10: once an add has succeeded the guard stays engaged for good: no
    later event makes the controller send another request. *)
Theorem no_request_after_success c w es w' :
  gw_valid c (doc w) → inflight w = [] → is_adding c w = true →
  run c w es w' →
  sent w' = sent w ∧ is_adding c w' = true ∧ inflight w' = [].
Proof.
  intros Hv Hnil Ha Hr. induction Hr as [|w e w1 es w2 Hs _ IH]; [done|].
  assert (inv c w) as Hi by (split; [done | by left]).
  assert (sent w1 = sent w ∧ is_adding c w1 = true ∧ inflight w1 = [])
    as (Hs1 & Ha1 & Hn1).
  { destruct e.
    - by inversion Hs; subst.
    - by apply step_clicked_inv in Hs as ->.
    - apply step_submitted_inv in Hs as ->; [|done]. unfold submit_spec.
      change (is_adding c (with_prevented false w)) with (is_adding c w).
      rewrite Ha. by destruct (negb _).
    - apply step_responded_inv in Hs as (? & ? & ? & _); [congruence | done]. }
  rewrite <- Hs1. apply IH; [|done..]. by destruct (inv_step c _ _ _ Hi Hs).
Qed.

(** The sample page after an accepted add. *)
Definition sample_added : world :=
  default sample_ready
    (exec sample_instance sample_ready [Submitted; Responded sample_200]).

Definition sample_later : world :=
  default sample_ready
    (exec sample_instance sample_added
       [Typed 8 (lit "Bob"); Submitted; Clicked false; Clicked true; Submitted]).

Lemma no_request_after_success_witness :
  sent sample_later = sent sample_added ∧
  is_adding sample_instance sample_later = true ∧ inflight sample_later = [].
Proof.
  apply (no_request_after_success sample_instance sample_added
           [Typed 8 (lit "Bob"); Submitted; Clicked false; Clicked true; Submitted]);
    [apply (bool_decide_unpack _); vm_compute; exact I | reflexivity..
    | apply run_exec; vm_compute; reflexivity].
Defined.

(** C19: no listener of the controller ever ends in an exception: from
    a state of a run every event has a next state (for a response: when
    a request is pending). *)
Theorem listeners_never_throw c w0 es w e :
  gw_valid c (doc w0) → inflight w0 = [] → run c w0 es w →
  (∀ o, e = Responded o → inflight w ≠ []) →
  ∃ w', step c w e w'.
Proof.
  intros Hv0 Hnil Hr He.
  assert (inv c w) as [Hv Hin].
  { eapply inv_run; [|done]. split; [done | by left]. }
  destruct e as [el s|b| |o].
  - eexists. constructor.
  - eexists. constructor. apply onChange_runs. by apply gw_valid_update_elem.
  - eexists. constructor. by apply onSubmit_runs.
  - destruct Hin as [Hin|(r & Hin & _)]; [by destruct (He o)|].
    eexists. econstructor; [done|]. by apply onSubmit_resume_runs.
Qed.

Lemma listeners_never_throw_witness :
  ∃ w', step sample_instance sample_final (Clicked false) w'.
Proof.
  apply (listeners_never_throw sample_instance sample_ready sample_events);
    [apply (bool_decide_unpack _); vm_compute; exact I | reflexivity
    | exact sample_run | discriminate].
Defined.

(** ** Attaching the controller *)

(** The sample page before the script runs. *)
Definition sample_fresh : world := sample_world.

(** C29: on a page that has the gift-wrap block, its checkbox, the field
    group, the error container, the variant input and an enclosing form,
    [initializeGiftWrap] registers exactly two listeners (change on the
    checkbox, submit on the form), starts with the guard free and nothing
    sent, and shows or hides the field group after the checkbox. *)
Theorem initialize_attaches_controller c w :
  instance_of (doc w) (next_cell w) = Some c → gw_valid c (doc w) →
  ∃ w', runs initializeGiftWrap w () w' ∧
        listeners w'
        = listeners w
          ++ [Listener (OnElement (gw_checkbox c)) "change" (CbCheckboxChange c) false;
              Listener (OnElement (gw_form c)) "submit" (CbFormSubmit c) false] ∧
        is_adding c w' = false ∧
        doc w' = expanded c (is_checked c w) (doc w) ∧
        sent w' = sent w ∧ inflight w' = inflight w.
Proof.
  intros Hc Hv. eexists. split; [by apply initializeGiftWrap_present|].
  split_and!; [done| |done..].
  unfold is_adding, attached_controller. simpl. by rewrite lookup_insert_eq.
Qed.

Lemma initialize_attaches_controller_witness :
  ∃ w', runs initializeGiftWrap sample_fresh () w' ∧
        listeners w'
        = listeners sample_fresh
          ++ [Listener (OnElement 5) "change" (CbCheckboxChange sample_instance) false;
              Listener (OnElement 1) "submit" (CbFormSubmit sample_instance) false] ∧
        is_adding sample_instance w' = false ∧
        doc w' = expanded sample_instance (is_checked sample_instance sample_fresh)
                   (doc sample_fresh) ∧
        sent w' = sent sample_fresh ∧ inflight w' = inflight sample_fresh.
Proof.
  apply (initialize_attaches_controller sample_instance sample_fresh);
    [reflexivity | apply (bool_decide_unpack _); vm_compute; exact I].
Defined.

(** ** The page shows the state of the controller

    What the shopper sees follows what the controller holds: the
    checkbox says whether the fields are expanded, the fields are
    displayed when it is checked and hidden when it is not, and the error
    container is displayed exactly when it has a message. *)

Definition fields_follow (c : gw_instance) (d : document) : Prop :=
  ∃ b : bool, el_checked <$> elems d !! gw_checkbox c = Some b ∧
       getAttribute "aria-expanded" <$> elems d !! gw_checkbox c
       = Some (Some (if b then lit "true" else lit "false")) ∧
       style_of "display" <$> elems d !! gw_fields c
       = Some (if b then lit "block" else lit "none").

Definition error_shows (c : gw_instance) (d : document) : Prop :=
  ∃ s, textContent (gw_error c) d = Some s ∧
       (style_of "display" <$> elems d !! gw_error c = Some (lit "block") ↔ s ≠ []).

Definition consistent (c : gw_instance) (d : document) : Prop :=
  fields_follow c d ∧ error_shows c d.

Section Consistent.
Context (c : gw_instance) (Hne : gw_error c ≠ gw_fields c).

(** A write to the value of a control changes neither. *)
Lemma consistent_typed el s d :
  consistent c d → consistent c (update_elem el (with_value s) d).
Proof.
  intros [(b & H1 & H2 & H3) (t & H4 & H5)].
  split; [exists b | exists t]; by rewrite ?textContent_update_elem, ?elems_update_elem_proj.
Qed.

(** The fields are as they were when the error container is written. *)
Lemma fields_follow_error f s d :
  (∀ e, el_checked (f e) = el_checked e) →
  (∀ e, getAttribute "aria-expanded" (f e) = getAttribute "aria-expanded" e) →
  fields_follow c d →
  fields_follow c (update_elem (gw_error c) f (set_textContent (gw_error c) s d)).
Proof.
  intros Hc Ha (b & H1 & H2 & H3). exists b.
  rewrite !(elems_update_elem_proj _ _ _ el_checked),
    !(elems_update_elem_proj _ _ _ (getAttribute "aria-expanded")),
    elems_update_elem_ne, elems_set_textContent by done.
  done.
Qed.

Lemma consistent_hidden d : gw_valid c d → consistent c d → consistent c (hidden c d).
Proof.
  intros Hv [Hf _]. split; [by apply fields_follow_error|].
  exists []. by rewrite hidden_text, hidden_display.
Qed.

Lemma consistent_shown message d :
  gw_valid c d → consistent c d → consistent c (shown c message d).
Proof.
  intros Hv [Hf _]. split; [by apply fields_follow_error|].
  eexists. rewrite shown_text, shown_display by done. split; [done|].
  split; [intros _|done]. by destruct message.
Qed.

Lemma consistent_focus_recipient d :
  consistent c d → consistent c (focus_recipient c d).
Proof.
  intros [(b & H1 & H2 & H3) (t & H4 & H5)].
  split; [exists b | exists t];
    by rewrite ?textContent_focus_recipient, ?elems_focus_recipient.
Qed.

Lemma consistent_refused_doc v d :
  gw_valid c d → consistent c d → consistent c (refused_doc c v d).
Proof.
  intros Hv Hc. destruct v; cbn [refused_doc];
    auto using consistent_shown, consistent_focus_recipient.
Qed.

(** [setExpanded(b)] on a page whose checkbox is in the state [b]. *)
Lemma fields_follow_toggled b d :
  gw_valid c d → el_checked <$> elems d !! gw_checkbox c = Some b →
  fields_follow c (toggled c b d).
Proof.
  intros Hv Hb. exists b. unfold toggled.
  destruct (gv_checkbox _ _ Hv) as [_ [e He]], (gv_fields _ _ Hv) as [_ Hf].
  apply (has_elem_update_elem (gw_checkbox c)
           (setAttribute "aria-expanded" (if b then lit "true" else lit "false")))
    in Hf as [e' He'].
  rewrite !elems_update_elem_proj by done. split_and!; [done| |].
  - rewrite elems_update_elem_eq, He. simpl. do 2 f_equal.
    unfold getAttribute, setAttribute. simpl. by rewrite lookup_insert_eq.
  - rewrite elems_update_elem_eq, He'. simpl. f_equal.
    unfold style_of. simpl. by rewrite lookup_insert_eq.
Qed.

Lemma error_shows_toggled b d : error_shows c d → error_shows c (toggled c b d).
Proof.
  intros (t & H4 & H5). exists t. unfold toggled.
  by rewrite !textContent_update_elem, elems_update_elem_ne, elems_update_elem_proj.
Qed.

Lemma consistent_cleared d : consistent c d → consistent c (cleared c d).
Proof.
  intros [(b & H1 & H2 & H3) (t & H4 & H5)]. unfold cleared.
  split; [exists b | exists t];
    by rewrite ?textContent_update_all, ?elems_update_all_proj.
Qed.

Lemma consistent_expanded b d :
  gw_valid c d → el_checked <$> elems d !! gw_checkbox c = Some b →
  error_shows c d → consistent c (expanded c b d).
Proof.
  intros Hv Hb He.
  assert (consistent c (toggled c b d)) as Ht
    by (split; [by apply fields_follow_toggled | by apply error_shows_toggled]).
  unfold expanded. destruct b; [done|].
  apply consistent_hidden, consistent_cleared, Ht.
  by apply gw_valid_cleared, gw_valid_toggled.
Qed.

(** Each step keeps the elements and the consistency. *)
Lemma consistent_step w e w' :
  gw_valid c (doc w) → consistent c (doc w) → step c w e w' →
  gw_valid c (doc w') ∧ consistent c (doc w').
Proof.
  intros Hv Hc Hs. destruct e.
  - inversion Hs; subst. rewrite doc_with_doc.
    split; [by apply gw_valid_update_elem | by apply consistent_typed].
  - apply step_clicked_inv in Hs as ->; [|done]. rewrite !doc_with_doc.
    pose proof (gw_valid_update_elem c _ (gw_checkbox c) (with_checked b) Hv) as Hv1.
    split; [by apply gw_valid_expanded|]. destruct Hc as [_ (t & H4 & H5)].
    apply consistent_expanded; [done | |].
    + rewrite elems_update_elem_eq. by destruct (gv_checkbox _ _ Hv) as [_ [e ->]].
    + exists t. by rewrite textContent_update_elem, elems_update_elem_proj.
  - apply step_submitted_inv in Hs as ->; [|done]. unfold submit_spec.
    change (doc (with_prevented false w)) with (doc w).
    destruct (negb _); [done|]. destruct (is_adding _ _); [done|]. cbv zeta.
    pose proof (gw_valid_hidden c _ Hv). pose proof (consistent_hidden _ Hv Hc).
    destruct (validate _); rewrite ?doc_refused;
      try (split; [by apply gw_valid_refused_doc | by apply consistent_refused_doc]);
      done.
  - apply step_responded_inv in Hs as (r & rest & _ & ->); [|done].
    set (w1 := with_inflight _ w).
    unfold resume_spec. destruct (settle o) as [|l err]; [done|].
    change (gw_valid c (shown c msg_failed (doc (logged l w1))) ∧
            consistent c (shown c msg_failed (doc (logged l w1)))).
    split; [apply gw_valid_shown | apply consistent_shown]; by destruct l.
Qed.

Lemma consistent_run w es w' :
  gw_valid c (doc w) → consistent c (doc w) → run c w es w' → consistent c (doc w').
Proof.
  intros Hv Hc Hr. induction Hr as [|w e w1 es w2 Hs _ IH]; [done|].
  destruct (consistent_step _ _ _ Hv Hc Hs). by apply IH.
Qed.

End Consistent.

(** C39: the page shows the state of the controller, whatever happens.
    When [initializeGiftWrap] has run on a page whose error container is
    not displayed without a message, then after any sequence of events
    (texts typed, the box checked or unchecked, submissions, responses of
    any kind) [aria-expanded] of the checkbox says whether it is checked,
    the fields are displayed exactly when it is, and the error container
    is displayed exactly when it holds a message. *)
Theorem page_stays_consistent c w w0 es w' :
  instance_of (doc w) (next_cell w) = Some c → gw_valid c (doc w) →
  gw_error c ≠ gw_fields c → error_shows c (doc w) →
  runs initializeGiftWrap w () w0 → run c w0 es w' →
  consistent c (doc w').
Proof.
  intros Hc Hv Hne He Hinit Hr.
  rewrite (runs_world _ _ _ _ _ (initializeGiftWrap_present c w Hc Hv) Hinit) in Hr.
  apply (consistent_run c Hne _ _ _) in Hr; [done | |]; unfold attached_controller;
    rewrite doc_with_doc; [by apply gw_valid_expanded|].
  apply consistent_expanded; [done.. | | done].
  simpl. unfold is_checked. by destruct (gv_checkbox _ _ Hv) as [_ [e ->]].
Qed.

(** The sample page when the script has run on it, the box checked. *)
Definition sample_attached : world := attached_controller sample_instance sample_world.

Lemma page_stays_consistent_witness :
  consistent sample_instance
    (doc (default sample_attached
            (exec sample_instance sample_attached
               [Clicked false; Typed 8 (lit "Bob"); Clicked true; Submitted;
                Responded sample_422]))).
Proof.
  apply (page_stays_consistent sample_instance sample_world sample_attached
           [Clicked false; Typed 8 (lit "Bob"); Clicked true; Submitted;
            Responded sample_422]).
  - reflexivity.
  - apply (bool_decide_unpack _). vm_compute. exact I.
  - discriminate.
  - exists []. split; [vm_compute; reflexivity | vm_compute; split; [discriminate | done]].
  - apply initializeGiftWrap_present;
      [reflexivity | apply (bool_decide_unpack _); vm_compute; exact I].
  - apply run_exec. vm_compute. reflexivity.
Defined.
