(* ===== verification/AddTimeModel.v ===== *)
(** * AddTimeModel: the add-time controller as a three-phase machine

    What [src/assets/gift-wrap.js] promises the product page, without the
    page: a machine with three phases ([Idle], [Waiting] for the shop's
    answer, [Added]) whose transitions are labelled by what the shopper and
    the shop can see of them.  The file proves that the controller of
    [AddTime], run by the step relation of [AddTimeSpec], refines this
    machine: every step of the code is a transition of the machine with
    the same visible effects.  Properties of the machine (requests and
    answers alternate, [Added] is a sink) then hold of every run of the
    code, and the bound on the requests sent is obtained that way. *)

From stdpp Require Import gmap strings.
From S2P Require Import Prelude JsString JsValue Dom Closures Runtime AddTime.
From S2P Require Import AddTimeSpec.
Import GiftWrap.

(** ** The machine *)

Inductive phase : Type :=
| Idle       (* the guard is free, nothing is on its way *)
| Waiting    (* one add request is on its way *)
| Added.     (* an add went through: the guard stays engaged *)

#[export] Instance phase_eq_dec : EqDecision phase.
Proof. solve_decision. Defined.

(** What a transition shows. *)
Inductive action : Type :=
| Quiet                    (* nothing leaves the controller *)
| Refuse (v : verdict)     (* the submission is cancelled, a message shown *)
| Send (r : request)       (* the submission is cancelled, a request sent *)
| Fail                     (* the answer is a failure: the generic message *)
| Succeed (fx : effect).   (* the answer is a success: redirect or event *)

Inductive astep : phase → action → phase → Prop :=
| astep_quiet p : astep p Quiet p
| astep_refuse v : v ≠ Ready → astep Idle (Refuse v) Idle
| astep_send r : well_formed_request r → astep Idle (Send r) Waiting
| astep_fail : astep Waiting Fail Idle
| astep_succeed fx :
    fx = FxNavigate "/cart" ∨ fx = FxDispatch "cart:updated" →
    astep Waiting (Succeed fx) Added.

Inductive arun : phase → list action → phase → Prop :=
| arun_nil p : arun p [] p
| arun_cons p a p1 acts p2 :
    astep p a p1 → arun p1 acts p2 → arun p (a :: acts) p2.

(** The effects of a transition on the outside. *)
Definition effects_of (a : action) : list effect :=
  match a with
  | Send r => [FxFetch r]
  | Succeed fx => [fx]
  | Quiet | Refuse _ | Fail => []
  end.

(** Whether a transition cancels the native submission of the form. *)
Definition cancels (a : action) : bool :=
  match a with
  | Refuse _ | Send _ => true
  | Quiet | Fail | Succeed _ => false
  end.

(** ** The controller seen as the machine *)

(** The phase of a page: by the requests on their way and the guard
    (gift-wrap.js, lines 14, 128, 132 and 139). *)
Definition phase_of (c : gw_instance) (w : world) : phase :=
  match inflight w with
  | _ :: _ => Waiting
  | [] => if is_adding c w then Added else Idle
  end.

(** The label of the step an event causes on a page. *)
Definition label (c : gw_instance) (w : world) (e : event) : action :=
  match e with
  | Typed _ _ | Clicked _ => Quiet
  | Submitted =>
      if is_checked c w && negb (is_adding c w) then
        match validate (read_form c (doc w)) with
        | Ready => Send (request_of (read_form c (doc w)))
        | v => Refuse v
        end
      else Quiet
  | Responded o =>
      match settle o with
      | Accepted _ fx => Succeed fx
      | Failed _ _ => Fail
      end
  end.

(** The labels along the events of a run. *)
Fixpoint labels (c : gw_instance) (w : world) (es : list event) : list action :=
  match es with
  | [] => []
  | e :: es' =>
      label c w e :: match next c w e with
                     | Some w1 => labels c w1 es'
                     | None => []
                     end
  end.

(** ** Counting *)

Definition tally {A} (f : A → bool) (l : list A) : nat :=
  sum_list ((λ a, if f a then 1 else 0) <$> l).

Definition is_send (a : action) : bool :=
  match a with Send _ => true | _ => false end.
Definition is_fail (a : action) : bool :=
  match a with Fail => true | _ => false end.
Definition is_succeed (a : action) : bool :=
  match a with Succeed _ => true | _ => false end.

(** A response the controller takes for a failure. *)
Definition is_failure (e : event) : bool :=
  match e with Responded o => negb (accepted o) | _ => false end.

(** The requests that wait for an answer in a phase. *)
Definition pending (p : phase) : nat :=
  match p with Waiting => 1 | Idle | Added => 0 end.

(** * Properties *)

(** ** The machine on its own *)

Lemma tally_nil {A} (f : A → bool) : tally f [] = 0.
Proof. done. Qed.

Lemma tally_cons {A} (f : A → bool) a l :
  tally f (a :: l) = (if f a then 1 else 0) + tally f l.
Proof. done. Qed.

(** Requests and answers balance. *)
Lemma arun_balance p acts q :
  arun p acts q →
  pending p + tally is_send acts
  = pending q + tally is_fail acts + tally is_succeed acts.
Proof.
  induction 1 as [|p a p1 acts p2 Hs _ IH]; [rewrite !tally_nil; lia|].
  rewrite !tally_cons. destruct Hs; simpl in *; lia.
Qed.

(** [Added] is a sink: nothing is sent and nothing answered from there. *)
Lemma arun_added acts q :
  arun Added acts q →
  q = Added ∧ tally is_send acts = 0 ∧ tally is_succeed acts = 0.
Proof.
  remember Added as p eqn:Hp. induction 1 as [|p a p1 acts p2 Hs _ IH]; [done|].
  subst p. inversion Hs; subst. rewrite !tally_cons. simpl. by apply IH.
Qed.

(** At most one answer is a success, and it ends in [Added]. *)
Lemma arun_succeed_once p acts q :
  arun p acts q → p ≠ Added →
  tally is_succeed acts = (if decide (q = Added) then 1 else 0).
Proof.
  induction 1 as [p|p a p1 acts p2 Hs Hr IH]; intros Hp.
  - by rewrite decide_False.
  - rewrite tally_cons. destruct Hs; simpl; try by apply IH.
    apply arun_added in Hr as (-> & _ & ->). by rewrite decide_True.
Qed.

(** One request more than the failures, at most. *)
Lemma arun_sends_bound p acts q :
  arun p acts q → p ≠ Added →
  pending p + tally is_send acts ≤ tally is_fail acts + 1.
Proof.
  intros Hr Hp. pose proof (arun_balance _ _ _ Hr) as Hb.
  pose proof (arun_succeed_once _ _ _ Hr Hp) as Hs.
  destruct (decide (q = Added)) as [->|]; [simpl in Hb; lia|].
  destruct q; simpl in *; (done || lia).
Qed.

(** The requests among the effects of a run are its [Send]s. *)
Lemma arun_requests p acts q :
  arun p acts q →
  length (omap (λ fx, match fx with FxFetch r => Some r | _ => None end)
            (acts ≫= effects_of))
  = tally is_send acts.
Proof.
  induction 1 as [|p a p1 acts p2 Hs _ IH]; [done|].
  rewrite bind_cons, omap_app, length_app, tally_cons, IH.
  by destruct Hs as [| | | |fx [-> | ->]].
Qed.

(** ** The code refines the machine *)

Section Refinement.
Context (c : gw_instance).

Lemma phase_of_idle w :
  inflight w = [] → is_adding c w = false → phase_of c w = Idle.
Proof. unfold phase_of. by intros -> ->. Qed.

Lemma phase_of_added w :
  inflight w = [] → is_adding c w = true → phase_of c w = Added.
Proof. unfold phase_of. by intros -> ->. Qed.

(** Under the invariant the guard tells the phases apart. *)
Lemma inv_free w : inv c w → is_adding c w = false → inflight w = [].
Proof. intros [_ [|(r & _ & ?)]] Ha; [done | congruence]. Qed.

Lemma inv_pending w r k rest :
  inv c w → inflight w = (r, k) :: rest →
  rest = [] ∧ is_adding c w = true ∧ phase_of c w = Waiting.
Proof.
  intros [_ [Hnil|(r' & Hone & Ha)]] Hin; [congruence|].
  unfold phase_of. rewrite Hin. split_and!; [congruence | done..].
Qed.

Lemma actions_refused v w : actions (refused c v (taken_over c w)) = actions w.
Proof. by destruct v. Qed.

Lemma actions_requested r w :
  actions (requested c r (taken_over c w)) = actions w ++ [FxFetch r].
Proof. apply (actions_app (taken_over c w) (FxFetch r)). Qed.

(** A refusal leaves the machine where it was. *)
Lemma refuse_refines w v :
  v ≠ Ready → inflight w = [] →
  astep Idle (Refuse v) (phase_of c (refused c v (taken_over c w))) ∧
  actions (refused c v (taken_over c w)) = actions w ++ effects_of (Refuse v).
Proof.
  intros Hv Hnil.
  rewrite phase_of_idle, actions_refused, app_nil_r
    by (by rewrite ?refused_inflight, ?refused_is_adding).
  by split; [constructor|].
Qed.

(** A submission is a transition of the machine. *)
Lemma submit_refines w :
  inv c w →
  astep (phase_of c w) (label c w Submitted) (phase_of c (submit_spec c w)) ∧
  actions (submit_spec c w) = actions w ++ effects_of (label c w Submitted).
Proof.
  intros Hi. unfold submit_spec, label.
  destruct (is_checked c w); cbn [negb andb];
    [|by rewrite app_nil_r; split; [constructor|]].
  destruct (is_adding c w) eqn:Ha; cbn [negb andb];
    [by rewrite app_nil_r; split; [constructor|]|].
  pose proof (inv_free _ Hi Ha) as Hnil. rewrite (phase_of_idle w) by done.
  cbv zeta. destruct (validate _) eqn:Hv; [by apply refuse_refines..|].
  rewrite actions_requested. split; [|done].
  replace (phase_of c _) with Waiting
    by (unfold phase_of, requested; simpl; by rewrite Hnil).
  constructor. by eexists.
Qed.

(** An answer is a transition of the machine. *)
Lemma resume_refines w o :
  inflight w = [] → is_adding c w = true →
  astep Waiting (label c w (Responded o)) (phase_of c (resume_spec c o w)) ∧
  actions (resume_spec c o w) = actions w ++ effects_of (label c w (Responded o)).
Proof.
  intros Hnil Ha. unfold resume_spec, label.
  destruct (settle o) as [result fx|l err] eqn:Ho; simpl.
  - pose proof (settle_accepted _ _ _ Ho) as Hfx.
    rewrite phase_of_added by done. split; [by constructor|].
    rewrite (actions_app _ fx), (actions_app w (log_result result)), app_nil_r.
    by destruct Hfx as [-> | ->].
  - rewrite phase_of_idle by first [by destruct l | apply is_adding_released].
    split; [constructor|].
    change (actions (released c ?x)) with (actions x).
    by rewrite actions_caught, actions_logged, app_nil_r.
Qed.

(** Every step of the controller is a transition of the machine, with
    the same effects on the outside. *)
Lemma step_refines w e w' :
  inv c w → step c w e w' →
  astep (phase_of c w) (label c w e) (phase_of c w') ∧
  actions w' = actions w ++ effects_of (label c w e).
Proof.
  intros Hi Hs. pose proof (inv_valid _ _ Hi) as Hv. destruct e.
  - inversion Hs; subst. rewrite app_nil_r. by split; [constructor|].
  - apply step_clicked_inv in Hs as ->; [|done]. rewrite app_nil_r.
    by split; [constructor|].
  - apply step_submitted_inv in Hs as ->; [|done].
    apply (submit_refines (with_prevented false w)). by destruct Hi.
  - apply step_responded_inv in Hs as (r & rest & Hin & ->); [|done].
    destruct (inv_pending _ _ _ _ Hi Hin) as (-> & Ha & ->).
    by apply (resume_refines (with_inflight (λ _, []) w)).
Qed.

End Refinement.

(** ** Runs *)

Lemma sent_actions w :
  sent w
  = omap (λ fx, match fx with FxFetch r => Some r | _ => None end) (actions w).
Proof.
  unfold sent, actions. induction (trace w) as [|fx t IH]; [done|].
  destruct (observable fx) eqn:Ho;
    [rewrite filter_cons_True by (rewrite Ho; exact I)
    |rewrite filter_cons_False by (rewrite Ho; exact id)];
    destruct fx; try discriminate Ho; simpl;
    first [exact IH | f_equal; exact IH].
Qed.

(** The labels of a run are a run of the machine. *)
Lemma run_labels c w es w' :
  inv c w → run c w es w' →
  arun (phase_of c w) (labels c w es) (phase_of c w') ∧
  actions w' = actions w ++ (labels c w es ≫= effects_of).
Proof.
  intros Hi Hr. induction Hr as [w|w e w1 es w2 Hs Hr IH].
  - split; [constructor | by rewrite app_nil_r].
  - destruct (step_refines c _ _ _ Hi Hs) as [Ha He].
    destruct (IH (inv_step c _ _ _ Hi Hs)) as [Har Hes].
    cbn [labels]. rewrite (proj1 (step_next _ _ _ _) Hs).
    split; [by econstructor|]. by rewrite Hes, He, bind_cons, app_assoc.
Qed.

(** Only an answer the controller takes for a failure is labelled [Fail]. *)
Lemma labels_failures c w es :
  tally is_fail (labels c w es) ≤ tally is_failure es.
Proof.
  revert w. induction es as [|e es IH]; intros w; [done|].
  cbn [labels]. rewrite !tally_cons.
  assert (tally is_fail (match next c w e with
                         | Some w1 => labels c w1 es
                         | None => []
                         end) ≤ tally is_failure es) as Hle.
  { destruct (next c w e); [apply IH | rewrite tally_nil; lia]. }
  assert (is_fail (label c w e) = is_failure e) as ->; [|lia].
  destruct e as [| | |o]; simpl; try done.
  - destruct (_ && _); [by destruct (validate _) | done].
  - unfold accepted. by destruct (settle o).
Qed.

(** C12: the controller refines the three-phase machine.  Along every run
    of the code from a page that meets the invariant there is a run of
    the machine, one transition per event, from the phase of the first
    page to the phase of the last, and what the run did to the outside
    (requests, redirect, cart event) is what the transitions say. *)
Theorem run_refines c w es w' :
  inv c w → run c w es w' →
  ∃ acts, length acts = length es ∧
          arun (phase_of c w) acts (phase_of c w') ∧
          actions w' = actions w ++ (acts ≫= effects_of).
Proof.
  intros Hi Hr. exists (labels c w es).
  split; [|by apply run_labels]. clear Hi.
  induction Hr as [w|w e w1 es w2 Hs Hr IH]; [done|].
  cbn [labels length]. by rewrite (proj1 (step_next _ _ _ _) Hs), IH.
Qed.

Lemma run_refines_witness :
  ∃ acts, length acts = length sample_events ∧
          arun (phase_of sample_instance sample_ready) acts
            (phase_of sample_instance sample_final) ∧
          actions sample_final = actions sample_ready ++ (acts ≫= effects_of).
Proof. apply run_refines; [exact sample_inv | exact sample_run]. Defined.

(** C30: the number of requests the controller sends is bounded by the
    answers it gets.  From a page with the guard free, after any events,
    it has sent at most one request more than the shop has failed: a
    request leaves only when none is pending and none has succeeded. *)
Theorem requests_bounded_by_failures c w0 es w :
  inv c w0 → is_adding c w0 = false → run c w0 es w →
  length (sent w) ≤ length (sent w0) + tally is_failure es + 1.
Proof.
  intros Hi Ha Hr. destruct (run_labels _ _ _ _ Hi Hr) as [Har Hact].
  rewrite (phase_of_idle c w0 (inv_free c w0 Hi Ha) Ha) in Har.
  assert (Idle ≠ Added) as Hp by done.
  pose proof (arun_sends_bound _ _ _ Har Hp) as Hb.
  pose proof (labels_failures c w0 es) as Hf.
  rewrite !sent_actions, Hact, omap_app, length_app, (arun_requests _ _ _ Har).
  simpl in Hb. lia.
Qed.

Lemma requests_bounded_by_failures_witness :
  length (sent sample_final)
  ≤ length (sent sample_ready) + tally is_failure sample_events + 1.
Proof.
  apply (requests_bounded_by_failures sample_instance);
    [exact sample_inv | reflexivity | exact sample_run].
Defined.

(** ** Progress *)

(** What a failed answer leaves: the guard free, and the form as it was. *)
Lemma resume_failed c w o :
  gw_valid c (doc w) → accepted o = false →
  is_adding c (resume_spec c o w) = false ∧
  is_checked c (resume_spec c o w) = is_checked c w ∧
  read_form c (doc (resume_spec c o w)) = read_form c (doc w) ∧
  sent (resume_spec c o w) = sent w ∧
  inflight (resume_spec c o w) = inflight w.
Proof.
  intros Hv. unfold accepted, resume_spec.
  destruct (settle o) as [|l err]; [done|]. intros _.
  assert (doc (released c (caught c err (logged l w)))
          = shown c msg_failed (doc w)) as Hd by by destruct l.
  split_and!; [apply is_adding_released | | | | by destruct l].
  - unfold is_checked. by rewrite Hd, checked_shown.
  - by rewrite Hd, read_form_shown.
  - change (sent (released c ?x)) with (sent x).
    by rewrite sent_caught, sent_logged.
Qed.

(** The submission of a checked, free and valid form. *)
Lemma submit_ready c w :
  is_checked c w = true → is_adding c w = false →
  validate (read_form c (doc w)) = Ready →
  submit_spec c (with_prevented false w)
  = requested c (request_of (read_form c (doc w)))
      (taken_over c (with_prevented false w)).
Proof.
  intros Hc Ha Hr. unfold submit_spec.
  change (is_checked c (with_prevented false w)) with (is_checked c w).
  change (is_adding c (with_prevented false w)) with (is_adding c w).
  change (doc (with_prevented false w)) with (doc w).
  by rewrite Hc, Ha, Hr.
Qed.

(** C31: a failed add never blocks the shopper.  When a request is
    pending and its answer is a failure of any kind, the answer brings
    the controller back to [Idle], and the next submission of the same
    form sends the request again and waits for its answer. *)
Theorem failed_add_can_be_retried c w o :
  inv c w → inflight w ≠ [] → accepted o = false →
  is_checked c w = true → validate (read_form c (doc w)) = Ready →
  ∃ w1 w2, step c w (Responded o) w1 ∧ phase_of c w1 = Idle ∧
           step c w1 Submitted w2 ∧ phase_of c w2 = Waiting ∧
           sent w2 = sent w ++ [request_of (read_form c (doc w))].
Proof.
  intros Hi Hne Ho Hc Hr. pose proof (inv_valid _ _ Hi) as Hv.
  destruct (inflight w) as [|[r k] rest] eqn:Hin; [done|].
  destruct (inv_pending _ _ _ _ _ Hi Hin) as (-> & Ha & _).
  assert (k = KAddProducts c) as ->
    by (destruct Hi as [_ [|(? & ? & _)]]; congruence).
  set (w0 := with_inflight (λ _, []) w).
  destruct (resume_failed c w0 o Hv Ho) as (Ha1 & Hc1 & Hf1 & Hs1 & Hin1).
  change (is_checked c w0) with (is_checked c w) in Hc1. rewrite Hc in Hc1.
  change (doc w0) with (doc w) in Hf1. change (sent w0) with (sent w) in Hs1.
  assert (inv c (resume_spec c o w0)) as Hi1
    by (apply inv_resume_spec; [split; [done | by left] | done]).
  exists (resume_spec c o w0), (submit_spec c (with_prevented false (resume_spec c o w0))).
  split_and!.
  - econstructor; [exact Hin | by apply onSubmit_resume_runs].
  - by apply phase_of_idle.
  - constructor. apply onSubmit_runs, Hi1.
  - rewrite submit_ready by congruence. unfold phase_of, requested. simpl.
    by rewrite Hin1.
  - rewrite submit_ready by congruence.
    rewrite (sent_requested c _ (with_prevented false _)). by rewrite Hf1, <- Hs1.
Qed.

Lemma failed_add_can_be_retried_witness :
  ∃ w1 w2, step sample_instance sample_pending (Responded sample_422) w1 ∧
           phase_of sample_instance w1 = Idle ∧
           step sample_instance w1 Submitted w2 ∧
           phase_of sample_instance w2 = Waiting ∧
           sent w2 = sent sample_pending
                     ++ [request_of (read_form sample_instance (doc sample_pending))].
Proof.
  apply failed_add_can_be_retried;
    [apply (inv_run _ _ [Submitted] _ sample_inv), run_exec; vm_compute; reflexivity
    | discriminate | reflexivity..].
Defined.
