(* ===== verification/EditorSpec.v ===== *)
(** * EditorSpec: what the inline editor guarantees

    The theorems about [src/assets/cart-gift-wrap-inline.js], stated on
    the definitions of [CartPage] and [CartDrawer]: what an update and a
    removal send, what the shopper sees when they fail or succeed, and
    what an update from the drawer does.  A sample cart, with one
    gift-wrapped line on the cart page and in the drawer, instantiates
    each theorem. *)

From stdpp Require Import gmap strings.
From S2P Require Import Prelude JsString JsValue Dom Closures Runtime.
From S2P Require Import CartPage CartDrawer.
Import Editor Drawer.

(** ** A cart

    One gift-wrapped line, of item key [k1], as the cart page and the
    cart drawer render it. *)

Definition cart_tree : tree :=
  Node 0
    [Node 1
       [Node 2
          [Node 3 []; Node 4 []; Node 5 []; Node 6 [];
           Node 7
             [Node 8 [Text (lit "Save")];
              Node 9 [Text (lit "Cancel")];
              Node 10 []]]];
     Node 11
       [Node 12
          [Node 13 [Node 14 [Text (lit "Edit")]; Node 15 [Text (lit "Cancel")]];
           Node 16 [Node 17 [Text (lit "Bob")]];
           Node 18
             [Node 19 []; Node 20 []; Node 21 [];
              Node 22 [Node 23 [Text (lit "Update")]; Node 24 []]]]]].

Definition cart_elems : gmap nat element :=
  list_to_map
    [(0, mk_element "body" [] [] "" false);
     (1, mk_element "cart-items" [] ["cart__contents"] "" false);
     (2, mk_element "div" [("data-gift-wrap-editor-row", "k1")] [] "" false);
     (3, mk_element "input"
           [("type", "checkbox"); ("data-gift-wrap-toggle-inline", "k1")] []
           "on" true);
     (4, mk_element "input"
           [("data-gift-wrap-field", "to"); ("data-item-key", "k1")] []
           " Bob " false);
     (5, mk_element "input"
           [("data-gift-wrap-field", "from"); ("data-item-key", "k1")] []
           "Ann" false);
     (6, mk_element "textarea"
           [("data-gift-wrap-field", "message"); ("data-item-key", "k1")] []
           "" false);
     (7, mk_element "div" [] ["gift-wrap-inline-editor__actions"] "" false);
     (8, mk_element "button" [("data-gift-wrap-update", "k1")] [] "" false);
     (9, mk_element "button" [("data-gift-wrap-cancel", "k1")] [] "" false);
     (10, mk_element "div" [] ["gift-wrap-inline-editor__error"] "" false);
     (11, mk_element "cart-drawer" [] [] "" false);
     (12, mk_element "div" [("data-gift-wrap-drawer", "k1")]
            ["cart-drawer__gift-wrap"] "" false);
     (13, mk_element "button" [("aria-expanded", "false")]
            ["cart-drawer__gift-wrap-toggle"] "" false);
     (14, mk_element "span" [] ["label-edit"] "" false);
     (15, mk_element "span" [] ["label-cancel"] "" false);
     (16, mk_element "div" [] ["cart-drawer__gift-wrap-display"] "" false);
     (17, mk_element "span" [] ["gift-wrap-to"] "" false);
     (18, mk_element "div" [] ["cart-drawer__gift-wrap-editor"] "" false);
     (19, mk_element "input" [("name", "gift_wrap_to")] [] "Bob" false);
     (20, mk_element "input" [("name", "gift_wrap_from")] [] "" false);
     (21, mk_element "textarea" [("name", "gift_wrap_message")] [] "" false);
     (22, mk_element "div" [] ["cart-drawer__gift-wrap-actions"] "" false);
     (23, mk_element "button" [] ["cart-drawer__gift-wrap-update"] "" false);
     (24, mk_element "div" [] ["cart-drawer__gift-wrap-error"] "" false)].

Definition cart_doc : document := Document cart_tree [] cart_elems 25 None.

(** The theme has [CartAPI.getCart] and the drawer can render itself. *)
Definition cart_env : window_env := WindowEnv (Present false) (Present false).

Definition cart : world := World cart_doc ∅ 0 [] [] [] [] false cart_env.

Definition k1 : option (list N) := Some (lit "k1").

(** The same cart with only spaces typed as the recipient. *)
Definition cart_blank : world :=
  with_doc (update_elem 4 (with_value (lit "  "))) cart.

(** The same cart with the inline toggle unchecked. *)
Definition cart_unchecked : world :=
  with_doc (update_elem 3 (with_checked false)) cart.

(** A refusal by the shop. *)
Definition http_500 : fetch_outcome := FetchResponse 500 BodyInvalid.

(** An acceptance by the shop. *)
Definition http_200 : fetch_outcome :=
  FetchResponse 200 (BodyJson (VObj [("item_count", VNum (Num 2))])).

(** ** Updating a line from the cart page *)

(** C23: an update whose recipient is not blank sends exactly one change
    request for the line, with [_GiftWrap] = Yes and the three texts as
    typed, trimmed; it leaves what the shopper typed in the fields; and it
    puts the button in its loading state. *)
Theorem update_sends_trimmed_fields itemKey updateButton w :
  live updateButton (doc w) → leaf updateButton (doc w) →
  truthy_string (gf_to (read_fields itemKey (doc w))) = true →
  ∃ w', runs (updateGiftWrap itemKey updateButton) w Pending w' ∧
        sent w' = sent w ++ [update_request itemKey (read_fields itemKey (doc w))] ∧
        inflight w' = inflight w ++ [(update_request itemKey (read_fields itemKey (doc w)),
                                      KUpdate itemKey updateButton)] ∧
        (∀ j, el_value <$> elems (doc w') !! j = el_value <$> elems (doc w) !! j) ∧
        el_disabled <$> elems (doc w') !! updateButton = Some true.
Proof.
  intros Hb Hleaf Hto. eexists. split; [by apply updateGiftWrap_sends|].
  split_and!; [apply (sent_app (with_doc _ w) (FxFetch _)) | done | intros j |].
  - simpl. unfold prepared. by rewrite value_errors_cleared, value_loading.
  - simpl. unfold prepared, errors_cleared, loading.
    destruct Hb as [_ [e He]]. destruct (querySelector _ _); cbv zeta;
      [destruct (querySelector_in _ _ _)|];
      rewrite ?elems_update_elem_proj, ?(elems_update_all_proj _ el_disabled),
        ?elems_set_textContent, ?(elems_update_elem_proj _ _ _ el_disabled)
        by done;
      by rewrite elems_update_elem_eq, He.
Qed.

Lemma update_sends_trimmed_fields_witness :
  ∃ w', runs (updateGiftWrap k1 8) cart Pending w' ∧
        sent w' = sent cart ++ [update_request k1 (read_fields k1 (doc cart))] ∧
        inflight w' = inflight cart ++ [(update_request k1 (read_fields k1 (doc cart)),
                                         KUpdate k1 8)] ∧
        (∀ j, el_value <$> elems (doc w') !! j = el_value <$> elems (doc cart) !! j) ∧
        el_disabled <$> elems (doc w') !! 8 = Some true.
Proof.
  apply update_sends_trimmed_fields;
    [apply (bool_decide_unpack _); vm_compute; exact I
    | apply (bool_decide_unpack _); vm_compute; exact I | reflexivity].
Defined.

(** C32: an update whose recipient is blank sends nothing: the row's
    error element shows "Recipient name is required" and is scheduled to
    hide five seconds later, the recipient field is focused, and what
    the shopper typed stays. *)
Theorem update_blank_recipient_refused itemKey updateButton errorEl toField w :
  live updateButton (doc w) → leaf updateButton (doc w) →
  querySelector (sel_in_row itemKey cls_error) (doc w) = Some errorEl →
  leaf errorEl (doc w) → updateButton ≠ errorEl →
  querySelector (sel_field (lit "to") itemKey) (doc w) = Some toField →
  truthy_string (gf_to (read_fields itemKey (doc w))) = false →
  ∃ w', runs (updateGiftWrap itemKey updateButton) w (Settled ()) w' ∧
        sent w' = sent w ∧ inflight w' = inflight w ∧
        textContent errorEl (doc w') = Some msg_recipient_required ∧
        "show" ∈ classes_of errorEl (doc w') ∧
        timers w' = timers w ++ [(5000%Z, CbErrorHide errorEl)] ∧
        focused (doc w') = Some toField ∧
        (∀ j, el_value <$> elems (doc w') !! j = el_value <$> elems (doc w) !! j).
Proof.
  intros Hb Hbl Hq Hleaf Hne Hto Hblank.
  eexists. split; [by eapply updateGiftWrap_blank|].
  pose proof (querySelector_live _ _ _ Hq) as He.
  set (w1 := flagged itemKey (lit "to") w).
  assert (live errorEl (doc w1) ∧ leaf errorEl (doc w1) ∧
          live updateButton (doc w1) ∧ leaf updateButton (doc w1))
    as (He1 & Hl1 & Hb1 & Hbl1) by (split_and!; by eauto with dom).
  rewrite doc_with_doc. split_and!.
  - apply sent_flagged.
  - apply inflight_flagged.
  - rewrite text_idle_ne by (destruct He1, Hb1; eauto with dom).
    destruct He1. by apply text_error_shown.
  - rewrite classes_idle by done. destruct He1. by apply classes_error_shown.
  - change (timers w1 ++ [(5000%Z, CbErrorHide errorEl)]
            = timers w ++ [(5000%Z, CbErrorHide errorEl)]).
    unfold w1. by rewrite timers_flagged.
  - rewrite focused_idle, focused_error_shown. by apply focused_flagged.
  - intros j. rewrite value_idle, value_error_shown. apply value_flagged.
Qed.

Lemma update_blank_recipient_refused_witness :
  ∃ w', runs (updateGiftWrap k1 8) cart_blank (Settled ()) w' ∧
        sent w' = sent cart_blank ∧ inflight w' = inflight cart_blank ∧
        textContent 10 (doc w') = Some msg_recipient_required ∧
        "show" ∈ classes_of 10 (doc w') ∧
        timers w' = timers cart_blank ++ [(5000%Z, CbErrorHide 10)] ∧
        focused (doc w') = Some 4 ∧
        (∀ j, el_value <$> elems (doc w') !! j
              = el_value <$> elems (doc cart_blank) !! j).
Proof.
  apply update_blank_recipient_refused;
    [apply (bool_decide_unpack _); vm_compute; exact I
    | apply (bool_decide_unpack _); vm_compute; exact I
    | reflexivity
    | apply (bool_decide_unpack _); vm_compute; exact I
    | discriminate | reflexivity..].
Defined.

(** The page once a failure message is shown in [errorEl] and the
    button is reset: the message and its class, the label, the button
    enabled, the values as they were. *)
Lemma update_failed_page updateButton errorEl message w :
  live updateButton (doc w) → leaf updateButton (doc w) →
  live errorEl (doc w) → leaf errorEl (doc w) → updateButton ≠ errorEl →
  let w' := with_doc (idle updateButton) (error_shown errorEl message w) in
  textContent errorEl (doc w') = Some message ∧
  "show" ∈ classes_of errorEl (doc w') ∧
  textContent updateButton (doc w') = Some (original_text updateButton (doc w)) ∧
  el_disabled <$> elems (doc w') !! updateButton = Some false ∧
  (∀ j, el_value <$> elems (doc w') !! j = el_value <$> elems (doc w) !! j).
Proof.
  intros Hb Hbl He Hleaf Hne w'.
  assert (live updateButton (doc (error_shown errorEl message w)) ∧
          leaf updateButton (doc (error_shown errorEl message w)))
    as [[Hb1 Hb2] Hbl1] by (split; by eauto with dom).
  unfold w'. rewrite doc_with_doc. split_and!.
  - rewrite text_idle_ne by eauto with dom. destruct He. by apply text_error_shown.
  - rewrite classes_idle by done. destruct He. by apply classes_error_shown.
  - rewrite text_idle by done. by rewrite original_text_error_shown.
  - by apply disabled_idle.
  - intros j. by rewrite value_idle, value_error_shown.
Qed.

(** C33: when the update fails (the request is rejected, the response is
    not a success, or its body is not JSON) the row's error element
    shows "Failed to update gift wrap. Please try again." and is
    scheduled to hide five seconds later; the button is enabled again
    with its original label; what the shopper typed stays; nothing is
    sent. *)
Theorem update_failure_shows_message itemKey updateButton errorEl o err w :
  live updateButton (doc w) → leaf updateButton (doc w) →
  querySelector (sel_in_row itemKey cls_error) (doc w) = Some errorEl →
  leaf errorEl (doc w) → updateButton ≠ errorEl →
  update_failure o = Some err →
  ∃ w', runs (updateGiftWrap_resume itemKey updateButton o) w () w' ∧
        textContent errorEl (doc w') = Some msg_update_failed ∧
        "show" ∈ classes_of errorEl (doc w') ∧
        timers w' = timers w ++ [(5000%Z, CbErrorHide errorEl)] ∧
        textContent updateButton (doc w') = Some (original_text updateButton (doc w)) ∧
        el_disabled <$> elems (doc w') !! updateButton = Some false ∧
        (∀ j, el_value <$> elems (doc w') !! j = el_value <$> elems (doc w) !! j) ∧
        sent w' = sent w.
Proof.
  intros Hb Hbl Hq Hleaf Hne Ho.
  eexists. split; [by eapply updateGiftWrap_resume_fails|].
  pose proof (querySelector_live _ _ _ Hq) as He.
  set (w1 := with_trace _ w).
  destruct (update_failed_page updateButton errorEl msg_update_failed w1)
    as (Ht & Hs & Hb' & Hd & Hv); [done..|].
  split_and!; [done.. |].
  change (sent w1 = sent w). unfold w1. by rewrite sent_app, app_nil_r.
Qed.

(** The cart while the update of [k1] is on its way. *)
Definition cart_updating : world :=
  default cart (outcome_world (updateGiftWrap k1 8 cart)).

Lemma update_failure_shows_message_witness :
  ∃ w', runs (updateGiftWrap_resume k1 8 http_500) cart_updating () w' ∧
        textContent 10 (doc w') = Some msg_update_failed ∧
        "show" ∈ classes_of 10 (doc w') ∧
        timers w' = timers cart_updating ++ [(5000%Z, CbErrorHide 10)] ∧
        textContent 8 (doc w') = Some (original_text 8 (doc cart_updating)) ∧
        el_disabled <$> elems (doc w') !! 8 = Some false ∧
        (∀ j, el_value <$> elems (doc w') !! j
              = el_value <$> elems (doc cart_updating) !! j) ∧
        sent w' = sent cart_updating.
Proof.
  apply (update_failure_shows_message k1 8 10 http_500
           (ErrorOf (VStr (lit "Failed to update gift wrap"))));
    [apply (bool_decide_unpack _); vm_compute; exact I
    | apply (bool_decide_unpack _); vm_compute; exact I
    | reflexivity
    | apply (bool_decide_unpack _); vm_compute; exact I
    | discriminate | reflexivity].
Defined.


(** C34: when the update goes through, the button is given the success
    colour and the timer that reverts it after two seconds is set, the
    cart is refreshed (through [CartAPI.getCart] when the theme has it,
    by reloading the page otherwise), and the [finally] that ends the
    method puts the original label back at once: when the method
    returns, the button reads its original label. *)
Theorem update_success_resets_label itemKey updateButton o w :
  live updateButton (doc w) → leaf updateButton (doc w) →
  update_failure o = None → env_getCart (env w) ≠ Present true →
  ∃ w', runs (updateGiftWrap_resume itemKey updateButton o) w () w' ∧
        textContent updateButton (doc w') = Some (original_text updateButton (doc w)) ∧
        style_of "background" <$> elems (doc w') !! updateButton = Some color_success ∧
        timers w' = timers w ++ [(2000%Z, CbSuccessRevert updateButton
                                            (original_text updateButton (doc w)))] ∧
        actions w' = actions w ++ [match env_getCart (env w) with
                                   | Absent => FxReload
                                   | Present _ => FxGetCart
                                   end] ∧
        (∀ j, el_value <$> elems (doc w') !! j = el_value <$> elems (doc w) !! j) ∧
        sent w' = sent w.
Proof.
  intros Hb Hbl Ho Henv.
  eexists. split; [by apply updateGiftWrap_resume_succeeds|].
  assert (live updateButton (doc (success_shown updateButton w)) ∧
          leaf updateButton (doc (success_shown updateButton w)))
    as [[Hb1 Hb2] Hbl1]
    by (split; [by apply live_success_shown | by apply leaf_success_shown]).
  rewrite doc_with_doc. change (doc (refreshed ?x)) with (doc x). split_and!.
  - rewrite text_idle by done. by rewrite original_text_success_shown.
  - unfold idle. rewrite elems_set_textContent, !elems_update_elem_proj by done.
    rewrite doc_success_shown, elems_update_elem_eq, elems_set_textContent.
    destruct Hb as [_ [e ->]]. simpl. unfold style_of. simpl.
    by rewrite lookup_insert_eq.
  - done.
  - change (actions (with_doc ?f ?x)) with (actions x). unfold refreshed.
    rewrite actions_app. change (env (success_shown _ w)) with (env w).
    by destruct (env_getCart (env w)).
  - intros j. by rewrite value_idle, value_success_shown.
  - change (sent (with_doc ?f ?x)) with (sent x). unfold refreshed.
    rewrite sent_app. change (env (success_shown _ w)) with (env w).
    destruct (env_getCart (env w)); apply app_nil_r.
Qed.

Lemma update_success_resets_label_witness :
  ∃ w', runs (updateGiftWrap_resume k1 8 http_200) cart_updating () w' ∧
        textContent 8 (doc w') = Some (original_text 8 (doc cart_updating)) ∧
        style_of "background" <$> elems (doc w') !! 8 = Some color_success ∧
        timers w' = timers cart_updating
                    ++ [(2000%Z, CbSuccessRevert 8 (original_text 8 (doc cart_updating)))] ∧
        actions w' = actions cart_updating ++ [FxGetCart] ∧
        (∀ j, el_value <$> elems (doc w') !! j
              = el_value <$> elems (doc cart_updating) !! j) ∧
        sent w' = sent cart_updating.
Proof.
  apply (update_success_resets_label k1 8 http_200 cart_updating);
    [apply (bool_decide_unpack _); vm_compute; exact I
    | apply (bool_decide_unpack _); vm_compute; exact I
    | reflexivity | discriminate].
Defined.

(** C37: loading a button and resetting it is a round trip on its label:
    after both the button reads what it read before, or "Update" when it
    read nothing, and it is enabled and no longer marked as loading. *)
Theorem loading_then_idle_restores_label button d s :
  live button d → leaf button d → textContent button d = Some s →
  textContent button (idle button (loading button d))
  = Some (if truthy_string s then s else lit "Update") ∧
  el_disabled <$> elems (idle button (loading button d)) !! button = Some false ∧
  "loading" ∉ classes_of button (idle button (loading button d)).
Proof.
  intros [Hatt Hel] Hleaf Hs.
  assert (live button (loading button d) ∧ leaf button (loading button d))
    as [[Hatt1 [e1 He1]] Hleaf1]
    by (split; [by apply live_loading | by apply leaf_loading]).
  split_and!.
  - rewrite text_idle by done. by rewrite (original_text_loading button d s).
  - apply disabled_idle. by exists e1.
  - unfold classes_of, idle.
    rewrite elems_set_textContent, elems_update_elem_eq, elems_update_elem_eq, He1.
    simpl. set_solver.
Qed.

Lemma loading_then_idle_restores_label_witness :
  textContent 8 (idle 8 (loading 8 cart_doc)) = Some (lit "Save") ∧
  el_disabled <$> elems (idle 8 (loading 8 cart_doc)) !! 8 = Some false ∧
  "loading" ∉ classes_of 8 (idle 8 (loading 8 cart_doc)).
Proof.
  apply (loading_then_idle_restores_label 8 cart_doc (lit "Save"));
    [apply (bool_decide_unpack _); vm_compute; exact I
    | apply (bool_decide_unpack _); vm_compute; exact I | reflexivity].
Defined.

(** ** Removing a line *)

(** C27: unchecking the inline toggle of the line [K] sends exactly one
    change request, [{id: K, quantity: 0}], and touches nothing on the
    page. *)
Theorem uncheck_sends_removal target e K w :
  elems (doc w) !! target = Some e →
  matches target (sel_attr "data-gift-wrap-toggle-inline") (doc w) = true →
  getAttribute "data-gift-wrap-toggle-inline" e = Some K →
  el_checked e = false →
  ∃ w', runs (handleCartSectionChange target) w () w' ∧
        sent w' = sent w
                  ++ [post_json "/cart/change.js"
                        (VObj [("id", VStr K); ("quantity", VNum (Num 0))])] ∧
        inflight w' = inflight w ++ [(remove_request (Some K), KRemove (Some K))] ∧
        doc w' = doc w.
Proof.
  intros He Hm HK Hc. eexists.
  split; [by eapply handleCartSectionChange_removes|].
  rewrite HK. split_and!; [|done..]. apply (sent_app w (FxFetch _)).
Qed.

Lemma uncheck_sends_removal_witness :
  ∃ w', runs (handleCartSectionChange 3) cart_unchecked () w' ∧
        sent w' = sent cart_unchecked
                  ++ [post_json "/cart/change.js"
                        (VObj [("id", VStr (lit "k1")); ("quantity", VNum (Num 0))])] ∧
        inflight w' = inflight cart_unchecked
                      ++ [(remove_request k1, KRemove k1)] ∧
        doc w' = doc cart_unchecked.
Proof.
  apply (uncheck_sends_removal 3
           (with_checked false
              (mk_element "input"
                 [("type", "checkbox"); ("data-gift-wrap-toggle-inline", "k1")] []
                 "on" true)));
    reflexivity.
Defined.

(** C35: when the removal fails (the request is rejected or the
    response is not a success) the toggle of the line is checked again;
    the cart is not refreshed and nothing is sent. *)
Theorem remove_failure_rechecks itemKey checkbox o err w :
  remove_failure o = Some err →
  querySelector (sel_toggle_inline itemKey) (doc w) = Some checkbox →
  ∃ w', runs (removeGiftWrap_resume itemKey o) w () w' ∧
        el_checked <$> elems (doc w') !! checkbox = Some true ∧
        sent w' = sent w ∧ actions w' = actions w.
Proof.
  intros Ho Hq. eexists. split; [by apply removeGiftWrap_resume_fails|].
  unfold rechecked. change (doc (with_trace _ w)) with (doc w). rewrite Hq.
  destruct (querySelector_has_elem _ _ _ Hq) as [e He]. split_and!.
  - rewrite doc_with_doc, elems_update_elem_eq.
    change (doc (with_trace _ w)) with (doc w). by rewrite He.
  - change (sent (with_doc ?f ?x)) with (sent x). by rewrite sent_app, app_nil_r.
  - change (actions (with_doc ?f ?x)) with (actions x).
    by rewrite actions_app, app_nil_r.
Qed.

Lemma remove_failure_rechecks_witness :
  ∃ w', runs (removeGiftWrap_resume k1 http_500) cart_unchecked () w' ∧
        el_checked <$> elems (doc w') !! 3 = Some true ∧
        sent w' = sent cart_unchecked ∧ actions w' = actions cart_unchecked.
Proof.
  apply (remove_failure_rechecks k1 3 http_500
           (ErrorOf (VStr (lit "Failed to remove gift wrap"))));
    reflexivity.
Defined.

(** C36: cancelling an edit is removing the line: a click on the cancel
    button of the line [K] prevents the default action and sends
    [{id: K, quantity: 0}]. *)
Theorem cancel_sends_removal target e K w :
  elems (doc w) !! target = Some e →
  matches target (sel_attr "data-gift-wrap-update") (doc w) = false →
  matches target (sel_attr "data-gift-wrap-cancel") (doc w) = true →
  getAttribute "data-gift-wrap-cancel" e = Some K →
  ∃ w', runs (handleCartSectionClick target) w () w' ∧
        sent w' = sent w ++ [remove_request (Some K)] ∧
        prevented w' = true ∧ doc w' = doc w.
Proof.
  intros He Hu Hc HK. eexists.
  split; [by eapply handleCartSectionClick_cancel|].
  rewrite HK. split_and!; [|done..].
  apply (sent_app (with_prevented true w) (FxFetch _)).
Qed.

Lemma cancel_sends_removal_witness :
  ∃ w', runs (handleCartSectionClick 9) cart () w' ∧
        sent w' = sent cart ++ [remove_request k1] ∧
        prevented w' = true ∧ doc w' = doc cart.
Proof.
  apply (cancel_sends_removal 9
           (mk_element "button" [("data-gift-wrap-cancel", "k1")] [] "" false));
    reflexivity.
Defined.

(** ** The drawer *)

(** C28: an update from the drawer never reaches the shop.  Whatever
    the shopper typed, a click on the update button of a container
    with an item key sends no request and ends with "Failed to update
    gift wrap. Please try again." in the container's error element:
    the first line of the [try] block reads a constant that the block
    declares further down. *)
Theorem drawer_update_always_fails updateButton giftWrapContainer errorEl e w :
  live updateButton (doc w) → leaf updateButton (doc w) →
  closest updateButton (sel_class cls_container) (doc w) = Some giftWrapContainer →
  elems (doc w) !! giftWrapContainer = Some e →
  truthy (of_option (getAttribute "data-gift-wrap-drawer" e)) = true →
  querySelector_in giftWrapContainer (sel_class cls_drawer_error) (doc w)
  = Some errorEl →
  leaf errorEl (doc w) → updateButton ≠ errorEl →
  ∃ w', runs (updateCartDrawerGiftWrap updateButton) w (Settled ()) w' ∧
        sent w' = sent w ∧ inflight w' = inflight w ∧
        textContent errorEl (doc w') = Some msg_update_failed ∧
        style_of "display" <$> elems (doc w') !! errorEl = Some (lit "block") ∧
        timers w' = timers w ++ [(5000%Z, CbDrawerErrorHide errorEl)] ∧
        (∀ j, el_value <$> elems (doc w') !! j = el_value <$> elems (doc w) !! j).
Proof.
  intros Hb Hbl Hc He Hkey Hq Hleaf Hne.
  eexists. split; [by eapply updateCartDrawerGiftWrap_runs|].
  pose proof (querySelector_in_live _ _ _ _ Hq) as [Hatt Hel].
  unfold drawer_update_failed. set (w1 := with_trace _ w).
  pose proof (live_after_drawer_error updateButton giftWrapContainer errorEl w
                Hb Hq Hleaf (ReferenceError "giftWrapContainer")) as [Hb1 Hb2].
  fold w1 in Hb1, Hb2.
  assert (leaf updateButton (doc (drawer_error_shown errorEl msg_update_failed w1)))
    as Hbl1 by by apply leaf_drawer_error_shown.
  assert (leaf errorEl (doc (drawer_error_shown errorEl msg_update_failed w1)))
    as Hl1 by by apply leaf_drawer_error_shown.
  rewrite doc_with_doc. split_and!.
  - change (sent w1 = sent w). unfold w1. by rewrite sent_app, app_nil_r.
  - done.
  - rewrite text_idle_ne by done. by apply text_drawer_error_shown.
  - rewrite style_idle. by apply display_drawer_error_shown.
  - done.
  - intros j. by rewrite value_idle, value_drawer_error_shown.
Qed.

Lemma drawer_update_always_fails_witness :
  ∃ w', runs (updateCartDrawerGiftWrap 23) cart (Settled ()) w' ∧
        sent w' = sent cart ∧ inflight w' = inflight cart ∧
        textContent 24 (doc w') = Some msg_update_failed ∧
        style_of "display" <$> elems (doc w') !! 24 = Some (lit "block") ∧
        timers w' = timers cart ++ [(5000%Z, CbDrawerErrorHide 24)] ∧
        (∀ j, el_value <$> elems (doc w') !! j = el_value <$> elems (doc cart) !! j).
Proof.
  apply (drawer_update_always_fails 23 12 24
           (mk_element "div" [("data-gift-wrap-drawer", "k1")]
              ["cart-drawer__gift-wrap"] "" false));
    [apply (bool_decide_unpack _); vm_compute; exact I
    | apply (bool_decide_unpack _); vm_compute; exact I
    | reflexivity | reflexivity | reflexivity | reflexivity
    | apply (bool_decide_unpack _); vm_compute; exact I
    | discriminate].
Defined.
