(* ===== verification/PageSafe.v ===== *)
(** * PageSafe: no handler of the scripts fails on a page

    Every function of the two scripts, run on a good page ([Safe.good])
    with the elements it holds alive, keeps the page good.  The functions
    whose text is inside no [try] that may throw are shown at [t = false];
    every listener, timer callback and continuation is shown at
    [t = true]: it returns.  So what the browser runs ([Dispatch]) never
    reports an exception, on any page and for any sequence of events whose
    targets are elements of the page.

    The proofs follow the text of each function by [safe_go]. *)

From stdpp Require Import gmap strings.
From S2P Require Import Prelude JsString JsValue Dom DomTrees Closures Runtime Safe.
From S2P Require Import AddTime CartPage CartDrawer Dispatch AddTimeSpec.

(** ** What a browser event may target *)

(** The target of a user's event is an element of the page. *)
Definition input_ok (w : world) (i : input) : Prop :=
  match i with
  | Click target | Change target _ | Input target _ | Submit target =>
      live target (doc w)
  | Loaded _ | Settle _ _ | Fire _ => True
  end.

(** A page before any script has run. *)
Record fresh (w : world) : Prop := {
  fresh_doc : doc_wf (doc w);
  fresh_listeners : listeners w = [];
  fresh_timers : timers w = [];
  fresh_inflight : inflight w = [];
  fresh_trace : trace w = [];
}.

(** ** What is valid of a target and of a callback *)

#[export] Instance valid_target : Valid target := plain_valid _.

#[export] Program Instance valid_callback : Valid callback :=
  {| valid := λ cb w, lives w (callback_ids cb) |}.
Next Obligation. intros cb w w' He. by apply lives_ext. Qed.

(** ** A product page, loaded and used

    The page of [AddTimeSpec] once both scripts have run; the shopper
    checks the box and submits, and the shop refuses the request. *)

Definition sample_booted : world := (boot sample_world).2.

Definition sample_inputs : list input :=
  [Loaded "DOMContentLoaded"; Change 5 true; Submit 1; Settle 0 sample_422].

Definition sample_served : world :=
  default sample_booted (page_exec sample_booted sample_inputs).

(** * Properties *)

(** ** The add-time controller *)

Section GiftWrapSafe.
Context (c : gw_instance).
Implicit Types w : world.

Lemma safe_gw_showError t m w :
  good w → lives w (instance_ids c) → safe t (GiftWrap.showError c m) w.
Proof. unfold GiftWrap.showError. safe_go. Qed.

Lemma safe_gw_hideError t w :
  good w → lives w (instance_ids c) → safe t (GiftWrap.hideError c) w.
Proof. unfold GiftWrap.hideError. safe_go. Qed.

Lemma safe_trimmed_value t scope sel w :
  good w → live scope (doc w) → safe t (GiftWrap.trimmed_value scope sel) w.
Proof. unfold GiftWrap.trimmed_value. safe_go. Qed.

Lemma safe_value_of t scope sel w :
  good w → live scope (doc w) → safe t (GiftWrap.value_of scope sel) w.
Proof. unfold GiftWrap.value_of. safe_go. Qed.

Hint Resolve safe_gw_showError safe_gw_hideError safe_trimmed_value
  safe_value_of : safe.

Lemma safe_setExpanded t b w :
  good w → lives w (instance_ids c) → safe t (GiftWrap.setExpanded c b) w.
Proof. unfold GiftWrap.setExpanded. safe_go. Qed.

Lemma safe_addProductsToCart_catch t e w :
  good w → lives w (instance_ids c) →
  safe t (GiftWrap.addProductsToCart_catch c e) w.
Proof. unfold GiftWrap.addProductsToCart_catch. safe_go. Qed.

Hint Resolve safe_setExpanded safe_addProductsToCart_catch : safe.

Lemma safe_addProductsToCart t w :
  good w → lives w (instance_ids c) → safe t (GiftWrap.addProductsToCart c) w.
Proof. unfold GiftWrap.addProductsToCart. safe_go. Qed.

Lemma safe_addProductsToCart_resume t o w :
  good w → lives w (instance_ids c) →
  safe t (GiftWrap.addProductsToCart_resume c o) w.
Proof. unfold GiftWrap.addProductsToCart_resume. safe_go. Qed.

Lemma safe_onChange t w :
  good w → lives w (instance_ids c) → safe t (GiftWrap.onChange c) w.
Proof. unfold GiftWrap.onChange. safe_go. Qed.

Lemma safe_onSubmit_catch t e w : good w → safe t (GiftWrap.onSubmit_catch c e) w.
Proof. unfold GiftWrap.onSubmit_catch. safe_go. Qed.

Lemma safe_onSubmit_finish t b w : good w → safe t (GiftWrap.onSubmit_finish c b) w.
Proof. unfold GiftWrap.onSubmit_finish. safe_go. Qed.

Hint Resolve safe_addProductsToCart safe_addProductsToCart_resume
  safe_onSubmit_catch safe_onSubmit_finish : safe.

Lemma safe_onSubmit t w :
  good w → lives w (instance_ids c) → safe t (GiftWrap.onSubmit c) w.
Proof. unfold GiftWrap.onSubmit. safe_go. Qed.

Lemma safe_onSubmit_resume t o w :
  good w → lives w (instance_ids c) → safe t (GiftWrap.onSubmit_resume c o) w.
Proof. unfold GiftWrap.onSubmit_resume. safe_go. Qed.

End GiftWrapSafe.

#[export] Hint Resolve safe_setExpanded safe_onChange safe_onSubmit
  safe_onSubmit_resume : safe.

Lemma safe_initializeGiftWrap t w : good w → safe t GiftWrap.initializeGiftWrap w.
Proof. unfold GiftWrap.initializeGiftWrap. safe_go. Qed.

Lemma safe_gw_main t w : good w → safe t GiftWrap.main w.
Proof. unfold GiftWrap.main. safe_go. Qed.

#[export] Hint Resolve safe_initializeGiftWrap safe_gw_main : safe.

(** ** The editor of the cart page *)

Section EditorSafe.
Context (itemKey : option (list N)).
Implicit Types w : world.

Lemma safe_field_text t field w :
  good w → valid field w → safe t (Editor.field_text field) w.
Proof. unfold Editor.field_text. safe_go. Qed.

Hint Resolve safe_field_text : safe.

Lemma safe_getGiftWrapFields t w : good w → safe t (Editor.getGiftWrapFields itemKey) w.
Proof. unfold Editor.getGiftWrapFields. safe_go. Qed.

Lemma safe_setLoadingState t button loading w :
  good w → live button (doc w) → safe t (Editor.setLoadingState button loading) w.
Proof. unfold Editor.setLoadingState. safe_go. Qed.

Lemma safe_showSuccess t button w :
  good w → live button (doc w) → safe t (Editor.showSuccess button) w.
Proof. unfold Editor.showSuccess. safe_go. Qed.

Lemma safe_onSuccessRevert t button originalText w :
  good w → live button (doc w) →
  safe t (Editor.onSuccessRevert button originalText) w.
Proof. unfold Editor.onSuccessRevert. safe_go. Qed.

Lemma safe_showError t message w : good w → safe t (Editor.showError itemKey message) w.
Proof. unfold Editor.showError. safe_go. Qed.

Lemma safe_onErrorHide t errorEl w :
  good w → live errorEl (doc w) → safe t (Editor.onErrorHide errorEl) w.
Proof. unfold Editor.onErrorHide. safe_go. Qed.

Hint Resolve safe_showError : safe.

Lemma safe_showFieldError t fieldName message w :
  good w → safe t (Editor.showFieldError itemKey fieldName message) w.
Proof. unfold Editor.showFieldError. safe_go. Qed.

Lemma safe_onFieldInput t field w :
  good w → live field (doc w) → safe t (Editor.onFieldInput field) w.
Proof. unfold Editor.onFieldInput. safe_go. Qed.

Lemma safe_clearErrors t w : good w → safe t (Editor.clearErrors itemKey) w.
Proof. unfold Editor.clearErrors. safe_go. Qed.

(** [window.CartAPI.getCart] is code of the page: it may throw. *)
Lemma safe_refreshCartUI w : good w → safe false Editor.refreshCartUI w.
Proof. unfold Editor.refreshCartUI. safe_go. Qed.

Lemma safe_updateGiftWrap_catch t error w :
  good w → safe t (Editor.updateGiftWrap_catch itemKey error) w.
Proof. unfold Editor.updateGiftWrap_catch. safe_go. Qed.

Hint Resolve safe_getGiftWrapFields safe_setLoadingState safe_showSuccess
  safe_showFieldError safe_clearErrors safe_refreshCartUI
  safe_updateGiftWrap_catch : safe.

Lemma safe_updateGiftWrap t updateButton w :
  good w → live updateButton (doc w) →
  safe t (Editor.updateGiftWrap itemKey updateButton) w.
Proof. unfold Editor.updateGiftWrap. safe_go. Qed.

Lemma safe_updateGiftWrap_resume t updateButton o w :
  good w → live updateButton (doc w) →
  safe t (Editor.updateGiftWrap_resume itemKey updateButton o) w.
Proof. unfold Editor.updateGiftWrap_resume. safe_go. Qed.

Lemma safe_removeGiftWrap_catch t error w :
  good w → safe t (Editor.removeGiftWrap_catch itemKey error) w.
Proof. unfold Editor.removeGiftWrap_catch. safe_go. Qed.

Hint Resolve safe_removeGiftWrap_catch : safe.

Lemma safe_removeGiftWrap t w : good w → safe t (Editor.removeGiftWrap itemKey) w.
Proof. unfold Editor.removeGiftWrap. safe_go. Qed.

Lemma safe_removeGiftWrap_resume t o w :
  good w → safe t (Editor.removeGiftWrap_resume itemKey o) w.
Proof. unfold Editor.removeGiftWrap_resume. safe_go. Qed.

Lemma safe_cancelGiftWrap t w : good w → safe t (Editor.cancelGiftWrap itemKey) w.
Proof. apply safe_removeGiftWrap. Qed.

End EditorSafe.

#[export] Hint Resolve safe_field_text safe_setLoadingState safe_showSuccess
  safe_onSuccessRevert safe_onErrorHide safe_onFieldInput safe_updateGiftWrap
  safe_updateGiftWrap_resume safe_removeGiftWrap safe_removeGiftWrap_resume
  safe_cancelGiftWrap : safe.

Lemma safe_handleCartSectionClick t target w :
  good w → live target (doc w) → safe t (Editor.handleCartSectionClick target) w.
Proof. unfold Editor.handleCartSectionClick. safe_go. Qed.

Lemma safe_handleCartSectionChange t target w :
  good w → live target (doc w) → safe t (Editor.handleCartSectionChange target) w.
Proof. unfold Editor.handleCartSectionChange. safe_go. Qed.

Lemma safe_bindEvents t w : good w → safe t Editor.bindEvents w.
Proof. unfold Editor.bindEvents. safe_go. Qed.

Lemma safe_unbindEvents t w : good w → safe t Editor.unbindEvents w.
Proof. unfold Editor.unbindEvents. safe_go. Qed.

#[export] Hint Resolve safe_handleCartSectionClick safe_handleCartSectionChange
  safe_bindEvents safe_unbindEvents : safe.

Lemma safe_constructor t w : good w → safe t Editor.constructor w.
Proof. unfold Editor.constructor, Editor.init. safe_go. Qed.

#[export] Hint Resolve safe_constructor : safe.

(** ** The editor of the cart drawer *)

Section DrawerSafe.
Implicit Types w : world.

Lemma safe_style_if t el p v w :
  good w → valid el w → safe t (Drawer.style_if el p v) w.
Proof. unfold Drawer.style_if. safe_go. Qed.

Lemma safe_text_if t span s w :
  good w → valid span w → safe t (Drawer.text_if span s) w.
Proof. unfold Drawer.text_if. safe_go. Qed.

Lemma safe_uninitialised {A} `{Valid A} name w :
  good w → safe false (Drawer.uninitialised name : js A) w.
Proof. apply safe_throw. Qed.

Hint Resolve safe_style_if safe_text_if safe_uninitialised : safe.

Lemma safe_toggleCartDrawerEditor t toggleButton w :
  good w → live toggleButton (doc w) →
  safe t (Drawer.toggleCartDrawerEditor toggleButton) w.
Proof. unfold Drawer.toggleCartDrawerEditor. safe_go. Qed.

Lemma safe_showCartDrawerEditor t editButton w :
  good w → live editButton (doc w) →
  safe t (Drawer.showCartDrawerEditor editButton) w.
Proof. unfold Drawer.showCartDrawerEditor. safe_go. Qed.

Lemma safe_hideCartDrawerEditor t cancelButton w :
  good w → live cancelButton (doc w) →
  safe t (Drawer.hideCartDrawerEditor cancelButton) w.
Proof. unfold Drawer.hideCartDrawerEditor. safe_go. Qed.

Lemma safe_updateCartDrawerDisplay t container fields w :
  good w → live container (doc w) →
  safe t (Drawer.updateCartDrawerDisplay container fields) w.
Proof. unfold Drawer.updateCartDrawerDisplay. safe_go. Qed.

Lemma safe_showCartDrawerError t container message w :
  good w → live container (doc w) →
  safe t (Drawer.showCartDrawerError container message) w.
Proof. unfold Drawer.showCartDrawerError. safe_go. Qed.

Lemma safe_onDrawerErrorHide t errorEl w :
  good w → live errorEl (doc w) → safe t (Drawer.onDrawerErrorHide errorEl) w.
Proof. unfold Drawer.onDrawerErrorHide. safe_go. Qed.

Lemma safe_clearCartDrawerErrors t container w :
  good w → live container (doc w) →
  safe t (Drawer.clearCartDrawerErrors container) w.
Proof. unfold Drawer.clearCartDrawerErrors. safe_go. Qed.

Hint Resolve safe_showCartDrawerError safe_updateCartDrawerDisplay
  safe_clearCartDrawerErrors : safe.

Lemma safe_updateCartDrawerGiftWrap_catch t container error w :
  good w → live container (doc w) →
  safe t (Drawer.updateCartDrawerGiftWrap_catch container error) w.
Proof. unfold Drawer.updateCartDrawerGiftWrap_catch. safe_go. Qed.

(** Line 372 reads a property of what [closest] returned, and
    [renderContents] is code of the page: both may throw. *)
Lemma safe_collapse_after_update updateButton w :
  good w → live updateButton (doc w) →
  safe false (Drawer.collapse_after_update updateButton) w.
Proof. unfold Drawer.collapse_after_update. safe_go. Qed.

Hint Resolve safe_updateCartDrawerGiftWrap_catch safe_collapse_after_update : safe.

Lemma safe_updateCartDrawerGiftWrap t updateButton w :
  good w → live updateButton (doc w) →
  safe t (Drawer.updateCartDrawerGiftWrap updateButton) w.
Proof. unfold Drawer.updateCartDrawerGiftWrap. safe_go. Qed.

Lemma safe_updateCartDrawerGiftWrap_resume t container updateButton fields o w :
  good w → live container (doc w) → live updateButton (doc w) →
  safe t (Drawer.updateCartDrawerGiftWrap_resume container updateButton fields o) w.
Proof. unfold Drawer.updateCartDrawerGiftWrap_resume. safe_go. Qed.

Hint Resolve safe_toggleCartDrawerEditor safe_updateCartDrawerGiftWrap : safe.

Lemma safe_handleCartDrawerClick t target w :
  good w → live target (doc w) → safe t (Drawer.handleCartDrawerClick target) w.
Proof. unfold Drawer.handleCartDrawerClick. safe_go. Qed.

Lemma safe_handleCartDrawerChange t target w :
  good w → live target (doc w) → safe t (Drawer.handleCartDrawerChange target) w.
Proof. unfold Drawer.handleCartDrawerChange. safe_go. Qed.

End DrawerSafe.

#[export] Hint Resolve safe_onDrawerErrorHide safe_updateCartDrawerGiftWrap_resume
  safe_handleCartDrawerClick safe_handleCartDrawerChange : safe.

(** ** What the browser runs *)

Lemma safe_with_target t target h w :
  is_Some target → valid target w →
  (∀ x, live x (doc w) → safe t (h x) w) →
  safe t (with_target target h) w.
Proof. intros [x ->] Hv Hh. by apply Hh. Qed.

(** A listener or a timer callback returns. *)
Lemma safe_run_callback t cb target w :
  good w → lives w (callback_ids cb) → valid target w →
  (needs_target cb = true → is_Some target) →
  safe t (run_callback cb target) w.
Proof.
  intros Hg Hl Hv Ht.
  destruct cb; simpl in *; try (apply safe_with_target; [by apply Ht | done |]);
    safe_go.
Qed.

(** The rest of an [async] function returns. *)
Lemma safe_run_continuation t k o w :
  good w → lives w (continuation_ids k) → safe t (run_continuation k o) w.
Proof. intros Hg Hl. destruct k; simpl in *; safe_go. Qed.

Lemma safe_boot t w : good w → safe t boot w.
Proof. unfold boot. safe_go. Qed.

Lemma safe_invoke_all t cbs target w :
  good w → valid cbs w → valid target w →
  Forall (λ cb, needs_target cb = true → is_Some target) cbs →
  safe t (invoke_all cbs target) w.
Proof.
  intros Hg Hcbs Hv Ht. unfold invoke_all.
  eapply safe_for_each_in; [done.. |].
  intros cb w1 Hcb Hf Hl. apply safe_spawn, safe_run_callback; [by destruct Hf|done| |done].
  eapply valid_ext; [by destruct Hf | done].
Qed.

(** *** The listeners an event reaches *)

Lemma Forall_List_filter {A} (P : A → Prop) f (l : list A) :
  Forall P l → Forall P (List.filter f l).
Proof.
  intros Hl. apply Forall_forall. intros x Hx%list_elem_of_In%filter_In.
  rewrite Forall_forall in Hl. apply Hl, list_elem_of_In, Hx.
Qed.

Lemma lives_bind {A} (f : A → list nat) (l : list A) w :
  lives w (l ≫= f) ↔ Forall (λ a, lives w (f a)) l.
Proof. apply Forall_bind. Qed.

Lemma lives_app w l1 l2 : lives w (l1 ++ l2) ↔ lives w l1 ∧ lives w l2.
Proof. apply Forall_app. Qed.

Lemma good_listener_ids w :
  good w → Forall (λ l, lives w (listener_ids l)) (listeners w).
Proof.
  intros Hg. apply lives_bind. by apply (lives_refs w), good_refs.
Qed.

Lemma valid_listeners_for tg type w : good w → valid (listeners_for tg type w) w.
Proof.
  intros Hg. apply Forall_fmap, Forall_List_filter.
  eapply Forall_impl; [by apply good_listener_ids|].
  intros l Hl. by apply lives_app in Hl as [_ Hl].
Qed.

(** A delegated listener is on an element. *)
Lemma listeners_for_document type w :
  good w →
  Forall (λ cb, needs_target cb = true → is_Some (@None nat))
    (listeners_for OnDocument type w).
Proof.
  intros Hg. apply Forall_fmap, Forall_forall.
  intros l [Hl Hon]%list_elem_of_In%filter_In Hneeds. exfalso.
  pose proof (good_listeners _ Hg) as Hok. rewrite Forall_forall in Hok.
  apply (Hok l); [by apply list_elem_of_In | done |].
  unfold listens in Hon. apply andb_prop in Hon as [Hon _].
  by apply bool_decide_eq_true in Hon.
Qed.

(** *** Removing listeners, requests and timers keeps a page good *)

Lemma fine_filter_listeners f w : good w → fine w (with_listeners (List.filter f) w).
Proof.
  intros Hg. pose proof (good_listener_ids w Hg) as Hids.
  destruct Hg as [H1 H2 H3 H4 H5]. split; [|by apply ext_same].
  split; [done | | by apply Forall_List_filter | done..].
  apply lives_refs in H2 as (? & ? & ?). apply lives_refs. split_and!; [done..|].
  by apply lives_bind, Forall_List_filter.
Qed.

Lemma fine_drop_once tg type w : good w → fine w (drop_once tg type w).
Proof. apply fine_filter_listeners. Qed.

Lemma fine_delete_inflight i w : good w → fine w (with_inflight (delete i) w).
Proof.
  intros [H1 H2 H3 H4 H5]. split; [|by apply ext_same]. split; [done | | done..].
  apply lives_refs in H2 as (? & ? & ?). apply lives_refs. split_and!; [done| |done].
  by apply lives_bind, Forall_delete, lives_bind.
Qed.

Lemma fine_delete_timer i w : good w → fine w (with_timers (delete i) w).
Proof.
  intros [H1 H2 H3 H4 H5]. split; [|by apply ext_same].
  split; [done | | done.. | by apply Forall_delete].
  apply lives_refs in H2 as (? & ? & ?). apply lives_refs. split_and!; [|done..].
  by apply lives_bind, Forall_delete, lives_bind.
Qed.

Lemma good_inflight w i r k :
  good w → inflight w !! i = Some (r, k) → lives w (continuation_ids k).
Proof.
  intros Hg Hi. apply good_refs, lives_refs in Hg as (_ & Hin & _).
  rewrite lives_bind, Forall_lookup in Hin. apply (Hin i (r, k) Hi).
Qed.

Lemma good_timer w i ms cb :
  good w → timers w !! i = Some (ms, cb) → lives w (callback_ids cb).
Proof.
  intros Hg Hi. apply good_refs, lives_refs in Hg as (Hin & _).
  rewrite lives_bind, Forall_lookup in Hin. apply (Hin i (ms, cb) Hi).
Qed.

(** *** Dispatch *)

Lemma safe_invoke_at t type target tg w :
  good w → valid target w → (target = None → tg = OnDocument) →
  safe t (invoke_at type target tg) w.
Proof.
  intros Hg Hv Hdoc. unfold invoke_at.
  apply wp_bind, (wp_runs _ _ _ _ (listeners_for tg type w) w); [done|].
  eapply safe_bind; [by apply safe_modify, fine_drop_once|].
  intros [] w2 Hf _. apply safe_invoke_all; [by destruct Hf | | |].
  - eapply (valid_ext (listeners_for tg type w)); [by destruct Hf|].
    by apply valid_listeners_for.
  - eapply valid_ext; [by destruct Hf | done].
  - destruct target as [x|]; [apply Forall_forall; by eauto|].
    rewrite (Hdoc eq_refl). by apply listeners_for_document.
Qed.

Lemma safe_dispatch t type target w :
  good w → live target (doc w) → safe t (dispatch type target) w.
Proof.
  intros Hg Ht. unfold dispatch.
  eapply safe_bind; [by apply safe_modify, fine_with_prevented|]. safe_intro.
  eapply safe_bind; [by apply safe_gets; [|apply Forall_true]|]. safe_intro.
  eapply safe_bind; [|safe_intro; safe_go].
  apply safe_for_each; [done..|]. safe_intro.
  by apply safe_invoke_at.
Qed.

Lemma safe_dispatch_document t type w : good w → safe t (dispatch_document type) w.
Proof.
  intros Hg. unfold dispatch_document.
  eapply safe_bind; [by apply safe_modify, fine_with_prevented|].
  intros [] w1 [Hg1 _] _. by apply safe_invoke_at.
Qed.

Lemma good_timer_ok w i ms cb :
  good w → timers w !! i = Some (ms, cb) → needs_target cb = false.
Proof.
  intros Hg Hi. pose proof (good_timers _ Hg) as Hok.
  rewrite Forall_lookup in Hok. apply (Hok i (ms, cb) Hi).
Qed.

(** *** One thing happens on the page *)

Lemma safe_outcome {A} `{Valid A} (c : js A) w w' :
  safe true c w → outcome_world (c w) = Some w' → fine w w'.
Proof.
  unfold safe, wp. destruct (c w) as [[a|e] w1]; [|done].
  by intros [Hf _] [= <-].
Qed.

Lemma fine_user_write target f w :
  good w → fine w (with_doc (update_elem target f) w).
Proof.
  intros Hg. apply fine_with_doc; [done | |].
  - apply doc_wf_update_elem, Hg.
  - intros j. apply live_update_elem.
Qed.

Lemma safe_returns {A} `{Valid A} (c : js A) w :
  safe true c w → ∃ a w', c w = (Normal a, w') ∧ fine w w'.
Proof.
  unfold safe, wp. destruct (c w) as [[a|e] w1]; [|done].
  intros [Hf _]. by exists a, w1.
Qed.

Lemma input_ok_ext w w' i : ext w w' → input_ok w i → input_ok w' i.
Proof. intros He. destruct i; simpl; auto. Qed.

(** A program run on an extension of the page. *)
Lemma safe_outcome_after {A} `{Valid A} (c : js A) w w1 w' :
  fine w w1 → (good w1 → safe true c w1) → outcome_world (c w1) = Some w' →
  fine w w'.
Proof.
  intros Hf Hc Hs. apply (fine_trans _ _ _ Hf).
  eapply safe_outcome; [apply Hc; by destruct Hf | done].
Qed.

Lemma page_step_fine w i w' : good w → input_ok w i → page_step w i w' → fine w w'.
Proof.
  intros Hg Hi. unfold page_step, page_next. destruct i; simpl in Hi.
  - destruct (is_disabled _ _); [intros [= <-]; by apply fine_refl|].
    by apply safe_outcome, safe_dispatch.
  - pose proof (fine_user_write target (with_checked checked) w Hg) as Hf.
    apply safe_outcome_after; [done|]. intros Hg1.
    apply safe_dispatch; [done | by apply Hf].
  - pose proof (fine_user_write target (with_value value) w Hg) as Hf.
    apply safe_outcome_after; [done|]. intros Hg1.
    apply safe_dispatch; [done | by apply Hf].
  - by apply safe_outcome, safe_dispatch.
  - by apply safe_outcome, safe_dispatch_document.
  - destruct (inflight w !! i) as [[r k]|] eqn:Hk; [simpl|done].
    pose proof (fine_delete_inflight i w Hg) as Hf.
    apply safe_outcome_after; [done|]. intros Hg1.
    apply safe_spawn, safe_run_continuation; [done|].
    eapply lives_ext; [by destruct Hf | by eapply good_inflight].
  - destruct (timers w !! i) as [[ms cb]|] eqn:Hk; [simpl|done].
    pose proof (fine_delete_timer i w Hg) as Hf.
    apply safe_outcome_after; [done|]. intros Hg1.
    apply safe_spawn, safe_run_callback; [done | | done |].
    + eapply lives_ext; [by destruct Hf | by eapply good_timer].
    + intros Hn. by rewrite (good_timer_ok w i ms cb) in Hn.
Qed.

Lemma page_run_fine w ins w' :
  good w → Forall (input_ok w) ins → page_run w ins w' → fine w w'.
Proof.
  intros Hg Hins Hr. induction Hr as [|w i w1 ins w2 Hs _ IH]; [by apply fine_refl|].
  apply Forall_cons in Hins as [Hi Hins].
  pose proof (page_step_fine w i w1 Hg Hi Hs) as Hf.
  eapply fine_trans; [exact Hf|]. apply IH; [by destruct Hf|].
  eapply Forall_impl; [exact Hins|]. intros j. apply input_ok_ext. by destruct Hf.
Qed.

Lemma fresh_good w : fresh w → good w.
Proof.
  intros [Hd Hl Ht Hi Htr]. split; [done | | | |].
  - unfold lives, refs. rewrite Hl, Ht, Hi. by apply Forall_nil_2.
  - rewrite Hl. by apply Forall_nil_2.
  - intros e. rewrite Htr. by apply not_elem_of_nil.
  - rewrite Ht. by apply Forall_nil_2.
Qed.

(** ** The page as a whole *)

Lemma sample_fresh_page : fresh sample_world.
Proof. split; [|done..]. apply (bool_decide_unpack _). vm_compute. exact I. Qed.

Lemma sample_boot : runs boot sample_world () sample_booted.
Proof. by vm_compute. Qed.

Lemma sample_page_run : page_run sample_booted sample_inputs sample_served.
Proof. apply page_run_exec. by vm_compute. Qed.

Lemma sample_inputs_ok : Forall (input_ok sample_booted) sample_inputs.
Proof.
  repeat apply Forall_cons_2; try apply Forall_nil_2; try exact I;
    apply (bool_decide_unpack _); vm_compute; exact I.
Qed.

(** C14: A listener or timer callback of the scripts, run on a good page
    that holds the elements it captured, with a target that is an element
    of the page, returns without an exception; the page is good afterwards
    and has lost no element. *)
Theorem listener_returns cb target w :
  good w → lives w (callback_ids cb) →
  (∀ x, target = Some x → live x (doc w)) →
  (needs_target cb = true → is_Some target) →
  ∃ w', run_callback cb target w = (Normal (), w') ∧ good w' ∧ ext w w'.
Proof.
  intros Hg Hl Ht Hn.
  destruct (safe_returns (run_callback cb target) w) as ([] & w' & Hr & Hf & He).
  - apply safe_run_callback; [done.. | | done]. destruct target; [by apply Ht | done].
  - by exists w'.
Qed.

Lemma listener_returns_witness :
  ∃ w', run_callback (CbFormSubmit sample_instance) (Some 1) sample_ready
        = (Normal (), w') ∧ good w' ∧ ext sample_ready w'.
Proof.
  apply listener_returns.
  - apply fresh_good. split; [|done..]. apply (bool_decide_unpack _). vm_compute. exact I.
  - apply (bool_decide_unpack _). vm_compute. exact I.
  - intros x [= <-]. apply (bool_decide_unpack _). vm_compute. exact I.
  - by eexists.
Defined.

(** C15: The rest of an [async] function, resumed with any outcome of its
    request (a response of any status and body, or a network failure),
    returns without an exception and keeps the page good. *)
Theorem continuation_returns k o w :
  good w → lives w (continuation_ids k) →
  ∃ w', run_continuation k o w = (Normal (), w') ∧ good w' ∧ ext w w'.
Proof.
  intros Hg Hl.
  destruct (safe_returns (run_continuation k o) w) as ([] & w' & Hr & Hf & He).
  - by apply safe_run_continuation.
  - by exists w'.
Qed.

Lemma continuation_returns_witness :
  ∃ w', run_continuation (KAddProducts sample_instance) FetchRejected sample_ready
        = (Normal (), w') ∧ good w' ∧ ext sample_ready w'.
Proof.
  apply continuation_returns.
  - apply fresh_good. split; [|done..]. apply (bool_decide_unpack _). vm_compute. exact I.
  - apply (bool_decide_unpack _). vm_compute. exact I.
Defined.

(** C16: Whatever happens on a good page (an event at an element of the
    page, a life-cycle event, a settled request, a timer) leaves a good
    page: the document is well formed, every element a closure holds is
    in it, and no element was lost. *)
Theorem page_step_good w i w' :
  good w → input_ok w i → page_step w i w' → good w' ∧ ext w w'.
Proof. apply page_step_fine. Qed.

Lemma page_step_good_witness :
  good (default sample_booted (page_next sample_booted (Change 5 true))) ∧
  ext sample_booted (default sample_booted (page_next sample_booted (Change 5 true))).
Proof.
  apply (page_step_good sample_booted (Change 5 true)).
  - destruct (safe_returns boot sample_world) as (? & w & Hr & Hg & _).
    + apply safe_boot, fresh_good, sample_fresh_page.
    + rewrite sample_boot in Hr. by injection Hr as _ <-.
  - apply (bool_decide_unpack _). vm_compute. exact I.
  - by vm_compute.
Defined.

(** C13: From a page on which nothing has run yet, once the two scripts
    are loaded, no sequence of events at elements of the page, responses
    and timers ever makes the browser report an uncaught exception or an
    unhandled rejection. *)
Theorem no_unhandled_rejection w0 w ins w' e :
  fresh w0 → runs boot w0 () w → Forall (input_ok w) ins → page_run w ins w' →
  FxUnhandled e ∉ trace w'.
Proof.
  intros Hfresh Hboot Hins Hrun. apply good_quiet.
  assert (good w) as Hg.
  { destruct (safe_returns boot w0) as (? & w1 & Hr & Hg & _).
    - by apply safe_boot, fresh_good.
    - rewrite Hboot in Hr. by injection Hr as _ <-. }
  by destruct (page_run_fine w ins w' Hg Hins Hrun).
Qed.

Lemma no_unhandled_rejection_witness :
  FxUnhandled ExternalError ∉ trace sample_served.
Proof.
  apply (no_unhandled_rejection sample_world sample_booted sample_inputs).
  - apply sample_fresh_page.
  - apply sample_boot.
  - apply sample_inputs_ok.
  - apply sample_page_run.
Defined.
