(* ===== verification/PageSpec.v ===== *)
(** * PageSpec: the scripts on a page, as the browser runs them

    [AddTimeSpec] runs the listeners of the add-time controller directly
    ([AddTimeSpec.next]); [Dispatch] runs whatever is registered, found
    along the path of the event.  This file relates the two, and looks at
    what the registrations of the editor add up to:

    - on a page wired as [initializeGiftWrap] leaves it, a task of the
      browser is the step of the controller for the event it embeds
      ([browser_runs_controller]);
    - a step of the controller leaves the wiring as it is, so a run of
      the page is a run of the controller
      ([page_run_refines_controller]), and what [AddTimeSpec] and
      [AddTimeModel] prove of every run holds of the page
      ([page_one_request_in_flight]);
    - [bindEvents] adds its listeners to those already there
      ([bindEvents_runs]), and a click on an update button sends one
      change request for each click listener on its path
      ([click_sends_request_per_listener]);
    - an update of the cart page from the click to the reverted button,
      over three tasks of the page ([update_round_trip]), and the same
      update when the shop does not accept it, from the click to the
      hidden message ([update_failure_trip]);
    - a click on the toggle of the drawer, and the click after it
      ([drawer_click_toggles]);
    - a section load on a page that has the controller already attaches
      a second one with a guard of its own, and the next submission sends
      the request twice ([section_load_doubles_request]). *)

From stdpp Require Import gmap strings.
From S2P Require Import Prelude JsString JsValue Dom DomTrees Closures Runtime Safe.
From S2P Require Import AddTime CartPage CartDrawer Dispatch AddTimeSpec EditorSpec.
From S2P Require Import PageSafe.

(** ** The events of the controller, as inputs of the page *)

Definition embed (c : gw_instance) (e : event) : input :=
  match e with
  | Typed el s => Input el s
  | Clicked b => Change (gw_checkbox c) b
  | Submitted => Submit (gw_form c)
  | Responded o => Settle 0 o
  end.

(** A new event arrives with its default action not prevented; a settled
    request is no event. *)
Definition arrive (e : event) (w : world) : world :=
  match e with
  | Responded _ => w
  | _ => with_prevented false w
  end.

(** A page but for the flag of the event being handled. *)
Definition flagless (w : world) : world := with_prevented false w.

(** The page is wired for the controller [c]: a change of its checkbox
    reaches its change listener and nothing else, a submit of its form
    its submit listener and nothing else; nothing listens for input, and
    no listener is registered for one event only. *)
Record wired (c : gw_instance) (w : world) : Prop := {
  wired_change :
    reached "change" (event_path (gw_checkbox c) (doc w)) w = [CbCheckboxChange c];
  wired_submit :
    reached "submit" (event_path (gw_form c) (doc w)) w = [CbFormSubmit c];
  wired_input : Forall (λ l, on_type l ≠ "input") (listeners w);
  wired_once : Forall (λ l, on_once l = false) (listeners w);
}.

#[export] Instance wired_dec c w : Decision (wired c w).
Proof.
  refine (cast_if (decide (
    reached "change" (event_path (gw_checkbox c) (doc w)) w = [CbCheckboxChange c] ∧
    reached "submit" (event_path (gw_form c) (doc w)) w = [CbFormSubmit c] ∧
    Forall (λ l, on_type l ≠ "input") (listeners w) ∧
    Forall (λ l, on_once l = false) (listeners w))));
    [by destruct_and!; split | intros []; tauto].
Defined.

(** ** A click on an update button of the cart section *)

(** What [handleCartSectionClick] and [updateGiftWrap] need of the
    document to send the update of the line [key] with [fields]. *)
Record update_ready (target : nat) (key : list N) (fields : gift_fields)
    (d : document) : Prop := {
  ur_live : live target d;
  ur_leaf : leaf target d;
  ur_key : elems d !! target ≫= getAttribute "data-gift-wrap-update" = Some key;
  ur_update : matches target (sel_attr "data-gift-wrap-update") d = true;
  ur_cancel : matches target (sel_attr "data-gift-wrap-cancel") d = false;
  ur_fields : read_fields (Some key) d = fields;
  ur_to : truthy_string (gf_to fields) = true;
}.

(** The page after one run of the click listener on such a button. *)
Definition update_clicked (target : nat) (key : list N) (fields : gift_fields)
    (w : world) : world :=
  with_inflight
    (λ l, l ++ [(Editor.update_request (Some key) fields, KUpdate (Some key) target)])
    (with_trace (λ t, t ++ [FxFetch (Editor.update_request (Some key) fields)])
       (with_doc (prepared (Some key) target)
          (with_trace (λ t, t ++ [FxConsole LevelLog [CStr "hey"]])
             (with_prevented true w)))).

(** The listeners [bindEvents] adds on a document. *)
Definition bound (d : document) : list listener :=
  match querySelector (sel_tag "cart-drawer") d with
  | Some cartDrawer =>
      [Listener (OnElement cartDrawer) "click" CbDrawerClick false;
       Listener (OnElement cartDrawer) "change" CbDrawerChange false]
  | None => []
  end ++
  match querySelector Editor.sel_cart_section d with
  | Some cartSection =>
      [Listener (OnElement cartSection) "click" CbSectionClick false;
       Listener (OnElement cartSection) "change" CbSectionChange false]
  | None => []
  end.

(** ** The controller attached twice

    [initializeGiftWrap] is registered for [DOMContentLoaded] and for
    [shopify:section:load] (gift-wrap.js, lines 151 and 152).  A section
    load on a page that still has the block runs it again, on the same
    elements. *)

(** The controller a later call of [initializeGiftWrap] builds over the
    elements of [c]: its [isAddingGiftWrap] is the new cell [cell]. *)
Definition rebound (c : gw_instance) (cell : nat) : gw_instance :=
  GwInstance (gw_checkbox c) (gw_fields c) (gw_error c) (gw_variantIdInput c)
    (gw_form c) cell.

(** The page after that call, run by the section load. *)
Definition attached_again (c : gw_instance) (w : world) : world :=
  attached_controller (rebound c (next_cell w)) (with_prevented false w).

(** The page after a submit listener of [c] has sent [r]. *)
Definition submitted (c : gw_instance) (r : request) (w : world) : world :=
  requested c r (taken_over c w).

(** The listeners of the page for [type], on any target. *)
Definition listeners_of (type : string) (w : world) : list listener :=
  List.filter (λ l, bool_decide (on_type l = type)) (listeners w).

(** ** The sample pages

    The product page of [AddTimeSpec], wired; the cart of [EditorSpec]
    once the scripts are loaded and one section has been loaded again. *)

Definition sample_wired : world :=
  default sample_booted (page_next sample_booted (Loaded "DOMContentLoaded")).

(** The run of [AddTimeSpec.sample_events], as the browser sees it. *)
Definition sample_visit : world :=
  default sample_wired
    (page_exec sample_wired (embed sample_instance <$> sample_events)).

(** The product page with gift-wrap.js alone, once the document is
    loaded. *)
Definition sample_product : world :=
  default sample_world
    (page_next (GiftWrap.main sample_world).2 (Loaded "DOMContentLoaded")).

Definition cart_booted : world := (boot cart).2.

Definition cart_reloaded : world :=
  default cart_booted (page_next cart_booted (Loaded "shopify:section:load")).

(** * Properties *)

(** ** Dispatch, when the listeners stay as they are

    While no listener that runs registers another, and none is for one
    event only, the listeners an event reaches are those on its path when
    the dispatch starts. *)

Lemma filter_all {A} (f : A → bool) (l : list A) :
  Forall (λ a, f a = true) l → List.filter f l = l.
Proof. induction 1 as [|a l Ha _ IH]; simpl; [done|]. by rewrite Ha, IH. Qed.

Lemma outcome_runs_world {A} (k : js A) w a w' :
  runs k w a w' → outcome_world (k w) = Some w'.
Proof. unfold runs. by intros ->. Qed.

Lemma invoke_all_nil target w : invoke_all [] target w = (Normal (), w).
Proof. done. Qed.

(** One listener that returns. *)
Lemma invoke_all_one cb target w w' :
  runs (run_callback cb target) w () w' →
  invoke_all [cb] target w = (Normal (), w').
Proof. unfold runs, invoke_all, spawn. simpl. prog_simpl. by intros ->. Qed.

Lemma runs_for_each_app {A} (f : A → js unit) l1 l2 w w1 w2 :
  runs (for_each f l1) w () w1 → runs (for_each f l2) w1 () w2 →
  runs (for_each f (l1 ++ l2)) w () w2.
Proof.
  revert w. induction l1 as [|a l1 IH]; intros w; simpl.
  - by intros [= <-].
  - unfold runs at 1. prog_simpl. destruct (f a w) as [[[]|e] w0] eqn:Hf; [|done].
    intros H1 H2. eapply runs_bind; [exact Hf | by apply IH].
Qed.

Section Dispatch.
Context (I : world → Prop) (type : string) (target : option nat) (w0 : world).
Context (Honce : Forall (λ l, on_once l = false) (listeners w0)).
Context (Hkeep : ∀ w, I w → listeners w = listeners w0).

Lemma drop_once_none tg w : I w → drop_once tg type w = w.
Proof.
  intros Hl%Hkeep. unfold drop_once, with_listeners.
  rewrite filter_all; [by destruct w|].
  rewrite Hl. eapply Forall_impl; [exact Honce|]. intros l ->.
  by rewrite andb_false_r.
Qed.

(** The listeners run one after the other, each from a page that has [I]. *)
Lemma invoke_all_inv cbs w :
  (∀ cb w1, cb ∈ cbs → I w1 →
     ∃ w2, runs (run_callback cb target) w1 () w2 ∧ I w2) →
  I w → ∃ w', runs (invoke_all cbs target) w () w' ∧ I w'.
Proof.
  revert w. induction cbs as [|cb cbs IH]; intros w Hrun Hw; [by exists w|].
  destruct (Hrun cb w) as (w1 & Hcb & Hw1); [by left | done |].
  destruct (IH w1) as (w2 & Hrest & Hw2); [|done|].
  { intros cb' w' Hin. apply Hrun. by right. }
  exists w2. split; [|done]. unfold invoke_all. simpl.
  eapply runs_bind; [by eapply runs_spawn | exact Hrest].
Qed.

Lemma invoke_path_inv path w :
  (∀ cb w1, cb ∈ reached type path w0 → I w1 →
     ∃ w2, runs (run_callback cb target) w1 () w2 ∧ I w2) →
  I w →
  ∃ w', runs (for_each (invoke_at type target) path) w () w' ∧
        runs (invoke_all (reached type path w0) target) w () w' ∧ I w'.
Proof.
  revert w. induction path as [|tg path IH]; intros w Hrun Hw; [by exists w|].
  change (reached type (tg :: path) w0)
    with (listeners_for tg type w0 ++ reached type path w0) in *.
  destruct (invoke_all_inv (listeners_for tg type w0) w) as (w1 & Htg & Hw1);
    [|done|].
  { intros cb w' Hin. apply Hrun, elem_of_app. by left. }
  destruct (IH w1) as (w2 & Hpath & Hall & Hw2); [|done|].
  { intros cb w' Hin. apply Hrun, elem_of_app. by right. }
  exists w2. split_and!; [|by eapply runs_for_each_app|done].
  simpl. eapply runs_bind; [|exact Hpath]. unfold invoke_at.
  eapply runs_bind; [apply runs_gets|].
  eapply runs_bind; [apply runs_modify|]. rewrite drop_once_none by done.
  unfold listeners_for. by rewrite (Hkeep w Hw).
Qed.

End Dispatch.

(** The page after a dispatch is the page after the listeners on the
    path, run in order. *)
Lemma dispatch_outcome (I : world → Prop) type target w w' :
  Forall (λ l, on_once l = false) (listeners w) →
  (∀ w1, I w1 → listeners w1 = listeners w) →
  (∀ cb w1, cb ∈ reached type (event_path target (doc w)) w → I w1 →
     ∃ w2, runs (run_callback cb (Some target)) w1 () w2 ∧ I w2) →
  I (with_prevented false w) →
  runs (invoke_all (reached type (event_path target (doc w)) w) (Some target))
    (with_prevented false w) () w' →
  outcome_world (dispatch type target w) = Some w'.
Proof.
  intros Honce Hkeep Hrun Hw Hall.
  destruct (invoke_path_inv I type (Some target) w Honce Hkeep
              (event_path target (doc w)) (with_prevented false w))
    as (w2 & Hpath & Hall2 & _); [done..|].
  rewrite (runs_world _ _ _ _ _ Hall2 Hall).
  apply outcome_runs_world with (negb (prevented w2)). unfold dispatch.
  eapply runs_bind; [apply runs_modify|].
  eapply runs_bind; [apply runs_gets|].
  eapply runs_bind; [exact Hpath|]. apply (runs_fmap negb), runs_gets.
Qed.

Lemma reached_no_type type path w :
  Forall (λ l, on_type l ≠ type) (listeners w) → reached type path w = [].
Proof.
  intros Hno. unfold reached. apply bind_nil_iff. intros tg _.
  unfold listeners_for. replace (List.filter _ _) with (@nil listener); [done|].
  symmetry. induction Hno as [|l ls Hl _ IH]; simpl; [done|].
  unfold listens at 1. rewrite (bool_decide_eq_false_2 _ Hl), andb_false_r. exact IH.
Qed.

(** The path has one listener for the type. *)
Lemma dispatch_one (I : world → Prop) type target w cb w' :
  Forall (λ l, on_once l = false) (listeners w) →
  (∀ w1, I w1 → listeners w1 = listeners w) →
  reached type (event_path target (doc w)) w = [cb] →
  (∀ w1, I w1 → ∃ w2, runs (run_callback cb (Some target)) w1 () w2 ∧ I w2) →
  I (with_prevented false w) →
  runs (run_callback cb (Some target)) (with_prevented false w) () w' →
  outcome_world (dispatch type target w) = Some w'.
Proof.
  intros Honce Hkeep Hreach Hrun Hw Hcb.
  apply (dispatch_outcome I); [done | done | | done |]; rewrite Hreach.
  - intros cb' w1 ->%list_elem_of_singleton. apply Hrun.
  - unfold runs. by apply invoke_all_one.
Qed.

(** The path has no listener for the type. *)
Lemma dispatch_none type target w :
  Forall (λ l, on_once l = false) (listeners w) →
  reached type (event_path target (doc w)) w = [] →
  outcome_world (dispatch type target w) = Some (with_prevented false w).
Proof.
  intros Honce Hreach.
  apply (dispatch_outcome (λ w1, listeners w1 = listeners w));
    [done | done | | done |]; rewrite Hreach.
  - by intros cb w1 ?%elem_of_nil.
  - apply runs_ret.
Qed.

(** ** A task of the browser is a step of the controller *)

Lemma event_path_update_elem target id f d :
  event_path target (update_elem id f d) = event_path target d.
Proof. done. Qed.

Section Controller.
Context (c : gw_instance) (w : world).
Context (Hw : wired c w) (Hi : inv c w).

Lemma browser_typed el s :
  page_next w (Input el s) = next c (with_prevented false w) (Typed el s).
Proof.
  unfold page_next, next. rewrite dispatch_none; [done | apply Hw |].
  apply reached_no_type, Hw.
Qed.

Lemma browser_clicked b :
  page_next w (Change (gw_checkbox c) b)
  = next c (with_prevented false w) (Clicked b).
Proof.
  set (w1 := with_doc (update_elem (gw_checkbox c) (with_checked b)) w).
  change (next c (with_prevented false w) (Clicked b))
    with (outcome (GiftWrap.onChange c (with_prevented false w1))).
  assert (gw_valid c (doc w1)) as Hv by apply gw_valid_update_elem, Hi.
  pose proof (onChange_runs c (with_prevented false w1) Hv) as Hr.
  rewrite (proj2 (outcome_runs _ _ _) Hr). unfold page_next. fold w1.
  apply (dispatch_one (λ w2, listeners w2 = listeners w ∧ gw_valid c (doc w2))
           _ _ _ (CbCheckboxChange c)); [apply Hw | by intros ? [] | apply Hw | | done..].
  intros w2 [Hl2 Hv2]. eexists. split; [by apply onChange_runs|].
  split; [done | by apply gw_valid_expanded].
Qed.

Lemma listeners_submit_spec w1 : listeners (submit_spec c w1) = listeners w1.
Proof.
  unfold submit_spec, requested, refused. repeat case_match; done.
Qed.

Lemma browser_submitted :
  page_next w (Submit (gw_form c)) = next c (with_prevented false w) Submitted.
Proof.
  change (next c (with_prevented false w) Submitted)
    with (outcome (GiftWrap.onSubmit c (with_prevented false w))).
  assert (inv c (with_prevented false w)) as Hi1 by by destruct Hi.
  pose proof (onSubmit_runs c (with_prevented false w) (inv_valid _ _ Hi1)) as Hr.
  rewrite (proj2 (outcome_runs _ _ _) Hr). unfold page_next.
  apply (dispatch_one (λ w2, listeners w2 = listeners w ∧ inv c w2)
           _ _ _ (CbFormSubmit c)); [apply Hw | by intros ? [] | apply Hw | | done..].
  intros w2 [Hl2 Hi2]. eexists. split; [by apply onSubmit_runs, Hi2|].
  split; [by rewrite listeners_submit_spec | by apply inv_submit_spec].
Qed.

Lemma browser_responded o : page_next w (Settle 0 o) = next c w (Responded o).
Proof.
  unfold page_next, next.
  destruct (inv_inflight c w Hi) as [Hin|(r & Hin & _)]; rewrite Hin; [done|].
  simpl. rewrite decide_True by done.
  assert (with_inflight (delete 0) w = with_inflight (λ _, []) w) as ->
    by (unfold with_inflight; by rewrite Hin).
  assert (gw_valid c (doc (with_inflight (λ _, []) w))) as Hv by apply Hi.
  pose proof (onSubmit_resume_runs c _ Hv o) as Hr.
  rewrite (proj2 (outcome_runs _ _ _) Hr).
  unfold spawn. simpl. unfold runs in Hr. by rewrite Hr.
Qed.

End Controller.

(** C17: On a page wired as [initializeGiftWrap] leaves it, what the
    browser does with an event of the controller (a text typed, the box
    clicked, the form submitted, the pending request settled) is the step
    of the controller for that event, taken from the page on which the
    event arrives: the dispatch finds the listener of the controller and
    no other, and the listener returns. *)
Theorem browser_runs_controller c w e :
  wired c w → inv c w → page_next w (embed c e) = next c (arrive e w) e.
Proof.
  intros Hw Hi. destruct e; simpl.
  - by apply (browser_typed c).
  - by apply (browser_clicked c).
  - by apply (browser_submitted c).
  - by apply (browser_responded c).
Qed.

Lemma browser_runs_controller_witness :
  page_next sample_wired (Submit 1)
  = next sample_instance (with_prevented false sample_wired) Submitted.
Proof.
  apply (browser_runs_controller sample_instance sample_wired Submitted).
  - apply (bool_decide_unpack _). vm_compute. exact I.
  - split; [apply (bool_decide_unpack _); vm_compute; exact I | by left].
Defined.

(** ** A run of the page is a run of the controller *)

Section Runs.
Context (c : gw_instance).
Implicit Types w v : world.

Lemma inv_flag b w : inv c (with_prevented b w) ↔ inv c w.
Proof. split; intros [H1 H2]; by split. Qed.

Lemma wired_flag b w : wired c (with_prevented b w) ↔ wired c w.
Proof. split; intros [H1 H2 H3 H4]; by split. Qed.

(** What a step of the controller does, from a page that has [inv]. *)
Lemma next_explicit w e :
  inv c w →
  next c w e =
  match e with
  | Typed el s => Some (with_doc (update_elem el (with_value s)) w)
  | Clicked b =>
      let w1 := with_doc (update_elem (gw_checkbox c) (with_checked b)) w in
      Some (with_doc (expanded c (is_checked c w1)) w1)
  | Submitted => Some (submit_spec c (with_prevented false w))
  | Responded o =>
      match inflight w with
      | [] => None
      | _ => Some (resume_spec c o (with_inflight (λ _, []) w))
      end
  end.
Proof.
  intros Hi. destruct e as [el s|b| |o]; simpl.
  - done.
  - apply outcome_runs, onChange_runs, gw_valid_update_elem, Hi.
  - apply outcome_runs, onSubmit_runs, Hi.
  - destruct (inv_inflight c w Hi) as [Hin|(r & Hin & _)]; rewrite Hin; [done|].
    rewrite decide_True by done. apply outcome_runs, onSubmit_resume_runs, Hi.
Qed.

Lemma resume_spec_flag b o w :
  flagless (resume_spec c o (with_prevented b w)) = flagless (resume_spec c o w).
Proof. unfold resume_spec, logged. by repeat case_match. Qed.

(** A step does not read the flag. *)
Lemma next_flag b w e :
  inv c w → flagless <$> next c (with_prevented b w) e = flagless <$> next c w e.
Proof.
  intros Hi. rewrite (next_explicit w), (next_explicit (with_prevented b w))
    by first [done | by apply inv_flag].
  destruct e as [el s|b'| |o]; simpl; [done..|].
  destruct (inflight w); simpl; [done|].
  f_equal. apply (resume_spec_flag b o (with_inflight (λ _, []) w)).
Qed.

Lemma inv_flagless w v : flagless w = flagless v → inv c w → inv c v.
Proof.
  intros Hwv Hi%(inv_flag false). apply (inv_flag false).
  by change (inv c (flagless v)); rewrite <- Hwv.
Qed.

Lemma next_flagless w v e :
  inv c w → flagless w = flagless v →
  flagless <$> next c w e = flagless <$> next c v e.
Proof.
  intros Hi Hwv. pose proof (inv_flagless w v Hwv Hi) as Hv.
  rewrite <- (next_flag false w), <- (next_flag false v) by done.
  change (with_prevented false ?x) with (flagless x). by rewrite Hwv.
Qed.

(** *** A step leaves the wiring as it is *)

Lemma agree_expanded sel b d :
  gw_valid c d → attr_free "aria-expanded" (simples sel) = true →
  agree sel (expanded c b d) d.
Proof.
  intros Hv Hs. pose proof (agree_toggled c d sel b Hs) as Ht.
  unfold expanded. destruct b; [done|].
  etrans; [apply agree_hidden, gw_valid_cleared, gw_valid_toggled, Hv|].
  etrans; [|exact Ht]. apply agree_update_all, invisible_unseen, unseen_with_value.
Qed.

Lemma agree_focus_recipient sel d : agree sel (focus_recipient c d) d.
Proof. unfold focus_recipient. destruct (querySelector_in _ _ _); [apply agree_focus|done]. Qed.

Lemma agree_taken_over sel w :
  gw_valid c (doc w) → agree sel (doc (taken_over c w)) (doc w).
Proof. intros Hv. by apply agree_hidden. Qed.

Lemma agree_submit_spec sel w :
  gw_valid c (doc w) → agree sel (doc (submit_spec c w)) (doc w).
Proof.
  intros Hv. pose proof (agree_taken_over sel w Hv) as Ht.
  pose proof (gw_valid_taken_over c w Hv) as Hv1.
  unfold submit_spec, requested, refused, released.
  repeat case_match; try done; (etrans; [|exact Ht]);
    rewrite ?doc_with_cells, ?doc_with_doc;
    repeat (etrans; [first [apply agree_focus_recipient | by apply agree_shown]|]);
    done.
Qed.

Lemma agree_resume_spec sel o w :
  gw_valid c (doc w) → agree sel (doc (resume_spec c o w)) (doc w).
Proof.
  intros Hv. unfold resume_spec, released, caught, logged.
  repeat case_match; try done; by apply agree_shown.
Qed.

Lemma listeners_resume_spec o w : listeners (resume_spec c o w) = listeners w.
Proof. unfold resume_spec, logged. by repeat case_match. Qed.

Lemma next_wiring w e w' :
  inv c w → next c w e = Some w' →
  listeners w' = listeners w ∧ agree [] (doc w') (doc w).
Proof.
  intros Hi. rewrite next_explicit by done. pose proof (inv_valid c w Hi) as Hv.
  destruct e as [el s|b| |o]; simpl.
  - intros [= <-]. split; [done|]. apply agree_update_unseen, unseen_with_value.
  - intros [= <-]. split; [done|].
    etrans; [by apply agree_expanded; [apply gw_valid_update_elem|]|].
    apply agree_update_unseen, unseen_with_checked.
  - intros [= <-]. split; [exact (listeners_submit_spec c (with_prevented false w))|].
    by apply (agree_submit_spec [] (with_prevented false w)).
  - destruct (inflight w); [done|]. intros [= <-].
    split; [exact (listeners_resume_spec o (with_inflight (λ _, []) w))|].
    by apply (agree_resume_spec [] o (with_inflight (λ _, []) w)).
Qed.

Lemma event_path_agree sel target d1 d2 :
  agree sel d1 d2 → event_path target d1 = event_path target d2.
Proof.
  intros Ha. unfold event_path.
  by rewrite (agree_nodes _ _ _ Ha), (agree_ancestors _ _ _ Ha).
Qed.

Lemma wired_next w e w' : wired c w → inv c w → next c w e = Some w' → wired c w'.
Proof.
  intros [H1 H2 H3 H4] Hi Hn. destruct (next_wiring w e w' Hi Hn) as [Hl Ha].
  split; unfold reached, listeners_for;
    rewrite ?(event_path_agree _ _ _ _ Ha), Hl; done.
Qed.

(** The page and the controller, side by side. *)
Lemma page_run_controller es wp wc w' :
  flagless wp = flagless wc → wired c wp → inv c wc →
  page_run wp (embed c <$> es) w' →
  ∃ v', run c wc es v' ∧ flagless v' = flagless w' ∧ inv c v' ∧ wired c w'.
Proof.
  revert wp wc. induction es as [|e es IH]; intros wp wc Hf Hw Hi Hrun.
  { inversion Hrun; subst. exists wc. split_and!; [constructor | done..]. }
  inversion Hrun as [|? i wp1 ins ? Hstep Hrest]; subst.
  assert (inv c wp) as Hip by by apply (inv_flagless wc).
  unfold page_step in Hstep. rewrite (browser_runs_controller c wp e Hw Hip) in Hstep.
  assert (flagless (arrive e wp) = flagless wc) as Hfa by by destruct e.
  assert (inv c (arrive e wp)) as Hia by by apply (inv_flagless wc).
  pose proof (next_flagless (arrive e wp) wc e Hia Hfa) as Hnext.
  rewrite Hstep in Hnext. destruct (next c wc e) as [wc1|] eqn:Hc; [|done].
  apply (inj Some) in Hnext.
  destruct (IH wp1 wc1) as (v' & Hv' & Hfv & Hiv & Hwv); [done | | | done |].
  - eapply wired_next; [|exact Hia|exact Hstep]. destruct e; [apply wired_flag..|]; done.
  - eapply inv_step; [exact Hi | by apply step_next].
  - exists v'. split_and!; [|done..]. econstructor; [by apply step_next | done].
Qed.

End Runs.

(** C18: Every run of the page made of events of the add-time controller,
    from a page wired for it, is a run of the controller: the same events
    take the controller's step relation to the same page, but for the
    flag of the last event.  So what holds of every run of the controller
    (at most one request in flight, no request after a success, every
    request validated) holds of the page as the browser runs it. *)
Theorem page_run_refines_controller c w es w' :
  wired c w → inv c w → page_run w (embed c <$> es) w' →
  ∃ v', run c w es v' ∧ flagless v' = flagless w'.
Proof.
  intros Hw Hi Hrun.
  destruct (page_run_controller c es w w w') as (v' & Hv' & Hf & _); [done..|].
  by exists v'.
Qed.

Lemma sample_wired_ok : wired sample_instance sample_wired ∧ inv sample_instance sample_wired.
Proof.
  split; [apply (bool_decide_unpack _); vm_compute; exact I|].
  split; [apply (bool_decide_unpack _); vm_compute; exact I | by left].
Qed.

Lemma page_run_refines_controller_witness :
  ∃ v', run sample_instance sample_wired sample_events v' ∧
        flagless v' = flagless sample_visit.
Proof.
  apply page_run_refines_controller; [apply sample_wired_ok.. |].
  apply page_run_exec. by vm_compute.
Defined.

(** On the page too, at most one request is in flight. *)
Corollary page_one_request_in_flight c w es w' :
  wired c w → inv c w → page_run w (embed c <$> es) w' →
  length (inflight w') ≤ 1.
Proof.
  intros Hw Hi Hrun.
  destruct (page_run_controller c es w w w') as (v' & _ & Hf & Hiv & _); [done..|].
  change (inflight w') with (inflight (flagless w')). rewrite <- Hf. simpl.
  destruct (inv_inflight c v' Hiv) as [->|(r & -> & _)]; simpl; lia.
Qed.

(** ** A section load attaches the controller again *)

Lemma instance_of_rebound d n m c :
  instance_of d n = Some c → instance_of d m = Some (rebound c m).
Proof.
  unfold instance_of. intros Hc.
  repeat match goal with
         | H : context [mbind _ ?o] |- _ => destruct o; simpl in *; [|done]
         end.
  by injection Hc as <-.
Qed.

Lemma gw_valid_rebound c n d : gw_valid (rebound c n) d ↔ gw_valid c d.
Proof. split; intros []; by split. Qed.

(** An event at the document with one listener. *)
Lemma dispatch_document_one type cb w w' :
  Forall (λ l, on_once l = false) (listeners w) →
  listeners_for OnDocument type w = [cb] →
  runs (run_callback cb None) (with_prevented false w) () w' →
  page_step w (Loaded type) w'.
Proof.
  intros Honce Hcb Hrun. apply outcome_runs_world with ().
  unfold dispatch_document. eapply runs_bind; [apply runs_modify|].
  unfold invoke_at. eapply runs_bind; [apply runs_gets|].
  eapply runs_bind; [apply runs_modify|].
  rewrite (drop_once_none (λ w1, listeners w1 = listeners w) type w Honce) by done.
  change (listeners_for OnDocument type (with_prevented false w))
    with (listeners_for OnDocument type w).
  rewrite Hcb. by apply invoke_all_one.
Qed.

(** The listeners an event reaches when all those for its type are on one
    target of its path. *)
Lemma listeners_for_of t type w :
  listeners_for t type w
  = on_callback <$> List.filter (λ l, bool_decide (on_target l = t)) (listeners_of type w).
Proof.
  unfold listeners_for, listeners_of, listens. f_equal.
  induction (listeners w) as [|l ls IH]; simpl; [done|].
  destruct (bool_decide (on_type l = type)); simpl;
    destruct (bool_decide (on_target l = t)); simpl; by rewrite IH.
Qed.

Lemma reached_on_target type tg path w :
  NoDup path → tg ∈ path →
  Forall (λ l, on_target l = tg) (listeners_of type w) →
  reached type path w = on_callback <$> listeners_of type w.
Proof.
  intros Hnd Hin Hall. unfold reached.
  assert (∀ t, listeners_for t type w
             = if bool_decide (t = tg) then on_callback <$> listeners_of type w else [])
    as Hfor.
  { intros t. rewrite listeners_for_of. case_bool_decide as Ht.
    - subst t. f_equal. apply filter_all. eapply Forall_impl; [exact Hall|].
      intros l ->. by apply bool_decide_eq_true.
    - replace (List.filter _ _) with (@nil listener); [done|]. symmetry.
      induction Hall as [|l ls Hl _ IH]; simpl; [done|].
      by rewrite bool_decide_eq_false_2 by congruence. }
  induction Hnd as [|t path Ht Hnd IH]; [by apply elem_of_nil in Hin|].
  csimpl. rewrite Hfor. apply elem_of_cons in Hin as [<-|Hin].
  - rewrite bool_decide_eq_true_2 by done.
    replace (path ≫= _) with (@nil callback); [by rewrite app_nil_r|].
    symmetry. apply bind_nil_iff. intros t Hin. rewrite Hfor.
    by rewrite bool_decide_eq_false_2 by (by intros ->).
  - rewrite bool_decide_eq_false_2 by (by intros ->). by apply IH.
Qed.

(** The readings of the form do not depend on [aria-expanded] or on the
    display of the fields. *)
Lemma read_form_toggled c b d : read_form c (toggled c b d) = read_form c d.
Proof.
  assert (∀ A (π : element → A) el,
            (∀ f e, π (with_attrs f e) = π e) → (∀ f e, π (with_style f e) = π e) →
            π <$> elems (toggled c b d) !! el = π <$> elems d !! el) as Hπ.
  { intros A π el Ha Hs. unfold toggled.
    by rewrite !elems_update_elem_proj by (intros; first [apply Ha | apply Hs]). }
  unfold read_form, read_value, read_trimmed.
  rewrite !(agree_querySelector_in _ _ _ (agree_toggled c d sel_to b eq_refl)),
    !(agree_querySelector_in _ _ _ (agree_toggled c d sel_from b eq_refl)),
    !(agree_querySelector_in _ _ _ (agree_toggled c d sel_message b eq_refl)),
    !(agree_querySelector_in _ _ _ (agree_toggled c d sel_main_id b eq_refl)),
    !(agree_querySelector_in _ _ _ (agree_toggled c d sel_quantity b eq_refl)).
  assert (getAttribute "data-product-handle" <$> elems (toggled c b d) !! gw_form c
          = getAttribute "data-product-handle" <$> elems d !! gw_form c) as ->.
  { unfold toggled. rewrite elems_update_elem_proj by done.
    apply elems_update_elem_proj. intros e.
    unfold getAttribute, setAttribute. simpl. by rewrite lookup_insert_ne. }
  f_equal; repeat case_match;
    by rewrite ?(Hπ _ el_value), ?(Hπ _ (λ e, trim (el_value e))).
Qed.

Lemma gw_valid_submit_spec c w : gw_valid c (doc w) → gw_valid c (doc (submit_spec c w)).
Proof.
  intros Hv. unfold submit_spec. destruct (negb _); [done|].
  destruct (is_adding _ _); [done|]. cbv zeta.
  pose proof (gw_valid_hidden c _ Hv).
  destruct (validate _); rewrite ?doc_refused;
    try (by apply gw_valid_refused_doc); done.
Qed.

(** The submit listener on a form that passes the checks. *)
Lemma onSubmit_requests c w :
  gw_valid c (doc w) → is_checked c w = true → is_adding c w = false →
  validate (read_form c (doc w)) = Ready →
  runs (GiftWrap.onSubmit c) w () (submitted c (request_of (read_form c (doc w))) w).
Proof.
  intros Hv Hc Ha Hok. pose proof (onSubmit_validated c w Hv Hc Ha) as Hrun.
  cbv zeta in Hrun. by rewrite Hok in Hrun.
Qed.

Lemma invoke_all_two cb1 cb2 target w w1 w2 :
  runs (run_callback cb1 target) w () w1 → runs (run_callback cb2 target) w1 () w2 →
  runs (invoke_all [cb1; cb2] target) w () w2.
Proof.
  intros H1 H2. unfold invoke_all. simpl.
  eapply runs_bind; [by eapply runs_spawn|].
  eapply runs_bind; [by eapply runs_spawn | apply runs_ret].
Qed.

Section Submitted.
Context (c c' : gw_instance) (r : request) (w : world).

Lemma doc_submitted : doc (submitted c r w) = hidden c (doc w).
Proof. done. Qed.

Lemma listeners_submitted : listeners (submitted c r w) = listeners w.
Proof. done. Qed.

Lemma sent_submitted : sent (submitted c r w) = sent w ++ [r].
Proof. apply sent_requested. Qed.

Lemma inflight_submitted :
  inflight (submitted c r w) = inflight w ++ [(r, KAddProducts c)].
Proof. done. Qed.

Lemma is_adding_submitted : is_adding c (submitted c r w) = true.
Proof. apply (is_adding_taken_over c w). Qed.

(** The guard of another controller is as it was. *)
Lemma is_adding_submitted_ne :
  gw_isAdding c' ≠ gw_isAdding c → is_adding c' (submitted c r w) = is_adding c' w.
Proof. intros Hne. unfold is_adding. simpl. by rewrite lookup_insert_ne. Qed.

End Submitted.

Section Twice.
Context (c : gw_instance) (w : world).
Context (Hv : gw_valid c (doc w)) (Hwf : doc_wf (doc w)).
Context (Hinst : instance_of (doc w) (gw_isAdding c) = Some c).
Context (Hcell : gw_isAdding c < next_cell w).
Context (Honce : Forall (λ l, on_once l = false) (listeners w)).
Context (Hsubmit : listeners_of "submit" w
                   = [Listener (OnElement (gw_form c)) "submit" (CbFormSubmit c) false]).
Context (Hck : is_checked c w = true) (Hfree : is_adding c w = false).

Local Abbreviation c' := (rebound c (next_cell w)).
Local Abbreviation w1 := (attached_again c w).

Lemma section_load_step :
  listeners_for OnDocument "shopify:section:load" w = [CbInitializeGiftWrap] →
  page_step w (Loaded "shopify:section:load") w1.
Proof.
  intros Hload. apply (dispatch_document_one _ CbInitializeGiftWrap); [done..|].
  apply (initializeGiftWrap_present c' (with_prevented false w)).
  - by apply instance_of_rebound with (gw_isAdding c).
  - by apply gw_valid_rebound.
Qed.

Lemma doc_attached_again : doc w1 = toggled c true (doc w).
Proof.
  unfold attached_again, attached_controller. rewrite doc_with_doc.
  change (is_checked c' (with_prevented false w)) with (is_checked c w).
  by rewrite Hck.
Qed.

Lemma listeners_attached_again :
  listeners w1
  = listeners w ++ [Listener (OnElement (gw_checkbox c)) "change" (CbCheckboxChange c') false;
                    Listener (OnElement (gw_form c)) "submit" (CbFormSubmit c') false].
Proof. done. Qed.

Lemma reached_attached_again :
  reached "submit" (event_path (gw_form c) (doc w1)) w1 = [CbFormSubmit c; CbFormSubmit c'].
Proof.
  assert (listeners_of "submit" w1
          = [Listener (OnElement (gw_form c)) "submit" (CbFormSubmit c) false;
             Listener (OnElement (gw_form c)) "submit" (CbFormSubmit c') false]) as Hl.
  { unfold listeners_of in *. by rewrite listeners_attached_again, List.filter_app, Hsubmit. }
  rewrite (reached_on_target _ (OnElement (gw_form c))), Hl; [done | | |].
  - rewrite doc_attached_again,
      (event_path_agree [] _ _ (doc w) (agree_toggled c (doc w) [] true eq_refl)).
    apply event_path_nodup, Hwf.
  - destruct (event_path_target (gw_form c) (doc w1)) as [up ->]; [|by left].
    rewrite doc_attached_again. apply live_attached, gw_valid_toggled, Hv.
  - rewrite Hl. by repeat constructor.
Qed.

(** The first listener finds the page as it was, but for the display. *)
Lemma again_valid b : gw_valid c (doc (with_prevented b w1)).
Proof.
  change (doc (with_prevented b w1)) with (doc w1).
  rewrite doc_attached_again. by apply gw_valid_toggled.
Qed.

Lemma again_checked b : is_checked c (with_prevented b w1) = true.
Proof.
  rewrite <- Hck. unfold is_checked.
  change (doc (with_prevented b w1)) with (doc w1).
  rewrite doc_attached_again. unfold toggled. by rewrite !elems_update_elem_proj.
Qed.

Lemma again_free b : is_adding c (with_prevented b w1) = false.
Proof. rewrite <- Hfree. unfold is_adding. simpl. rewrite lookup_insert_ne; [done|lia]. Qed.

Lemma again_free' b : is_adding c' (with_prevented b w1) = false.
Proof. unfold is_adding. simpl. by rewrite lookup_insert_eq. Qed.

Lemma again_form b : read_form c (doc (with_prevented b w1)) = read_form c (doc w).
Proof.
  change (doc (with_prevented b w1)) with (doc w1).
  by rewrite doc_attached_again, read_form_toggled.
Qed.

Context (Hok : validate (read_form c (doc w)) = Ready).

Local Abbreviation r := (request_of (read_form c (doc w))).
Local Abbreviation v0 := (with_prevented false w1).

(** The listener of the first controller sends the request. *)
Lemma first_submits : runs (GiftWrap.onSubmit c) v0 () (submitted c r v0).
Proof.
  rewrite <- (again_form false).
  apply onSubmit_requests;
    [apply again_valid | apply again_checked | apply again_free | by rewrite again_form].
Qed.

(** The guard it engaged is not the guard of the second, which sends the
    request again. *)
Lemma second_submits :
  runs (GiftWrap.onSubmit c') (submitted c r v0) () (submitted c' r (submitted c r v0)).
Proof.
  pose proof (again_valid false) as Hv0.
  assert (read_form c' (doc (submitted c r v0)) = read_form c (doc w)) as Hform.
  { change (read_form c' ?d) with (read_form c d).
    by rewrite doc_submitted, (read_form_hidden c _ Hv0), again_form. }
  pose proof (onSubmit_requests c' (submitted c r v0)) as Hrun.
  rewrite Hform in Hrun. apply Hrun; [| | |done].
  - apply gw_valid_rebound. rewrite doc_submitted. by apply gw_valid_hidden.
  - rewrite <- (again_checked false). unfold is_checked.
    by rewrite doc_submitted, (checked_hidden c).
  - rewrite is_adding_submitted_ne by (simpl; lia). apply again_free'.
Qed.

Lemma submit_twice_step :
  page_step w1 (Submit (gw_form c)) (submitted c' r (submitted c r v0)).
Proof.
  apply (dispatch_outcome (λ v, listeners v = listeners w1 ∧ gw_valid c (doc v)));
    rewrite ?reached_attached_again.
  - rewrite listeners_attached_again. apply Forall_app. by repeat constructor.
  - by intros ? [].
  - intros cb v Hcb [Hl Hvv].
    pose proof (proj2 (gw_valid_rebound c (next_cell w) _) Hvv) as Hvv'.
    apply elem_of_cons in Hcb as [->|Hcb]; [|apply list_elem_of_singleton in Hcb as ->].
    + exists (submit_spec c v). split; [by apply onSubmit_runs|].
      split; [by rewrite listeners_submit_spec | by apply gw_valid_submit_spec].
    + exists (submit_spec c' v). split; [by apply onSubmit_runs|].
      split; [by rewrite listeners_submit_spec|].
      by apply (gw_valid_rebound c (next_cell w)), gw_valid_submit_spec.
  - split; [done | apply again_valid].
  - apply (invoke_all_two _ _ _ _ (submitted c r v0));
      [apply first_submits | apply second_submits].
Qed.

End Twice.

(** C40: A section load on a page that has the controller runs
    [initializeGiftWrap] again (gift-wrap.js, line 152): the form gets a
    second submit listener, whose guard is a new [isAddingGiftWrap].  On the
    next submission of a form that passes the checks the first listener
    engages its guard and sends the request, the second finds its own guard
    free and sends the same request again: two requests are in flight, and
    the cart gets the products twice. *)
Theorem section_load_doubles_request c w :
  gw_valid c (doc w) → doc_wf (doc w) →
  instance_of (doc w) (gw_isAdding c) = Some c → gw_isAdding c < next_cell w →
  Forall (λ l, on_once l = false) (listeners w) →
  listeners_for OnDocument "shopify:section:load" w = [CbInitializeGiftWrap] →
  listeners_of "submit" w
  = [Listener (OnElement (gw_form c)) "submit" (CbFormSubmit c) false] →
  is_checked c w = true → is_adding c w = false →
  validate (read_form c (doc w)) = Ready →
  let c' := rebound c (next_cell w) in
  let r := request_of (read_form c (doc w)) in
  ∃ w1 w2,
    page_step w (Loaded "shopify:section:load") w1 ∧
    page_step w1 (Submit (gw_form c)) w2 ∧
    sent w2 = sent w ++ [r; r] ∧
    inflight w2 = inflight w ++ [(r, KAddProducts c); (r, KAddProducts c')] ∧
    is_adding c w2 = true ∧ is_adding c' w2 = true.
Proof.
  intros Hv Hwf Hinst Hcell Honce Hload Hsubmit Hck Hfree Hok c' r.
  eexists _, _. split; [by apply section_load_step|].
  split; [by apply submit_twice_step|].
  rewrite !sent_submitted, !inflight_submitted, <- !app_assoc.
  split_and!; [done | done | | apply is_adding_submitted].
  rewrite is_adding_submitted_ne by (simpl; lia). apply is_adding_submitted.
Qed.

Lemma section_load_doubles_request_witness :
  let r := request_of (read_form sample_instance (doc sample_product)) in
  ∃ w1 w2,
    page_step sample_product (Loaded "shopify:section:load") w1 ∧
    page_step w1 (Submit 1) w2 ∧
    sent w2 = sent sample_product ++ [r; r] ∧
    inflight w2
    = inflight sample_product
      ++ [(r, KAddProducts sample_instance); (r, KAddProducts (rebound sample_instance 1))] ∧
    is_adding sample_instance w2 = true ∧
    is_adding (rebound sample_instance 1) w2 = true.
Proof.
  apply (section_load_doubles_request sample_instance sample_product);
    try (apply (bool_decide_unpack _); vm_compute; exact I);
    first [by vm_compute | simpl; lia].
Defined.

(** ** Listeners accumulate *)

Lemma bindEvents_runs w :
  runs Editor.bindEvents w () (with_listeners (λ l, l ++ bound (doc w)) w).
Proof.
  unfold Editor.bindEvents, bound.
  eapply runs_bind; [apply runs_query|].
  destruct (querySelector (sel_tag "cart-drawer") (doc w)) as [cartDrawer|].
  - eapply runs_bind.
    { eapply runs_bind; apply runs_addEventListener. }
    eapply runs_bind; [apply runs_query|]. simpl.
    destruct (querySelector Editor.sel_cart_section (doc w)) as [cartSection|].
    + eapply runs_eq; [eapply runs_bind; apply runs_addEventListener|].
      unfold with_listeners. simpl. by rewrite <- !app_assoc.
    + eapply runs_eq; [apply runs_ret|].
      unfold with_listeners. simpl. by rewrite <- !app_assoc.
  - eapply runs_bind; [apply runs_ret|].
    eapply runs_bind; [apply runs_query|]. simpl.
    destruct (querySelector Editor.sel_cart_section (doc w)) as [cartSection|].
    + eapply runs_eq; [eapply runs_bind; apply runs_addEventListener|].
      unfold with_listeners. simpl. by rewrite <- !app_assoc.
    + eapply runs_eq; [apply runs_ret|]. unfold with_listeners. simpl.
      rewrite app_nil_r. by destruct w.
Qed.

(** ** One click, as many requests as listeners *)

Section ClickUpdate.
Context (target : nat) (key : list N) (fields : gift_fields).

Lemma agree_prepared sel d :
  leaf target d →
  attr_free "data-original-text" (simples sel) = true →
  class_free "loading" (simples sel) = true →
  class_free "error" (simples sel) = true →
  class_free "show" (simples sel) = true →
  agree sel (prepared (Some key) target d) d.
Proof.
  intros Hleaf Ha Hl He Hs. unfold prepared.
  assert (agree sel (loading target d) d) as Hload.
  { unfold loading. etrans; [apply agree_set_textContent|].
    - by do 3 apply leaf_update_elem_2.
    - etrans; [by apply agree_setAttribute|].
      etrans; [by apply agree_classList_add|].
      apply agree_update_unseen, unseen_with_disabled. }
  etrans; [|exact Hload]. unfold errors_cleared.
  destruct (querySelector _ _) as [row|]; [cbv zeta|done].
  assert (agree sel (update_all (classList_remove "error")
            (querySelectorAll_in row (sel_class "error") (loading target d))
            (loading target d)) (loading target d)) as Hall
    by by apply agree_update_all, invisible_classList_remove.
  destruct (querySelector_in _ _ _); [|done].
  etrans; [by apply agree_classList_remove | done].
Qed.

Lemma text_of_field_prepared d field :
  text_of_field (prepared (Some key) target d) field = text_of_field d field.
Proof.
  destruct field as [el|]; [|done]. unfold text_of_field, prepared.
  change (λ e, trim (el_value e)) with (trim ∘ el_value).
  by rewrite !option_fmap_compose, value_errors_cleared, value_loading.
Qed.

Lemma bind_fmap_eq {A B} (f : A → option B) (o1 o2 : option A) :
  f <$> o1 = f <$> o2 → o1 ≫= f = o2 ≫= f.
Proof. destruct o1, o2; simpl; congruence. Qed.

Lemma live_errors_cleared itemKey d j :
  live j d → live j (errors_cleared itemKey d).
Proof.
  intros Hj. unfold errors_cleared. destruct (querySelector _ _); [cbv zeta|done].
  destruct (querySelector_in _ _ _); [apply live_update_elem|]; by apply live_update_all.
Qed.

Lemma leaf_errors_cleared itemKey d j :
  leaf j d → leaf j (errors_cleared itemKey d).
Proof.
  intros Hj. unfold errors_cleared. destruct (querySelector _ _); [cbv zeta|done].
  destruct (querySelector_in _ _ _); [apply leaf_update_elem_2|]; by apply leaf_update_all.
Qed.

Lemma attr_errors_cleared a itemKey d j :
  getAttribute a <$> elems (errors_cleared itemKey d) !! j
  = getAttribute a <$> elems d !! j.
Proof.
  unfold errors_cleared. destruct (querySelector _ _); [|done]. cbv zeta.
  destruct (querySelector_in _ _ _);
    by rewrite ?elems_update_elem_proj, elems_update_all_proj.
Qed.

Lemma attr_loading a d j :
  a ≠ "data-original-text" →
  getAttribute a <$> elems (loading target d) !! j = getAttribute a <$> elems d !! j.
Proof.
  intros Ha. unfold loading. rewrite elems_set_textContent.
  rewrite !elems_update_elem_proj; [done..|].
  intros e. unfold getAttribute, setAttribute. simpl. by rewrite lookup_insert_ne.
Qed.

Lemma agree_prepared_field name d :
  leaf target d →
  agree (Editor.sel_field name (Some key)) (prepared (Some key) target d) d.
Proof. intros Hleaf. by apply agree_prepared. Qed.

Lemma read_fields_prepared d :
  leaf target d →
  read_fields (Some key) (prepared (Some key) target d) = read_fields (Some key) d.
Proof.
  intros Hleaf. unfold read_fields. rewrite !text_of_field_prepared.
  by rewrite !(agree_querySelector _ _ d (agree_prepared_field _ d Hleaf)).
Qed.

Lemma update_ready_prepared d :
  update_ready target key fields d →
  update_ready target key fields (prepared (Some key) target d).
Proof.
  intros [Hlive Hleaf Hkey Hu Hc Hf Hto].
  split; [| | | | | by rewrite read_fields_prepared | done].
  - apply live_errors_cleared, live_loading; [by apply live_attached | done..].
  - apply leaf_errors_cleared, leaf_loading; [by apply live_attached | done..].
  - etrans; [|exact Hkey]. unfold prepared.
    apply bind_fmap_eq. by rewrite attr_errors_cleared, attr_loading.
  - by rewrite (agree_matches (sel_attr "data-gift-wrap-update") _ d)
      by by apply agree_prepared.
  - by rewrite (agree_matches (sel_attr "data-gift-wrap-cancel") _ d)
      by by apply agree_prepared.
Qed.

(** One run of the click listener on an update button. *)
Lemma handleCartSectionClick_update w :
  update_ready target key fields (doc w) →
  runs (Editor.handleCartSectionClick target) w ()
    (update_clicked target key fields w).
Proof.
  intros Hr. pose proof (update_ready_prepared _ Hr) as Hr'.
  destruct Hr as [Hlive Hleaf Hkey Hu Hc Hf Hto].
  destruct (elems (doc w) !! target) as [e|] eqn:He; [simpl in Hkey|done].
  unfold Editor.handleCartSectionClick.
  eapply runs_bind; [apply runs_matches_of|]. rewrite Hu.
  apply runs_bind with () (update_clicked target key fields w).
  { apply runs_when_true.
    eapply runs_bind; [apply runs_preventDefault|].
    eapply runs_bind; [apply runs_console_log|].
    eapply runs_bind; [by apply runs_prop|]. rewrite Hkey.
    rewrite <- Hf in Hto.
    eapply runs_spawn, runs_eq; [apply updateGiftWrap_sends; [exact Hlive|exact Hto]|].
    unfold update_clicked. rewrite <- Hf. reflexivity. }
  eapply runs_bind; [apply runs_matches_of|].
  change (doc (update_clicked target key fields w))
    with (prepared (Some key) target (doc w)).
  rewrite (ur_cancel _ _ _ _ Hr'). apply runs_when_false.
Qed.

Lemma update_clicked_ready w :
  update_ready target key fields (doc w) →
  update_ready target key fields (doc (update_clicked target key fields w)).
Proof. apply update_ready_prepared. Qed.

Lemma sent_update_clicked w :
  sent (update_clicked target key fields w)
  = sent w ++ [Editor.update_request (Some key) fields].
Proof. unfold sent. simpl. by rewrite !omap_app, app_nil_r. Qed.

(** As many runs as listeners. *)
Lemma invoke_all_update k w :
  update_ready target key fields (doc w) →
  runs (invoke_all (replicate k CbSectionClick) (Some target)) w ()
    (Nat.iter k (update_clicked target key fields) w).
Proof.
  revert w. induction k as [|k IH]; intros w Hr; [apply runs_ret|].
  rewrite Nat.iter_succ_r. unfold invoke_all. simpl.
  eapply runs_bind; [by eapply runs_spawn, handleCartSectionClick_update|].
  by apply IH, update_clicked_ready.
Qed.

Lemma sent_iter_update_clicked k w :
  sent (Nat.iter k (update_clicked target key fields) w)
  = sent w ++ replicate k (Editor.update_request (Some key) fields).
Proof.
  induction k as [|k IH]; simpl; [by rewrite app_nil_r|].
  rewrite sent_update_clicked, IH, <- app_assoc. f_equal.
  change ([?x]) with (replicate 1 x). by rewrite <- replicate_add, Nat.add_comm.
Qed.

End ClickUpdate.

(** C24: A click on an update button of the cart section runs the click
    listener once for each time it was registered, and each run sends the
    change request of the line: with [k] registrations on the path of the
    button, one click sends [k] identical requests.  (Each
    [shopify:section:load] registers the listener once more.) *)
Theorem click_sends_request_per_listener k target key fields w :
  Forall (λ l, on_once l = false) (listeners w) →
  reached "click" (event_path target (doc w)) w = replicate k CbSectionClick →
  is_disabled target w = false →
  update_ready target key fields (doc w) →
  ∃ w', page_step w (Click target) w' ∧
        sent w' = sent w ++ replicate k (Editor.update_request (Some key) fields).
Proof.
  intros Honce Hreach Hdis Hr.
  exists (Nat.iter k (update_clicked target key fields) (with_prevented false w)).
  split; [|by rewrite sent_iter_update_clicked].
  unfold page_step, page_next. rewrite Hdis.
  apply (dispatch_outcome
           (λ w1, listeners w1 = listeners w ∧ update_ready target key fields (doc w1)));
    [done | by intros ? [] | | done |]; rewrite Hreach.
  - intros cb w1 [-> _]%elem_of_replicate [Hl1 Hr1]. eexists.
    split; [by apply handleCartSectionClick_update|].
    split; [done | by apply update_clicked_ready].
  - by apply invoke_all_update.
Qed.

Lemma cart_reloaded_ready :
  update_ready 8 (lit "k1") (read_fields k1 (doc cart)) (doc cart_reloaded).
Proof.
  split; [apply (bool_decide_unpack _); vm_compute; exact I.. | | | | |];
    by vm_compute.
Qed.

Lemma click_sends_request_per_listener_witness :
  ∃ w', page_step cart_reloaded (Click 8) w' ∧
        sent w' = sent cart_reloaded
                  ++ replicate 2 (Editor.update_request k1 (read_fields k1 (doc cart))).
Proof.
  apply click_sends_request_per_listener.
  - apply (bool_decide_unpack _). vm_compute. exact I.
  - by vm_compute.
  - done.
  - apply cart_reloaded_ready.
Defined.

(** ** An update, from the click to the reverted button *)

Lemma onSuccessRevert_runs button text w :
  live button (doc w) →
  runs (Editor.onSuccessRevert button text) w ()
    (with_doc (λ d, update_elem button (clear_style "background")
                      (set_textContent button text d)) w).
Proof.
  intros [Hatt [e He]]. unfold Editor.onSuccessRevert.
  eapply runs_bind; [by apply runs_set_text|].
  eapply runs_eq; [apply runs_update, has_elem_set_textContent; by exists e | done].
Qed.

Lemma onErrorHide_runs errorEl w :
  has_elem errorEl (doc w) →
  runs (Editor.onErrorHide errorEl) w ()
    (with_doc (update_elem errorEl (classList_remove "show")) w).
Proof. apply runs_update. Qed.

(** The task of a timer that has run out, and the task of a settled
    update, from what their closures do. *)
Lemma fire_timer k z cb w w' :
  timers w !! k = Some (z, cb) →
  runs (run_callback cb None) (with_timers (delete k) w) () w' →
  page_step w (Fire k) w'.
Proof.
  intros Ht Hruns. unfold page_step, page_next. rewrite Ht. cbn [mbind option_bind].
  apply outcome_runs_world with (). by eapply runs_spawn.
Qed.

(** The timers that [showSuccess] and [showError] start. *)
Lemma fire_success_revert k z button text w :
  timers w !! k = Some (z, CbSuccessRevert button text) → live button (doc w) →
  page_step w (Fire k)
    (with_doc (λ d, update_elem button (clear_style "background")
                      (set_textContent button text d))
       (with_timers (delete k) w)).
Proof.
  intros Ht Hlive. eapply fire_timer; [done|].
  by apply (onSuccessRevert_runs button text (with_timers (delete k) w)).
Qed.

Lemma fire_error_hide k z errorEl w :
  timers w !! k = Some (z, CbErrorHide errorEl) → has_elem errorEl (doc w) →
  page_step w (Fire k)
    (with_doc (update_elem errorEl (classList_remove "show"))
       (with_timers (delete k) w)).
Proof.
  intros Ht Hel. eapply fire_timer; [done|].
  by apply (onErrorHide_runs errorEl (with_timers (delete k) w)).
Qed.

Lemma settle_update k r itemKey button o w w' :
  inflight w !! k = Some (r, KUpdate itemKey button) →
  runs (Editor.updateGiftWrap_resume itemKey button o) (with_inflight (delete k) w) () w' →
  page_step w (Settle k o) w'.
Proof.
  intros Hk Hruns. unfold page_step, page_next. rewrite Hk. cbn [mbind option_bind].
  apply outcome_runs_world with (). by eapply runs_spawn.
Qed.

(** The button reset keeps the elements of the page. *)
Lemma live_idle button d j :
  attached button d → leaf button d → live j d → live j (idle button d).
Proof.
  intros Hatt Hleaf Hj. unfold idle.
  apply live_set_textContent; [| |by do 2 apply live_update_elem].
  - by do 2 apply leaf_update_elem_2.
  - by do 2 apply attached_update_elem.
Qed.

Lemma leaf_idle button d j :
  attached button d → leaf button d → leaf j d → leaf j (idle button d).
Proof.
  intros Hatt Hleaf Hj. unfold idle.
  apply leaf_set_textContent; [| |by do 2 apply leaf_update_elem_2].
  - by do 2 apply leaf_update_elem_2.
  - by do 2 apply attached_update_elem.
Qed.

(** The document is the same after a change of the timers, of the pending
    requests, or a refresh of the cart. *)
Lemma doc_with_timers f w : doc (with_timers f w) = doc w.
Proof. done. Qed.
Lemma doc_with_inflight f w : doc (with_inflight f w) = doc w.
Proof. done. Qed.
Lemma doc_refreshed w : doc (refreshed w) = doc w.
Proof. done. Qed.
Lemma doc_with_trace f w : doc (with_trace f w) = doc w.
Proof. done. Qed.

(** The timer of a message takes the class [show] away. *)
Lemma classes_hidden errorEl d :
  "show" ∉ classes_of errorEl (update_elem errorEl (classList_remove "show") d).
Proof.
  unfold classes_of. rewrite elems_update_elem_eq.
  destruct (elems d !! errorEl); simpl; set_solver.
Qed.

Lemma reached_ext type path v w :
  listeners v = listeners w → reached type path v = reached type path w.
Proof. intros Hl. unfold reached, listeners_for. by rewrite Hl. Qed.

Section RoundTrip.
Context (target : nat) (key : list N) (fields : gift_fields) (s : list N).
Context (w : world) (o : fetch_outcome).
Context (Honce : Forall (λ l, on_once l = false) (listeners w)).
Context (Hreach : reached "click" (event_path target (doc w)) w = [CbSectionClick]).
Context (Hdis : is_disabled target w = false).
Context (Hr : update_ready target key fields (doc w)).
Context (Htext : textContent target (doc w) = Some s).
Context (Hin : inflight w = []) (Htm : timers w = []).
Context (Ho : update_failure o = None) (Henv : env_getCart (env w) ≠ Present true).

(** The page after the click, after the response, after the timer. *)
Let w1 := update_clicked target key fields (with_prevented false w).
Let w2 := with_doc (idle target)
            (refreshed (success_shown target (with_inflight (delete 0) w1))).
Let w3 := with_doc (λ d, update_elem target (clear_style "background")
                           (set_textContent target (str_or (Some s) (lit "Update")) d))
            (with_timers (delete 0) w2).

Lemma trip_ready1 : update_ready target key fields (doc w1).
Proof. by apply update_ready_prepared. Qed.

Lemma trip_click : page_step w (Click target) w1.
Proof.
  unfold page_step, page_next. rewrite Hdis.
  apply (dispatch_one
           (λ v, listeners v = listeners w ∧ update_ready target key fields (doc v))
           _ _ _ CbSectionClick); [done | by intros ? [] | done | | done |].
  - intros v [Hl Hv]. eexists. split; [by apply handleCartSectionClick_update|].
    split; [done | by apply update_clicked_ready].
  - by apply handleCartSectionClick_update.
Qed.

Lemma trip_label :
  original_text target (doc w1) = str_or (Some s) (lit "Update").
Proof.
  destruct Hr as [Hlive Hleaf _ _ _ _ _].
  rewrite <- (original_text_loading target (doc w) s); [|by destruct Hlive|done].
  unfold original_text, w1. change (doc (update_clicked _ _ _ _))
    with (prepared (Some key) target (doc w)). unfold prepared.
  f_equal. apply bind_fmap_eq, attr_errors_cleared.
Qed.

Lemma trip_live1 : live target (doc w1) ∧ leaf target (doc w1).
Proof. destruct trip_ready1. by split. Qed.

Lemma trip_inflight1 :
  inflight w1 !! 0
  = Some (Editor.update_request (Some key) fields, KUpdate (Some key) target).
Proof. unfold w1, update_clicked. simpl. by rewrite Hin. Qed.

Lemma trip_settle : page_step w1 (Settle 0 o) w2.
Proof.
  destruct trip_live1 as [Hlive Hleaf].
  eapply settle_update; [exact trip_inflight1|].
  by apply (updateGiftWrap_resume_succeeds (Some key) target
              (with_inflight (delete 0) w1)).
Qed.

Lemma trip_live2 : live target (doc w2) ∧ leaf target (doc w2).
Proof.
  destruct trip_live1 as [Hlive Hleaf].
  assert (live target (doc (success_shown target (with_inflight (delete 0) w1))))
    as Hl by by apply live_success_shown.
  assert (leaf target (doc (success_shown target (with_inflight (delete 0) w1))))
    as Hf by by apply leaf_success_shown.
  unfold w2. rewrite doc_with_doc, doc_refreshed.
  destruct Hl. split; [by apply live_idle | by apply leaf_idle].
Qed.

Lemma trip_timers2 :
  timers w2 !! 0
  = Some (2000%Z, CbSuccessRevert target (str_or (Some s) (lit "Update"))).
Proof.
  assert (timers w2 = timers w1 ++ [(2000%Z, CbSuccessRevert target
                                               (original_text target (doc w1)))])
    as -> by done.
  assert (timers w1 = []) as -> by exact Htm.
  by rewrite trip_label.
Qed.

Lemma trip_fire : page_step w2 (Fire 0) w3.
Proof.
  unfold w3. eapply fire_success_revert; [exact trip_timers2 | apply trip_live2].
Qed.

(** The button is a form control, so disabling it stops the clicks. *)
Lemma trip_disabled1 :
  form_control <$> elems (doc w) !! target = Some true →
  is_disabled target w1 = true.
Proof.
  destruct Hr as [[_ [e He]] _ _ _ _ _ _]. rewrite He. intros [= Htag].
  unfold is_disabled. set (π := λ e, form_control e && el_disabled e).
  change (doc w1) with (prepared (Some key) target (doc w)).
  unfold prepared, errors_cleared, loading.
  destruct (querySelector _ _); cbv zeta; [destruct (querySelector_in _ _ _)|];
    rewrite ?(elems_update_elem_proj _ _ _ π), ?(elems_update_all_proj _ π),
      ?elems_set_textContent, ?(elems_update_elem_proj _ _ _ π) by done;
    rewrite elems_update_elem_eq, He; simpl; unfold π, form_control in *; simpl;
    by rewrite Htag.
Qed.

(** On any other element [disabled] is a property nothing reads: a second
    click runs the listener again, which sends the request again. *)
Lemma trip_enabled1 :
  form_control <$> elems (doc w) !! target = Some false →
  is_disabled target w1 = false.
Proof.
  intros Htag.
  assert (form_control <$> elems (doc w1) !! target = Some false) as Hfc.
  { rewrite <- Htag. change (doc w1) with (prepared (Some key) target (doc w)).
    unfold prepared, errors_cleared, loading.
    destruct (querySelector _ _); cbv zeta; [destruct (querySelector_in _ _ _)|];
      by rewrite ?(elems_update_elem_proj _ _ _ form_control),
        ?(elems_update_all_proj _ form_control), ?elems_set_textContent,
        ?(elems_update_elem_proj _ _ _ form_control) by done. }
  revert Hfc. unfold is_disabled. generalize (elems (doc w1) !! target).
  by intros [e|]; simpl; [intros [= ->]|].
Qed.

Lemma trip_reached1 : reached "click" (event_path target (doc w1)) w1 = [CbSectionClick].
Proof.
  rewrite <- Hreach, (reached_ext _ _ w1 w) by done. f_equal.
  apply (event_path_agree []). change (doc w1) with (prepared (Some key) target (doc w)).
  apply agree_prepared; [apply Hr | done..].
Qed.

Lemma trip_click_again :
  form_control <$> elems (doc w) !! target = Some false →
  page_step w1 (Click target) (update_clicked target key fields (with_prevented false w1)).
Proof.
  intros Htag. unfold page_step, page_next. rewrite (trip_enabled1 Htag).
  apply (dispatch_one
           (λ v, listeners v = listeners w1 ∧ update_ready target key fields (doc v))
           _ _ _ CbSectionClick);
    [done | by intros ? [] | apply trip_reached1 | | split; [done | apply trip_ready1] |].
  - intros v [Hl Hv]. eexists. split; [by apply handleCartSectionClick_update|].
    split; [done | by apply update_clicked_ready].
  - apply handleCartSectionClick_update, trip_ready1.
Qed.

Lemma trip_sent_again :
  sent (update_clicked target key fields (with_prevented false w1))
  = sent w ++ [Editor.update_request (Some key) fields;
               Editor.update_request (Some key) fields].
Proof.
  rewrite sent_update_clicked. change (sent (with_prevented false w1)) with (sent w1).
  unfold w1. rewrite sent_update_clicked, <- app_assoc. done.
Qed.

Lemma trip_sent : sent w3 = sent w ++ [Editor.update_request (Some key) fields].
Proof.
  change (sent w3) with (sent (refreshed (success_shown target w1))).
  unfold refreshed. rewrite sent_app.
  change (sent (success_shown target w1)) with (sent w1).
  unfold w1. rewrite sent_update_clicked.
  change (sent (with_prevented false w)) with (sent w).
  destruct (env_getCart _); by rewrite app_nil_r.
Qed.

Lemma trip_value j :
  el_value <$> elems (doc w3) !! j = el_value <$> elems (doc w) !! j.
Proof.
  unfold w3, w2. rewrite doc_with_doc.
  rewrite elems_update_elem_proj, elems_set_textContent by done.
  rewrite doc_with_timers, doc_with_doc, value_idle, doc_refreshed.
  rewrite value_success_shown, doc_with_inflight.
  change (doc w1) with (prepared (Some key) target (doc w)). unfold prepared.
  by rewrite value_errors_cleared, value_loading.
Qed.

Lemma trip_button :
  textContent target (doc w3) = Some (str_or (Some s) (lit "Update")) ∧
  el_disabled <$> elems (doc w3) !! target = Some false ∧
  style_of "background" <$> elems (doc w3) !! target = Some [].
Proof.
  pose proof trip_live2 as [[Hatt [e He]] Hleaf].
  unfold w3. rewrite doc_with_doc, doc_with_timers.
  split_and!.
  - rewrite textContent_update_elem. by apply textContent_set_textContent.
  - rewrite elems_update_elem_proj, elems_set_textContent by done.
    apply disabled_idle. destruct trip_live1 as [[_ Hel] _].
    by apply has_elem_update_elem, has_elem_set_textContent.
  - rewrite elems_update_elem_eq, elems_set_textContent, He. simpl.
    unfold style_of, clear_style. simpl. by rewrite lookup_delete_eq.
Qed.

(** *** The update fails *)

Context (errorEl : nat) (o' : fetch_outcome) (err : js_error).
Context (Hq : querySelector (Editor.sel_in_row (Some key) Editor.cls_error) (doc w)
              = Some errorEl).
Context (Hel : leaf errorEl (doc w)) (Hne : target ≠ errorEl).
Context (Ho' : update_failure o' = Some err).

(** The page after the failed response, and after the timer of the
    message. *)
Let v1 := with_trace (λ t, t ++ [log_update_error err]) (with_inflight (delete 0) w1).
Let f2 := with_doc (idle target) (error_shown errorEl Editor.msg_update_failed v1).
Let f3 := with_doc (update_elem errorEl (classList_remove "show"))
            (with_timers (delete 0) f2).

Lemma fail_error1 :
  querySelector (Editor.sel_in_row (Some key) Editor.cls_error) (doc w1) = Some errorEl ∧
  live errorEl (doc w1) ∧ leaf errorEl (doc w1).
Proof.
  destruct Hr as [[Hatt _] Hleaf _ _ _ _ _].
  pose proof (querySelector_live _ _ _ Hq) as Hlive.
  change (doc w1) with (prepared (Some key) target (doc w)). split_and!.
  - etrans; [|exact Hq]. by apply agree_querySelector, agree_prepared.
  - by apply live_errors_cleared, live_loading.
  - by apply leaf_errors_cleared, leaf_loading.
Qed.

Lemma fail_settle : page_step w1 (Settle 0 o') f2.
Proof.
  destruct trip_live1 as [Hlive Hleaf]. destruct fail_error1 as (Hq1 & _ & Hel1).
  eapply settle_update; [exact trip_inflight1|].
  by apply (updateGiftWrap_resume_fails (Some key) target (with_inflight (delete 0) w1)).
Qed.

Lemma fail_doc1 : doc v1 = doc w1.
Proof. unfold v1. by rewrite doc_with_trace, doc_with_inflight. Qed.

(** The page when the failure is shown. *)
Lemma fail_page2 :
  textContent errorEl (doc f2) = Some Editor.msg_update_failed ∧
  "show" ∈ classes_of errorEl (doc f2) ∧
  textContent target (doc f2) = Some (str_or (Some s) (lit "Update")) ∧
  el_disabled <$> elems (doc f2) !! target = Some false ∧
  (∀ j, el_value <$> elems (doc f2) !! j = el_value <$> elems (doc w1) !! j).
Proof.
  destruct trip_live1 as [Hlive Hleaf]. destruct fail_error1 as (_ & He & Hel1).
  rewrite <- trip_label, <- fail_doc1. rewrite <- fail_doc1 in Hlive, Hleaf, He, Hel1.
  by apply (update_failed_page target errorEl Editor.msg_update_failed v1).
Qed.

Lemma fail_live2 : has_elem errorEl (doc f2) ∧ leaf target (doc f2).
Proof.
  destruct trip_live1 as [Hlive Hleaf]. destruct fail_error1 as (_ & He & Hel1).
  rewrite <- fail_doc1 in Hlive, Hleaf, He, Hel1.
  pose proof (live_error_shown errorEl Editor.msg_update_failed v1 target He Hel1 Hlive)
    as [Hatt2 _].
  pose proof (leaf_error_shown errorEl Editor.msg_update_failed v1 target He Hel1 Hleaf).
  pose proof (live_error_shown errorEl Editor.msg_update_failed v1 errorEl He Hel1 He).
  unfold f2. rewrite doc_with_doc. split; [|by apply leaf_idle].
  by apply (live_idle target _ errorEl).
Qed.

Lemma fail_timers2 : timers f2 !! 0 = Some (5000%Z, CbErrorHide errorEl).
Proof.
  assert (timers f2 = timers w1 ++ [(5000%Z, CbErrorHide errorEl)]) as -> by done.
  by assert (timers w1 = []) as -> by exact Htm.
Qed.

Lemma fail_fire : page_step f2 (Fire 0) f3.
Proof.
  unfold f3. eapply fire_error_hide; [exact fail_timers2 | apply fail_live2].
Qed.

Lemma fail_sent : sent f3 = sent w ++ [Editor.update_request (Some key) fields].
Proof.
  change (sent f3) with (sent v1). unfold v1. rewrite sent_app, app_nil_r.
  change (sent (with_inflight _ w1)) with (sent w1).
  unfold w1. by rewrite sent_update_clicked.
Qed.

(** The page when the timer of the message has fired. *)
Lemma fail_page3 :
  ("show" ∉ classes_of errorEl (doc f3)) ∧
  textContent target (doc f3) = Some (str_or (Some s) (lit "Update")) ∧
  el_disabled <$> elems (doc f3) !! target = Some false ∧
  (∀ j, el_value <$> elems (doc f3) !! j = el_value <$> elems (doc w) !! j).
Proof.
  destruct fail_page2 as (_ & _ & Ht & Hd & Hv).
  unfold f3. rewrite doc_with_doc, doc_with_timers. split_and!.
  - apply classes_hidden.
  - by rewrite textContent_update_elem.
  - by rewrite elems_update_elem_proj.
  - intros j. rewrite elems_update_elem_proj, Hv by done.
    change (doc w1) with (prepared (Some key) target (doc w)). unfold prepared.
    by rewrite value_errors_cleared, value_loading.
Qed.

End RoundTrip.

(** C25: An update from the cart page, from the click to the end.  On a
    page where one click listener is on the path of the update button and
    nothing is pending, the click sends the change request of the line and
    sets the button disabled.  When the button is a form control (a
    [button] or an [input]) a second click then does nothing; on any other
    element [disabled] stops nothing, and a second click sends the request
    again.  When the shop accepts, the button is enabled again; and when
    the timer of the success indication fires the button reads its
    original label, has no background of its own, and the texts typed are
    as they were.  One request was sent, and no request or timer is
    left. *)
Theorem update_round_trip target key fields s w o :
  Forall (λ l, on_once l = false) (listeners w) →
  reached "click" (event_path target (doc w)) w = [CbSectionClick] →
  is_disabled target w = false →
  update_ready target key fields (doc w) →
  textContent target (doc w) = Some s →
  inflight w = [] → timers w = [] →
  update_failure o = None → env_getCart (env w) ≠ Present true →
  ∃ w1 w2 w3,
    page_step w (Click target) w1 ∧
    (form_control <$> elems (doc w) !! target = Some true →
     page_step w1 (Click target) w1) ∧
    (form_control <$> elems (doc w) !! target = Some false →
     ∃ w', page_step w1 (Click target) w' ∧
           sent w' = sent w ++ [Editor.update_request (Some key) fields;
                                Editor.update_request (Some key) fields]) ∧
    page_step w1 (Settle 0 o) w2 ∧ page_step w2 (Fire 0) w3 ∧
    sent w3 = sent w ++ [Editor.update_request (Some key) fields] ∧
    inflight w3 = [] ∧ timers w3 = [] ∧
    textContent target (doc w3) = Some (str_or (Some s) (lit "Update")) ∧
    el_disabled <$> elems (doc w3) !! target = Some false ∧
    style_of "background" <$> elems (doc w3) !! target = Some [] ∧
    ∀ j, el_value <$> elems (doc w3) !! j = el_value <$> elems (doc w) !! j.
Proof.
  intros Honce Hreach Hdis Hr Htext Hin Htm Ho Henv.
  destruct (trip_button target key fields s w) as (Ht & Hd & Hs); [done..|].
  eexists _, _, _. split_and!;
    [ by apply trip_click
    | intros Htag; unfold page_step, page_next; by rewrite trip_disabled1
    | intros Htag; eexists; split;
        [by apply trip_click_again | by apply trip_sent_again]
    | by apply (trip_settle target key fields w o)
    | by eapply (trip_fire target key fields s w)
    | by apply trip_sent
    | simpl; by rewrite Hin
    | simpl; by rewrite Htm
    | exact Ht | exact Hd | exact Hs
    | by apply trip_value ].
Qed.

Lemma update_round_trip_witness :
  ∃ w1 w2 w3,
    page_step cart_booted (Click 8) w1 ∧
    (form_control <$> elems (doc cart_booted) !! 8 = Some true →
     page_step w1 (Click 8) w1) ∧
    (form_control <$> elems (doc cart_booted) !! 8 = Some false →
     ∃ w', page_step w1 (Click 8) w' ∧
           sent w' = sent cart_booted
                     ++ [Editor.update_request k1 (read_fields k1 (doc cart));
                         Editor.update_request k1 (read_fields k1 (doc cart))]) ∧
    page_step w1 (Settle 0 http_200) w2 ∧ page_step w2 (Fire 0) w3 ∧
    sent w3 = sent cart_booted
              ++ [Editor.update_request k1 (read_fields k1 (doc cart))] ∧
    inflight w3 = [] ∧ timers w3 = [] ∧
    textContent 8 (doc w3) = Some (str_or (Some (lit "Save")) (lit "Update")) ∧
    el_disabled <$> elems (doc w3) !! 8 = Some false ∧
    style_of "background" <$> elems (doc w3) !! 8 = Some [] ∧
    ∀ j, el_value <$> elems (doc w3) !! j = el_value <$> elems (doc cart_booted) !! j.
Proof.
  apply (update_round_trip 8 (lit "k1") (read_fields k1 (doc cart)) (lit "Save")).
  - apply (bool_decide_unpack _). vm_compute. exact I.
  - by vm_compute.
  - done.
  - split; [apply (bool_decide_unpack _); vm_compute; exact I.. | | | | |];
      by vm_compute.
  - by vm_compute.
  - done.
  - done.
  - done.
  - discriminate.
Defined.

(** C26: An update from the cart page that the shop does not accept,
    from the click to the end.  On the same page, when the response is a
    failure (the request is rejected, the status is not a success, or the
    body is not JSON), the error element of the row shows "Failed to
    update gift wrap. Please try again." and the button is enabled again;
    when the timer of five seconds fires the message is hidden.  At the
    end the button reads its original label, one request was sent, no
    request or timer is left, and the texts typed are as they were, so
    the shopper can correct them and try again. *)
Theorem update_failure_trip target key fields s errorEl w o err :
  Forall (λ l, on_once l = false) (listeners w) →
  reached "click" (event_path target (doc w)) w = [CbSectionClick] →
  is_disabled target w = false →
  update_ready target key fields (doc w) →
  textContent target (doc w) = Some s →
  inflight w = [] → timers w = [] →
  querySelector (Editor.sel_in_row (Some key) Editor.cls_error) (doc w) = Some errorEl →
  leaf errorEl (doc w) → target ≠ errorEl →
  update_failure o = Some err →
  ∃ w1 w2 w3,
    page_step w (Click target) w1 ∧ page_step w1 (Settle 0 o) w2 ∧
    page_step w2 (Fire 0) w3 ∧
    textContent errorEl (doc w2) = Some Editor.msg_update_failed ∧
    "show" ∈ classes_of errorEl (doc w2) ∧
    el_disabled <$> elems (doc w2) !! target = Some false ∧
    ("show" ∉ classes_of errorEl (doc w3)) ∧
    textContent target (doc w3) = Some (str_or (Some s) (lit "Update")) ∧
    el_disabled <$> elems (doc w3) !! target = Some false ∧
    sent w3 = sent w ++ [Editor.update_request (Some key) fields] ∧
    inflight w3 = [] ∧ timers w3 = [] ∧
    ∀ j, el_value <$> elems (doc w3) !! j = el_value <$> elems (doc w) !! j.
Proof.
  intros Honce Hreach Hdis Hr Htext Hin Htm Hq Hel Hne Ho.
  destruct (fail_page2 target key fields s w Hr Htext errorEl err Hq Hel Hne)
    as (Ht2 & Hs2 & _ & Hd2 & _).
  destruct (fail_page3 target key fields s w Hr Htext errorEl err Hq Hel Hne)
    as (Hs3 & Ht3 & Hd3 & Hv3).
  eexists _, _, _. split_and!;
    [ by apply trip_click
    | exact (fail_settle target key fields w Hr Hin errorEl o err Hq Hel Ho)
    | exact (fail_fire target key fields w Hr Htm errorEl err Hq Hel)
    | exact Ht2 | exact Hs2 | exact Hd2 | exact Hs3 | exact Ht3 | exact Hd3
    | apply fail_sent
    | simpl; by rewrite Hin
    | simpl; by rewrite Htm
    | exact Hv3 ].
Qed.

Lemma update_failure_trip_witness :
  ∃ w1 w2 w3,
    page_step cart_booted (Click 8) w1 ∧ page_step w1 (Settle 0 http_500) w2 ∧
    page_step w2 (Fire 0) w3 ∧
    textContent 10 (doc w2) = Some Editor.msg_update_failed ∧
    "show" ∈ classes_of 10 (doc w2) ∧
    el_disabled <$> elems (doc w2) !! 8 = Some false ∧
    ("show" ∉ classes_of 10 (doc w3)) ∧
    textContent 8 (doc w3) = Some (str_or (Some (lit "Save")) (lit "Update")) ∧
    el_disabled <$> elems (doc w3) !! 8 = Some false ∧
    sent w3 = sent cart_booted
              ++ [Editor.update_request k1 (read_fields k1 (doc cart))] ∧
    inflight w3 = [] ∧ timers w3 = [] ∧
    ∀ j, el_value <$> elems (doc w3) !! j = el_value <$> elems (doc cart_booted) !! j.
Proof.
  apply (update_failure_trip 8 (lit "k1") (read_fields k1 (doc cart)) (lit "Save") 10
           cart_booted http_500 (ErrorOf (VStr (lit "Failed to update gift wrap")))).
  - apply (bool_decide_unpack _). vm_compute. exact I.
  - by vm_compute.
  - done.
  - split; [apply (bool_decide_unpack _); vm_compute; exact I.. | | | | |];
      by vm_compute.
  - by vm_compute.
  - done.
  - done.
  - by vm_compute.
  - apply (bool_decide_unpack _). vm_compute. exact I.
  - discriminate.
  - done.
Defined.

(** ** The drawer: a click on its toggle *)

(** The page after one run of the drawer's click listener on the toggle
    [toggleButton] of [giftWrapContainer], or on an element inside it. *)
Definition drawer_clicked (toggleButton giftWrapContainer : nat) (w : world) : world :=
  with_doc (drawer_toggled toggleButton giftWrapContainer) (with_prevented true w).

Lemma agree_styled sel el p v d : agree sel (styled el p v d) d.
Proof. destruct el; [apply agree_update_unseen, unseen_set_style | done]. Qed.

Lemma agree_drawer_toggled sel toggleButton giftWrapContainer d :
  attr_free "aria-expanded" (simples sel) = true →
  agree sel (drawer_toggled toggleButton giftWrapContainer d) d.
Proof.
  intros Ha. unfold drawer_toggled. cbv zeta.
  etrans; [by apply agree_setAttribute|]. by rewrite !agree_styled.
Qed.

Lemma elems_styled_ne {A} (π : element → A) el p v d j :
  el ≠ Some j → π <$> elems (styled el p v d) !! j = π <$> elems d !! j.
Proof.
  intros Hne. destruct el as [x|]; [|done]. unfold styled.
  rewrite elems_update_elem_ne; [done | congruence].
Qed.

Section DrawerToggled.
Context (toggleButton giftWrapContainer : nat) (d : document).

Lemma expanded_drawer_toggled :
  has_elem toggleButton d →
  is_expanded toggleButton (drawer_toggled toggleButton giftWrapContainer d)
  = negb (is_expanded toggleButton d).
Proof.
  intros Hel. unfold drawer_toggled. cbv zeta.
  unfold is_expanded at 1. rewrite elems_update_elem_eq.
  set (d3 := styled _ _ _ (styled _ _ _ (styled _ _ _ d))).
  assert (has_elem toggleButton d3) as [e' ->] by (by do 3 apply has_elem_styled).
  simpl. unfold getAttribute. simpl. rewrite lookup_insert_eq.
  by destruct (is_expanded toggleButton d).
Qed.

Lemma value_drawer_toggled j :
  el_value <$> elems (drawer_toggled toggleButton giftWrapContainer d) !! j
  = el_value <$> elems d !! j.
Proof. unfold drawer_toggled. cbv zeta. by rewrite elems_update_elem_proj, !value_styled. Qed.

(** The editor is shown when the toggle expands and hidden when it
    collapses, unless one of the labels of the toggle is the editor. *)
Lemma display_drawer_toggled editor :
  querySelector_in giftWrapContainer (sel_class Drawer.cls_editor) d = Some editor →
  editor ≠ toggleButton →
  querySelector_in toggleButton (sel_class "label-edit") d ≠ Some editor →
  querySelector_in toggleButton (sel_class "label-cancel") d ≠ Some editor →
  style_of "display" <$> elems (drawer_toggled toggleButton giftWrapContainer d) !! editor
  = Some (if is_expanded toggleButton d then lit "none" else lit "block").
Proof.
  intros Hq Hne Hle Hlc. unfold drawer_toggled. cbv zeta.
  destruct (querySelector_in_has_elem _ _ _ _ Hq) as [e He].
  rewrite elems_update_elem_ne, !elems_styled_ne, Hq by done.
  unfold styled. rewrite elems_update_elem_eq, He. simpl.
  unfold style_of. simpl. rewrite lookup_insert_eq.
  by destruct (is_expanded toggleButton d).
Qed.

End DrawerToggled.

Lemma handleCartDrawerClick_toggle target toggleButton giftWrapContainer w :
  closest target (sel_class Drawer.cls_toggle) (doc w) = Some toggleButton →
  closest toggleButton (sel_class Drawer.cls_container) (doc w) = Some giftWrapContainer →
  runs (Drawer.handleCartDrawerClick target) w ()
    (drawer_clicked toggleButton giftWrapContainer w).
Proof.
  intros Ht Hc. unfold Drawer.handleCartDrawerClick.
  eapply runs_bind; [apply runs_closest_of|]. rewrite Ht.
  eapply runs_bind; [apply runs_preventDefault|].
  apply (toggleCartDrawerEditor_runs _ _ (with_prevented true w)); [|done].
  by eapply closest_has_elem.
Qed.

Lemma disabled_drawer_toggled toggleButton giftWrapContainer w j :
  is_disabled j (with_doc (drawer_toggled toggleButton giftWrapContainer) w)
  = is_disabled j w.
Proof.
  unfold is_disabled. rewrite doc_with_doc. f_equal.
  unfold drawer_toggled, styled. cbv zeta.
  repeat case_match; by rewrite !elems_update_elem_proj.
Qed.

(** Classes are where they were after the toggle. *)
Lemma closest_drawer_toggled j c toggleButton giftWrapContainer d :
  closest j (sel_class c) (drawer_toggled toggleButton giftWrapContainer d)
  = closest j (sel_class c) d.
Proof. by apply agree_closest, agree_drawer_toggled. Qed.

Lemma querySelector_in_drawer_toggled scope c toggleButton giftWrapContainer d :
  querySelector_in scope (sel_class c) (drawer_toggled toggleButton giftWrapContainer d)
  = querySelector_in scope (sel_class c) d.
Proof. by apply agree_querySelector_in, agree_drawer_toggled. Qed.

(** What a click on the toggle needs of the page: the drawer's click
    listener is the one on the path of [target], [target] is the toggle
    or inside it, the toggle is in the container, and neither the toggle
    nor one of its labels is the editor of the container. *)
Record toggle_ready (target toggleButton giftWrapContainer editor : nat)
    (w : world) : Prop := {
  tr_once : Forall (λ l, on_once l = false) (listeners w);
  tr_reach : reached "click" (event_path target (doc w)) w = [CbDrawerClick];
  tr_enabled : is_disabled target w = false;
  tr_toggle : closest target (sel_class Drawer.cls_toggle) (doc w) = Some toggleButton;
  tr_container :
    closest toggleButton (sel_class Drawer.cls_container) (doc w)
    = Some giftWrapContainer;
  tr_editor :
    querySelector_in giftWrapContainer (sel_class Drawer.cls_editor) (doc w)
    = Some editor;
  tr_ne : editor ≠ toggleButton;
  tr_edit : querySelector_in toggleButton (sel_class "label-edit") (doc w) ≠ Some editor;
  tr_cancel :
    querySelector_in toggleButton (sel_class "label-cancel") (doc w) ≠ Some editor;
}.

Section DrawerClick.
Context (target toggleButton giftWrapContainer editor : nat) (w : world).
Context (Hr : toggle_ready target toggleButton giftWrapContainer editor w).

Let w1 := drawer_clicked toggleButton giftWrapContainer (with_prevented false w).

Lemma doc_drawer_clicked :
  doc w1 = drawer_toggled toggleButton giftWrapContainer (doc w).
Proof. done. Qed.

Lemma drawer_click_step : page_step w (Click target) w1.
Proof.
  destruct Hr as [H1 H2 H3 H4 H5 _ _ _ _]. unfold page_step, page_next. rewrite H3.
  apply (dispatch_one
           (λ v, listeners v = listeners w ∧
                 closest target (sel_class Drawer.cls_toggle) (doc v) = Some toggleButton ∧
                 closest toggleButton (sel_class Drawer.cls_container) (doc v)
                 = Some giftWrapContainer)
           _ _ _ CbDrawerClick); [done | by intros ? [] | done | | done |].
  - intros v (Hl & Ht & Hc). eexists. split; [by apply handleCartDrawerClick_toggle|].
    unfold drawer_clicked. rewrite doc_with_doc.
    split_and!; [done|..]; by rewrite closest_drawer_toggled.
  - by apply handleCartDrawerClick_toggle.
Qed.

(** The page is ready for the next click. *)
Lemma toggle_ready_clicked :
  toggle_ready target toggleButton giftWrapContainer editor w1.
Proof.
  destruct Hr as [H1 H2 H3 H4 H5 H6 H7 H8 H9].
  split; [done | | | | | | done | |].
  - unfold reached. rewrite doc_drawer_clicked.
    by rewrite (event_path_agree (sel_class "") _ _ (doc w))
      by by apply agree_drawer_toggled.
  - unfold w1, drawer_clicked. by rewrite disabled_drawer_toggled.
  - by rewrite doc_drawer_clicked, closest_drawer_toggled.
  - by rewrite doc_drawer_clicked, closest_drawer_toggled.
  - by rewrite doc_drawer_clicked, querySelector_in_drawer_toggled.
  - by rewrite doc_drawer_clicked, querySelector_in_drawer_toggled.
  - by rewrite doc_drawer_clicked, querySelector_in_drawer_toggled.
Qed.

(** The toggle and the editor after the click. *)
Lemma drawer_click_page :
  prevented w1 = true ∧
  is_expanded toggleButton (doc w1) = negb (is_expanded toggleButton (doc w)) ∧
  style_of "display" <$> elems (doc w1) !! editor
  = Some (if is_expanded toggleButton (doc w) then lit "none" else lit "block") ∧
  (∀ j, el_value <$> elems (doc w1) !! j = el_value <$> elems (doc w) !! j) ∧
  sent w1 = sent w ∧ inflight w1 = inflight w.
Proof.
  destruct Hr as [H1 H2 H3 H4 H5 H6 H7 H8 H9].
  rewrite doc_drawer_clicked. split_and!; [done| | | |done..].
  - apply expanded_drawer_toggled. by eapply closest_has_elem.
  - by apply display_drawer_toggled.
  - intros j. apply value_drawer_toggled.
Qed.

End DrawerClick.

(** C38: A click on the toggle of the drawer, or on a label inside it,
    as the browser runs it: the default action is prevented,
    [aria-expanded] flips, and the editor of the container is shown when
    the toggle expands and hidden when it collapses.  A second click
    brings [aria-expanded] back and sets the editor the other way.
    Nothing is sent and the texts typed stay, also when the editor is
    hidden. *)
Theorem drawer_click_toggles target toggleButton giftWrapContainer editor w :
  toggle_ready target toggleButton giftWrapContainer editor w →
  ∃ w1 w2,
    page_step w (Click target) w1 ∧ page_step w1 (Click target) w2 ∧
    prevented w1 = true ∧
    is_expanded toggleButton (doc w1) = negb (is_expanded toggleButton (doc w)) ∧
    style_of "display" <$> elems (doc w1) !! editor
    = Some (if is_expanded toggleButton (doc w) then lit "none" else lit "block") ∧
    is_expanded toggleButton (doc w2) = is_expanded toggleButton (doc w) ∧
    style_of "display" <$> elems (doc w2) !! editor
    = Some (if is_expanded toggleButton (doc w) then lit "block" else lit "none") ∧
    (∀ j, el_value <$> elems (doc w2) !! j = el_value <$> elems (doc w) !! j) ∧
    sent w2 = sent w ∧ inflight w2 = inflight w.
Proof.
  intros Hr. pose proof (toggle_ready_clicked _ _ _ _ _ Hr) as Hr1.
  destruct (drawer_click_page _ _ _ _ _ Hr) as (Hp & He & Hd & Hv & Hs & Hi).
  destruct (drawer_click_page _ _ _ _ _ Hr1) as (_ & He2 & Hd2 & Hv2 & Hs2 & Hi2).
  eexists _, _. split_and!;
    [ exact (drawer_click_step _ _ _ _ _ Hr)
    | exact (drawer_click_step _ _ _ _ _ Hr1)
    | done | done | done
    | by rewrite He2, He, negb_involutive
    | rewrite Hd2, He; by destruct (is_expanded toggleButton (doc w))
    | intros j; by rewrite Hv2, Hv
    | by rewrite Hs2
    | by rewrite Hi2 ].
Qed.

Lemma drawer_click_toggles_witness :
  ∃ w1 w2,
    page_step cart_booted (Click 14) w1 ∧ page_step w1 (Click 14) w2 ∧
    prevented w1 = true ∧
    is_expanded 13 (doc w1) = negb (is_expanded 13 (doc cart_booted)) ∧
    style_of "display" <$> elems (doc w1) !! 18
    = Some (if is_expanded 13 (doc cart_booted) then lit "none" else lit "block") ∧
    is_expanded 13 (doc w2) = is_expanded 13 (doc cart_booted) ∧
    style_of "display" <$> elems (doc w2) !! 18
    = Some (if is_expanded 13 (doc cart_booted) then lit "block" else lit "none") ∧
    (∀ j, el_value <$> elems (doc w2) !! j = el_value <$> elems (doc cart_booted) !! j) ∧
    sent w2 = sent cart_booted ∧ inflight w2 = inflight cart_booted.
Proof.
  apply (drawer_click_toggles 14 13 12 18 cart_booted).
  split; [apply (bool_decide_unpack _); vm_compute; exact I | by vm_compute..].
Defined.
